(** * Reliable UDP senders: fixed sliding window and stop-and-wait

    A shallow embedding of the two sender scripts

      - [sender_fixed_sliding_window_*.py]  ([transmit_file])
      - [sender_stop_and_wait_*.py]         ([send_one_packet], [send_file])

    Python integers are [Z], byte strings are lists of [Byte.byte], the
    values returned by [time.time()] are binary64 floats ([PrimFloat]),
    and a Python exception is the [Raise] branch of [py_result].  The
    socket is modelled by its two sides: the datagrams handed to
    [sendto] are appended to a log kept in the state, and each call of
    [recvfrom] consumes one [recv_event] of an input list.  The clock is
    a function from the number of [time.time()] calls made so far to the
    value returned by the next call. *)

From Stdlib Require Import ZArith NArith List Bool Arith Lia Floats.
From Stdlib Require Import Strings.Byte.
Import ListNotations.

(** ** Python values and exceptions *)

Definition bytes := list byte.

Inductive exn : Type :=
| OverflowError
| UnicodeDecodeError
| ZeroDivisionError.

Inductive py_result (A : Type) : Type :=
| Ok (a : A)
| Raise (e : exn).

Arguments Ok {A} a.
Arguments Raise {A} e.

Definition bind {A B : Type} (m : py_result A) (k : A -> py_result B)
  : py_result B :=
  match m with
  | Ok a => k a
  | Raise e => Raise e
  end.

Notation "x <- m ;; k" := (bind m (fun x => k))
  (at level 61, m at next level, right associativity).

Definition is_ok {A : Type} (m : py_result A) : bool :=
  match m with Ok _ => true | Raise _ => false end.

(** ** Module constants (identical in both scripts) *)

Definition MAX_PACKET : nat := 1024.
Definition SEQ_SIZE : nat := 4.
Definition DATA_SIZE : Z := (Z.of_nat MAX_PACKET - Z.of_nat SEQ_SIZE)%Z.
Definition WINDOW : nat := 100.

(** ** Frame codec *)

Definition Z_of_byte (b : byte) : Z := Z.of_N (Byte.to_N b).

Definition byte_of_Z (z : Z) : byte :=
  match Byte.of_N (Z.to_N (Z.land z 255)) with
  | Some b => b
  | None => x00
  end.

(** The [n] low-order bytes of [x], most significant first. *)
Fixpoint be_bytes (n : nat) (x : Z) : bytes :=
  match n with
  | O => []
  | S k => byte_of_Z (Z.shiftr x (8 * Z.of_nat k)%Z) :: be_bytes k x
  end.

(** [int.to_bytes(x, len, signed=True, byteorder='big')], for [len > 0]:
    [OverflowError] unless [x] fits in [8 * len] bits two's complement. *)
Definition int_to_bytes (x : Z) (len : nat) : py_result bytes :=
  let bits := (8 * Z.of_nat len)%Z in
  if (- 2 ^ (bits - 1) <=? x)%Z && (x <? 2 ^ (bits - 1))%Z
  then Ok (be_bytes len x)
  else Raise OverflowError.

Definition be_unsigned (bs : bytes) : Z :=
  fold_left (fun acc b => (acc * 256 + Z_of_byte b)%Z) bs 0%Z.

(** [int.from_bytes(bs, signed=True, byteorder='big')]; any length is
    accepted, the empty byte string decodes to 0. *)
Definition int_from_bytes (bs : bytes) : Z :=
  let u := be_unsigned bs in
  let bits := (8 * Z.of_nat (length bs))%Z in
  match bs with
  | [] => 0%Z
  | _ :: _ => if (2 ^ (bits - 1) <=? u)%Z then (u - 2 ^ bits)%Z else u
  end.

(** A Python [str] is the list of its code points. *)
Definition pystr := list N.

Definition str_ack : pystr := [97; 99; 107]%N.
Definition str_fin : pystr := [102; 105; 110]%N.
Definition bytes_FINACK : bytes :=
  [x3d; x3d; x46; x49; x4e; x41; x43; x4b; x3d; x3d].

Fixpoint pystr_eqb (a b : pystr) : bool :=
  match a, b with
  | [], [] => true
  | x :: a', y :: b' => N.eqb x y && pystr_eqb a' b'
  | _, _ => false
  end.

Definition in_range (lo hi : N) (b : byte) : bool :=
  (lo <=? Byte.to_N b)%N && (Byte.to_N b <=? hi)%N.

Definition low6 (b : byte) : N := N.land (Byte.to_N b) 63.

(** [bs.decode()]: strict UTF-8.  Well-formed sequences are those of the
    Unicode standard (no overlong forms, no surrogates, nothing above
    U+10FFFF); anything else raises [UnicodeDecodeError]. *)
Fixpoint utf8_decode (bs : bytes) : py_result pystr :=
  match bs with
  | [] => Ok []
  | b0 :: r0 =>
    let n0 := Byte.to_N b0 in
    if (n0 <? 128)%N then
      s <- utf8_decode r0 ;; Ok (n0 :: s)
    else if in_range 194 223 b0 then
      match r0 with
      | b1 :: r1 =>
        if in_range 128 191 b1 then
          s <- utf8_decode r1 ;;
          Ok ((N.land n0 31 * 64 + low6 b1)%N :: s)
        else Raise UnicodeDecodeError
      | _ => Raise UnicodeDecodeError
      end
    else if in_range 224 239 b0 then
      match r0 with
      | b1 :: b2 :: r2 =>
        let lo := if (n0 =? 224)%N then 160%N else 128%N in
        let hi := if (n0 =? 237)%N then 159%N else 191%N in
        if in_range lo hi b1 && in_range 128 191 b2 then
          s <- utf8_decode r2 ;;
          Ok (((N.land n0 15 * 64 + low6 b1) * 64 + low6 b2)%N :: s)
        else Raise UnicodeDecodeError
      | _ => Raise UnicodeDecodeError
      end
    else if in_range 240 244 b0 then
      match r0 with
      | b1 :: b2 :: b3 :: r3 =>
        let lo := if (n0 =? 240)%N then 144%N else 128%N in
        let hi := if (n0 =? 244)%N then 143%N else 191%N in
        if in_range lo hi b1 && in_range 128 191 b2 && in_range 128 191 b3
        then
          s <- utf8_decode r3 ;;
          Ok ((((N.land n0 7 * 64 + low6 b1) * 64 + low6 b2) * 64
               + low6 b3)%N :: s)
        else Raise UnicodeDecodeError
      | _ => Raise UnicodeDecodeError
      end
    else Raise UnicodeDecodeError
  end.

(** [response[:SEQ_SIZE]] and [response[SEQ_SIZE:]]. *)
Definition header (response : bytes) : bytes := firstn SEQ_SIZE response.
Definition body (response : bytes) : bytes := skipn SEQ_SIZE response.

(** [int.to_bytes(seq, SEQ_SIZE, signed=True, byteorder='big') + data]. *)
Definition encode_frame (seq : Z) (data : bytes) : py_result bytes :=
  h <- int_to_bytes seq SEQ_SIZE ;; Ok (h ++ data).

(** ** Segment table *)

(** One entry of [packet_list]; [pkt_length] is the dict key ['length']. *)
Record packet : Type := mkPacket {
  sequence : Z;
  raw : bytes;
  pkt_length : Z;
  is_acked : bool;
  first_sent : option float;
  recent_sent : option float
}.

Definition len (bs : bytes) : Z := Z.of_nat (length bs).

(** [l[lo:hi]] for non-negative [lo] and [hi] (the only case that occurs:
    positions start at 0 and grow, and the chunk size is positive). *)
Definition slice (l : bytes) (lo hi : Z) : bytes :=
  firstn (Z.to_nat (hi - lo)) (skipn (Z.to_nat lo) l).

(** The payload carried by a stored frame: everything after the header. *)
Definition payload (p : packet) : bytes := body (raw p).

(** The [while position < total_bytes] loop of [transmit_file] that builds
    [packet_list].  [chunk] is [DATA_SIZE].  The loop has no bound of its
    own (with [chunk = 0] the position never moves), so the model takes
    fuel: [None] means the fuel ran out, [Some (Raise _)] that
    [int.to_bytes] raised. *)
Fixpoint build_packets (fuel : nat) (chunk : Z) (contents : bytes)
    (position : Z) (packet_list : list packet)
  : option (py_result (list packet)) :=
  match fuel with
  | O => None
  | S fuel' =>
    if (position <? len contents)%Z then
      let data := slice contents position (position + chunk) in
      let sequence := position in
      match encode_frame sequence data with
      | Raise e => Some (Raise e)
      | Ok raw_packet =>
        build_packets fuel' chunk contents (position + len data)
          (packet_list ++
             [ {| sequence := sequence;
                  raw := raw_packet;
                  pkt_length := len data;
                  is_acked := false;
                  first_sent := None;
                  recent_sent := None |} ])
      end
    else Some (Ok packet_list)
  end.

(** The table of a whole payload; one unit of fuel per byte is enough
    whenever the chunk size is positive. *)
Definition segment_table (chunk : Z) (contents : bytes)
  : option (py_result (list packet)) :=
  build_packets (S (length contents)) chunk contents 0 [].

(** Ceiling of [n / c] for positive [c]. *)
Definition ceil_div (n c : Z) : Z := ((n + c - 1) / c)%Z.

(** What the loop leaves in the table for the part of [contents] that
    starts at [pos]: one entry per chunk, in order, flags cleared. *)
Fixpoint segments_from (chunk : Z) (contents : bytes) (pos : Z)
    (tbl : list packet) : Prop :=
  match tbl with
  | [] => (len contents <= pos)%Z
  | p :: rest =>
    let data := slice contents pos (pos + chunk) in
    (pos < len contents)%Z
    /\ p = {| sequence := pos;
              raw := be_bytes SEQ_SIZE pos ++ data;
              pkt_length := len data;
              is_acked := false;
              first_sent := None;
              recent_sent := None |}
    /\ segments_from chunk contents (pos + len data) rest
  end.

(** Offset of the last segment of an [n]-byte payload cut into chunks of
    [c] bytes (negative for the empty payload, which has no segment). *)
Definition last_offset (n c : Z) : Z := ((ceil_div n c - 1) * c)%Z.

(** A payload of 2147484541 zero bytes: with chunks of [DATA_SIZE] bytes
    its last segment starts at offset 2147484540, above 2^31 - 1. *)
Definition big_payload : bytes := repeat x00 (Z.to_nat 2147484541).

(** ** The sliding-window sender ([transmit_file]) *)

(** [RETRANSMIT_TIME = 0.5] and the literal [0.1] of the timer check
    (the binary64 value nearest to one tenth). *)
Definition RETRANSMIT_TIME : float := 0.5%float.
Definition CHECK_PERIOD : float := 0x1.999999999999ap-4%float.

(** What one call of [sock.recvfrom] gives: [socket.timeout], or a
    datagram. *)
Inductive recv_event : Type :=
| Timeout
| Datagram (d : bytes).

(** The local variables of [transmit_file] after the table is built,
    followed by the environment: the datagrams passed to [sock.sendto]
    so far (oldest first), the number of [time.time()] calls made, and
    the clock. *)
Record state : Type := mkState {
  packet_list : list packet;
  left_edge : nat;
  send_next : nat;
  delays : list float;
  begin : float;
  last_check : float;
  total_acks : nat;
  resends : nat;
  outbox : list bytes;
  ticks : nat;
  clock : nat -> float
}.

Definition set_packet_list (v : list packet) (st : state) : state :=
  mkState v (left_edge st) (send_next st) (delays st) (begin st)
    (last_check st) (total_acks st) (resends st) (outbox st) (ticks st)
    (clock st).
Definition set_left_edge (v : nat) (st : state) : state :=
  mkState (packet_list st) v (send_next st) (delays st) (begin st)
    (last_check st) (total_acks st) (resends st) (outbox st) (ticks st)
    (clock st).
Definition set_send_next (v : nat) (st : state) : state :=
  mkState (packet_list st) (left_edge st) v (delays st) (begin st)
    (last_check st) (total_acks st) (resends st) (outbox st) (ticks st)
    (clock st).
Definition set_delays (v : list float) (st : state) : state :=
  mkState (packet_list st) (left_edge st) (send_next st) v (begin st)
    (last_check st) (total_acks st) (resends st) (outbox st) (ticks st)
    (clock st).
Definition set_begin (v : float) (st : state) : state :=
  mkState (packet_list st) (left_edge st) (send_next st) (delays st) v
    (last_check st) (total_acks st) (resends st) (outbox st) (ticks st)
    (clock st).
Definition set_last_check (v : float) (st : state) : state :=
  mkState (packet_list st) (left_edge st) (send_next st) (delays st)
    (begin st) v (total_acks st) (resends st) (outbox st) (ticks st)
    (clock st).
Definition set_total_acks (v : nat) (st : state) : state :=
  mkState (packet_list st) (left_edge st) (send_next st) (delays st)
    (begin st) (last_check st) v (resends st) (outbox st) (ticks st)
    (clock st).
Definition set_resends (v : nat) (st : state) : state :=
  mkState (packet_list st) (left_edge st) (send_next st) (delays st)
    (begin st) (last_check st) (total_acks st) v (outbox st) (ticks st)
    (clock st).
Definition set_outbox (v : list bytes) (st : state) : state :=
  mkState (packet_list st) (left_edge st) (send_next st) (delays st)
    (begin st) (last_check st) (total_acks st) (resends st) v (ticks st)
    (clock st).
Definition set_ticks (v : nat) (st : state) : state :=
  mkState (packet_list st) (left_edge st) (send_next st) (delays st)
    (begin st) (last_check st) (total_acks st) (resends st) (outbox st) v
    (clock st).

Definition set_is_acked (v : bool) (p : packet) : packet :=
  mkPacket (sequence p) (raw p) (pkt_length p) v (first_sent p)
    (recent_sent p).
Definition set_first_sent (v : option float) (p : packet) : packet :=
  mkPacket (sequence p) (raw p) (pkt_length p) (is_acked p) v
    (recent_sent p).
Definition set_recent_sent (v : option float) (p : packet) : packet :=
  mkPacket (sequence p) (raw p) (pkt_length p) (is_acked p)
    (first_sent p) v.

(** [l[i] = f(l[i])]; the list is left alone when [i] is out of range
    (Python would raise [IndexError]; every index used below is under
    [num_packets]). *)
Fixpoint update_at {A : Type} (i : nat) (f : A -> A) (l : list A)
  : list A :=
  match l, i with
  | [], _ => []
  | x :: r, O => f x :: r
  | x :: r, S j => x :: update_at j f r
  end.

(** [for idx in range(lo, lo + n): s = body(idx, s)]. *)
Fixpoint for_range {St : Type} (n lo : nat) (body : nat -> St -> St)
    (s : St) : St :=
  match n with
  | O => s
  | S k => for_range k (S lo) body (body lo s)
  end.

(** [for idx in range(lo, hi)]. *)
Definition py_for {St : Type} (lo hi : nat) (body : nat -> St -> St)
    (s : St) : St :=
  for_range (hi - lo) lo body s.

Definition num_packets (st : state) : nat := length (packet_list st).

(** [time.time()]. *)
Definition time_time (st : state) : float * state :=
  (clock st (ticks st), set_ticks (S (ticks st)) st).

(** [sock.sendto(d, (HOST, PORT))]. *)
Definition sendto (d : bytes) (st : state) : state :=
  set_outbox (outbox st ++ [d]) st.

(** [packet_list[idx][key] = v], as the update [f] of that entry. *)
Definition modify_packet (idx : nat) (f : packet -> packet) (st : state)
  : state :=
  set_packet_list (update_at idx f (packet_list st)) st.

(** Body of the initial burst (lines 86-88). *)
Definition burst_body (idx : nat) (st : state) : state :=
  match nth_error (packet_list st) idx with
  | None => st
  | Some pkt =>
    let st1 := sendto (raw pkt) st in
    let st2 := modify_packet idx (set_first_sent (Some (fst (time_time st1))))
                 (snd (time_time st1)) in
    modify_packet idx (set_recent_sent (Some (fst (time_time st2))))
      (snd (time_time st2))
  end.

(** Lines 76-81: [begin = time.time()], cursors at 0, no delay yet. *)
Definition init_state (clk : nat -> float) (pkts : list packet) : state :=
  mkState pkts 0 0 [] (clk 0) (clk 0) 0 0 [] 1 clk.

(** Lines 84-95: the initial burst, then [last_check = time.time()]. *)
Definition start (window : nat) (clk : nat -> float) (pkts : list packet)
  : state :=
  let st0 := init_state clk pkts in
  let hi := Nat.min (left_edge st0 + window) (num_packets st0) in
  let st1 := set_send_next hi (py_for (send_next st0) hi burst_body st0) in
  set_last_check (fst (time_time st1)) (snd (time_time st1)).

(** [all(p['is_acked'] for p in packet_list)]. *)
Definition all_acked (st : state) : bool :=
  forallb is_acked (packet_list st).

(** Body of the cumulative-ACK loop (lines 112-122). *)
Definition mark_body (ack_seq : Z) (idx : nat) (st : state) : state :=
  match nth_error (packet_list st) idx with
  | None => st
  | Some pkt =>
    let next_expected := (sequence pkt + pkt_length pkt)%Z in
    if (next_expected <=? ack_seq)%Z && negb (is_acked pkt) then
      let st1 := modify_packet idx (set_is_acked true) st in
      match first_sent pkt with
      | Some fs =>
        let elapsed := PrimFloat.sub (fst (time_time st1)) fs in
        let st2 := snd (time_time st1) in
        set_delays (delays st2 ++ [elapsed]) st2
      | None => st1
      end
    else st
  end.

(** Number of consecutive acknowledged entries at the head of [l]. *)
Fixpoint acked_run (l : list packet) : nat :=
  match l with
  | p :: r => if is_acked p then S (acked_run r) else O
  | [] => O
  end.

(** Lines 126-127: [while left_edge < num_packets and
    packet_list[left_edge]['is_acked']: left_edge += 1]. *)
Definition slide (pkts : list packet) (edge : nat) : nat :=
  edge + acked_run (skipn edge pkts).

(** Body of the loop that sends what entered the window (lines 138-143). *)
Definition send_body (idx : nat) (st : state) : state :=
  match nth_error (packet_list st) idx with
  | None => st
  | Some pkt =>
    if negb (is_acked pkt) then
      let st1 := sendto (raw pkt) st in
      let st2 :=
        match first_sent pkt with
        | None =>
          modify_packet idx (set_first_sent (Some (fst (time_time st1))))
            (snd (time_time st1))
        | Some _ => st1
        end in
      modify_packet idx (set_recent_sent (Some (fst (time_time st2))))
        (snd (time_time st2))
    else st
  end.

(** Lines 111-122: the cumulative-ACK loop over the whole table. *)
Definition mark_acked (ack_seq : Z) (st : state) : state :=
  py_for 0 (num_packets st) (mark_body ack_seq) st.

(** Lines 125-127: slide the window over acknowledged packets. *)
Definition slide_window (st : state) : state :=
  set_left_edge (slide (packet_list st) (left_edge st)) st.

(** Lines 132-133: [if send_next < left_edge: send_next = left_edge]. *)
Definition clamp_send_next (st : state) : state :=
  if send_next st <? left_edge st
  then set_send_next (left_edge st) st else st.

(** [min(left_edge + WINDOW, num_packets)]. *)
Definition right_edge (window : nat) (st : state) : nat :=
  Nat.min (left_edge st + window) (num_packets st).

(** Lines 136-144: send the packets that entered the window. *)
Definition send_new (window : nat) (st : state) : state :=
  set_send_next (right_edge window st)
    (py_for (send_next st) (right_edge window st) send_body st).

(** Lines 102-144: a datagram was received.  [window] is [WINDOW]. *)
Definition on_response (window : nat) (response : bytes) (st : state)
  : py_result state :=
  let st0 := set_total_acks (S (total_acks st)) st in
  let ack_seq := int_from_bytes (header response) in
  ack_msg <- utf8_decode (body response) ;;
  if pystr_eqb ack_msg str_ack then
    let st1 := mark_acked ack_seq st0 in
    let st2 := slide_window st1 in
    if left_edge st1 <? left_edge st2
    then Ok (send_new window (clamp_send_next st2))
    else Ok st2
  else Ok st0.

(** Body of the timeout scan (lines 156-162). *)
Definition sweep_body (now : float) (idx : nat) (st : state) : state :=
  match nth_error (packet_list st) idx with
  | None => st
  | Some pkt =>
    match recent_sent pkt with
    | Some rs =>
      if negb (is_acked pkt)
         && PrimFloat.ltb RETRANSMIT_TIME (PrimFloat.sub now rs) then
        let st1 := sendto (raw pkt) st in
        let st2 := modify_packet idx (set_recent_sent (Some now)) st1 in
        set_resends (S (resends st2)) st2
      else st
    | None => st
    end
  end.

(** Lines 151-164: the periodic timeout check. *)
Definition timer_check (window : nat) (st : state) : state :=
  let now := fst (time_time st) in
  let st1 := snd (time_time st) in
  if PrimFloat.ltb CHECK_PERIOD (PrimFloat.sub now (last_check st1)) then
    set_last_check now
      (py_for (left_edge st1) (right_edge window st1) (sweep_body now) st1)
  else st1.

(** One pass through the body of the main loop (lines 99-164);
    [recvfrom(MAX_PACKET)] keeps at most [MAX_PACKET] bytes. *)
Definition loop_body (window : nat) (ev : recv_event) (st : state)
  : py_result state :=
  match ev with
  | Timeout => Ok (timer_check window st)
  | Datagram d =>
    st' <- on_response window (firstn MAX_PACKET d) st ;;
    Ok (timer_check window st')
  end.

(** The main loop (line 97) on the events the socket will deliver.
    The result is the state when the loop ends or, the events being
    used up, when it waits in [recvfrom], and the events not consumed. *)
Fixpoint main_loop (window : nat) (evs : list recv_event) (st : state)
  : py_result (state * list recv_event) :=
  if all_acked st then Ok (st, evs)
  else
    match evs with
    | [] => Ok (st, [])
    | ev :: rest =>
      st' <- loop_body window ev st ;;
      main_loop window rest st'
    end.

(** Offsets carried by the ACK frames among [evs]. *)
Fixpoint ack_offsets (evs : list recv_event) : list Z :=
  match evs with
  | [] => []
  | Timeout :: rest => ack_offsets rest
  | Datagram d :: rest =>
    let response := firstn MAX_PACKET d in
    match utf8_decode (body response) with
    | Ok msg =>
      if pystr_eqb msg str_ack
      then int_from_bytes (header response) :: ack_offsets rest
      else ack_offsets rest
    | Raise _ => ack_offsets rest
    end
  end.

(** Largest element of a list of integers, if any. *)
Fixpoint max_ack (acks : list Z) : option Z :=
  match acks with
  | [] => None
  | a :: rest =>
    match max_ack rest with
    | None => Some a
    | Some m => Some (Z.max a m)
    end
  end.

(** End offset of a segment: [sequence + length]. *)
Definition end_offset (p : packet) : Z := (sequence p + pkt_length p)%Z.

(** Sent at least once and not acknowledged. *)
Definition is_outstanding (p : packet) : bool :=
  match first_sent p with
  | Some _ => negb (is_acked p)
  | None => false
  end.

(** Number of outstanding segments of a table. *)
Definition outstanding (pkts : list packet) : nat :=
  length (filter is_outstanding pkts).

(** A table as the segmenter leaves it. *)
Definition fresh (pkts : list packet) : Prop :=
  Forall (fun p => is_acked p = false /\ first_sent p = None
                   /\ recent_sent p = None) pkts.

(** ** Vocabulary of the proofs *)

(** [l'] is [l] with the entries at the indices [lo <= i < hi] changed
    along [R] and the others untouched. *)
Definition pointwise_in (R : packet -> packet -> Prop) (lo hi : nat)
    (l l' : list packet) : Prop :=
  length l' = length l
  /\ forall i p, nth_error l i = Some p ->
       exists p', nth_error l' i = Some p'
                  /\ ((lo <= i < hi)%nat -> R p p')
                  /\ (~ (lo <= i < hi)%nat -> p' = p).

(** What the four loop bodies do to the entry they visit. *)
Definition mark_pkt (ack_seq : Z) (p : packet) : packet :=
  if (end_offset p <=? ack_seq)%Z && negb (is_acked p)
  then set_is_acked true p else p.

Definition R_mark (ack_seq : Z) (p p' : packet) : Prop :=
  p' = mark_pkt ack_seq p.

Definition R_burst (p p' : packet) : Prop :=
  exists t1 t2,
    p' = set_recent_sent (Some t2) (set_first_sent (Some t1) p).

Definition R_send (p p' : packet) : Prop :=
  (is_acked p = true /\ p' = p)
  \/ (is_acked p = false
      /\ exists t1 t2,
           p' = set_recent_sent (Some t2)
                  (match first_sent p with
                   | None => set_first_sent (Some t1) p
                   | Some _ => p
                   end)).

Definition R_sweep (p p' : packet) : Prop :=
  p' = p
  \/ (is_acked p = false /\ recent_sent p <> None
      /\ exists t, p' = set_recent_sent (Some t) p).

(** The window invariant at the points where the main loop tests its
    condition: everything left of [left_edge] is acknowledged, nothing
    from [send_next] on was ever sent, and [send_next] is the right
    edge of the window. *)
Definition window_inv (window : nat) (st : state) : Prop :=
  left_edge st <= num_packets st
  /\ send_next st = Nat.min (left_edge st + window) (num_packets st)
  /\ (forall i p, nth_error (packet_list st) i = Some p ->
        i < left_edge st -> is_acked p = true)
  /\ (forall i p, nth_error (packet_list st) i = Some p ->
        send_next st <= i -> first_sent p = None).

(** ** A small run used to instantiate the theorems

    Thirty bytes in chunks of ten, a window of two, a clock that
    advances by one second per reading, and the events: ACK 20 (twice),
    a timeout, ACK 30. *)
Definition demo_clock (n : nat) : float :=
  PrimFloat.of_uint63 (Uint63.of_Z (Z.of_nat n)).

Definition demo_packet (seq : Z) : packet :=
  {| sequence := seq;
     raw := be_bytes SEQ_SIZE seq ++ repeat x41 10;
     pkt_length := 10;
     is_acked := false;
     first_sent := None;
     recent_sent := None |}.

Definition demo_table : list packet :=
  [demo_packet 0; demo_packet 10; demo_packet 20].

Definition ack_frame (a : Z) : bytes :=
  be_bytes SEQ_SIZE a ++ [x61; x63; x6b].

Definition fin_frame (a : Z) : bytes :=
  be_bytes SEQ_SIZE a ++ [x66; x69; x6e].

Definition demo_events : list recv_event :=
  [Datagram (ack_frame 20); Datagram (ack_frame 20); Timeout;
   Datagram (ack_frame 30)].

Definition demo_final : state :=
  match main_loop 2 demo_events (start 2 demo_clock demo_table) with
  | Ok (st, _) => st
  | Raise _ => init_state demo_clock demo_table
  end.

(** What the ACK path looks at in a table: end offsets and flags. *)
Definition ack_view (l : list packet) : list (Z * bool) :=
  map (fun p => (end_offset p, is_acked p)) l.

(** [covered acks e]: some offset of [acks] is at least [e]. *)
Definition covered (acks : list Z) (e : Z) : bool :=
  existsb (fun a => (e <=? a)%Z) acks.

Definition apply_acks (acks : list Z) (v : list (Z * bool))
  : list (Z * bool) :=
  map (fun eb => (fst eb, snd eb || covered acks (fst eb))) v.

(** The delay samples appended by one pass of the cumulative-ACK loop
    over [l], the first [time.time()] call of the pass being call
    number [t]: one sample per newly acknowledged packet that has a
    [first_sent] stamp, the clock reading minus that stamp. *)
Fixpoint mark_samples (ack_seq : Z) (clk : nat -> float) (t : nat)
    (l : list packet) : list float :=
  match l with
  | [] => []
  | p :: r =>
    if (end_offset p <=? ack_seq)%Z && negb (is_acked p) then
      match first_sent p with
      | Some fs =>
        PrimFloat.sub (clk t) fs :: mark_samples ack_seq clk (S t) r
      | None => mark_samples ack_seq clk t r
      end
    else mark_samples ack_seq clk t r
  end.

(** Acknowledged packets that were sent at least once. *)
Definition acked_and_sent (p : packet) : bool :=
  is_acked p && match first_sent p with Some _ => true | None => false end.

(** The events consumed by the main loop, given those it left. *)
Definition consumed (evs rest : list recv_event) : list recv_event :=
  firstn (length evs - length rest) evs.

(** The table after the cumulative-ACK loop ran for each offset of
    [acks] in turn (at most one per pass of the main loop). *)
Definition marked (acks : list Z) (l : list packet) : list packet :=
  fold_left (fun l a => map (mark_pkt a) l) acks l.

(** The delay samples of one pass of the main loop. *)
Definition pass_samples (acks : list Z) (clk : nat -> float) (t : nat)
    (l : list packet) : list float :=
  match acks with
  | a :: _ => mark_samples a clk t l
  | [] => []
  end.

(** What never changes in a table entry. *)
Definition segment_id (p : packet) : Z * Z * bytes :=
  (sequence p, pkt_length p, raw p).

(** How an entry may change while the main loop runs: an acknowledged
    entry is left alone, and a [first_sent] stamp, once set, stays. *)
Definition stable (p p' : packet) : Prop :=
  segment_id p' = segment_id p
  /\ (is_acked p = true -> p' = p)
  /\ (forall t, first_sent p = Some t -> first_sent p' = Some t).

Definition evolves (l l' : list packet) : Prop :=
  length l' = length l
  /\ forall i p, nth_error l i = Some p ->
       exists p', nth_error l' i = Some p' /\ stable p p'.

(** A packet has a [first_sent] stamp exactly when it was sent. *)
Definition sent_iff (p : packet) : Prop :=
  first_sent p = None <-> recent_sent p = None.

(** ** Socket and clock, on their own

    The teardown handshake and the stop-and-wait sender only need the
    environment: datagrams sent so far, [time.time()] calls made, and
    the clock. *)
Record env : Type := mkEnv {
  e_outbox : list bytes;
  e_ticks : nat;
  e_clock : nat -> float
}.

Definition env_of_state (st : state) : env :=
  mkEnv (outbox st) (ticks st) (clock st).

Definition e_sendto (d : bytes) (e : env) : env :=
  mkEnv (e_outbox e ++ [d]) (e_ticks e) (e_clock e).

Definition e_now (e : env) : float := e_clock e (e_ticks e).

Definition e_tick (e : env) : env :=
  mkEnv (e_outbox e) (S (e_ticks e)) (e_clock e).

(** How a loop around [recvfrom] ends on a finite list of events: it
    returns (with the events left), it is still waiting in [recvfrom]
    when the events are used up, or an exception leaves it. *)
Inductive recv_result (A : Type) : Type :=
| Returned (a : A) (e : env) (rest : list recv_event)
| Waiting (e : env)
| Raised (x : exn).

Arguments Returned {A} a e rest.
Arguments Waiting {A} e.
Arguments Raised {A} x.

(** ** Teardown handshake (lines 166-194; the same code, with other
    variable names, is lines 160-195 of the stop-and-wait script) *)

(** An ACK frame echoing exactly [final_seq]. *)
Definition is_final_ack (final_seq : Z) (response : bytes)
  : py_result bool :=
  ack_msg <- utf8_decode (body response) ;;
  Ok (pystr_eqb ack_msg str_ack
      && (int_from_bytes (header response) =? final_seq)%Z).

Definition is_fin (response : bytes) : py_result bool :=
  fin_msg <- utf8_decode (body response) ;;
  Ok (pystr_eqb fin_msg str_fin).

(** The [while not got_fin] loop.  Every turn sends the terminal frame
    and receives once; only if that is the expected ACK does it receive
    a second time, for the FIN.  [socket.timeout] in either [recvfrom]
    goes back to the top of the loop. *)
Fixpoint await_fin (final_pkt : bytes) (final_seq : Z)
    (evs : list recv_event) (e : env) : recv_result unit :=
  let e1 := e_sendto final_pkt e in
  match evs with
  | [] => Waiting e1
  | Timeout :: rest => await_fin final_pkt final_seq rest e1
  | Datagram d :: rest =>
    match is_final_ack final_seq (firstn MAX_PACKET d) with
    | Raise x => Raised x
    | Ok false => await_fin final_pkt final_seq rest e1
    | Ok true =>
      match rest with
      | [] => Waiting e1
      | Timeout :: rest' => await_fin final_pkt final_seq rest' e1
      | Datagram f :: rest' =>
        match is_fin (firstn MAX_PACKET f) with
        | Raise x => Raised x
        | Ok true => Returned tt e1 rest'
        | Ok false => await_fin final_pkt final_seq rest' e1
        end
      end
    end
  end.

(** State of the session at the end of the events. *)
Inductive session : Type :=
| CLOSED (finish : float) (e : env) (rest : list recv_event)
| TEARDOWN (e : env)
| FAILED (x : exn).

(** Lines 167-198: terminal frame, handshake, FINACK,
    [finish = time.time()]. *)
Definition teardown (total_bytes : Z) (evs : list recv_event) (e : env)
  : session :=
  let final_seq := total_bytes in
  match encode_frame final_seq [] with
  | Raise x => FAILED x
  | Ok final_pkt =>
    match await_fin final_pkt final_seq evs e with
    | Raised x => FAILED x
    | Waiting e1 => TEARDOWN e1
    | Returned _ e1 rest =>
      match encode_frame 0 bytes_FINACK with
      | Raise x => FAILED x
      | Ok closing =>
        let e2 := e_sendto closing e1 in
        CLOSED (e_now e2) (e_tick e2) rest
      end
    end
  end.

(** The terminal frame and the FINACK frame, as byte strings. *)
Definition terminal_frame (total_bytes : Z) : bytes :=
  be_bytes SEQ_SIZE total_bytes.

Definition finack_frame : bytes := be_bytes SEQ_SIZE 0 ++ bytes_FINACK.

(** Events that send the loop back to its top without an exception
    when it is waiting for the ACK: timeouts and frames that decode and
    are not the expected ACK. *)
Definition retry_event (final_seq : Z) (ev : recv_event) : Prop :=
  match ev with
  | Timeout => True
  | Datagram d => is_final_ack final_seq (firstn MAX_PACKET d) = Ok false
  end.

(** ** Metrics *)

(** A Python number: [int] or [float]. *)
Inductive pynum : Type :=
| PyInt (z : Z)
| PyFloat (f : float).

(** [float(z)] for [0 <= z < 2^63] (lengths and counts). *)
Definition float_of_Z (z : Z) : float :=
  PrimFloat.of_uint63 (Uint63.of_Z z).

Definition to_float (x : pynum) : float :=
  match x with
  | PyInt z => float_of_Z z
  | PyFloat f => f
  end.

Definition is_zero (x : pynum) : bool :=
  match x with
  | PyInt z => (z =? 0)%Z
  | PyFloat f => PrimFloat.eqb f 0%float
  end.

(** [a / b]: [ZeroDivisionError] when [b] is zero ([0], [0.0] or
    [-0.0]), else the float quotient (operands below 2^53 in absolute
    value when they are [int]). *)
Definition py_truediv (a b : pynum) : py_result pynum :=
  if is_zero b then Raise ZeroDivisionError
  else Ok (PyFloat (PrimFloat.div (to_float a) (to_float b))).

(** [x > 0]. *)
Definition py_gt_zero (x : pynum) : bool :=
  match x with
  | PyInt z => (0 <? z)%Z
  | PyFloat f => PrimFloat.ltb 0%float f
  end.

(** [sum(l)] for a list of floats: starts from the [int] 0. *)
Definition py_sum (l : list float) : pynum :=
  match l with
  | [] => PyInt 0
  | _ :: _ => PyFloat (fold_left PrimFloat.add l (float_of_Z 0))
  end.

(** The two literals of the scoring formula, as Python reads them. *)
Definition c_0_3 : float := 0x1.3333333333333p-2%float.
Definition c_0_7 : float := 0x1.6666666666666p-1%float.

(** [0.3 * (rate / 1000) + 0.7 / mean_delay]. *)
Definition score_formula (rate mean_delay : pynum) : py_result pynum :=
  q <- py_truediv rate (PyInt 1000) ;;
  r <- py_truediv (PyFloat c_0_7) mean_delay ;;
  Ok (PyFloat (PrimFloat.add (PrimFloat.mul c_0_3 (to_float q))
                 (to_float r))).

(** Lines 200-208 of the sliding-window script. *)
Definition window_metrics (total_bytes : Z) (begin finish : float)
    (delays : list float) : py_result (pynum * pynum * pynum) :=
  let duration := PrimFloat.sub finish begin in
  rate <- py_truediv (PyInt total_bytes) (PyFloat duration) ;;
  mean_delay <- match delays with
                | _ :: _ =>
                  py_truediv (py_sum delays)
                    (PyInt (Z.of_nat (length delays)))
                | [] => Ok (PyInt 0)
                end ;;
  score <- (if py_gt_zero mean_delay
            then score_formula rate mean_delay
            else Ok (PyInt 0)) ;;
  Ok (rate, mean_delay, score).

(** Lines 203-207 of the stop-and-wait script. *)
Definition stop_and_wait_metrics (file_size : Z)
    (overall_start overall_end : float) (all_delays : list float)
  : py_result (pynum * pynum * pynum) :=
  let total_time := PrimFloat.sub overall_end overall_start in
  throughput <- py_truediv (PyInt file_size) (PyFloat total_time) ;;
  avg_delay <- py_truediv (py_sum all_delays)
                 (PyInt (Z.of_nat (length all_delays))) ;;
  performance_metric <- score_formula throughput avg_delay ;;
  Ok (throughput, avg_delay, performance_metric).

(** ** The two senders, end to end *)

(** How a whole transfer ends on a finite list of events. *)
Inductive transfer : Type :=
| Finished (metrics : pynum * pynum * pynum) (e : env)
| InData (e : env)
| InTeardown (e : env)
| Failed (x : exn).

(** [transmit_file] with chunk size [chunk] and window [window];
    [None] when the segmentation loop does not end. *)
Definition transmit_file (chunk : Z) (window : nat) (clk : nat -> float)
    (contents : bytes) (evs : list recv_event) : option transfer :=
  match segment_table chunk contents with
  | None => None
  | Some (Raise x) => Some (Failed x)
  | Some (Ok tbl) =>
    match main_loop window evs (start window clk tbl) with
    | Raise x => Some (Failed x)
    | Ok (st, rest) =>
      if all_acked st then
        match teardown (len contents) rest (env_of_state st) with
        | FAILED x => Some (Failed x)
        | TEARDOWN e => Some (InTeardown e)
        | CLOSED finish e _ =>
          match window_metrics (len contents) (begin st) finish
                  (delays st) with
          | Raise x => Some (Failed x)
          | Ok m => Some (Finished m e)
          end
        end
      else Some (InData (env_of_state st))
    end
  end.

(** ** The stop-and-wait sender *)

(** The [while not received_ack] loop of [send_one_packet]: every turn
    sends the packet and receives once.  [need] is
    [seq_num + len(packet_data)]. *)
Fixpoint await_ack (packet : bytes) (need : Z) (start_time : float)
    (evs : list recv_event) (e : env) : recv_result float :=
  let e1 := e_sendto packet e in
  match evs with
  | [] => Waiting e1
  | Timeout :: rest => await_ack packet need start_time rest e1
  | Datagram d :: rest =>
    let ack_packet := firstn MAX_PACKET d in
    let ack_seq_num := int_from_bytes (header ack_packet) in
    match utf8_decode (body ack_packet) with
    | Raise x => Raised x
    | Ok ack_text =>
      if pystr_eqb ack_text str_ack && (need <=? ack_seq_num)%Z then
        let end_time := e_now e1 in
        Returned (PrimFloat.sub end_time start_time) (e_tick e1) rest
      else await_ack packet need start_time rest e1
    end
  end.

(** [send_one_packet(sock, packet_data, seq_num, packet_num)]; the
    debugging output is left out. *)
Definition send_one_packet (packet_data : bytes) (seq_num : Z)
    (evs : list recv_event) (e : env) : recv_result float :=
  match encode_frame seq_num packet_data with
  | Raise x => Raised x
  | Ok packet =>
    let start_time := e_now e in
    await_ack packet (seq_num + len packet_data) start_time evs (e_tick e)
  end.

(** How the data loop of [send_file] stands at the end of the events:
    every chunk was sent and acknowledged, or it waits for the ACK of
    the chunk at [current_position], or an exception left it.  The
    first two carry [all_delays] and the position. *)
Inductive chunks_result : Type :=
| AllSent (all_delays : list float) (final_position : Z) (e : env)
    (rest : list recv_event)
| AwaitingAck (all_delays : list float) (current_position : Z) (e : env)
| ChunkRaised (x : exn).

(** The [while current_position < file_size] loop of [send_file].  Fuel
    as for [build_packets]. *)
Fixpoint send_chunks (fuel : nat) (chunk : Z) (file_contents : bytes)
    (current_position : Z) (all_delays : list float)
    (evs : list recv_event) (e : env) : option chunks_result :=
  match fuel with
  | O => None
  | S fuel' =>
    if (current_position <? len file_contents)%Z then
      let data_chunk :=
        slice file_contents current_position (current_position + chunk) in
      let seq_number := current_position in
      match send_one_packet data_chunk seq_number evs e with
      | Raised x => Some (ChunkRaised x)
      | Waiting e1 => Some (AwaitingAck all_delays current_position e1)
      | Returned packet_delay e1 rest =>
        send_chunks fuel' chunk file_contents
          (current_position + len data_chunk)
          (all_delays ++ [packet_delay]) rest e1
      end
    else Some (AllSent all_delays current_position e evs)
  end.

(** [send_file] with chunk size [chunk]. *)
Definition send_file (chunk : Z) (clk : nat -> float)
    (file_contents : bytes) (evs : list recv_event) : option transfer :=
  let e0 := mkEnv [] 1 clk in
  let overall_start := clk 0 in
  match send_chunks (S (length file_contents)) chunk file_contents 0 []
          evs e0 with
  | None => None
  | Some (ChunkRaised x) => Some (Failed x)
  | Some (AwaitingAck _ _ e) => Some (InData e)
  | Some (AllSent all_delays final_seq_num e rest) =>
    match teardown final_seq_num rest e with
    | FAILED x => Some (Failed x)
    | TEARDOWN e1 => Some (InTeardown e1)
    | CLOSED overall_end e1 _ =>
      match stop_and_wait_metrics (len file_contents) overall_start
              overall_end all_delays with
      | Raise x => Some (Failed x)
      | Ok m => Some (Finished m e1)
      end
    end
  end.

(** ** Comparing the two senders *)

(** The data loop of [send_file] read on the segment table: one
    [send_one_packet] per entry, in order. *)
Fixpoint sw_run (position : Z) (todo : list packet)
    (all_delays : list float) (evs : list recv_event) (e : env)
  : chunks_result :=
  match todo with
  | [] => AllSent all_delays position e evs
  | p :: todo' =>
    match await_ack (raw p) (end_offset p) (e_now e) evs (e_tick e) with
    | Raised x => ChunkRaised x
    | Waiting e1 => AwaitingAck all_delays position e1
    | Returned d e1 rest =>
      sw_run (end_offset p) todo' (all_delays ++ [d]) rest e1
    end
  end.

(** A list without its adjacent repetitions: the frames sent, when
    retransmissions are not told apart. *)
Fixpoint collapse (l : list bytes) : list bytes :=
  match l with
  | [] => []
  | x :: r =>
    match r with
    | y :: _ =>
      if list_eq_dec Byte.byte_eq_dec x y then collapse r
      else x :: collapse r
    | [] => [x]
    end
  end.

(** No ACK runs ahead of the sender: while [cur] is the segment
    awaited and [todo] those after it, an ACK that acknowledges [cur]
    does not reach the end of the next segment. *)
Fixpoint timely (cur : packet) (todo : list packet)
    (evs : list recv_event) : Prop :=
  match evs with
  | [] => True
  | ev :: rest =>
    match ack_offsets [ev] with
    | a :: _ =>
      if (end_offset cur <=? a)%Z then
        match todo with
        | [] => True
        | q :: todo' => (a < end_offset q)%Z /\ timely q todo' rest
        end
      else timely cur todo rest
    | [] => timely cur todo rest
    end
  end.

Definition timely_acks (tbl : list packet) (evs : list recv_event)
  : Prop :=
  match tbl with
  | [] => True
  | p :: todo => timely p todo evs
  end.

(** The sliding-window state when exactly the first [i] segments are
    acknowledged and the segments up to index [i] were sent, with a
    window of one. *)
Definition one_by_one (tbl : list packet) (i : nat) (st : state) : Prop :=
  left_edge st = i
  /\ send_next st = Nat.min (i + 1) (length tbl)
  /\ i <= length tbl
  /\ map segment_id (packet_list st) = map segment_id tbl
  /\ (forall j p, nth_error (packet_list st) j = Some p ->
        (is_acked p = true <-> j < i))
  /\ (forall j p, nth_error (packet_list st) j = Some p ->
        (first_sent p = None <-> i < j)).

(** End offsets grow along the table. *)
Definition increasing_ends (tbl : list packet) : Prop :=
  forall i j p q, i < j -> nth_error tbl i = Some p ->
                  nth_error tbl j = Some q ->
                  (end_offset p < end_offset q)%Z.

(** How the results of the two data phases compare. *)
Definition same_progress (tbl : list packet)
    (w : py_result (state * list recv_event)) (s : chunks_result) : Prop :=
  match w, s with
  | Raise x, ChunkRaised y => x = y
  | Ok (st, rest), AllSent all_delays _ e rest' =>
    all_acked st = true /\ rest = rest'
    /\ left_edge st = length tbl
    /\ length all_delays = length tbl
    /\ collapse (outbox st) = collapse (e_outbox e)
    /\ one_by_one tbl (length tbl) st
  | Ok (st, rest), AwaitingAck all_delays _ e =>
    all_acked st = false /\ rest = []
    /\ length all_delays = left_edge st
    /\ collapse (outbox st) = collapse (e_outbox e)
    /\ one_by_one tbl (left_edge st) st
  | _, _ => False
  end.

(** ** Closed forms of the loops

    The table after the initial burst went over its first [k] entries,
    the first [time.time()] call of the burst being call number [t]:
    each entry visited gets two successive readings, the first as
    [first_sent] and the second as [recent_sent]. *)
Fixpoint stamp_burst (clk : nat -> float) (t k : nat) (l : list packet)
  : list packet :=
  match k, l with
  | S k', p :: r =>
    set_recent_sent (Some (clk (S t))) (set_first_sent (Some (clk t)) p)
      :: stamp_burst clk (S (S t)) k' r
  | _, _ => l
  end.

(** A run on which no ACK runs ahead: thirty bytes in chunks of ten,
    one ACK per segment, one of them late and one repeated. *)
Definition patient_events : list recv_event :=
  [Datagram (ack_frame 10); Timeout; Datagram (ack_frame 20);
   Datagram (ack_frame 20); Datagram (ack_frame 30)].

(** ** Vocabulary for the stop-and-wait sender

    The test of line 86 on a received datagram: the text is ['ack'] and
    the offset is at least [need]. *)
Definition accepts (need : Z) (d : bytes) : py_result bool :=
  let ack_packet := firstn MAX_PACKET d in
  ack_text <- utf8_decode (body ack_packet) ;;
  Ok (pystr_eqb ack_text str_ack
      && (need <=? int_from_bytes (header ack_packet))%Z).

(** The events after which [send_one_packet] sends its packet again:
    a timeout, or a frame that decodes and is not the awaited ACK. *)
Definition resend_event (need : Z) (ev : recv_event) : Prop :=
  match ev with
  | Timeout => True
  | Datagram d => accepts need d = Ok false
  end.

(** The frames of [tbl] in order, the [i]-th one [ks[i]] times over (for
    as many entries as [ks] has). *)
Definition repeated (tbl : list packet) (ks : list nat) : list bytes :=
  concat (map (fun pk => repeat (raw (fst pk)) (snd pk)) (combine tbl ks)).

(** The demo table after its initial burst (window of two) and one
    ACK for offset 20. *)
Definition demo_after_ack : state :=
  match on_response 2 (ack_frame 20) (start 2 demo_clock demo_table) with
  | Ok st => st
  | Raise _ => init_state demo_clock demo_table
  end.

(** ** What the cursors mean

    Every unacknowledged entry below [send_next] was transmitted. *)
Definition sent_in_window (st : state) : Prop :=
  forall i p, nth_error (packet_list st) i = Some p ->
    i < send_next st -> is_acked p = false -> first_sent p <> None.

(** The entry at [left_edge], if there is one, is not acknowledged. *)
Definition edge_unacked (st : state) : Prop :=
  forall p, nth_error (packet_list st) (left_edge st) = Some p ->
    is_acked p = false.

(** The demo run stopped after its first two events, when one segment
    of three is acknowledged. *)
Definition midway_events : list recv_event :=
  [Datagram (ack_frame 10); Timeout].

Definition demo_midway : state :=
  match main_loop 2 midway_events (start 2 demo_clock demo_table) with
  | Ok (st, _) => st
  | Raise _ => init_state demo_clock demo_table
  end.

(** A packet the timeout scan resends at time [now] (lines 158-159):
    not acknowledged, transmitted before, and last transmitted more
    than [RETRANSMIT_TIME] ago. *)
Definition overdue (now : float) (p : packet) : bool :=
  match recent_sent p with
  | Some rs =>
    negb (is_acked p)
    && PrimFloat.ltb RETRANSMIT_TIME (PrimFloat.sub now rs)
  | None => false
  end.

(** What the scan does to an entry it visits. *)
Definition refresh (now : float) (p : packet) : packet :=
  if overdue now p then set_recent_sent (Some now) p else p.

(** Not acknowledged; transmitted at least once. *)
Definition unacked (p : packet) : bool := negb (is_acked p).

Definition was_sent (p : packet) : bool :=
  match first_sent p with Some _ => true | None => false end.

(** The books of the data phase: the table still holds the frames
    [frames], every datagram sent is one of them, and each datagram is
    either the first transmission of a packet or a counted resend. *)
Definition accounted (frames : list bytes) (st : state) : Prop :=
  map raw (packet_list st) = frames
  /\ length (outbox st)
     = length (filter was_sent (packet_list st)) + resends st
  /\ Forall (fun d => In d frames) (outbox st).

(** A receive attempt that returned a datagram. *)
Definition is_datagram (ev : recv_event) : bool :=
  match ev with
  | Datagram _ => true
  | Timeout => false
  end.

(** ** A receiver that gets everything, in order

    It answers each data frame with the offset of the next byte it
    expects, and the terminal frame with the ACK of the total length
    followed by its FIN. *)
Definition prompt_acks (tbl : list packet) : list recv_event :=
  map (fun p => Datagram (ack_frame (end_offset p))) tbl.

Definition closing_events (total_bytes : Z) : list recv_event :=
  [Datagram (ack_frame total_bytes); Datagram (fin_frame total_bytes)].

(** The delay samples of [k] packets each acknowledged at the first
    attempt, the first [time.time()] call being call number [t]: the
    differences of successive pairs of readings. *)
Fixpoint prompt_delays (clk : nat -> float) (t k : nat) : list float :=
  match k with
  | O => []
  | S k' =>
    PrimFloat.sub (clk (S t)) (clk t) :: prompt_delays clk (S (S t)) k'
  end.

(** The bodies the senders look for, as byte strings: [b'ack'] and
    [b'fin']. *)
Definition bytes_ack : bytes := [x61; x63; x6b].
Definition bytes_fin : bytes := [x66; x69; x6e].

(** ** A table wider than the window

    Fifty bytes in chunks of ten: with a window of two, an ACK for
    offset 40 acknowledges two segments that were not sent yet. *)
Definition wide_table : list packet :=
  map demo_packet [0; 10; 20; 30; 40]%Z.

(** A turn of the teardown loop that goes back to its top without an
    exception, as the events it consumes: the first receive gives a
    timeout or a frame that decodes and is not the expected ACK; or it
    gives the expected ACK and the second receive gives a timeout or a
    frame that decodes and is not a FIN. *)
Definition lost_turn (final_seq : Z) (turn : list recv_event) : Prop :=
  match turn with
  | [Timeout] => True
  | [Datagram d] => is_final_ack final_seq (firstn MAX_PACKET d) = Ok false
  | [Datagram a; Timeout] =>
    is_final_ack final_seq (firstn MAX_PACKET a) = Ok true
  | [Datagram a; Datagram f] =>
    is_final_ack final_seq (firstn MAX_PACKET a) = Ok true
    /\ is_fin (firstn MAX_PACKET f) = Ok false
  | _ => False
  end.

(** What the data loop of [send_file] consumes for one frame: the
    events after which the frame is sent again, then the datagram
    taken for its ACK.  [acked_by p b]: the events of [b] are of that
    kind for the frame of [p], the test of line 86 being made against
    [sequence + length] of [p]. *)
Definition turn_events (b : list recv_event * bytes) : list recv_event :=
  fst b ++ [Datagram (snd b)].

Definition attempts (b : list recv_event * bytes) : nat :=
  S (length (fst b)).

Definition acked_by (p : packet) (b : list recv_event * bytes) : Prop :=
  Forall (resend_event (end_offset p)) (fst b)
  /\ accepts (end_offset p) (snd b) = Ok true.

(** ** The two senders side by side

    Two transfers that stand at the same point: both in the data
    phase, both in teardown, both closed, or both ended by the same
    exception, with the same frames sent when a frame repeated at once
    is counted once.  The metrics are not compared; those of one
    script may raise [ZeroDivisionError] after the session was closed
    while those of the other do not. *)
Definition same_stage (w s : option transfer) : Prop :=
  match w, s with
  | Some (InData e1), Some (InData e2)
  | Some (InTeardown e1), Some (InTeardown e2)
  | Some (Finished _ e1), Some (Finished _ e2) =>
    collapse (e_outbox e1) = collapse (e_outbox e2)
  | Some (Failed x), Some (Failed y) => x = y
  | Some (Finished _ _), Some (Failed y) => y = ZeroDivisionError
  | Some (Failed x), Some (Finished _ _) => x = ZeroDivisionError
  | _, _ => False
  end.

(** Twenty bytes in chunks of ten, and a receiver that got both
    segments before the second one was sent: its first ACK already
    carries offset 20. *)
Definition hasty_events : list recv_event :=
  [Datagram (ack_frame 20); Datagram (ack_frame 20);
   Datagram (fin_frame 0)].

(* ================================================================= *)
(** * Properties *)

(** ** Frame codec *)

Local Open Scope Z_scope.

Lemma Z_of_byte_range (b : byte) : 0 <= Z_of_byte b < 256.
Proof.
  unfold Z_of_byte. pose proof (Byte.to_N_bounded b). lia.
Qed.

Lemma Z_of_byte_of_Z (z : Z) : Z_of_byte (byte_of_Z z) = z mod 256.
Proof.
  unfold Z_of_byte, byte_of_Z.
  change 255 with (Z.ones 8). rewrite Z.land_ones by lia.
  change (2 ^ 8) with 256.
  pose proof (Z.mod_pos_bound z 256 ltac:(lia)) as Hb.
  destruct (Byte.of_N (Z.to_N (z mod 256))) as [b|] eqn:E.
  - apply Byte.to_of_N in E. rewrite E. lia.
  - apply Byte.of_N_None_iff in E. lia.
Qed.

Lemma be_unsigned_acc (bs : bytes) (acc : Z) :
  fold_left (fun a b => a * 256 + Z_of_byte b) bs acc
  = acc * 256 ^ len bs + be_unsigned bs.
Proof.
  unfold be_unsigned, len. revert acc.
  induction bs as [|b bs IH]; intros acc.
  - simpl. lia.
  - cbn [fold_left]. rewrite IH, (IH (0 * 256 + Z_of_byte b)).
    replace (Z.of_nat (length (b :: bs))) with (1 + Z.of_nat (length bs))
      by (cbn [length]; lia).
    rewrite Z.pow_add_r by lia. lia.
Qed.

Lemma be_bytes_length (n : nat) (x : Z) : length (be_bytes n x) = n.
Proof. induction n; simpl; congruence. Qed.

Lemma be_unsigned_be_bytes (n : nat) (x : Z) :
  be_unsigned (be_bytes n x) = x mod 2 ^ (8 * Z.of_nat n).
Proof.
  induction n as [|k IH].
  - simpl. now rewrite Z.mod_1_r.
  - cbn [be_bytes]. unfold be_unsigned. cbn [fold_left].
    rewrite be_unsigned_acc, IH. unfold len. rewrite be_bytes_length.
    rewrite Z_of_byte_of_Z, Z.shiftr_div_pow2 by lia.
    replace (8 * Z.of_nat (S k)) with (8 * Z.of_nat k + 8) by lia.
    rewrite Z.pow_add_r by lia. change (2 ^ 8) with 256.
    replace (256 ^ Z.of_nat k) with (2 ^ (8 * Z.of_nat k)).
    2:{ rewrite Z.pow_mul_r by lia. reflexivity. }
    set (m := 2 ^ (8 * Z.of_nat k)).
    assert (0 < m) by (apply Z.pow_pos_nonneg; lia).
    rewrite (Z.rem_mul_r x m 256) by lia. ring.
Qed.

Lemma int_to_bytes_ok_iff (x : Z) (n : nat) :
  (0 < n)%nat ->
  is_ok (int_to_bytes x n) = true
  <-> - 2 ^ (8 * Z.of_nat n - 1) <= x < 2 ^ (8 * Z.of_nat n - 1).
Proof.
  intros _. unfold int_to_bytes. cbv zeta.
  destruct (Z.leb_spec (- 2 ^ (8 * Z.of_nat n - 1)) x);
    destruct (Z.ltb_spec x (2 ^ (8 * Z.of_nat n - 1))); cbn [andb is_ok];
    split; intros; try discriminate; try reflexivity; lia.
Qed.

Lemma int_from_to_bytes (x : Z) (n : nat) (bs : bytes) :
  (0 < n)%nat ->
  int_to_bytes x n = Ok bs -> int_from_bytes bs = x.
Proof.
  intros Hn. unfold int_to_bytes.
  set (bits := 8 * Z.of_nat n).
  destruct (Z.leb_spec (- 2 ^ (bits - 1)) x); [|discriminate].
  destruct (Z.ltb_spec x (2 ^ (bits - 1))); [|discriminate].
  cbn [andb]. intros [= <-]. unfold int_from_bytes.
  rewrite be_bytes_length, be_unsigned_be_bytes. fold bits.
  destruct n as [|k]; [lia|]. cbn [be_bytes].
  assert (Hp : 2 ^ bits = 2 * 2 ^ (bits - 1)).
  { replace bits with (1 + (bits - 1)) at 1 by lia.
    rewrite Z.pow_add_r by (subst bits; lia). reflexivity. }
  assert (0 < 2 ^ (bits - 1)) by (apply Z.pow_pos_nonneg; subst bits; lia).
  destruct (Z_lt_le_dec x 0) as [Hneg|Hpos].
  - rewrite <- (Z.mod_add x 1 (2 ^ bits)) by lia.
    rewrite Z.mod_small by lia.
    destruct (Z.leb_spec (2 ^ (bits - 1)) (x + 1 * 2 ^ bits)); lia.
  - rewrite Z.mod_small by lia.
    destruct (Z.leb_spec (2 ^ (bits - 1)) x); lia.
Qed.

Lemma encode_frame_split (seq : Z) (data frame : bytes) :
  encode_frame seq data = Ok frame ->
  header frame = be_bytes SEQ_SIZE seq /\ body frame = data.
Proof.
  unfold encode_frame, int_to_bytes, bind. cbv zeta.
  destruct (_ && _); [|discriminate]. intros [= <-].
  split; reflexivity.
Qed.

Example header_of_1020 :
  encode_frame 1020 [x61] = Ok [x00; x00; x03; xfc; x61].
Proof. reflexivity. Qed.

Example header_of_minus_one :
  encode_frame (-1) [] = Ok [xff; xff; xff; xff].
Proof. reflexivity. Qed.

Example short_header_decodes :
  int_from_bytes (header [xff; x01]) = -255 /\ body [xff; x01] = [].
Proof. split; reflexivity. Qed.

Lemma encode_frame_cases (seq : Z) (data : bytes) :
  (- 2 ^ 31 <= seq <= 2 ^ 31 - 1
   /\ encode_frame seq data = Ok (be_bytes SEQ_SIZE seq ++ data))
  \/ (~ - 2 ^ 31 <= seq <= 2 ^ 31 - 1
      /\ encode_frame seq data = Raise OverflowError).
Proof.
  unfold encode_frame, int_to_bytes, bind. cbv zeta.
  change (8 * Z.of_nat SEQ_SIZE - 1) with 31.
  destruct (Z.leb_spec (- 2 ^ 31) seq);
    destruct (Z.ltb_spec seq (2 ^ 31)); cbn [andb];
    [left | right | right | right]; split; try reflexivity; lia.
Qed.

(** C10: the header of a frame is the 4-byte big-endian two's-complement
    form of the offset.  Encoding succeeds exactly for offsets in
    [-2^31, 2^31 - 1]; an offset of 2^31 or more (a data frame that far
    into the payload, or the terminal frame of a payload that long)
    raises [OverflowError] instead of wrapping; and decoding the header
    of an encoded frame gives the offset back, the rest being the body. *)
Theorem header_codec_range_and_roundtrip (seq : Z) (data contents : bytes) :
  (is_ok (encode_frame seq data) = true <-> - 2 ^ 31 <= seq <= 2 ^ 31 - 1)
  /\ (2 ^ 31 <= seq -> encode_frame seq data = Raise OverflowError)
  /\ (2 ^ 31 <= len contents ->
      encode_frame (len contents) [] = Raise OverflowError)
  /\ (forall frame,
        encode_frame seq data = Ok frame ->
        header frame
          = [byte_of_Z (Z.shiftr seq 24); byte_of_Z (Z.shiftr seq 16);
             byte_of_Z (Z.shiftr seq 8); byte_of_Z (Z.shiftr seq 0)]
        /\ int_from_bytes (header frame) = seq
        /\ body frame = data).
Proof.
  assert (Hover : forall s d, 2 ^ 31 <= s ->
                    encode_frame s d = Raise OverflowError).
  { intros s d Hs.
    destruct (encode_frame_cases s d) as [[Hr _]|[_ He]]; [lia|exact He]. }
  destruct (encode_frame_cases seq data) as [[Hr He]|[Hr He]];
    rewrite He; cbn [is_ok].
  - repeat split; try (intros; lia); try (intros; now apply Hover).
    + injection H as <-. reflexivity.
    + injection H as <-.
      apply int_from_to_bytes with (n := SEQ_SIZE); [unfold SEQ_SIZE; lia|].
      unfold int_to_bytes. cbv zeta.
      change (8 * Z.of_nat SEQ_SIZE - 1) with 31.
      destruct (Z.leb_spec (- 2 ^ 31) seq); [|lia].
      destruct (Z.ltb_spec seq (2 ^ 31)); [|lia]. reflexivity.
    + injection H as <-. reflexivity.
  - repeat split; try discriminate; try (intros; lia);
      try (intros; now apply Hover).
Qed.

(** ** Segmenter *)

Lemma slice_length (l : bytes) (pos chunk : Z) :
  0 <= pos <= len l -> 0 <= chunk ->
  len (slice l pos (pos + chunk)) = Z.min chunk (len l - pos).
Proof.
  intros Hp Hc. unfold slice, len in *.
  rewrite length_firstn, length_skipn. lia.
Qed.

Lemma slice_skipn (l : bytes) (pos chunk : Z) :
  0 <= pos -> 0 <= chunk ->
  slice l pos (pos + chunk)
    ++ skipn (Z.to_nat (pos + len (slice l pos (pos + chunk)))) l
  = skipn (Z.to_nat pos) l.
Proof.
  intros Hp Hc. unfold slice, len.
  set (k := Z.to_nat (pos + chunk - pos)).
  set (r := skipn (Z.to_nat pos) l).
  replace (Z.to_nat (pos + Z.of_nat (length (firstn k r))))
    with (length (firstn k r) + Z.to_nat pos)%nat by lia.
  rewrite <- skipn_skipn. fold r.
  rewrite length_firstn.
  destruct (Nat.le_ge_cases k (length r)) as [Hle|Hge].
  - rewrite Nat.min_l by exact Hle. apply firstn_skipn.
  - rewrite Nat.min_r by exact Hge.
    rewrite skipn_all, firstn_all2 by lia. apply app_nil_r.
Qed.

Lemma payload_of_frame (pos : Z) (data : bytes) (a : bool)
    (f r : option float) (n : Z) :
  payload {| sequence := pos; raw := be_bytes SEQ_SIZE pos ++ data;
             pkt_length := n; is_acked := a;
             first_sent := f; recent_sent := r |} = data.
Proof. reflexivity. Qed.

Lemma build_packets_spec (fuel : nat) (chunk : Z) (contents : bytes) :
  0 < chunk ->
  (forall j, 0 <= j -> j * chunk < len contents -> j * chunk < 2 ^ 31) ->
  forall (position : Z) (acc : list packet),
    0 <= position <= len contents ->
    (position < len contents -> exists j, 0 <= j /\ position = j * chunk) ->
    (Z.to_nat (len contents - position) < fuel)%nat ->
    exists tbl,
      build_packets fuel chunk contents position acc = Some (Ok (acc ++ tbl))
      /\ segments_from chunk contents position tbl.
Proof.
  intros Hc Henc.
  induction fuel as [|fuel IH]; intros position acc Hp Hmul Hf.
  - lia.
  - cbn [build_packets].
    destruct (Z.ltb_spec position (len contents)) as [Hlt|Hge].
    + destruct (Hmul Hlt) as (j & Hj & Hpj).
      assert (Hfit : position < 2 ^ 31)
        by (rewrite Hpj; apply Henc; [exact Hj | rewrite <- Hpj; exact Hlt]).
      destruct (encode_frame_cases position
                  (slice contents position (position + chunk)))
        as [[_ He]|[Hr _]]; [|lia].
      rewrite He.
      pose proof (slice_length contents position chunk Hp ltac:(lia)) as Hl.
      set (data := slice contents position (position + chunk)) in *.
      destruct (IH (position + len data)
                  (acc ++ [ {| sequence := position;
                               raw := be_bytes SEQ_SIZE position ++ data;
                               pkt_length := len data;
                               is_acked := false;
                               first_sent := None;
                               recent_sent := None |} ]))
        as [tbl [Hb Hs]]; [lia | | lia |].
      { intros Hnext. exists (j + 1). split; [lia|].
        assert (len data = chunk) by lia. lia. }
      eexists (_ :: tbl). split.
      * rewrite Hb, <- app_assoc. reflexivity.
      * cbn [segments_from]. fold data. auto.
    + exists []. rewrite app_nil_r. split; [reflexivity|].
      cbn [segments_from]. lia.
Qed.

Lemma build_packets_overflow (chunk : Z) (contents : bytes) (k : Z) :
  0 < chunk -> 2 ^ 31 <= k * chunk < len contents ->
  forall (fuel : nat) (j : Z) (acc : list packet),
    0 <= j <= k ->
    (Z.to_nat (len contents - j * chunk) < fuel)%nat ->
    build_packets fuel chunk contents (j * chunk) acc
    = Some (Raise OverflowError).
Proof.
  intros Hc Hk. induction fuel as [|fuel IH]; intros j acc Hj Hf.
  - lia.
  - cbn [build_packets].
    destruct (Z.ltb_spec (j * chunk) (len contents)) as [Hlt|Hge]; [|nia].
    destruct (encode_frame_cases (j * chunk)
                (slice contents (j * chunk) (j * chunk + chunk)))
      as [[Hr He]|[_ He]]; rewrite He; [|reflexivity].
    assert (Hjk : j < k) by nia.
    pose proof (slice_length contents (j * chunk) chunk ltac:(nia)
                  ltac:(lia)) as Hl.
    rewrite Z.min_l in Hl by nia. rewrite Hl.
    replace (j * chunk + chunk) with ((j + 1) * chunk) by ring.
    apply IH; [lia|]. nia.
Qed.

Lemma segments_concat (chunk : Z) (contents : bytes) (tbl : list packet) :
  0 <= chunk ->
  forall pos, 0 <= pos ->
    segments_from chunk contents pos tbl ->
    concat (map payload tbl) = skipn (Z.to_nat pos) contents.
Proof.
  intros Hc. induction tbl as [|p rest IH]; intros pos Hp Hs.
  - cbn [segments_from] in Hs. cbn [map concat].
    symmetry. apply skipn_all2. unfold len in Hs. lia.
  - cbn [segments_from] in Hs. destruct Hs as (Hlt & -> & Hrest).
    cbn [map concat]. rewrite payload_of_frame.
    rewrite (IH (pos + len (slice contents pos (pos + chunk)))
               ltac:(unfold len; lia) Hrest).
    apply slice_skipn; assumption.
Qed.

Lemma segments_nth (chunk : Z) (contents : bytes) (tbl : list packet) :
  0 < chunk ->
  forall pos i p, 0 <= pos ->
    segments_from chunk contents pos tbl ->
    nth_error tbl i = Some p ->
    let off := pos + Z.of_nat i * chunk in
    off < len contents
    /\ p = {| sequence := off;
              raw := be_bytes SEQ_SIZE off ++ slice contents off (off + chunk);
              pkt_length := Z.min chunk (len contents - off);
              is_acked := false; first_sent := None; recent_sent := None |}.
Proof.
  intros Hc. induction tbl as [|q rest IH]; intros pos i p Hp Hs Hn.
  - destruct i; discriminate.
  - cbn [segments_from] in Hs. destruct Hs as (Hlt & -> & Hrest).
    pose proof (slice_length contents pos chunk
                  (conj Hp (Z.lt_le_incl _ _ Hlt)) ltac:(lia)) as Hl.
    destruct i as [|i].
    + injection Hn as <-. cbv zeta.
      replace (pos + Z.of_nat 0 * chunk) with pos by lia.
      rewrite Hl. auto.
    + cbn [nth_error] in Hn.
      assert (Hfull : len (slice contents pos (pos + chunk)) = chunk).
      { destruct rest as [|r rest']; [destruct i; discriminate|].
        cbn [segments_from] in Hrest. lia. }
      rewrite Hfull in Hrest.
      specialize (IH (pos + chunk) i p ltac:(lia) Hrest Hn).
      cbv zeta in IH |- *.
      replace (pos + Z.of_nat (S i) * chunk)
        with (pos + chunk + Z.of_nat i * chunk) by lia.
      exact IH.
Qed.

Lemma ceil_div_bounds (n c : Z) :
  0 < c -> (ceil_div n c - 1) * c < n <= ceil_div n c * c.
Proof.
  intros Hc. unfold ceil_div.
  pose proof (Z.div_mod (n + c - 1) c ltac:(lia)) as Hd.
  pose proof (Z.mod_pos_bound (n + c - 1) c Hc) as Hm.
  nia.
Qed.

Lemma ceil_div_unique (n c k : Z) :
  0 < c -> (k - 1) * c < n <= k * c -> ceil_div n c = k.
Proof.
  intros Hc Hk. pose proof (ceil_div_bounds n c Hc) as Hb. nia.
Qed.

Lemma segments_count (chunk : Z) (contents : bytes) (tbl : list packet) :
  0 < chunk ->
  forall pos, 0 <= pos <= len contents ->
    segments_from chunk contents pos tbl ->
    Z.of_nat (length tbl) = ceil_div (len contents - pos) chunk.
Proof.
  intros Hc. induction tbl as [|q rest IH]; intros pos Hp Hs.
  - cbn [segments_from] in Hs. cbn [length].
    symmetry. apply ceil_div_unique; lia.
  - cbn [segments_from] in Hs. destruct Hs as (Hlt & _ & Hrest).
    pose proof (slice_length contents pos chunk Hp ltac:(lia)) as Hl.
    rewrite Hl in Hrest.
    specialize (IH (pos + Z.min chunk (len contents - pos)) ltac:(lia) Hrest).
    pose proof (ceil_div_bounds (len contents - (pos + Z.min chunk
                  (len contents - pos))) chunk Hc) as Hb.
    rewrite <- IH in Hb.
    cbn [length]. rewrite Nat2Z.inj_succ.
    pose proof (Nat2Z.is_nonneg (length rest)) as HL.
    set (L := Z.of_nat (length rest)) in *.
    symmetry. apply ceil_div_unique; [lia|].
    destruct (Z.min_spec chunk (len contents - pos)) as [[? Hm]|[? Hm]];
      rewrite Hm in Hb.
    + nia.
    + assert (L = 0) by nia. nia.
Qed.

Lemma visited_offsets_encodable (n c j : Z) :
  0 < c -> last_offset n c < 2 ^ 31 -> 0 <= j -> j * c < n ->
  j * c < 2 ^ 31.
Proof.
  unfold last_offset. intros Hc Hl Hj Hjn.
  pose proof (ceil_div_bounds n c Hc) as Hb.
  assert (j <= ceil_div n c - 1) by nia. nia.
Qed.

Lemma segment_table_ok (chunk : Z) (contents : bytes) :
  0 < chunk -> last_offset (len contents) chunk < 2 ^ 31 ->
  exists tbl,
    segment_table chunk contents = Some (Ok tbl)
    /\ segments_from chunk contents 0 tbl.
Proof.
  intros Hc Hl. unfold segment_table.
  destruct (build_packets_spec (S (length contents)) chunk contents Hc
              (fun j => visited_offsets_encodable (len contents) chunk j Hc Hl)
              0 [])
    as (tbl & Hb & Hs).
  - unfold len. lia.
  - intros _. exists 0. lia.
  - unfold len. lia.
  - exists tbl. split; [exact Hb | exact Hs].
Qed.

Lemma segment_table_overflow (chunk : Z) (contents : bytes) :
  0 < chunk -> 2 ^ 31 <= last_offset (len contents) chunk ->
  segment_table chunk contents = Some (Raise OverflowError).
Proof.
  intros Hc Hl. unfold segment_table, last_offset in *.
  pose proof (ceil_div_bounds (len contents) chunk Hc) as Hb.
  change 0 with (0 * chunk).
  apply build_packets_overflow with (k := ceil_div (len contents) chunk - 1).
  - exact Hc.
  - lia.
  - nia.
  - unfold len. lia.
Qed.

Lemma len_big_payload : len big_payload = 2147484541.
Proof.
  unfold len, big_payload. rewrite repeat_length. apply Z2Nat.id. lia.
Qed.

Lemma last_offset_big_payload :
  last_offset (len big_payload) DATA_SIZE = 2147484540.
Proof. rewrite len_big_payload. reflexivity. Qed.

Lemma segments_payload_nth (chunk : Z) (contents : bytes)
    (tbl : list packet) (i : nat) (p : packet) :
  0 < chunk -> segments_from chunk contents 0 tbl ->
  nth_error tbl i = Some p ->
  sequence p = Z.of_nat i * chunk
  /\ Z.of_nat i * chunk < len contents
  /\ pkt_length p = Z.min chunk (len contents - Z.of_nat i * chunk)
  /\ len (payload p) = pkt_length p
  /\ is_acked p = false /\ first_sent p = None /\ recent_sent p = None.
Proof.
  intros Hc Hs Hn.
  destruct (segments_nth chunk contents tbl Hc 0 i p ltac:(lia) Hs Hn)
    as [Hlt ->].
  cbn [sequence pkt_length is_acked first_sent recent_sent].
  rewrite payload_of_frame.
  rewrite slice_length by lia.
  repeat split; lia.
Qed.

(** C2, as amended: whenever the offset of the last segment fits the
    signed 32-bit header, the table is built, its payloads concatenated
    in order give back the payload, offsets start at 0, are contiguous
    and strictly increasing, no stored segment is empty (so nothing
    trails a payload that is a multiple of the chunk size), and the
    empty payload gives the empty table. *)
Theorem segmentation_roundtrip (chunk : Z) (contents : bytes) :
  0 < chunk ->
  last_offset (len contents) chunk < 2 ^ 31 ->
  exists tbl,
    segment_table chunk contents = Some (Ok tbl)
    /\ concat (map payload tbl) = contents
    /\ (forall p, nth_error tbl 0 = Some p -> sequence p = 0)
    /\ (forall i p q,
          nth_error tbl i = Some p -> nth_error tbl (S i) = Some q ->
          sequence q = sequence p + len (payload p)
          /\ sequence p < sequence q)
    /\ (forall i p, nth_error tbl i = Some p ->
          0 < len (payload p) <= chunk /\ pkt_length p = len (payload p))
    /\ (contents = [] -> tbl = []).
Proof.
  intros Hc Hl.
  destruct (segment_table_ok chunk contents Hc Hl) as (tbl & Hb & Hs).
  exists tbl. split; [exact Hb|]. split; [|split; [|split; [|split]]].
  - rewrite (segments_concat chunk contents tbl ltac:(lia) 0 ltac:(lia) Hs).
    reflexivity.
  - intros p Hp.
    destruct (segments_payload_nth chunk contents tbl 0 p Hc Hs Hp)
      as (Hseq & _). lia.
  - intros i p q Hp Hq.
    destruct (segments_payload_nth chunk contents tbl i p Hc Hs Hp)
      as (Hsp & Hltp & Hlp & Hpp & _).
    destruct (segments_payload_nth chunk contents tbl (S i) q Hc Hs Hq)
      as (Hsq & Hltq & _).
    lia.
  - intros i p Hp.
    destruct (segments_payload_nth chunk contents tbl i p Hc Hs Hp)
      as (Hsp & Hltp & Hlp & Hpp & _).
    lia.
  - intros ->. destruct tbl as [|p tbl']; [reflexivity|].
    cbn [segments_from] in Hs. destruct Hs as [Hlt _].
    cbn in Hlt. lia.
Qed.

Lemma segmentation_roundtrip_witness :
  exists tbl,
    segment_table 2 [x61; x62; x63; x64] = Some (Ok tbl)
    /\ concat (map payload tbl) = [x61; x62; x63; x64]
    /\ (forall p, nth_error tbl 0 = Some p -> sequence p = 0)
    /\ (forall i p q,
          nth_error tbl i = Some p -> nth_error tbl (S i) = Some q ->
          sequence q = sequence p + len (payload p)
          /\ sequence p < sequence q)
    /\ (forall i p, nth_error tbl i = Some p ->
          0 < len (payload p) <= 2 /\ pkt_length p = len (payload p))
    /\ ([x61; x62; x63; x64] = [] -> tbl = []).
Proof.
  apply (segmentation_roundtrip 2 [x61; x62; x63; x64]).
  - lia.
  - vm_compute. reflexivity.
Defined.

(** C2, as stated, fails: the table is built while headers are encoded,
    and for [big_payload] the header of the last segment (offset
    2147484540) does not fit: [OverflowError], no table. *)
Lemma segmentation_fails_on_big_payload :
  segment_table DATA_SIZE big_payload = Some (Raise OverflowError)
  /\ ~ (exists tbl,
          segment_table DATA_SIZE big_payload = Some (Ok tbl)
          /\ concat (map payload tbl) = big_payload).
Proof.
  assert (H : segment_table DATA_SIZE big_payload
              = Some (Raise OverflowError)).
  { apply segment_table_overflow.
    - reflexivity.
    - rewrite last_offset_big_payload. lia. }
  split; [exact H|]. intros (tbl & Ht & _). rewrite H in Ht. discriminate.
Qed.

(** C9, as amended: a non-empty payload of [n] bytes whose last segment
    offset fits the header is cut into exactly [ceil (n / c)] segments;
    every segment but the last carries [c] bytes and the last one
    [n - (ceil (n / c) - 1) * c]. *)
Theorem segment_count_and_sizes (chunk : Z) (contents : bytes) :
  0 < chunk ->
  contents <> [] ->
  last_offset (len contents) chunk < 2 ^ 31 ->
  exists tbl,
    segment_table chunk contents = Some (Ok tbl)
    /\ Z.of_nat (length tbl) = ceil_div (len contents) chunk
    /\ (forall i p, nth_error tbl i = Some p -> (S i < length tbl)%nat ->
          pkt_length p = chunk /\ len (payload p) = chunk)
    /\ (exists p, nth_error tbl (length tbl - 1) = Some p
          /\ pkt_length p
             = len contents - (ceil_div (len contents) chunk - 1) * chunk
          /\ len (payload p) = pkt_length p).
Proof.
  intros Hc Hne Hl.
  destruct (segment_table_ok chunk contents Hc Hl) as (tbl & Hb & Hs).
  pose proof (segments_count chunk contents tbl Hc 0 ltac:(unfold len; lia)
                Hs) as Hcount.
  rewrite Z.sub_0_r in Hcount.
  pose proof (ceil_div_bounds (len contents) chunk Hc) as Hcd.
  assert (Hpos : 0 < len contents).
  { destruct contents; [congruence|]. unfold len. cbn [length]. lia. }
  exists tbl. split; [exact Hb|]. split; [exact Hcount|]. split.
  - intros i p Hp Hi.
    destruct (segments_payload_nth chunk contents tbl i p Hc Hs Hp)
      as (Hsp & Hltp & Hlp & Hpp & _).
    assert (pkt_length p = chunk) by nia. lia.
  - assert (Hk : (0 < length tbl)%nat) by nia.
    destruct (nth_error tbl (length tbl - 1)) as [p|] eqn:Hp.
    2:{ apply nth_error_None in Hp. lia. }
    exists p. split; [reflexivity|].
    destruct (segments_payload_nth chunk contents tbl _ p Hc Hs Hp)
      as (Hsp & Hltp & Hlp & Hpp & _).
    replace (Z.of_nat (length tbl - 1))
      with (ceil_div (len contents) chunk - 1) in * by lia.
    split; [|exact Hpp]. lia.
Qed.

Lemma segment_count_and_sizes_witness :
  exists tbl,
    segment_table 2 [x61; x62; x63] = Some (Ok tbl)
    /\ Z.of_nat (length tbl) = ceil_div (len [x61; x62; x63]) 2
    /\ (forall i p, nth_error tbl i = Some p -> (S i < length tbl)%nat ->
          pkt_length p = 2 /\ len (payload p) = 2)
    /\ (exists p, nth_error tbl (length tbl - 1) = Some p
          /\ pkt_length p
             = len [x61; x62; x63]
               - (ceil_div (len [x61; x62; x63]) 2 - 1) * 2
          /\ len (payload p) = pkt_length p).
Proof.
  apply (segment_count_and_sizes 2 [x61; x62; x63]).
  - lia.
  - discriminate.
  - vm_compute. reflexivity.
Defined.

(** C9, as stated, fails on [big_payload]: ceil (n / c) is 2105378, but
    encoding the header of the last segment raises and no segment is
    produced. *)
Lemma segment_count_fails_on_big_payload :
  big_payload <> []
  /\ ceil_div (len big_payload) DATA_SIZE = 2105378
  /\ ~ (exists tbl,
          segment_table DATA_SIZE big_payload = Some (Ok tbl)
          /\ Z.of_nat (length tbl) = ceil_div (len big_payload) DATA_SIZE).
Proof.
  split; [|split].
  - intros H. pose proof len_big_payload as Hl. rewrite H in Hl.
    discriminate.
  - rewrite len_big_payload. reflexivity.
  - intros (tbl & Ht & _).
    rewrite segment_table_overflow in Ht.
    + discriminate.
    + reflexivity.
    + rewrite last_offset_big_payload. lia.
Qed.

(** ** Lists and loops *)

Local Close Scope Z_scope.

Lemma update_at_length {A : Type} (i : nat) (f : A -> A) (l : list A) :
  length (update_at i f l) = length l.
Proof.
  revert i. induction l as [|x r IH]; intros [|j]; cbn; auto.
Qed.

Lemma nth_error_update_at {A : Type} (i j : nat) (f : A -> A)
    (l : list A) :
  nth_error (update_at i f l) j
  = if j =? i then option_map f (nth_error l j) else nth_error l j.
Proof.
  revert i j. induction l as [|x r IH]; intros i j.
  - cbn. destruct j, i; cbn; try reflexivity;
      destruct (j =? _); reflexivity.
  - destruct i as [|i], j as [|j]; cbn; try reflexivity.
    apply IH.
Qed.

Lemma for_range_preserves {St A : Type} (proj : St -> A)
    (body : nat -> St -> St) :
  (forall idx s, proj (body idx s) = proj s) ->
  forall n lo s, proj (for_range n lo body s) = proj s.
Proof.
  intros Hb. induction n as [|k IH]; intros lo s; cbn.
  - reflexivity.
  - rewrite IH. apply Hb.
Qed.

Lemma for_range_invariant {St : Type} (P : St -> Prop)
    (body : nat -> St -> St) :
  (forall idx s, P s -> P (body idx s)) ->
  forall n lo s, P s -> P (for_range n lo body s).
Proof.
  intros Hb. induction n as [|k IH]; intros lo s Hs; cbn.
  - exact Hs.
  - apply IH, Hb, Hs.
Qed.

Lemma pointwise_in_refl (R : packet -> packet -> Prop) (lo : nat)
    (l : list packet) :
  pointwise_in R lo lo l l.
Proof.
  split; [reflexivity|]. intros i p Hp. exists p.
  split; [exact Hp|]. split; [lia | reflexivity].
Qed.

Lemma pointwise_in_step (R : packet -> packet -> Prop) (lo hi : nat)
    (l l1 l2 : list packet) :
  pointwise_in R lo (S lo) l l1 ->
  pointwise_in R (S lo) hi l1 l2 ->
  S lo <= hi ->
  pointwise_in R lo hi l l2.
Proof.
  intros [Hl1 H1] [Hl2 H2] Hle. split; [congruence|].
  intros i p Hp.
  destruct (H1 i p Hp) as (p1 & Hp1 & Hin1 & Hout1).
  destruct (H2 i p1 Hp1) as (p2 & Hp2 & Hin2 & Hout2).
  exists p2. split; [exact Hp2|]. split.
  - intros Hi. destruct (Nat.eq_dec i lo) as [->|Hne].
    + rewrite Hout2 by lia. apply Hin1. lia.
    + rewrite <- (Hout1 ltac:(lia)). apply Hin2. lia.
  - intros Hi. rewrite Hout2 by lia. apply Hout1. lia.
Qed.

Lemma for_range_pointwise (R : packet -> packet -> Prop)
    (body : nat -> state -> state) :
  (forall idx st,
      pointwise_in R idx (S idx) (packet_list st)
        (packet_list (body idx st))) ->
  forall n lo st,
    pointwise_in R lo (lo + n) (packet_list st)
      (packet_list (for_range n lo body st)).
Proof.
  intros Hb. induction n as [|k IH]; intros lo st; cbn [for_range].
  - rewrite Nat.add_0_r. apply pointwise_in_refl.
  - apply pointwise_in_step with (l1 := packet_list (body lo st)).
    + apply Hb.
    + replace (lo + S k) with (S lo + k) by lia. apply IH.
    + lia.
Qed.

Lemma py_for_pointwise (R : packet -> packet -> Prop)
    (body : nat -> state -> state) (lo hi : nat) (st : state) :
  (forall idx st,
      pointwise_in R idx (S idx) (packet_list st)
        (packet_list (body idx st))) ->
  pointwise_in R lo hi (packet_list st)
    (packet_list (py_for lo hi body st)).
Proof.
  intros Hb. unfold py_for.
  pose proof (for_range_pointwise R body Hb (hi - lo) lo st) as [Hl H].
  split; [exact Hl|]. intros i p Hp.
  destruct (H i p Hp) as (p' & Hp' & Hin & Hout).
  exists p'. split; [exact Hp'|]. split; intros Hi.
  - apply Hin. lia.
  - apply Hout. lia.
Qed.

Lemma pointwise_in_map {B : Type} (R : packet -> packet -> Prop)
    (f : packet -> B) (lo hi : nat) (l l' : list packet) :
  pointwise_in R lo hi l l' ->
  (forall p p', R p p' -> f p' = f p) ->
  map f l' = map f l.
Proof.
  intros [Hl H] Hf. apply nth_error_ext. intros i.
  rewrite !nth_error_map.
  destruct (nth_error l i) as [p|] eqn:Hp.
  - destruct (H i p Hp) as (p' & Hp' & Hin & Hout). rewrite Hp'. cbn.
    f_equal.
    destruct (le_lt_dec lo i) as [H1|H1];
      [destruct (le_lt_dec hi i) as [H2|H2]|].
    + rewrite Hout by lia. reflexivity.
    + apply Hf, Hin. lia.
    + rewrite Hout by lia. reflexivity.
  - apply nth_error_None in Hp.
    assert (Hn : nth_error l' i = None) by (apply nth_error_None; lia).
    rewrite Hn. reflexivity.
Qed.

Lemma pointwise_in_full (g : packet -> packet) (l l' : list packet) :
  pointwise_in (fun p p' => p' = g p) 0 (length l) l l' ->
  l' = map g l.
Proof.
  intros [Hl H]. apply nth_error_ext. intros i.
  rewrite nth_error_map.
  destruct (nth_error l i) as [p|] eqn:Hp.
  - destruct (H i p Hp) as (p' & Hp' & Hin & _). rewrite Hp'. cbn.
    f_equal. apply Hin.
    assert (i < length l) by (apply nth_error_Some; congruence). lia.
  - apply nth_error_None in Hp. cbn.
    apply nth_error_None. lia.
Qed.

Lemma pointwise_at_update (R : packet -> packet -> Prop) (idx : nat)
    (f : packet -> packet) (l : list packet) :
  (forall p, nth_error l idx = Some p -> R p (f p)) ->
  pointwise_in R idx (S idx) l (update_at idx f l).
Proof.
  intros Hf. split; [apply update_at_length|].
  intros i p Hp. rewrite nth_error_update_at.
  destruct (Nat.eqb_spec i idx) as [->|Hne].
  - rewrite Hp. cbn. exists (f p). split; [reflexivity|].
    split; [intros _; apply Hf, Hp | lia].
  - exists p. split; [exact Hp|]. split; [lia | reflexivity].
Qed.

Lemma update_at_twice {A : Type} (i : nat) (f g : A -> A) (l : list A) :
  update_at i g (update_at i f l) = update_at i (fun x => g (f x)) l.
Proof.
  revert i. induction l as [|x r IH]; intros [|j]; cbn; try reflexivity.
  f_equal. apply IH.
Qed.

(** ** What each loop body does to the table *)

Lemma burst_body_pointwise (idx : nat) (st : state) :
  pointwise_in R_burst idx (S idx) (packet_list st)
    (packet_list (burst_body idx st)).
Proof.
  unfold burst_body.
  destruct (nth_error (packet_list st) idx) as [pkt|] eqn:Hp.
  - cbn. rewrite update_at_twice. apply pointwise_at_update.
    intros p _. eexists _, _. reflexivity.
  - split; [reflexivity|]. intros i p Hi. exists p.
    split; [exact Hi|]. split; [|reflexivity].
    intros Hr. assert (i = idx) by lia. congruence.
Qed.

Lemma mark_body_pointwise (a : Z) (idx : nat) (st : state) :
  pointwise_in (R_mark a) idx (S idx) (packet_list st)
    (packet_list (mark_body a idx st)).
Proof.
  unfold mark_body.
  destruct (nth_error (packet_list st) idx) as [pkt|] eqn:Hp.
  - destruct ((sequence pkt + pkt_length pkt <=? a)%Z
              && negb (is_acked pkt)) eqn:Hc.
    + assert (Hl : packet_list
                     (match first_sent pkt with
                      | Some fs =>
                        set_delays
                          (delays (snd (time_time
                             (modify_packet idx (set_is_acked true) st)))
                           ++ [PrimFloat.sub
                                 (fst (time_time
                                    (modify_packet idx (set_is_acked true)
                                       st))) fs])
                          (snd (time_time
                             (modify_packet idx (set_is_acked true) st)))
                      | None => modify_packet idx (set_is_acked true) st
                      end)
                   = update_at idx (set_is_acked true) (packet_list st))
        by (destruct (first_sent pkt); reflexivity).
      rewrite Hl. apply pointwise_at_update.
      intros p Hp'. unfold R_mark, mark_pkt, end_offset.
      assert (p = pkt) by congruence. subst p. rewrite Hc. reflexivity.
    + split; [reflexivity|]. intros i p Hi. exists p.
      split; [exact Hi|]. split; [|reflexivity].
      intros Hr. assert (i = idx) by lia. subst i.
      assert (p = pkt) by congruence. subst p.
      unfold R_mark, mark_pkt, end_offset. rewrite Hc. reflexivity.
  - split; [reflexivity|]. intros i p Hi. exists p.
    split; [exact Hi|]. split; [|reflexivity].
    intros Hr. assert (i = idx) by lia. congruence.
Qed.

Lemma send_body_pointwise (idx : nat) (st : state) :
  pointwise_in R_send idx (S idx) (packet_list st)
    (packet_list (send_body idx st)).
Proof.
  unfold send_body.
  destruct (nth_error (packet_list st) idx) as [pkt|] eqn:Hp.
  - destruct (is_acked pkt) eqn:Ha; cbn [negb].
    + split; [reflexivity|]. intros i p Hi. exists p.
      split; [exact Hi|]. split; [|reflexivity].
      intros Hr. assert (i = idx) by lia. subst i.
      assert (p = pkt) by congruence. subst p. left. auto.
    + destruct (first_sent pkt) as [fs|] eqn:Hf.
      * cbn. apply pointwise_at_update. intros p Hp'.
        assert (p = pkt) by congruence. subst p. right.
        split; [exact Ha|]. rewrite Hf. eexists (clock st 0), _.
        reflexivity.
      * cbn. rewrite update_at_twice. apply pointwise_at_update.
        intros p Hp'. assert (p = pkt) by congruence. subst p. right.
        split; [exact Ha|]. rewrite Hf. eexists _, _. reflexivity.
  - split; [reflexivity|]. intros i p Hi. exists p.
    split; [exact Hi|]. split; [|reflexivity].
    intros Hr. assert (i = idx) by lia. congruence.
Qed.

Lemma sweep_body_pointwise (now : float) (idx : nat) (st : state) :
  pointwise_in R_sweep idx (S idx) (packet_list st)
    (packet_list (sweep_body now idx st)).
Proof.
  unfold sweep_body.
  assert (Hsame : pointwise_in R_sweep idx (S idx) (packet_list st)
                    (packet_list st)).
  { split; [reflexivity|]. intros i p Hi. exists p.
    split; [exact Hi|]. split; [left|]; reflexivity. }
  destruct (nth_error (packet_list st) idx) as [pkt|] eqn:Hp;
    [|exact Hsame].
  destruct (recent_sent pkt) as [rs|] eqn:Hr; [|exact Hsame].
  destruct (is_acked pkt) eqn:Ha; cbn [negb andb]; [exact Hsame|].
  destruct (PrimFloat.ltb RETRANSMIT_TIME (PrimFloat.sub now rs));
    [|exact Hsame].
  cbn. apply pointwise_at_update. intros p Hp'.
  assert (p = pkt) by congruence. subst p. right.
  split; [exact Ha|]. split; [congruence|]. eexists. reflexivity.
Qed.

(** Cursors and the clock are not touched by the loop bodies. *)
Lemma burst_body_frame (idx : nat) (st : state) :
  left_edge (burst_body idx st) = left_edge st
  /\ send_next (burst_body idx st) = send_next st
  /\ clock (burst_body idx st) = clock st
  /\ delays (burst_body idx st) = delays st.
Proof.
  unfold burst_body. destruct (nth_error (packet_list st) idx); cbn; auto.
Qed.

Lemma mark_body_frame (a : Z) (idx : nat) (st : state) :
  left_edge (mark_body a idx st) = left_edge st
  /\ send_next (mark_body a idx st) = send_next st
  /\ clock (mark_body a idx st) = clock st
  /\ outbox (mark_body a idx st) = outbox st.
Proof.
  unfold mark_body. destruct (nth_error (packet_list st) idx) as [p|];
    [|auto].
  destruct (_ && _); [|auto]. destruct (first_sent p); cbn; auto.
Qed.

Lemma send_body_frame (idx : nat) (st : state) :
  left_edge (send_body idx st) = left_edge st
  /\ send_next (send_body idx st) = send_next st
  /\ clock (send_body idx st) = clock st
  /\ delays (send_body idx st) = delays st.
Proof.
  unfold send_body. destruct (nth_error (packet_list st) idx) as [p|];
    [|auto].
  destruct (negb (is_acked p)); [|auto].
  destruct (first_sent p); cbn; auto.
Qed.

Lemma sweep_body_frame (now : float) (idx : nat) (st : state) :
  left_edge (sweep_body now idx st) = left_edge st
  /\ send_next (sweep_body now idx st) = send_next st
  /\ clock (sweep_body now idx st) = clock st
  /\ delays (sweep_body now idx st) = delays st.
Proof.
  unfold sweep_body. destruct (nth_error (packet_list st) idx) as [p|];
    [|auto].
  destruct (recent_sent p); [|auto].
  destruct (_ && _); cbn; auto.
Qed.

(** ** Phases of the response handler *)

Lemma mark_acked_packets (a : Z) (st : state) :
  packet_list (mark_acked a st) = map (mark_pkt a) (packet_list st).
Proof.
  unfold mark_acked. apply pointwise_in_full.
  apply (py_for_pointwise (R_mark a) (mark_body a) 0 (num_packets st) st).
  apply mark_body_pointwise.
Qed.

Lemma mark_acked_frame (a : Z) (st : state) :
  left_edge (mark_acked a st) = left_edge st
  /\ send_next (mark_acked a st) = send_next st
  /\ clock (mark_acked a st) = clock st
  /\ outbox (mark_acked a st) = outbox st.
Proof.
  unfold mark_acked, py_for. repeat split.
  - apply (for_range_preserves left_edge). intros. apply mark_body_frame.
  - apply (for_range_preserves send_next). intros. apply mark_body_frame.
  - apply (for_range_preserves clock). intros. apply mark_body_frame.
  - apply (for_range_preserves outbox). intros. apply mark_body_frame.
Qed.

Lemma send_loop_frame (lo hi : nat) (st : state) :
  left_edge (py_for lo hi send_body st) = left_edge st
  /\ send_next (py_for lo hi send_body st) = send_next st
  /\ clock (py_for lo hi send_body st) = clock st
  /\ delays (py_for lo hi send_body st) = delays st.
Proof.
  unfold py_for. repeat split.
  - apply (for_range_preserves left_edge). intros. apply send_body_frame.
  - apply (for_range_preserves send_next). intros. apply send_body_frame.
  - apply (for_range_preserves clock). intros. apply send_body_frame.
  - apply (for_range_preserves delays). intros. apply send_body_frame.
Qed.

Lemma sweep_loop_frame (now : float) (lo hi : nat) (st : state) :
  left_edge (py_for lo hi (sweep_body now) st) = left_edge st
  /\ send_next (py_for lo hi (sweep_body now) st) = send_next st
  /\ clock (py_for lo hi (sweep_body now) st) = clock st
  /\ delays (py_for lo hi (sweep_body now) st) = delays st.
Proof.
  unfold py_for. repeat split.
  - apply (for_range_preserves left_edge). intros. apply sweep_body_frame.
  - apply (for_range_preserves send_next). intros. apply sweep_body_frame.
  - apply (for_range_preserves clock). intros. apply sweep_body_frame.
  - apply (for_range_preserves delays). intros. apply sweep_body_frame.
Qed.

Lemma burst_loop_frame (lo hi : nat) (st : state) :
  left_edge (py_for lo hi burst_body st) = left_edge st
  /\ send_next (py_for lo hi burst_body st) = send_next st
  /\ clock (py_for lo hi burst_body st) = clock st
  /\ delays (py_for lo hi burst_body st) = delays st.
Proof.
  unfold py_for. repeat split.
  - apply (for_range_preserves left_edge). intros. apply burst_body_frame.
  - apply (for_range_preserves send_next). intros. apply burst_body_frame.
  - apply (for_range_preserves clock). intros. apply burst_body_frame.
  - apply (for_range_preserves delays). intros. apply burst_body_frame.
Qed.

Lemma timer_check_pointwise (window : nat) (st : state) :
  exists lo hi,
    pointwise_in R_sweep lo hi (packet_list st)
      (packet_list (timer_check window st)).
Proof.
  unfold timer_check.
  destruct (PrimFloat.ltb _ _).
  - eexists _, _. cbn [packet_list set_last_check].
    apply (py_for_pointwise R_sweep (sweep_body (fst (time_time st)))
             _ _ (snd (time_time st))).
    apply sweep_body_pointwise.
  - exists 0, 0. apply pointwise_in_refl.
Qed.

Lemma timer_check_frame (window : nat) (st : state) :
  left_edge (timer_check window st) = left_edge st
  /\ send_next (timer_check window st) = send_next st
  /\ clock (timer_check window st) = clock st
  /\ delays (timer_check window st) = delays st.
Proof.
  unfold timer_check.
  destruct (PrimFloat.ltb _ _); [|cbn; auto].
  destruct (sweep_loop_frame (fst (time_time st))
              (left_edge (snd (time_time st)))
              (right_edge window (snd (time_time st)))
              (snd (time_time st))) as (H1 & H2 & H3 & H4).
  cbn [left_edge send_next clock delays set_last_check].
  rewrite H1, H2, H3, H4. cbn. auto.
Qed.

(** ** Sliding the left edge *)

Lemma slide_ge (l : list packet) (e : nat) : e <= slide l e.
Proof. unfold slide. lia. Qed.

Lemma acked_run_le (l : list packet) : acked_run l <= length l.
Proof.
  induction l as [|p r IH]; cbn; [lia|]. destruct (is_acked p); lia.
Qed.

Lemma slide_le (l : list packet) (e : nat) :
  e <= length l -> slide l e <= length l.
Proof.
  intros He. unfold slide.
  pose proof (acked_run_le (skipn e l)) as H. rewrite length_skipn in H.
  lia.
Qed.

Lemma acked_run_acked (l : list packet) (i : nat) (p : packet) :
  i < acked_run l -> nth_error l i = Some p -> is_acked p = true.
Proof.
  revert i. induction l as [|q r IH]; intros i Hi Hp; cbn in Hi; [lia|].
  destruct (is_acked q) eqn:Hq; [|lia].
  destruct i as [|i]; cbn in Hp.
  - congruence.
  - apply (IH i); [lia | exact Hp].
Qed.

Lemma acked_run_stop (l : list packet) (p : packet) :
  nth_error l (acked_run l) = Some p -> is_acked p = false.
Proof.
  induction l as [|q r IH]; cbn; [discriminate|].
  destruct (is_acked q) eqn:Hq; cbn.
  - exact IH.
  - congruence.
Qed.

Lemma slide_acked (l : list packet) (e i : nat) (p : packet) :
  e <= i < slide l e -> nth_error l i = Some p -> is_acked p = true.
Proof.
  unfold slide. intros Hi Hp.
  apply (acked_run_acked (skipn e l) (i - e)); [lia|].
  rewrite nth_error_skipn. replace (e + (i - e)) with i by lia. exact Hp.
Qed.

Lemma slide_stop (l : list packet) (e : nat) (p : packet) :
  nth_error l (slide l e) = Some p -> is_acked p = false.
Proof.
  unfold slide. intros Hp. apply (acked_run_stop (skipn e l)).
  rewrite nth_error_skipn. exact Hp.
Qed.

(** ** The window invariant *)

Lemma pointwise_in_inv (R : packet -> packet -> Prop) (lo hi : nat)
    (l l' : list packet) (i : nat) (p' : packet) :
  pointwise_in R lo hi l l' ->
  nth_error l' i = Some p' ->
  exists p, nth_error l i = Some p
            /\ (lo <= i < hi -> R p p')
            /\ (~ lo <= i < hi -> p' = p).
Proof.
  intros [Hl H] Hp'.
  destruct (nth_error l i) as [p|] eqn:Hp.
  - destruct (H i p Hp) as (q & Hq & Hin & Hout).
    assert (q = p') by congruence. subst q. exists p. auto.
  - apply nth_error_None in Hp.
    assert (nth_error l' i = None) by (apply nth_error_None; lia).
    congruence.
Qed.

Lemma R_send_keeps_acked (p p' : packet) :
  R_send p p' -> is_acked p' = is_acked p.
Proof.
  intros [[_ ->]|(_ & t1 & t2 & ->)]; [reflexivity|].
  destruct (first_sent p); reflexivity.
Qed.

Lemma R_sweep_keeps_acked (p p' : packet) :
  R_sweep p p' -> is_acked p' = is_acked p.
Proof. intros [->|(_ & _ & t & ->)]; reflexivity. Qed.

Lemma R_sweep_keeps_first_sent (p p' : packet) :
  R_sweep p p' -> first_sent p' = first_sent p.
Proof. intros [->|(_ & _ & t & ->)]; reflexivity. Qed.

Lemma R_burst_keeps_acked (p p' : packet) :
  R_burst p p' -> is_acked p' = is_acked p.
Proof. intros (t1 & t2 & ->). reflexivity. Qed.

Lemma mark_pkt_first_sent (a : Z) (p : packet) :
  first_sent (mark_pkt a p) = first_sent p.
Proof. unfold mark_pkt. destruct (_ && _); reflexivity. Qed.

Lemma mark_pkt_acked (a : Z) (p : packet) :
  is_acked (mark_pkt a p) = is_acked p || (end_offset p <=? a)%Z.
Proof.
  unfold mark_pkt.
  destruct (end_offset p <=? a)%Z; destruct (is_acked p) eqn:E; cbn;
    rewrite ?E; reflexivity.
Qed.

Lemma mark_pkt_end_offset (a : Z) (p : packet) :
  end_offset (mark_pkt a p) = end_offset p.
Proof. unfold mark_pkt. destruct (_ && _); reflexivity. Qed.

Lemma outstanding_window (l : list packet) :
  forall lo hi,
    (forall i p, nth_error l i = Some p -> i < lo -> is_acked p = true) ->
    (forall i p, nth_error l i = Some p -> hi <= i ->
                 first_sent p = None) ->
    outstanding l <= hi - lo.
Proof.
  unfold outstanding. induction l as [|q r IH]; intros lo hi Hlo Hhi.
  - cbn. lia.
  - assert (Hr : length (filter is_outstanding r) <= (hi - 1) - (lo - 1)).
    { apply IH.
      - intros i p Hp Hi. apply (Hlo (S i) p Hp). lia.
      - intros i p Hp Hi. apply (Hhi (S i) p Hp). lia. }
    cbn [filter]. unfold is_outstanding at 1.
    destruct lo as [|lo].
    + destruct hi as [|hi].
      * rewrite (Hhi 0 q eq_refl ltac:(lia)). cbn in *. lia.
      * destruct (first_sent q); [destruct (negb (is_acked q))|];
          cbn [length]; lia.
    + rewrite (Hlo 0 q eq_refl ltac:(lia)).
      destruct (first_sent q); cbn [negb]; lia.
Qed.

Lemma window_inv_outstanding (window : nat) (st : state) :
  window_inv window st ->
  outstanding (packet_list st) <= window /\ left_edge st <= send_next st.
Proof.
  intros (Hle & Hsn & Hack & Hun).
  pose proof (outstanding_window (packet_list st) (left_edge st)
                (send_next st) Hack Hun).
  lia.
Qed.

Lemma fresh_nth (tbl : list packet) (i : nat) (p : packet) :
  fresh tbl -> nth_error tbl i = Some p ->
  is_acked p = false /\ first_sent p = None /\ recent_sent p = None.
Proof.
  intros Hf Hp. unfold fresh in Hf. rewrite Forall_forall in Hf.
  apply Hf. eapply nth_error_In, Hp.
Qed.

Lemma start_packets (window : nat) (clk : nat -> float)
    (tbl : list packet) :
  pointwise_in R_burst 0 (Nat.min window (length tbl)) tbl
    (packet_list (start window clk tbl))
  /\ left_edge (start window clk tbl) = 0
  /\ send_next (start window clk tbl) = Nat.min window (length tbl)
  /\ clock (start window clk tbl) = clk
  /\ delays (start window clk tbl) = [].
Proof.
  unfold start. cbn [left_edge send_next init_state num_packets
                     packet_list Nat.add].
  destruct (burst_loop_frame 0 (Nat.min window (length tbl))
              (init_state clk tbl)) as (H1 & H2 & H3 & H4).
  cbn [packet_list set_last_check set_send_next time_time snd fst
       set_ticks left_edge send_next clock delays].
  repeat split; try assumption.
  - apply (py_for_pointwise R_burst burst_body 0 _ (init_state clk tbl)).
    apply burst_body_pointwise.
  - intros i p Hp.
    destruct (py_for_pointwise R_burst burst_body 0
                (Nat.min window (length tbl)) (init_state clk tbl)
                burst_body_pointwise) as [_ H].
    apply (H i p Hp).
Qed.

Lemma window_inv_start (window : nat) (clk : nat -> float)
    (tbl : list packet) :
  fresh tbl -> window_inv window (start window clk tbl).
Proof.
  intros Hf.
  destruct (start_packets window clk tbl) as (Hpw & Hle & Hsn & _).
  pose proof Hpw as [Hlen _].
  unfold window_inv, num_packets. rewrite Hle, Hsn, Hlen.
  repeat split.
  - lia.
  - intros i p Hp Hi. lia.
  - intros i p Hp Hi.
    destruct (pointwise_in_inv R_burst _ _ _ _ i p Hpw Hp)
      as (q & Hq & _ & Hout).
    rewrite (Hout ltac:(lia)).
    apply (fresh_nth tbl i q Hf Hq).
Qed.

Lemma window_inv_timer (window : nat) (st : state) :
  window_inv window st -> window_inv window (timer_check window st).
Proof.
  intros (Hle & Hsn & Hack & Hun).
  destruct (timer_check_frame window st) as (H1 & H2 & _).
  destruct (timer_check_pointwise window st) as (lo & hi & Hpw).
  pose proof Hpw as [Hlen _].
  unfold window_inv, num_packets in *. rewrite H1, H2, Hlen.
  repeat split; try assumption.
  - intros i p Hp Hi.
    destruct (pointwise_in_inv R_sweep _ _ _ _ i p Hpw Hp)
      as (q & Hq & Hin & Hout).
    destruct (le_lt_dec lo i) as [Hlo|Hlo];
      [destruct (le_lt_dec hi i) as [Hhi|Hhi]|].
    + rewrite (Hout ltac:(lia)). eapply Hack; eassumption.
    + rewrite (R_sweep_keeps_acked q p (Hin ltac:(lia))).
      eapply Hack; eassumption.
    + rewrite (Hout ltac:(lia)). eapply Hack; eassumption.
  - intros i p Hp Hi.
    destruct (pointwise_in_inv R_sweep _ _ _ _ i p Hpw Hp)
      as (q & Hq & Hin & Hout).
    destruct (le_lt_dec lo i) as [Hlo|Hlo];
      [destruct (le_lt_dec hi i) as [Hhi|Hhi]|].
    + rewrite (Hout ltac:(lia)). eapply Hun; eassumption.
    + rewrite (R_sweep_keeps_first_sent q p (Hin ltac:(lia))).
      eapply Hun; eassumption.
    + rewrite (Hout ltac:(lia)). eapply Hun; eassumption.
Qed.

Lemma window_inv_total_acks (window : nat) (st : state) (n : nat) :
  window_inv window st -> window_inv window (set_total_acks n st).
Proof. intros H. exact H. Qed.

Lemma window_inv_ack (window : nat) (a : Z) (st : state) :
  window_inv window st ->
  let st1 := mark_acked a st in
  let st2 := slide_window st1 in
  let st' := if left_edge st1 <? left_edge st2
             then send_new window (clamp_send_next st2) else st2 in
  window_inv window st'
  /\ left_edge st <= left_edge st'
  /\ send_next st <= send_next st'.
Proof.
  intros (Hle & Hsn & Hack & Hun) st1 st2 st'.
  destruct (mark_acked_frame a st) as (Hm1 & Hm2 & _).
  pose proof (mark_acked_packets a st) as Hl1. fold st1 in Hm1, Hm2, Hl1.
  assert (Hn1 : num_packets st1 = num_packets st)
    by (unfold num_packets; rewrite Hl1; apply length_map).
  assert (Hack1 : forall i p, nth_error (packet_list st1) i = Some p ->
                    i < left_edge st1 -> is_acked p = true).
  { intros i p Hp Hi. rewrite Hl1, nth_error_map in Hp.
    destruct (nth_error (packet_list st) i) as [q|] eqn:Hq;
      [|discriminate].
    injection Hp as <-. rewrite mark_pkt_acked.
    rewrite (Hack i q Hq ltac:(lia)). reflexivity. }
  assert (Hun1 : forall i p, nth_error (packet_list st1) i = Some p ->
                   send_next st1 <= i -> first_sent p = None).
  { intros i p Hp Hi. rewrite Hl1, nth_error_map in Hp.
    destruct (nth_error (packet_list st) i) as [q|] eqn:Hq;
      [|discriminate].
    injection Hp as <-. rewrite mark_pkt_first_sent.
    apply (Hun i q Hq). lia. }
  assert (Hl2 : packet_list st2 = packet_list st1) by reflexivity.
  assert (Hs2 : send_next st2 = send_next st1) by reflexivity.
  assert (He2 : left_edge st2
                = slide (packet_list st1) (left_edge st1)) by reflexivity.
  pose proof (slide_ge (packet_list st1) (left_edge st1)) as Hge.
  pose proof (slide_le (packet_list st1) (left_edge st1)
                ltac:(unfold num_packets in *; lia)) as Hsle.
  assert (Hack2 : forall i p, nth_error (packet_list st2) i = Some p ->
                    i < left_edge st2 -> is_acked p = true).
  { intros i p Hp Hi. rewrite Hl2 in Hp.
    destruct (le_lt_dec (left_edge st1) i) as [Hc|Hc].
    - apply (slide_acked (packet_list st1) (left_edge st1) i p);
        [lia | exact Hp].
    - apply (Hack1 i p Hp Hc). }
  subst st'.
  destruct (Nat.ltb_spec (left_edge st1) (left_edge st2)) as [Hmv|Hst].
  - set (st3 := clamp_send_next st2).
    assert (Hl3 : packet_list st3 = packet_list st1)
      by (unfold st3, clamp_send_next; destruct (_ <? _); reflexivity).
    assert (He3 : left_edge st3 = left_edge st2)
      by (unfold st3, clamp_send_next; destruct (_ <? _); reflexivity).
    assert (Hs3 : send_next st3 = Nat.max (send_next st2) (left_edge st2)).
    { unfold st3, clamp_send_next.
      destruct (Nat.ltb_spec (send_next st2) (left_edge st2));
        cbn [send_next set_send_next]; lia. }
    assert (Hre : right_edge window st3
                  = Nat.min (left_edge st2 + window) (num_packets st))
      by (unfold right_edge, num_packets in *; rewrite He3, Hl3;
          congruence).
    destruct (send_loop_frame (send_next st3) (right_edge window st3) st3)
      as (Hf1 & _).
    pose proof (py_for_pointwise R_send send_body (send_next st3)
                  (right_edge window st3) st3 send_body_pointwise) as Hpw.
    pose proof Hpw as [Hlen _].
    unfold send_new, window_inv, num_packets in *.
    cbn [left_edge send_next packet_list set_send_next].
    rewrite Hf1, He3, Hlen, Hl3.
    split; [split; [|split; [|split]]|split].
    + lia.
    + unfold right_edge, num_packets. rewrite He3, Hl3. reflexivity.
    + intros i p Hp Hi.
      destruct (pointwise_in_inv R_send _ _ _ _ i p Hpw Hp)
        as (q & Hq & Hin & Hout).
      rewrite Hl3 in Hq.
      assert (is_acked q = true) by (apply (Hack2 i q); [exact Hq|lia]).
      destruct (le_lt_dec (send_next st3) i) as [Hlo|Hlo];
        [destruct (le_lt_dec (right_edge window st3) i) as [Hhi|Hhi]|].
      * rewrite (Hout ltac:(lia)). assumption.
      * rewrite (R_send_keeps_acked q p (Hin ltac:(lia))). assumption.
      * rewrite (Hout ltac:(lia)). assumption.
    + intros i p Hp Hi.
      destruct (pointwise_in_inv R_send _ _ _ _ i p Hpw Hp)
        as (q & Hq & Hin & Hout).
      rewrite Hl3 in Hq. rewrite (Hout ltac:(lia)).
      apply (Hun1 i q Hq). rewrite Hre in Hi. lia.
    + lia.
    + rewrite Hre. lia.
  - assert (left_edge st2 = left_edge st1) by lia.
    unfold window_inv, num_packets in *.
    rewrite Hl2, Hs2.
    split; [split; [|split; [|split]]|split]; try lia.
    + rewrite <- Hl2. exact Hack2.
    + exact Hun1.
Qed.

Lemma on_response_cases (window : nat) (response : bytes) (st st' : state) :
  on_response window response st = Ok st' ->
  exists msg,
    utf8_decode (body response) = Ok msg
    /\ let st0 := set_total_acks (S (total_acks st)) st in
       if pystr_eqb msg str_ack then
         let st1 := mark_acked (int_from_bytes (header response)) st0 in
         let st2 := slide_window st1 in
         st' = (if left_edge st1 <? left_edge st2
                then send_new window (clamp_send_next st2) else st2)
       else st' = st0.
Proof.
  unfold on_response, bind.
  destruct (utf8_decode (body response)) as [msg|e]; [|discriminate].
  intros H. exists msg. split; [reflexivity|]. cbv zeta.
  destruct (pystr_eqb msg str_ack).
  - destruct (_ <? _); congruence.
  - congruence.
Qed.

Lemma window_inv_on_response (window : nat) (response : bytes)
    (st st' : state) :
  window_inv window st ->
  on_response window response st = Ok st' ->
  window_inv window st'
  /\ left_edge st <= left_edge st'
  /\ send_next st <= send_next st'.
Proof.
  intros Hinv Hr.
  destruct (on_response_cases window response st st' Hr) as (msg & _ & H).
  cbv zeta in H. destruct (pystr_eqb msg str_ack).
  - subst st'.
    apply (window_inv_ack window (int_from_bytes (header response))
             (set_total_acks (S (total_acks st)) st)).
    exact Hinv.
  - subst st'. split; [exact Hinv|]. cbn. lia.
Qed.

Lemma window_inv_loop_body (window : nat) (ev : recv_event)
    (st st' : state) :
  window_inv window st ->
  loop_body window ev st = Ok st' ->
  window_inv window st'
  /\ left_edge st <= left_edge st'
  /\ send_next st <= send_next st'.
Proof.
  intros Hinv. destruct ev as [|d]; cbn [loop_body].
  - intros [= <-].
    destruct (timer_check_frame window st) as (H1 & H2 & _).
    split; [apply window_inv_timer, Hinv | lia].
  - unfold bind.
    destruct (on_response window (firstn MAX_PACKET d) st) as [st1|e] eqn:Hr;
      [|discriminate].
    intros [= <-].
    destruct (window_inv_on_response window _ st st1 Hinv Hr)
      as (Hinv1 & Hl & Hs).
    destruct (timer_check_frame window st1) as (H1 & H2 & _).
    split; [apply window_inv_timer, Hinv1 | lia].
Qed.

Lemma main_loop_invariant (P : state -> Prop) (window : nat) :
  (forall ev st st', P st -> loop_body window ev st = Ok st' -> P st') ->
  forall evs st st' rest,
    P st -> main_loop window evs st = Ok (st', rest) -> P st'.
Proof.
  intros Hstep. induction evs as [|ev evs IH]; intros st st' rest Hst.
  - cbn. destruct (all_acked st); intros [= <- <-]; exact Hst.
  - cbn [main_loop]. destruct (all_acked st).
    + intros [= <- <-]. exact Hst.
    + unfold bind. destruct (loop_body window ev st) as [st1|e] eqn:Hb;
        [|discriminate].
      apply IH. eapply Hstep; eassumption.
Qed.

(** ** Counting outstanding segments *)

Lemma filter_count_le (g : packet -> bool) (l : list packet) :
  forall l',
    length l' = length l ->
    (forall i p p', nth_error l i = Some p -> nth_error l' i = Some p' ->
                    g p' = true -> g p = true) ->
    length (filter g l') <= length (filter g l).
Proof.
  induction l as [|q r IH]; intros [|q' r'] Hlen H; try discriminate.
  - cbn. lia.
  - cbn [filter].
    assert (Hr : length (filter g r') <= length (filter g r)).
    { apply IH; [cbn in Hlen; lia|].
      intros i p p' Hp Hp'. apply (H (S i) p p' Hp Hp'). }
    pose proof (H 0 q q' eq_refl eq_refl) as H0.
    destruct (g q') eqn:Hq'.
    + rewrite (H0 eq_refl). cbn [length]. lia.
    + destruct (g q); cbn [length]; lia.
Qed.

Lemma outstanding_pointwise_le (R : packet -> packet -> Prop)
    (lo hi : nat) (l l' : list packet) :
  pointwise_in R lo hi l l' ->
  (forall p p', R p p' -> is_outstanding p' = true ->
                is_outstanding p = true) ->
  outstanding l' <= outstanding l.
Proof.
  intros Hpw HR. pose proof Hpw as [Hlen _].
  apply filter_count_le; [exact Hlen|].
  intros i p p' Hp Hp'.
  destruct (pointwise_in_inv R lo hi l l' i p' Hpw Hp')
    as (q & Hq & Hin & Hout).
  assert (q = p) by congruence. subst q.
  destruct (le_lt_dec lo i) as [H1|H1];
    [destruct (le_lt_dec hi i) as [H2|H2]|].
  - rewrite (Hout ltac:(lia)). auto.
  - apply HR, Hin. lia.
  - rewrite (Hout ltac:(lia)). auto.
Qed.

Lemma outstanding_pointwise_ge (R : packet -> packet -> Prop)
    (lo hi : nat) (l l' : list packet) :
  pointwise_in R lo hi l l' ->
  (forall p p', R p p' -> is_outstanding p = true ->
                is_outstanding p' = true) ->
  outstanding l <= outstanding l'.
Proof.
  intros Hpw HR. pose proof Hpw as [Hlen _].
  apply filter_count_le; [symmetry; exact Hlen|].
  intros i p' p Hp' Hp.
  destruct (pointwise_in_inv R lo hi l l' i p' Hpw Hp')
    as (q & Hq & Hin & Hout).
  assert (q = p) by congruence. subst q.
  destruct (le_lt_dec lo i) as [H1|H1];
    [destruct (le_lt_dec hi i) as [H2|H2]|].
  - rewrite (Hout ltac:(lia)). auto.
  - apply HR, Hin. lia.
  - rewrite (Hout ltac:(lia)). auto.
Qed.

Lemma R_mark_outstanding (a : Z) (p p' : packet) :
  R_mark a p p' -> is_outstanding p' = true -> is_outstanding p = true.
Proof.
  unfold R_mark, mark_pkt, is_outstanding. intros ->.
  destruct (_ && _); cbn; [|auto].
  destruct (first_sent p); [discriminate|auto].
Qed.

Lemma R_send_outstanding (p p' : packet) :
  R_send p p' -> is_outstanding p = true -> is_outstanding p' = true.
Proof.
  unfold is_outstanding.
  intros [[_ ->]|(Ha & t1 & t2 & ->)]; [auto|].
  intros _. destruct (first_sent p) eqn:E; cbn; rewrite ?E, Ha; reflexivity.
Qed.

Lemma R_burst_outstanding (p p' : packet) :
  R_burst p p' -> is_outstanding p = true -> is_outstanding p' = true.
Proof.
  unfold is_outstanding. intros (t1 & t2 & ->). cbn.
  destruct (first_sent p); [auto|discriminate].
Qed.

Lemma R_sweep_outstanding (p p' : packet) :
  R_sweep p p' -> is_outstanding p' = is_outstanding p.
Proof.
  unfold is_outstanding. intros [->|(_ & _ & t & ->)]; reflexivity.
Qed.

Lemma for_range_split {St : Type} (body : nat -> St -> St) (k m lo : nat)
    (s : St) :
  for_range (k + m) lo body s
  = for_range m (lo + k) body (for_range k lo body s).
Proof.
  revert lo s. induction k as [|k IH]; intros lo s; cbn [for_range Nat.add].
  - rewrite Nat.add_0_r. reflexivity.
  - rewrite IH. replace (S lo + k) with (lo + S k) by lia. reflexivity.
Qed.

Lemma mark_prefix_outstanding (a : Z) (k lo : nat) (st : state) :
  outstanding (packet_list (for_range k lo (mark_body a) st))
  <= outstanding (packet_list st).
Proof.
  apply (outstanding_pointwise_le (R_mark a) lo (lo + k)).
  - apply for_range_pointwise, mark_body_pointwise.
  - apply R_mark_outstanding.
Qed.

Lemma send_prefix_outstanding (k n lo : nat) (st : state) :
  k <= n ->
  outstanding (packet_list (for_range k lo send_body st))
  <= outstanding (packet_list (for_range n lo send_body st)).
Proof.
  intros Hk. replace n with (k + (n - k)) by lia. rewrite for_range_split.
  apply (outstanding_pointwise_ge R_send (lo + k) (lo + k + (n - k))).
  - apply for_range_pointwise, send_body_pointwise.
  - apply R_send_outstanding.
Qed.

Lemma burst_prefix_outstanding (k n lo : nat) (st : state) :
  k <= n ->
  outstanding (packet_list (for_range k lo burst_body st))
  <= outstanding (packet_list (for_range n lo burst_body st)).
Proof.
  intros Hk. replace n with (k + (n - k)) by lia. rewrite for_range_split.
  apply (outstanding_pointwise_ge R_burst (lo + k) (lo + k + (n - k))).
  - apply for_range_pointwise, burst_body_pointwise.
  - apply R_burst_outstanding.
Qed.

Lemma sweep_prefix_outstanding (now : float) (k lo : nat) (st : state) :
  outstanding (packet_list (for_range k lo (sweep_body now) st))
  = outstanding (packet_list st).
Proof.
  pose proof (for_range_pointwise R_sweep (sweep_body now)
                (sweep_body_pointwise now) k lo st) as Hpw.
  apply Nat.le_antisymm.
  - apply (outstanding_pointwise_le R_sweep lo (lo + k)); [exact Hpw|].
    intros p p' HR. rewrite (R_sweep_outstanding p p' HR). auto.
  - apply (outstanding_pointwise_ge R_sweep lo (lo + k)); [exact Hpw|].
    intros p p' HR. rewrite (R_sweep_outstanding p p' HR). auto.
Qed.

Lemma main_loop_window_inv (window : nat) (clk : nat -> float)
    (tbl : list packet) (evs rest : list recv_event) (st : state) :
  fresh tbl ->
  main_loop window evs (start window clk tbl) = Ok (st, rest) ->
  window_inv window st.
Proof.
  intros Hf Hrun.
  refine (main_loop_invariant (window_inv window) window _ evs
            (start window clk tbl) st rest _ Hrun).
  - intros ev s s' Hs Hb.
    apply (window_inv_loop_body window ev s s' Hs Hb).
  - apply window_inv_start, Hf.
Qed.

Lemma cursors_within_ack (window : nat) (a : Z) (st : state) :
  window_inv window st ->
  let st0 := set_total_acks (S (total_acks st)) st in
  let st1 := mark_acked a st0 in
  let st2 := slide_window st1 in
  let st3 := clamp_send_next st2 in
  (forall k,
     left_edge (for_range k 0 (mark_body a) st0) = left_edge st
     /\ send_next (for_range k 0 (mark_body a) st0) = send_next st)
  /\ left_edge st <= left_edge st2
  /\ send_next st2 = send_next st
  /\ left_edge st3 = left_edge st2
  /\ send_next st3 = Nat.max (send_next st) (left_edge st2)
  /\ (forall k,
        left_edge (for_range k (send_next st3) send_body st3)
        = left_edge st3
        /\ send_next (for_range k (send_next st3) send_body st3)
           = send_next st3)
  /\ left_edge (send_new window st3) = left_edge st3
  /\ send_next st3 <= send_next (send_new window st3).
Proof.
  intros (Hle & Hsn & _ & _) st0 st1 st2 st3.
  destruct (mark_acked_frame a st0) as (Hm1 & Hm2 & _).
  fold st1 in Hm1, Hm2.
  change (left_edge st0) with (left_edge st) in Hm1.
  change (send_next st0) with (send_next st) in Hm2.
  pose proof (mark_acked_packets a st0) as Hl1. fold st1 in Hl1.
  assert (Hn1 : length (packet_list st1) = num_packets st).
  { rewrite Hl1, length_map. reflexivity. }
  assert (He2 : left_edge st2 = slide (packet_list st1) (left_edge st1))
    by reflexivity.
  assert (Hs2 : send_next st2 = send_next st) by exact Hm2.
  pose proof (slide_ge (packet_list st1) (left_edge st1)) as Hge.
  pose proof (slide_le (packet_list st1) (left_edge st1)
                ltac:(lia)) as Hsle.
  assert (He3 : left_edge st3 = left_edge st2)
    by (unfold st3, clamp_send_next; destruct (_ <? _); reflexivity).
  assert (Hl3 : packet_list st3 = packet_list st1)
    by (unfold st3, clamp_send_next; destruct (_ <? _); reflexivity).
  assert (Hs3 : send_next st3 = Nat.max (send_next st) (left_edge st2)).
  { unfold st3, clamp_send_next.
    destruct (Nat.ltb_spec (send_next st2) (left_edge st2));
      cbn [send_next set_send_next]; lia. }
  split; [|split; [|split; [|split; [|split; [|split; [|split]]]]]].
  - intros k. split.
    + rewrite (for_range_preserves left_edge (mark_body a));
        [reflexivity|]. intros. apply mark_body_frame.
    + rewrite (for_range_preserves send_next (mark_body a));
        [reflexivity|]. intros. apply mark_body_frame.
  - lia.
  - exact Hs2.
  - exact He3.
  - exact Hs3.
  - intros k. split.
    + apply (for_range_preserves left_edge). intros. apply send_body_frame.
    + apply (for_range_preserves send_next). intros. apply send_body_frame.
  - unfold send_new. cbn [left_edge set_send_next].
    apply (send_loop_frame (send_next st3) (right_edge window st3) st3).
  - unfold send_new. cbn [send_next set_send_next].
    unfold right_edge, num_packets. rewrite He3, Hl3, Hn1, Hs3. lia.
Qed.

(** C3, as amended.  At every test of the main loop the number of
    segments sent and not yet acknowledged is at most the window size
    and [left_edge <= send_next]; one more pass of the loop moves
    neither cursor backwards.  The count also stays within the window
    between two tests: after any number [k] of iterations of the
    initial burst, of the marking loop, of the loop that sends what
    entered the window, and of the timeout scan (which leaves the
    count alone, before or after a response was handled).  The cursors
    between two tests: the initial burst, the marking loop, the loop
    that sends and the timeout scan leave both alone; sliding the
    window moves [left_edge] forward and leaves [send_next], so that
    [left_edge] may then be ahead of it; the adjustment of lines
    132-133 makes [send_next] the larger of the two, and line 144 does
    not move it back. *)
Theorem window_bound (window : nat) (clk : nat -> float)
    (tbl : list packet) (evs rest : list recv_event) (st : state) :
  fresh tbl ->
  main_loop window evs (start window clk tbl) = Ok (st, rest) ->
  outstanding (packet_list st) <= window
  /\ left_edge st <= send_next st
  /\ (forall k, k <= Nat.min window (length tbl) ->
        outstanding
          (packet_list (for_range k 0 burst_body (init_state clk tbl)))
        <= window)
  /\ (forall ev st', loop_body window ev st = Ok st' ->
        left_edge st <= left_edge st'
        /\ send_next st <= send_next st'
        /\ left_edge st' <= send_next st'
        /\ outstanding (packet_list st') <= window)
  /\ (forall a k,
        outstanding
          (packet_list
             (for_range k 0 (mark_body a)
                (set_total_acks (S (total_acks st)) st)))
        <= window)
  /\ (forall a k,
        let st1 := mark_acked a (set_total_acks (S (total_acks st)) st) in
        let st3 := clamp_send_next (slide_window st1) in
        left_edge st1 < left_edge st3 ->
        k <= right_edge window st3 - send_next st3 ->
        outstanding
          (packet_list (for_range k (send_next st3) send_body st3))
        <= window)
  /\ (forall response st1,
        on_response window response st = Ok st1 ->
        outstanding (packet_list st1) <= window)
  /\ (forall now k lo s,
        outstanding (packet_list (for_range k lo (sweep_body now) s))
        = outstanding (packet_list s))
  /\ (forall k,
        left_edge (for_range k 0 burst_body (init_state clk tbl)) = 0
        /\ send_next (for_range k 0 burst_body (init_state clk tbl)) = 0)
  /\ (forall a,
        let st0 := set_total_acks (S (total_acks st)) st in
        let st1 := mark_acked a st0 in
        let st2 := slide_window st1 in
        let st3 := clamp_send_next st2 in
        (forall k,
           left_edge (for_range k 0 (mark_body a) st0) = left_edge st
           /\ send_next (for_range k 0 (mark_body a) st0) = send_next st)
        /\ left_edge st <= left_edge st2
        /\ send_next st2 = send_next st
        /\ left_edge st3 = left_edge st2
        /\ send_next st3 = Nat.max (send_next st) (left_edge st2)
        /\ (forall k,
              left_edge (for_range k (send_next st3) send_body st3)
              = left_edge st3
              /\ send_next (for_range k (send_next st3) send_body st3)
                 = send_next st3)
        /\ left_edge (send_new window st3) = left_edge st3
        /\ send_next st3 <= send_next (send_new window st3))
  /\ (forall now k lo s,
        left_edge (for_range k lo (sweep_body now) s) = left_edge s
        /\ send_next (for_range k lo (sweep_body now) s) = send_next s).
Proof.
  intros Hf Hrun.
  pose proof (main_loop_window_inv window clk tbl evs rest st Hf Hrun)
    as Hinv.
  destruct (window_inv_outstanding window st Hinv) as [Hout Hcur].
  split; [exact Hout|]. split; [exact Hcur|].
  split; [|split; [|split; [|split; [|split; [|split; [|split;
                                                         [|split]]]]]]].
  - intros k Hk.
    pose proof (window_inv_start window clk tbl Hf) as Hs.
    apply window_inv_outstanding in Hs. destruct Hs as [Hs _].
    assert (Hl : packet_list (start window clk tbl)
                 = packet_list
                     (for_range (Nat.min window (length tbl)) 0 burst_body
                        (init_state clk tbl))).
    { unfold start, py_for.
      cbn [left_edge send_next init_state num_packets packet_list Nat.add
           set_last_check set_send_next time_time snd fst set_ticks].
      rewrite Nat.sub_0_r. reflexivity. }
    rewrite Hl in Hs. etransitivity; [|exact Hs].
    apply (burst_prefix_outstanding k (Nat.min window (length tbl)) 0
             (init_state clk tbl) Hk).
  - intros ev st' Hb.
    destruct (window_inv_loop_body window ev st st' Hinv Hb)
      as (Hinv' & Hl & Hs).
    destruct (window_inv_outstanding window st' Hinv') as [Ho' Hc'].
    auto.
  - intros a k. etransitivity; [apply mark_prefix_outstanding|].
    exact Hout.
  - intros a k st1 st3 Hmv Hk.
    assert (He3 : left_edge st3 = left_edge (slide_window st1))
      by (unfold st3, clamp_send_next; destruct (_ <? _); reflexivity).
    rewrite He3 in Hmv.
    pose proof (window_inv_ack window a
                  (set_total_acks (S (total_acks st)) st) Hinv) as Hack.
    cbv zeta in Hack. fold st1 in Hack.
    destruct (Nat.ltb_spec (left_edge st1) (left_edge (slide_window st1)))
      as [_|Hc]; [|lia].
    fold st3 in Hack. destruct Hack as (Hinv3 & _).
    apply window_inv_outstanding in Hinv3. destruct Hinv3 as [Ho3 _].
    assert (Hl : packet_list (send_new window st3)
                 = packet_list
                     (for_range (right_edge window st3 - send_next st3)
                        (send_next st3) send_body st3)) by reflexivity.
    rewrite Hl in Ho3. etransitivity; [|exact Ho3].
    apply (send_prefix_outstanding k
             (right_edge window st3 - send_next st3) (send_next st3) st3 Hk).
  - intros response st1 Hr.
    destruct (window_inv_on_response window response st st1 Hinv Hr)
      as (Hinv1 & _).
    apply (window_inv_outstanding window st1 Hinv1).
  - intros now k lo s. apply sweep_prefix_outstanding.
  - intros k. split.
    + apply (for_range_preserves left_edge). intros. apply burst_body_frame.
    + apply (for_range_preserves send_next). intros. apply burst_body_frame.
  - intros a. apply (cursors_within_ack window a st Hinv).
  - intros now k lo s. split.
    + apply (for_range_preserves left_edge). intros. apply sweep_body_frame.
    + apply (for_range_preserves send_next). intros. apply sweep_body_frame.
Qed.

Lemma demo_table_fresh : fresh demo_table.
Proof. repeat constructor. Defined.

Lemma demo_run :
  main_loop 2 demo_events (start 2 demo_clock demo_table)
  = Ok (demo_final, []).
Proof. vm_compute. reflexivity. Defined.

Lemma window_bound_witness :
  outstanding (packet_list demo_final) <= 2
  /\ left_edge demo_final <= send_next demo_final.
Proof.
  pose proof (window_bound 2 demo_clock demo_table demo_events []
                demo_final demo_table_fresh demo_run) as H.
  split; [exact (proj1 H) | exact (proj1 (proj2 H))].
Defined.

(** C3, as stated, fails for the send cursor.  Five segments, a window
    of two, the initial burst done (two segments outstanding), and an
    ACK for offset 40 arrives: the marking loop acknowledges four
    segments, the window slides to [left_edge = 4], and at that point
    [send_next] is still 2.  Lines 132-133 then set it to 4. *)
Lemma cursor_behind_left_edge :
  let st := start 2 demo_clock wide_table in
  let st2 := slide_window
               (mark_acked 40 (set_total_acks (S (total_acks st)) st)) in
  fresh wide_table
  /\ all_acked st = false
  /\ left_edge st = 0 /\ send_next st = 2
  /\ outstanding (packet_list st) = 2
  /\ on_response 2 (ack_frame 40) st
     = Ok (send_new 2 (clamp_send_next st2))
  /\ left_edge st2 = 4 /\ send_next st2 = 2
  /\ ~ left_edge st2 <= send_next st2
  /\ send_next (clamp_send_next st2) = 4.
Proof.
  cbv zeta. split; [repeat constructor|].
  split; [reflexivity|]. split; [reflexivity|]. split; [reflexivity|].
  split; [reflexivity|]. split; [vm_compute; reflexivity|].
  split; [reflexivity|]. split; [reflexivity|].
  split; [|reflexivity].
  change (left_edge _) with 4. change (send_next _) with 2. lia.
Qed.

(** ** Cumulative acknowledgment *)

Lemma apply_acks_nil (v : list (Z * bool)) : apply_acks [] v = v.
Proof.
  unfold apply_acks, covered. cbn [existsb].
  rewrite <- (map_id v) at 2. apply map_ext.
  intros [e b]. cbn. now rewrite orb_false_r.
Qed.

Lemma apply_acks_app (a b : list Z) (v : list (Z * bool)) :
  apply_acks b (apply_acks a v) = apply_acks (a ++ b) v.
Proof.
  unfold apply_acks, covered. rewrite map_map. apply map_ext.
  intros [e f]. cbn [fst snd]. rewrite existsb_app, orb_assoc.
  reflexivity.
Qed.

Lemma ack_view_mark (a : Z) (l : list packet) :
  ack_view (map (mark_pkt a) l) = apply_acks [a] (ack_view l).
Proof.
  unfold ack_view, apply_acks, covered. rewrite !map_map.
  apply map_ext. intros p. cbn [fst snd existsb].
  rewrite mark_pkt_end_offset, mark_pkt_acked, orb_false_r. reflexivity.
Qed.

Lemma R_send_view (p p' : packet) :
  R_send p p' -> (end_offset p', is_acked p') = (end_offset p, is_acked p).
Proof.
  intros [[_ ->]|(_ & t1 & t2 & ->)]; [reflexivity|].
  destruct (first_sent p); reflexivity.
Qed.

Lemma R_sweep_view (p p' : packet) :
  R_sweep p p' -> (end_offset p', is_acked p') = (end_offset p, is_acked p).
Proof. intros [->|(_ & _ & t & ->)]; reflexivity. Qed.

Lemma R_burst_view (p p' : packet) :
  R_burst p p' -> (end_offset p', is_acked p') = (end_offset p, is_acked p).
Proof. intros (t1 & t2 & ->). reflexivity. Qed.

Lemma ack_view_timer (window : nat) (st : state) :
  ack_view (packet_list (timer_check window st))
  = ack_view (packet_list st).
Proof.
  destruct (timer_check_pointwise window st) as (lo & hi & Hpw).
  unfold ack_view.
  apply (pointwise_in_map R_sweep _ lo hi _ _ Hpw). apply R_sweep_view.
Qed.

Lemma ack_view_ack (window : nat) (a : Z) (st : state) :
  let st1 := mark_acked a st in
  let st2 := slide_window st1 in
  ack_view (packet_list (if left_edge st1 <? left_edge st2
                         then send_new window (clamp_send_next st2)
                         else st2))
  = apply_acks [a] (ack_view (packet_list st)).
Proof.
  intros st1 st2.
  assert (H1 : ack_view (packet_list st2)
               = apply_acks [a] (ack_view (packet_list st))).
  { change (packet_list st2) with (packet_list st1). unfold st1.
    rewrite mark_acked_packets. apply ack_view_mark. }
  destruct (left_edge st1 <? left_edge st2); [|exact H1].
  rewrite <- H1.
  assert (H3 : packet_list (clamp_send_next st2) = packet_list st2)
    by (unfold clamp_send_next; destruct (_ <? _); reflexivity).
  rewrite <- H3. unfold send_new. cbn [packet_list set_send_next].
  unfold ack_view.
  apply (pointwise_in_map R_send _ (send_next (clamp_send_next st2))
           (right_edge window (clamp_send_next st2))).
  - apply py_for_pointwise, send_body_pointwise.
  - apply R_send_view.
Qed.

Lemma ack_offsets_cons (ev : recv_event) (evs : list recv_event) :
  ack_offsets (ev :: evs) = ack_offsets [ev] ++ ack_offsets evs.
Proof.
  destruct ev as [|d]; cbn [ack_offsets]; [reflexivity|].
  destruct (utf8_decode _) as [msg|e]; [|reflexivity].
  destruct (pystr_eqb msg str_ack); reflexivity.
Qed.

Lemma ack_offsets_app (u v : list recv_event) :
  ack_offsets (u ++ v) = ack_offsets u ++ ack_offsets v.
Proof.
  induction u as [|ev u IH]; [reflexivity|].
  cbn [app]. rewrite ack_offsets_cons, (ack_offsets_cons ev u), IH.
  apply app_assoc.
Qed.

Lemma ack_view_loop_body (window : nat) (ev : recv_event)
    (st st' : state) :
  loop_body window ev st = Ok st' ->
  ack_view (packet_list st')
  = apply_acks (ack_offsets [ev]) (ack_view (packet_list st)).
Proof.
  destruct ev as [|d]; cbn [loop_body ack_offsets].
  - intros [= <-]. rewrite ack_view_timer, apply_acks_nil. reflexivity.
  - unfold bind.
    destruct (on_response window (firstn MAX_PACKET d) st) as [st1|e] eqn:Hr;
      [|discriminate].
    intros [= <-]. rewrite ack_view_timer.
    destruct (on_response_cases window _ st st1 Hr) as (msg & Hd & H).
    rewrite Hd. cbv zeta in H.
    destruct (pystr_eqb msg str_ack).
    + subst st1.
      apply (ack_view_ack window
               (int_from_bytes (header (firstn MAX_PACKET d)))
               (set_total_acks (S (total_acks st)) st)).
    + subst st1. rewrite apply_acks_nil. reflexivity.
Qed.

Lemma main_loop_consumed (window : nat) (evs : list recv_event) :
  forall st st' rest,
    main_loop window evs st = Ok (st', rest) ->
    evs = consumed evs rest ++ rest
    /\ ack_view (packet_list st')
       = apply_acks (ack_offsets (consumed evs rest))
           (ack_view (packet_list st)).
Proof.
  unfold consumed.
  induction evs as [|ev evs IH]; intros st st' rest; cbn [main_loop].
  - destruct (all_acked st); intros [= <- <-]; cbn;
      rewrite apply_acks_nil; auto.
  - destruct (all_acked st).
    + intros [= <- <-]. rewrite Nat.sub_diag. cbn.
      rewrite apply_acks_nil. auto.
    + unfold bind.
      destruct (loop_body window ev st) as [st1|e] eqn:Hb; [|discriminate].
      intros Hrun. destruct (IH st1 st' rest Hrun) as (Hsplit & Hview).
      assert (Hlen : length rest <= length evs).
      { pose proof (f_equal (@length recv_event) Hsplit) as Hl.
        rewrite length_app in Hl. lia. }
      replace (length (ev :: evs) - length rest)
        with (S (length evs - length rest)) by (cbn [length]; lia).
      cbn [firstn]. split.
      * cbn [app]. f_equal. exact Hsplit.
      * rewrite ack_offsets_cons, <- apply_acks_app.
        rewrite <- (ack_view_loop_body window ev st st1 Hb). exact Hview.
Qed.

Lemma covered_max_ack (acks : list Z) (e : Z) :
  covered acks e = true
  <-> match max_ack acks with
      | Some m => (e <= m)%Z
      | None => False
      end.
Proof.
  unfold covered. induction acks as [|a r IH]; cbn [existsb max_ack].
  - split; [discriminate | tauto].
  - rewrite orb_true_iff, IH, Z.leb_le.
    destruct (max_ack r) as [m|]; lia.
Qed.

Lemma ack_view_start (window : nat) (clk : nat -> float)
    (tbl : list packet) :
  fresh tbl ->
  ack_view (packet_list (start window clk tbl))
  = map (fun p => (end_offset p, false)) tbl.
Proof.
  intros Hf. destruct (start_packets window clk tbl) as (Hpw & _).
  unfold ack_view.
  rewrite (pointwise_in_map R_burst _ 0 _ _ _ Hpw R_burst_view).
  apply map_ext_in. intros p Hp. f_equal.
  unfold fresh in Hf. rewrite Forall_forall in Hf. apply (Hf p Hp).
Qed.

Lemma ack_view_nth (l : list packet) (v : list (Z * bool)) (i : nat)
    (p : packet) :
  ack_view l = v -> nth_error l i = Some p ->
  nth_error v i = Some (end_offset p, is_acked p).
Proof.
  intros <- Hp. unfold ack_view. rewrite nth_error_map, Hp. reflexivity.
Qed.

(** ** One pass of the main loop, as seen on the table *)

Lemma skipn_update_at {A : Type} (i : nat) (f : A -> A) (l : list A) :
  skipn (S i) (update_at i f l) = skipn (S i) l.
Proof.
  revert i. induction l as [|x r IH]; intros [|i]; try reflexivity.
  cbn [update_at]. change (skipn (S (S i)) (x :: update_at i f r))
    with (skipn (S i) (update_at i f r)).
  rewrite IH. reflexivity.
Qed.

Lemma skipn_nth_error {A : Type} (i : nat) (l : list A) (x : A) :
  nth_error l i = Some x -> skipn i l = x :: skipn (S i) l.
Proof.
  revert i. induction l as [|y r IH]; intros [|i] H; try discriminate.
  - injection H as ->. reflexivity.
  - cbn [nth_error] in H. apply (IH i H).
Qed.

Lemma mark_loop_delays (a : Z) (k : nat) :
  forall lo st,
    delays (for_range k lo (mark_body a) st)
    = delays st
      ++ mark_samples a (clock st) (ticks st)
           (firstn k (skipn lo (packet_list st))).
Proof.
  induction k as [|k IH]; intros lo st.
  - cbn. now rewrite app_nil_r.
  - cbn [for_range]. rewrite IH. unfold mark_body.
    destruct (nth_error (packet_list st) lo) as [p|] eqn:Hp.
    + rewrite (skipn_nth_error lo (packet_list st) p Hp).
      cbn [firstn mark_samples]. unfold end_offset.
      destruct ((sequence p + pkt_length p <=? a)%Z && negb (is_acked p)).
      * destruct (first_sent p) as [fs|];
          cbn [delays clock ticks packet_list set_delays time_time snd fst
               set_ticks modify_packet set_packet_list];
          rewrite skipn_update_at; [|reflexivity].
        rewrite <- app_assoc. reflexivity.
      * reflexivity.
    + assert (Hl : length (packet_list st) <= lo)
        by (apply nth_error_None; exact Hp).
      rewrite !skipn_all2 by lia. rewrite firstn_nil.
      destruct k; reflexivity.
Qed.

Lemma mark_acked_delays (a : Z) (st : state) :
  delays (mark_acked a st)
  = delays st ++ mark_samples a (clock st) (ticks st) (packet_list st).
Proof.
  unfold mark_acked, py_for. rewrite mark_loop_delays.
  rewrite Nat.sub_0_r. cbn [skipn]. unfold num_packets.
  rewrite firstn_all. reflexivity.
Qed.

Lemma loop_body_lists (window : nat) (ev : recv_event) (st st' : state) :
  loop_body window ev st = Ok st' ->
  exists l2 lo hi lo' hi',
    pointwise_in R_send lo hi (marked (ack_offsets [ev]) (packet_list st))
      l2
    /\ pointwise_in R_sweep lo' hi' l2 (packet_list st')
    /\ delays st'
       = delays st
         ++ pass_samples (ack_offsets [ev]) (clock st) (ticks st)
              (packet_list st)
    /\ clock st' = clock st.
Proof.
  destruct ev as [|d]; cbn [loop_body ack_offsets].
  - intros [= <-].
    destruct (timer_check_pointwise window st) as (lo' & hi' & Hpw).
    destruct (timer_check_frame window st) as (_ & _ & Hc & Hd).
    exists (packet_list st), 0, 0, lo', hi'. cbn [marked fold_left].
    split; [apply pointwise_in_refl|]. split; [exact Hpw|].
    cbn [pass_samples]. rewrite app_nil_r. auto.
  - unfold bind.
    destruct (on_response window (firstn MAX_PACKET d) st) as [st1|e] eqn:Hr;
      [|discriminate].
    intros [= <-].
    destruct (timer_check_pointwise window st1) as (lo' & hi' & Hpw).
    destruct (timer_check_frame window st1) as (_ & _ & Hc & Hd).
    rewrite Hc, Hd.
    destruct (on_response_cases window _ st st1 Hr) as (msg & Hdec & H).
    rewrite Hdec. cbv zeta in H.
    destruct (pystr_eqb msg str_ack).
    + set (a := int_from_bytes (header (firstn MAX_PACKET d))) in *.
      set (st0 := set_total_acks (S (total_acks st)) st) in *.
      cbn [marked fold_left pass_samples].
      change (packet_list st) with (packet_list st0).
      change (delays st) with (delays st0).
      change (clock st) with (clock st0).
      change (ticks st) with (ticks st0).
      rewrite <- mark_acked_packets, <- mark_acked_delays.
      destruct (mark_acked_frame a st0) as (_ & _ & Hmc & _).
      rewrite <- Hmc.
      set (st2 := slide_window (mark_acked a st0)) in *.
      change (packet_list (mark_acked a st0)) with (packet_list st2).
      change (delays (mark_acked a st0)) with (delays st2).
      change (clock (mark_acked a st0)) with (clock st2).
      destruct (left_edge (mark_acked a st0) <? left_edge st2).
      * subst st1.
        assert (H3 : packet_list (clamp_send_next st2) = packet_list st2
                     /\ delays (clamp_send_next st2) = delays st2
                     /\ clock (clamp_send_next st2) = clock st2)
          by (unfold clamp_send_next; destruct (_ <? _); auto).
        destruct H3 as (H3l & H3d & H3c).
        destruct (send_loop_frame (send_next (clamp_send_next st2))
                    (right_edge window (clamp_send_next st2))
                    (clamp_send_next st2)) as (_ & _ & Hsc & Hsd).
        exists (packet_list (send_new window (clamp_send_next st2))),
          (send_next (clamp_send_next st2)),
          (right_edge window (clamp_send_next st2)), lo', hi'.
        split; [|split; [exact Hpw|]].
        -- rewrite <- H3l. unfold send_new.
           cbn [packet_list set_send_next].
           apply py_for_pointwise, send_body_pointwise.
        -- unfold send_new. cbn [delays clock set_send_next].
           rewrite Hsc, Hsd, H3d, H3c. auto.
      * subst st1. exists (packet_list st2), 0, 0, lo', hi'.
        split; [apply pointwise_in_refl|]. split; [exact Hpw|]. auto.
    + subst st1. exists (packet_list st), 0, 0, lo', hi'.
      cbn [marked fold_left pass_samples].
      split; [apply pointwise_in_refl|]. split; [exact Hpw|].
      cbn. rewrite app_nil_r. auto.
Qed.

(** ** What stays put while the main loop runs *)

Lemma stable_refl (p : packet) : stable p p.
Proof. repeat split; auto. Qed.

Lemma stable_trans (p q r : packet) :
  stable p q -> stable q r -> stable p r.
Proof.
  intros (H1 & H2 & H3) (K1 & K2 & K3). split; [congruence|]. split.
  - intros Ha. pose proof (H2 Ha) as Hq. subst q. apply K2, Ha.
  - intros t Ht. apply K3, H3, Ht.
Qed.

Lemma mark_pkt_stable (a : Z) (p : packet) : stable p (mark_pkt a p).
Proof.
  unfold mark_pkt.
  destruct (is_acked p) eqn:Ha.
  - rewrite andb_false_r. apply stable_refl.
  - destruct (_ && _); [|apply stable_refl].
    split; [reflexivity|]. split; [congruence|]. auto.
Qed.

Lemma R_send_stable (p p' : packet) : R_send p p' -> stable p p'.
Proof.
  intros [[_ ->]|(Ha & t1 & t2 & ->)]; [apply stable_refl|].
  destruct (first_sent p) as [fs|] eqn:Hf.
  - split; [reflexivity|]. split; [congruence|]. cbn. auto.
  - split; [reflexivity|]. split; [congruence|]. congruence.
Qed.

Lemma R_sweep_stable (p p' : packet) : R_sweep p p' -> stable p p'.
Proof.
  intros [->|(Ha & _ & t & ->)]; [apply stable_refl|].
  split; [reflexivity|]. split; [congruence|]. cbn. auto.
Qed.

Lemma evolves_refl (l : list packet) : evolves l l.
Proof.
  split; [reflexivity|]. intros i p Hp. exists p.
  split; [exact Hp | apply stable_refl].
Qed.

Lemma evolves_trans (l1 l2 l3 : list packet) :
  evolves l1 l2 -> evolves l2 l3 -> evolves l1 l3.
Proof.
  intros [Hl1 H1] [Hl2 H2]. split; [congruence|].
  intros i p Hp. destruct (H1 i p Hp) as (q & Hq & Hs1).
  destruct (H2 i q Hq) as (r & Hr & Hs2).
  exists r. split; [exact Hr | eapply stable_trans; eassumption].
Qed.

Lemma evolves_map (g : packet -> packet) (l : list packet) :
  (forall p, stable p (g p)) -> evolves l (map g l).
Proof.
  intros Hg. split; [apply length_map|].
  intros i p Hp. exists (g p). rewrite nth_error_map, Hp. auto.
Qed.

Lemma evolves_pointwise (R : packet -> packet -> Prop) (lo hi : nat)
    (l l' : list packet) :
  pointwise_in R lo hi l l' ->
  (forall p p', R p p' -> stable p p') ->
  evolves l l'.
Proof.
  intros [Hl H] HR. split; [exact Hl|].
  intros i p Hp. destruct (H i p Hp) as (p' & Hp' & Hin & Hout).
  exists p'. split; [exact Hp'|].
  destruct (le_lt_dec lo i) as [H1|H1];
    [destruct (le_lt_dec hi i) as [H2|H2]|].
  - rewrite (Hout ltac:(lia)). apply stable_refl.
  - apply HR, Hin. lia.
  - rewrite (Hout ltac:(lia)). apply stable_refl.
Qed.

Lemma marked_evolves (acks : list Z) :
  forall l, evolves l (marked acks l).
Proof.
  unfold marked. induction acks as [|a r IH]; intros l; cbn [fold_left].
  - apply evolves_refl.
  - eapply evolves_trans; [|apply IH].
    apply evolves_map, mark_pkt_stable.
Qed.

Lemma loop_body_evolves (window : nat) (ev : recv_event)
    (st st' : state) :
  loop_body window ev st = Ok st' ->
  evolves (packet_list st) (packet_list st').
Proof.
  intros Hb.
  destruct (loop_body_lists window ev st st' Hb)
    as (l2 & lo & hi & lo' & hi' & Hsend & Hsweep & _).
  eapply evolves_trans; [apply marked_evolves|].
  eapply evolves_trans.
  - apply (evolves_pointwise R_send lo hi _ _ Hsend R_send_stable).
  - apply (evolves_pointwise R_sweep lo' hi' _ _ Hsweep R_sweep_stable).
Qed.

Lemma main_loop_evolves (window : nat) (evs rest : list recv_event)
    (st st' : state) :
  main_loop window evs st = Ok (st', rest) ->
  evolves (packet_list st) (packet_list st').
Proof.
  intros Hrun.
  refine (main_loop_invariant
            (fun s => evolves (packet_list st) (packet_list s))
            window _ evs st st' rest (evolves_refl _) Hrun).
  intros ev s s' Hs Hb. eapply evolves_trans; [exact Hs|].
  apply (loop_body_evolves window ev s s' Hb).
Qed.

Lemma main_loop_left_edge (window : nat) (evs : list recv_event) :
  forall st st' rest,
    main_loop window evs st = Ok (st', rest) ->
    left_edge st <= left_edge st'.
Proof.
  induction evs as [|ev evs IH]; intros st st' rest; cbn [main_loop].
  - destruct (all_acked st); intros [= <- <-]; lia.
  - destruct (all_acked st); [intros [= <- <-]; lia|].
    unfold bind.
    destruct (loop_body window ev st) as [st1|e] eqn:Hb; [|discriminate].
    intros Hrun. specialize (IH st1 st' rest Hrun).
    assert (left_edge st <= left_edge st1); [|lia].
    destruct ev as [|d]; cbn [loop_body] in Hb.
    + injection Hb as <-.
      destruct (timer_check_frame window st) as (H1 & _). lia.
    + unfold bind in Hb.
      destruct (on_response window (firstn MAX_PACKET d) st)
        as [st2|e] eqn:Hr; [|discriminate].
      injection Hb as <-.
      destruct (timer_check_frame window st2) as (H1 & _). rewrite H1.
      destruct (on_response_cases window _ st st2 Hr) as (msg & _ & H).
      cbv zeta in H. destruct (pystr_eqb msg str_ack); [|subst; cbn; lia].
      set (st0 := set_total_acks (S (total_acks st)) st) in *.
      set (a := int_from_bytes _) in *.
      destruct (mark_acked_frame a st0) as (Hm & _).
      pose proof (slide_ge (packet_list (mark_acked a st0))
                    (left_edge (mark_acked a st0))) as Hge.
      assert (Hs : left_edge (slide_window (mark_acked a st0))
                   = slide (packet_list (mark_acked a st0))
                       (left_edge (mark_acked a st0))) by reflexivity.
      change (left_edge st) with (left_edge st0).
      destruct (_ <? _) in H; subst st2.
      * unfold send_new. cbn [left_edge set_send_next].
        destruct (send_loop_frame
                    (send_next (clamp_send_next
                                  (slide_window (mark_acked a st0))))
                    (right_edge window
                       (clamp_send_next (slide_window (mark_acked a st0))))
                    (clamp_send_next (slide_window (mark_acked a st0))))
          as (Hf & _).
        rewrite Hf.
        assert (Hc : left_edge (clamp_send_next
                                  (slide_window (mark_acked a st0)))
                     = left_edge (slide_window (mark_acked a st0)))
          by (unfold clamp_send_next; destruct (_ <? _); reflexivity).
        lia.
      * lia.
Qed.

(** ** Delay samples are counted once *)

Lemma filter_length_map_eq {A : Type} (g : A -> bool) (l : list A) :
  forall l', map g l = map g l' ->
             length (filter g l) = length (filter g l').
Proof.
  induction l as [|x r IH]; intros [|y r'] H; try discriminate.
  - reflexivity.
  - cbn [map] in H. injection H as Hx Hr. cbn [filter].
    rewrite Hx. destruct (g y); cbn [length]; rewrite (IH r' Hr);
      reflexivity.
Qed.

Lemma count_marked (a : Z) (clk : nat -> float) (l : list packet) :
  forall t,
    length (filter acked_and_sent (map (mark_pkt a) l))
    = length (filter acked_and_sent l)
      + length (mark_samples a clk t l).
Proof.
  induction l as [|p r IH]; intros t; [reflexivity|].
  cbn [map filter mark_samples]. unfold mark_pkt at 1.
  destruct ((end_offset p <=? a)%Z && negb (is_acked p)) eqn:Hc.
  - apply andb_true_iff in Hc. destruct Hc as [_ Ha].
    apply negb_true_iff in Ha.
    assert (Hp : acked_and_sent p = false)
      by (unfold acked_and_sent; now rewrite Ha).
    rewrite Hp. unfold acked_and_sent at 1.
    cbn [is_acked first_sent set_is_acked andb].
    destruct (first_sent p); cbn [length].
    + rewrite (IH (S t)). lia.
    + apply IH.
  - destruct (acked_and_sent p); cbn [length]; rewrite (IH t); lia.
Qed.

Lemma R_send_acked_and_sent (p p' : packet) :
  R_send p p' -> acked_and_sent p' = acked_and_sent p.
Proof.
  unfold acked_and_sent.
  intros [[_ ->]|(Ha & t1 & t2 & ->)]; [reflexivity|].
  destruct (first_sent p); cbn; rewrite Ha; reflexivity.
Qed.

Lemma R_sweep_acked_and_sent (p p' : packet) :
  R_sweep p p' -> acked_and_sent p' = acked_and_sent p.
Proof.
  unfold acked_and_sent. intros [->|(_ & _ & t & ->)]; reflexivity.
Qed.

Lemma ack_offsets_single (ev : recv_event) :
  ack_offsets [ev] = [] \/ exists a, ack_offsets [ev] = [a].
Proof.
  destruct ev as [|d]; cbn [ack_offsets]; [auto|].
  destruct (utf8_decode _) as [msg|e]; [|auto].
  destruct (pystr_eqb msg str_ack); eauto.
Qed.

Lemma samples_counted_step (window : nat) (ev : recv_event)
    (st st' : state) :
  length (delays st)
  = length (filter acked_and_sent (packet_list st)) ->
  loop_body window ev st = Ok st' ->
  length (delays st')
  = length (filter acked_and_sent (packet_list st')).
Proof.
  intros Hinv Hb.
  destruct (loop_body_lists window ev st st' Hb)
    as (l2 & lo & hi & lo' & hi' & Hsend & Hsweep & Hd & _).
  rewrite Hd, length_app, Hinv.
  rewrite (filter_length_map_eq acked_and_sent (packet_list st') l2).
  2:{ apply (pointwise_in_map R_sweep _ lo' hi' _ _ Hsweep).
      apply R_sweep_acked_and_sent. }
  rewrite (filter_length_map_eq acked_and_sent l2
             (marked (ack_offsets [ev]) (packet_list st))).
  2:{ apply (pointwise_in_map R_send _ lo hi _ _ Hsend).
      apply R_send_acked_and_sent. }
  destruct (ack_offsets_single ev) as [He|[a He]]; rewrite He.
  - cbn. lia.
  - cbn [marked fold_left pass_samples]. symmetry. apply count_marked.
Qed.

Lemma unacked_not_counted (l : list packet) :
  (forall p, In p l -> is_acked p = false) ->
  length (filter acked_and_sent l) = 0.
Proof.
  induction l as [|p r IH]; intros Hall; [reflexivity|].
  cbn [filter]. unfold acked_and_sent at 1.
  rewrite (Hall p (or_introl eq_refl)). cbn [andb].
  apply IH. intros q Hq. apply Hall. right. exact Hq.
Qed.

Lemma samples_counted_start (window : nat) (clk : nat -> float)
    (tbl : list packet) :
  fresh tbl ->
  length (delays (start window clk tbl))
  = length (filter acked_and_sent (packet_list (start window clk tbl))).
Proof.
  intros Hf.
  destruct (start_packets window clk tbl) as (_ & _ & _ & _ & Hd).
  rewrite Hd. cbn [length].
  pose proof (ack_view_start window clk tbl Hf) as Hv.
  assert (Hall : forall p, In p (packet_list (start window clk tbl)) ->
                           is_acked p = false).
  { intros p Hp. apply In_nth_error in Hp. destruct Hp as [i Hi].
    pose proof (ack_view_nth _ _ i p Hv Hi) as Hn.
    rewrite nth_error_map in Hn.
    destruct (nth_error tbl i); [|discriminate].
    cbn in Hn. congruence. }
  symmetry. apply unacked_not_counted, Hall.
Qed.

Lemma evolves_segment_id (l l' : list packet) :
  evolves l l' -> map segment_id l' = map segment_id l.
Proof.
  intros [Hl H]. apply nth_error_ext. intros i. rewrite !nth_error_map.
  destruct (nth_error l i) as [p|] eqn:Hp.
  - destruct (H i p Hp) as (p' & Hp' & Hid & _). rewrite Hp'. cbn.
    now rewrite Hid.
  - apply nth_error_None in Hp.
    assert (Hn : nth_error l' i = None) by (apply nth_error_None; lia).
    rewrite Hn. reflexivity.
Qed.

Lemma start_segment_id (window : nat) (clk : nat -> float)
    (tbl : list packet) :
  map segment_id (packet_list (start window clk tbl))
  = map segment_id tbl.
Proof.
  destruct (start_packets window clk tbl) as (Hpw & _).
  apply (pointwise_in_map R_burst _ 0 _ _ _ Hpw).
  intros p p' (t1 & t2 & ->). reflexivity.
Qed.

Lemma main_loop_samples_counted (window : nat) (clk : nat -> float)
    (tbl : list packet) (evs rest : list recv_event) (st : state) :
  fresh tbl ->
  main_loop window evs (start window clk tbl) = Ok (st, rest) ->
  length (delays st) = length (filter acked_and_sent (packet_list st)).
Proof.
  intros Hf Hrun.
  refine (main_loop_invariant
            (fun s => length (delays s)
                      = length (filter acked_and_sent (packet_list s)))
            window _ evs (start window clk tbl) st rest _ Hrun).
  - intros ev s s'. apply samples_counted_step.
  - apply samples_counted_start, Hf.
Qed.

Lemma main_loop_progress (window : nat) (evs : list recv_event) :
  forall st st' rest,
    main_loop window evs st = Ok (st', rest) ->
    rest = [] \/ all_acked st' = true.
Proof.
  induction evs as [|ev evs IH]; intros st st' rest; cbn [main_loop].
  - destruct (all_acked st); intros [= <- <-]; auto.
  - destruct (all_acked st) eqn:Ha.
    + intros [= <- <-]. auto.
    + unfold bind.
      destruct (loop_body window ev st) as [st1|e]; [|discriminate].
      apply IH.
Qed.

Lemma main_loop_reads_while_unacked (window : nat)
    (evs : list recv_event) :
  forall st st' rest,
    main_loop window evs st = Ok (st', rest) ->
    forall pre ev post,
      consumed evs rest = pre ++ ev :: post ->
      exists s, main_loop window pre st = Ok (s, [])
                /\ all_acked s = false.
Proof.
  induction evs as [|ev0 evs IH]; intros st st' rest Hrun pre ev post Hc.
  - unfold consumed in Hc. cbn in Hc. destruct pre; discriminate.
  - pose proof (main_loop_consumed window (ev0 :: evs) st st' rest Hrun)
      as (Hsplit & _).
    cbn [main_loop] in Hrun. destruct (all_acked st) eqn:Ha.
    + injection Hrun as <- <-. unfold consumed in Hc.
      rewrite Nat.sub_diag in Hc. destruct pre; discriminate.
    + unfold bind in Hrun.
      destruct (loop_body window ev0 st) as [st1|e] eqn:Hb; [|discriminate].
      pose proof (main_loop_consumed window evs st1 st' rest Hrun)
        as (Hsplit1 & _).
      assert (Hcons : consumed (ev0 :: evs) rest
                      = ev0 :: consumed evs rest).
      { assert (Hlen : length rest <= length evs).
        { pose proof (f_equal (@length recv_event) Hsplit1) as Hl.
          rewrite length_app in Hl. lia. }
        unfold consumed.
        replace (length (ev0 :: evs) - length rest)
          with (S (length evs - length rest)) by (cbn [length]; lia).
        reflexivity. }
      rewrite Hcons in Hc. destruct pre as [|e1 pre'].
      * exists st. cbn [main_loop]. rewrite Ha. auto.
      * cbn [app] in Hc. injection Hc as <- Hc.
        destruct (IH st1 st' rest Hrun pre' ev post Hc) as (s & Hs & Hn).
        exists s. cbn [main_loop]. rewrite Ha. unfold bind. rewrite Hb.
        auto.
Qed.

(** C1: cumulative acknowledgment.  Whatever the main loop received
    (ACK frames in any order, with duplicates, mixed with timeouts and
    other frames that decode), when it stops or waits the acknowledged
    segments of the table are exactly those whose end offset is at most
    the largest ACK offset received.  Each acknowledged segment that
    was sent accounts for exactly one delay sample; and however the
    loop goes on from there, an acknowledged entry is never touched
    again and [left_edge] does not decrease.  The loop does process the
    events it is given: it leaves some of them only when every segment
    is acknowledged, and as long as it took events, some segment was
    not acknowledged yet. *)
Theorem cumulative_ack (window : nat) (clk : nat -> float)
    (tbl : list packet) (evs rest : list recv_event) (st : state) :
  fresh tbl ->
  main_loop window evs (start window clk tbl) = Ok (st, rest) ->
  evs = consumed evs rest ++ rest
  /\ map segment_id (packet_list st) = map segment_id tbl
  /\ (forall i p, nth_error (packet_list st) i = Some p ->
        (is_acked p = true
         <-> match max_ack (ack_offsets (consumed evs rest)) with
             | Some m => (end_offset p <= m)%Z
             | None => False
             end))
  /\ length (delays st)
     = length (filter acked_and_sent (packet_list st))
  /\ (forall evs2 st2 rest2,
        main_loop window evs2 st = Ok (st2, rest2) ->
        left_edge st <= left_edge st2
        /\ forall i p, nth_error (packet_list st) i = Some p ->
             is_acked p = true -> nth_error (packet_list st2) i = Some p)
  /\ (rest = [] \/ all_acked st = true)
  /\ (forall pre ev post,
        consumed evs rest = pre ++ ev :: post ->
        exists s,
          main_loop window pre (start window clk tbl) = Ok (s, [])
          /\ all_acked s = false).
Proof.
  intros Hf Hrun.
  destruct (main_loop_consumed window evs _ st rest Hrun) as (Hsplit & Hv).
  split; [exact Hsplit|]. split; [|split; [|split; [|split; [|split]]]].
  - rewrite (evolves_segment_id _ _
               (main_loop_evolves window evs rest _ st Hrun)).
    apply start_segment_id.
  - intros i p Hp. rewrite <- covered_max_ack.
    rewrite (ack_view_start window clk tbl Hf) in Hv.
    pose proof (ack_view_nth _ _ i p Hv Hp) as Hn.
    unfold apply_acks in Hn. rewrite map_map, nth_error_map in Hn.
    destruct (nth_error tbl i) as [p0|]; [|discriminate].
    cbn in Hn. injection Hn as He Ha. rewrite <- Ha, He. reflexivity.
  - apply (main_loop_samples_counted window clk tbl evs rest st Hf Hrun).
  - intros evs2 st2 rest2 Hrun2. split.
    + apply (main_loop_left_edge window evs2 st st2 rest2 Hrun2).
    + intros i p Hp Ha.
      destruct (main_loop_evolves window evs2 rest2 st st2 Hrun2)
        as [_ H].
      destruct (H i p Hp) as (p' & Hp' & _ & Hsame & _).
      rewrite Hp', (Hsame Ha). reflexivity.
  - apply (main_loop_progress window evs _ st rest Hrun).
  - apply (main_loop_reads_while_unacked window evs _ st rest Hrun).
Qed.

Lemma cumulative_ack_witness :
  map segment_id (packet_list demo_final) = map segment_id demo_table
  /\ length (delays demo_final)
     = length (filter acked_and_sent (packet_list demo_final)).
Proof.
  pose proof (cumulative_ack 2 demo_clock demo_table demo_events []
                demo_final demo_table_fresh demo_run) as H.
  split; [exact (proj1 (proj2 H))|].
  exact (proj1 (proj2 (proj2 (proj2 H)))).
Defined.

Example demo_final_acked :
  map is_acked (packet_list demo_final) = [true; true; true]
  /\ left_edge demo_final = 3
  /\ send_next demo_final = 3
  /\ length (delays demo_final) = 3
  /\ max_ack (ack_offsets demo_events) = Some 30%Z.
Proof. vm_compute. repeat split. Qed.

(** ** Delay is measured from the first transmission *)

Lemma Forall_pointwise (Q : packet -> Prop) (R : packet -> packet -> Prop)
    (lo hi : nat) (l l' : list packet) :
  pointwise_in R lo hi l l' ->
  (forall p p', R p p' -> Q p -> Q p') ->
  Forall Q l -> Forall Q l'.
Proof.
  intros Hpw HR HQ. rewrite Forall_forall in *. intros p' Hin.
  apply In_nth_error in Hin. destruct Hin as [i Hi].
  destruct (pointwise_in_inv R lo hi l l' i p' Hpw Hi)
    as (p & Hp & Hin & Hout).
  pose proof (HQ p (nth_error_In _ _ Hp)) as Hqp.
  destruct (le_lt_dec lo i) as [H1|H1];
    [destruct (le_lt_dec hi i) as [H2|H2]|].
  - rewrite (Hout ltac:(lia)). exact Hqp.
  - apply (HR p p'); [apply Hin; lia | exact Hqp].
  - rewrite (Hout ltac:(lia)). exact Hqp.
Qed.

Lemma mark_pkt_sent_iff (a : Z) (p : packet) :
  sent_iff p -> sent_iff (mark_pkt a p).
Proof. unfold mark_pkt. destruct (_ && _); auto. Qed.

Lemma R_send_sent_iff (p p' : packet) :
  R_send p p' -> sent_iff p -> sent_iff p'.
Proof.
  unfold sent_iff. intros [[_ ->]|(_ & t1 & t2 & ->)] H; [exact H|].
  destruct (first_sent p) eqn:Hf; cbn; rewrite ?Hf;
    split; discriminate.
Qed.

Lemma R_sweep_sent_iff (p p' : packet) :
  R_sweep p p' -> sent_iff p -> sent_iff p'.
Proof.
  unfold sent_iff. intros [->|(_ & Hr & t & ->)] H; [exact H|]. cbn.
  split; [|discriminate]. intros Hf. apply H in Hf. contradiction.
Qed.

Lemma R_burst_sent_iff (p p' : packet) : R_burst p p' -> sent_iff p'.
Proof.
  unfold sent_iff. intros (t1 & t2 & ->). cbn. split; discriminate.
Qed.

Lemma marked_sent_iff (acks : list Z) :
  forall l, Forall sent_iff l -> Forall sent_iff (marked acks l).
Proof.
  unfold marked. induction acks as [|a r IH]; intros l Hl; cbn [fold_left].
  - exact Hl.
  - apply IH. rewrite Forall_map.
    apply (Forall_impl _ (mark_pkt_sent_iff a) Hl).
Qed.

Lemma sent_iff_step (window : nat) (ev : recv_event) (st st' : state) :
  Forall sent_iff (packet_list st) ->
  loop_body window ev st = Ok st' ->
  Forall sent_iff (packet_list st').
Proof.
  intros Hinv Hb.
  destruct (loop_body_lists window ev st st' Hb)
    as (l2 & lo & hi & lo' & hi' & Hsend & Hsweep & _).
  apply (Forall_pointwise sent_iff R_sweep lo' hi' l2 _ Hsweep
           R_sweep_sent_iff).
  apply (Forall_pointwise sent_iff R_send lo hi _ l2 Hsend
           R_send_sent_iff).
  apply marked_sent_iff, Hinv.
Qed.

Lemma sent_iff_start (window : nat) (clk : nat -> float)
    (tbl : list packet) :
  fresh tbl -> Forall sent_iff (packet_list (start window clk tbl)).
Proof.
  intros Hf. destruct (start_packets window clk tbl) as (Hpw & _).
  rewrite Forall_forall. intros p' Hin.
  apply In_nth_error in Hin. destruct Hin as [i Hi].
  destruct (pointwise_in_inv R_burst _ _ _ _ i p' Hpw Hi)
    as (p & Hp & Hin & Hout).
  destruct (le_lt_dec (Nat.min window (length tbl)) i) as [H1|H1].
  - rewrite (Hout ltac:(lia)).
    destruct (fresh_nth tbl i p Hf Hp) as (_ & Hfs & Hrs).
    unfold sent_iff. rewrite Hfs, Hrs. tauto.
  - apply (R_burst_sent_iff p p'). apply Hin. lia.
Qed.

Lemma mark_samples_In (a : Z) (clk : nat -> float) (l : list packet) :
  forall t d,
    In d (mark_samples a clk t l) ->
    exists p fs k,
      In p l /\ is_acked p = false /\ (end_offset p <= a)%Z
      /\ first_sent p = Some fs /\ t <= k
      /\ d = PrimFloat.sub (clk k) fs.
Proof.
  induction l as [|p r IH]; intros t d Hd; [contradiction|].
  cbn [mark_samples] in Hd.
  assert (Hrest : forall t', t <= t' -> In d (mark_samples a clk t' r) ->
            exists q fs k,
              In q (p :: r) /\ is_acked q = false /\ (end_offset q <= a)%Z
              /\ first_sent q = Some fs /\ t <= k
              /\ d = PrimFloat.sub (clk k) fs).
  { intros t' Ht H. destruct (IH t' d H) as (q & fs & k & Hq & H1).
    exists q, fs, k. split; [right; exact Hq|].
    destruct H1 as (? & ? & ? & ? & ?). repeat split; auto. lia. }
  destruct ((end_offset p <=? a)%Z && negb (is_acked p)) eqn:Hc.
  - apply andb_true_iff in Hc. destruct Hc as [He Ha].
    apply Z.leb_le in He. apply negb_true_iff in Ha.
    destruct (first_sent p) as [fs|] eqn:Hf.
    + destruct Hd as [<-|Hd].
      * exists p, fs, t. repeat split; auto. now left.
      * apply (Hrest (S t)); [lia | exact Hd].
    + apply (Hrest t); [lia | exact Hd].
  - apply (Hrest t); [lia | exact Hd].
Qed.

Lemma sweep_body_first_sent (now : float) (idx : nat) (s : state) :
  map first_sent (packet_list (sweep_body now idx s))
  = map first_sent (packet_list s).
Proof.
  apply (pointwise_in_map R_sweep _ idx (S idx) _ _
           (sweep_body_pointwise now idx s)).
  apply R_sweep_keeps_first_sent.
Qed.

Lemma send_body_first_sent (idx : nat) (s : state) (p : packet) :
  nth_error (packet_list s) idx = Some p ->
  is_acked p = false ->
  exists p',
    nth_error (packet_list (send_body idx s)) idx = Some p'
    /\ first_sent p'
       = match first_sent p with
         | Some t => Some t
         | None => Some (clock s (ticks s))
         end.
Proof.
  intros Hp Ha. unfold send_body. rewrite Hp, Ha. cbn [negb].
  destruct (first_sent p) as [fs|] eqn:Hf;
    cbn [packet_list modify_packet set_packet_list time_time snd fst
         sendto set_outbox set_ticks clock ticks].
  - rewrite nth_error_update_at, Nat.eqb_refl, Hp. cbn.
    eexists. split; [reflexivity|]. exact Hf.
  - rewrite update_at_twice, nth_error_update_at, Nat.eqb_refl, Hp. cbn.
    eexists. split; reflexivity.
Qed.

Lemma burst_body_first_sent (idx : nat) (s : state) (p : packet) :
  nth_error (packet_list s) idx = Some p ->
  exists p',
    nth_error (packet_list (burst_body idx s)) idx = Some p'
    /\ first_sent p' = Some (clock s (ticks s)).
Proof.
  intros Hp. unfold burst_body. rewrite Hp.
  cbn [packet_list modify_packet set_packet_list time_time snd fst
       sendto set_outbox set_ticks clock ticks].
  rewrite update_at_twice, nth_error_update_at, Nat.eqb_refl, Hp. cbn.
  eexists. split; reflexivity.
Qed.

(** C6: [first_sent] is written by the first transmission of a
    segment and by nothing else.  In every state reached by the main
    loop a segment has a [first_sent] stamp exactly when it was sent;
    however the loop goes on (new sends, retransmissions, ACKs) a stamp
    that is set keeps its value; the timeout scan never writes it and
    the send loop writes it only when it is unset, giving it the clock
    reading that follows the [sendto] (so does the initial burst).  The
    samples appended by one pass are those of [mark_samples]: for each
    newly acknowledged segment that was sent, the clock reading of the
    acknowledgment minus that stamp. *)
Theorem delay_from_first_send (window : nat) (clk : nat -> float)
    (tbl : list packet) (evs rest : list recv_event) (st : state) :
  fresh tbl ->
  main_loop window evs (start window clk tbl) = Ok (st, rest) ->
  Forall sent_iff (packet_list st)
  /\ (forall evs2 st2 rest2,
        main_loop window evs2 st = Ok (st2, rest2) ->
        forall i p t,
          nth_error (packet_list st) i = Some p ->
          first_sent p = Some t ->
          exists p2, nth_error (packet_list st2) i = Some p2
                     /\ first_sent p2 = Some t)
  /\ (forall now idx s,
        map first_sent (packet_list (sweep_body now idx s))
        = map first_sent (packet_list s))
  /\ (forall idx s p,
        nth_error (packet_list s) idx = Some p ->
        is_acked p = false ->
        exists p',
          nth_error (packet_list (send_body idx s)) idx = Some p'
          /\ first_sent p'
             = match first_sent p with
               | Some t => Some t
               | None => Some (clock s (ticks s))
               end)
  /\ (forall idx s p,
        nth_error (packet_list s) idx = Some p ->
        exists p',
          nth_error (packet_list (burst_body idx s)) idx = Some p'
          /\ first_sent p' = Some (clock s (ticks s)))
  /\ (forall ev st',
        loop_body window ev st = Ok st' ->
        delays st'
        = delays st
          ++ pass_samples (ack_offsets [ev]) (clock st) (ticks st)
               (packet_list st))
  /\ (forall a c t l d,
        In d (mark_samples a c t l) ->
        exists p fs k,
          In p l /\ is_acked p = false /\ (end_offset p <= a)%Z
          /\ first_sent p = Some fs /\ t <= k
          /\ d = PrimFloat.sub (c k) fs).
Proof.
  intros Hf Hrun.
  split; [|split; [|split; [|split; [|split; [|split]]]]].
  - refine (main_loop_invariant
              (fun s => Forall sent_iff (packet_list s))
              window _ evs (start window clk tbl) st rest _ Hrun).
    + intros ev s s'. apply sent_iff_step.
    + apply sent_iff_start, Hf.
  - intros evs2 st2 rest2 Hrun2 i p t Hp Ht.
    destruct (main_loop_evolves window evs2 rest2 st st2 Hrun2) as [_ H].
    destruct (H i p Hp) as (p2 & Hp2 & _ & _ & Hst).
    exists p2. split; [exact Hp2 | apply Hst, Ht].
  - apply sweep_body_first_sent.
  - apply send_body_first_sent.
  - apply burst_body_first_sent.
  - intros ev st' Hb.
    destruct (loop_body_lists window ev st st' Hb)
      as (l2 & lo & hi & lo' & hi' & _ & _ & Hd & _).
    exact Hd.
  - intros a c t l d. apply mark_samples_In.
Qed.

Lemma delay_from_first_send_witness :
  Forall sent_iff (packet_list demo_final).
Proof.
  exact (proj1 (delay_from_first_send 2 demo_clock demo_table demo_events
                  [] demo_final demo_table_fresh demo_run)).
Defined.

(** A segment sent at clock reading 1, retransmitted at readings 4 and
    5 and acknowledged at reading 6: the sample is 6 - 1, not 6 - 5. *)
Example retransmitted_segment_delay :
  match main_loop 1 [Timeout; Timeout; Datagram (ack_frame 10)]
          (start 1 demo_clock [demo_packet 0]) with
  | Ok (st, _) =>
    length (outbox st) = 3
    /\ map first_sent (packet_list st) = [Some 1%float]
    /\ map recent_sent (packet_list st) = [Some 5%float]
    /\ delays st = [5%float]
  | Raise _ => False
  end.
Proof. vm_compute. repeat split. Qed.

(** ** Frames that do not decode, frames that are too short *)

Lemma utf8_decode_raises (bs : bytes) (x : exn) :
  utf8_decode bs = Raise x -> x = UnicodeDecodeError.
Proof.
  remember (length bs) as n eqn:Hn. revert bs Hn x.
  induction n as [n IH] using lt_wf_ind. intros bs Hn x.
  assert (Hrec : forall r (k : pystr -> py_result pystr),
            length r < n ->
            (forall s0 e, k s0 <> Raise e) ->
            bind (utf8_decode r) k = Raise x ->
            x = UnicodeDecodeError).
  { intros r k Hr Hk. destruct (utf8_decode r) as [s0|e] eqn:Es; cbn.
    - intros H. destruct (Hk s0 x H).
    - intros [= <-]. apply (IH (length r) Hr r eq_refl e Es). }
  destruct bs as [|b0 r0]; cbn [utf8_decode]; [discriminate|].
  cbn [length] in Hn.
  destruct (_ <? _)%N.
  { apply Hrec; [lia | discriminate]. }
  destruct (in_range 194 223 b0).
  { destruct r0 as [|b1 r1]; [congruence|].
    destruct (in_range 128 191 b1); [|congruence].
    apply Hrec; [cbn [length] in *; lia | discriminate]. }
  destruct (in_range 224 239 b0).
  { destruct r0 as [|b1 [|b2 r2]]; try congruence.
    destruct (_ && _); [|congruence].
    apply Hrec; [cbn [length] in *; lia | discriminate]. }
  destruct (in_range 240 244 b0); [|congruence].
  destruct r0 as [|b1 [|b2 [|b3 r3]]]; try congruence.
  destruct (_ && _); [|congruence].
  apply Hrec; [cbn [length] in *; lia | discriminate].
Qed.

Lemma short_frame_body (d : bytes) :
  length d < SEQ_SIZE -> body (firstn MAX_PACKET d) = [].
Proof.
  intros Hd. unfold body. apply skipn_all2.
  rewrite length_firstn. lia.
Qed.

(** C4, as amended.  A frame whose body is not valid UTF-8 makes
    [.decode()] raise [UnicodeDecodeError]; nothing catches it, so the
    pass, the main loop and the stop-and-wait wait loop all end with
    that exception (decoding raises nothing else).  A frame shorter
    than the header decodes without error to an empty text and is
    ignored: in the sliding-window sender only the counter
    [total_acks] moves before the periodic timeout check, and in the
    stop-and-wait sender the loop goes to its next turn. *)
Theorem malformed_frame_handling (window : nat) (st : state) (d : bytes) :
  (forall x, utf8_decode (body (firstn MAX_PACKET d)) = Raise x ->
     x = UnicodeDecodeError
     /\ loop_body window (Datagram d) st = Raise UnicodeDecodeError
     /\ (forall evs, all_acked st = false ->
           main_loop window (Datagram d :: evs) st
           = Raise UnicodeDecodeError)
     /\ (forall packet need t0 evs e,
           await_ack packet need t0 (Datagram d :: evs) e
           = Raised UnicodeDecodeError))
  /\ (length d < SEQ_SIZE ->
      on_response window (firstn MAX_PACKET d) st
      = Ok (set_total_acks (S (total_acks st)) st)
      /\ loop_body window (Datagram d) st
         = Ok (timer_check window (set_total_acks (S (total_acks st)) st))
      /\ (forall packet need t0 evs e,
            await_ack packet need t0 (Datagram d :: evs) e
            = await_ack packet need t0 evs (e_sendto packet e))).
Proof.
  split.
  - intros x Hx. pose proof (utf8_decode_raises _ x Hx) as ->.
    assert (Hb : loop_body window (Datagram d) st
                 = Raise UnicodeDecodeError).
    { cbn [loop_body]. unfold on_response, bind. rewrite Hx. reflexivity. }
    split; [reflexivity|]. split; [exact Hb|]. split.
    + intros evs Ha. cbn [main_loop]. rewrite Ha, Hb. reflexivity.
    + intros packet need t0 evs e. cbn [await_ack]. rewrite Hx.
      reflexivity.
  - intros Hd. pose proof (short_frame_body d Hd) as Hb.
    assert (Hr : on_response window (firstn MAX_PACKET d) st
                 = Ok (set_total_acks (S (total_acks st)) st)).
    { unfold on_response, bind. rewrite Hb. reflexivity. }
    split; [exact Hr|]. split.
    + cbn [loop_body]. rewrite Hr. reflexivity.
    + intros packet need t0 evs e. cbn [await_ack]. rewrite Hb.
      reflexivity.
Qed.

(** C4, as stated, fails: a datagram with header 0 and the single body
    byte 0xFF is not discarded; the pass, and with it the whole
    transfer, ends with [UnicodeDecodeError]. *)
Lemma undecodable_frame_crashes :
  loop_body WINDOW (Datagram [x00; x00; x00; x00; xff])
    (start WINDOW demo_clock demo_table)
  = Raise UnicodeDecodeError
  /\ transmit_file 10 WINDOW demo_clock (repeat x41 30)
       [Datagram [x00; x00; x00; x00; xff]]
     = Some (Failed UnicodeDecodeError)
  /\ send_file 10 demo_clock (repeat x41 30)
       [Datagram [x00; x00; x00; x00; xff]]
     = Some (Failed UnicodeDecodeError).
Proof. vm_compute. repeat split. Qed.

Example short_frame_ignored :
  match loop_body 2 (Datagram [xff; x01]) (start 2 demo_clock demo_table)
  with
  | Ok st =>
    map is_acked (packet_list st) = [false; false; false]
    /\ left_edge st = 0 /\ send_next st = 2 /\ delays st = []
    /\ total_acks st = 1
  | Raise _ => False
  end.
Proof. vm_compute. repeat split. Qed.

(** ** Metrics *)

Lemma positive_not_zero (x : pynum) :
  py_gt_zero x = true -> is_zero x = false.
Proof.
  destruct x as [z|f]; cbn [py_gt_zero is_zero].
  - intros H. apply Z.ltb_lt in H. apply Z.eqb_neq. lia.
  - rewrite ltb_spec, eqb_spec.
    change (Prim2SF 0%float) with (S754_zero false).
    destruct (Prim2SF f) as [s|s| |s m e]; cbn; try discriminate;
      destruct s; cbn; congruence.
Qed.

Lemma score_formula_total (rate mean_delay : pynum) :
  py_gt_zero mean_delay = true ->
  score_formula rate mean_delay
  = Ok (PyFloat
          (PrimFloat.add
             (PrimFloat.mul c_0_3
                (PrimFloat.div (to_float rate) (float_of_Z 1000)))
             (PrimFloat.div c_0_7 (to_float mean_delay)))).
Proof.
  intros Hpos. unfold score_formula, py_truediv, bind.
  rewrite (positive_not_zero mean_delay Hpos). reflexivity.
Qed.

(** The sliding-window computation: total as soon as the elapsed time
    is not zero; the mean is 0 without samples and the score is 0
    unless the mean is positive. *)
Lemma window_metrics_total (total_bytes : Z) (begin finish : float)
    (delays : list float) :
  is_zero (PyFloat (PrimFloat.sub finish begin)) = false ->
  let rate :=
    PyFloat (PrimFloat.div (float_of_Z total_bytes)
               (PrimFloat.sub finish begin)) in
  let mean_delay :=
    match delays with
    | [] => PyInt 0
    | _ :: _ =>
      PyFloat (PrimFloat.div
                 (fold_left PrimFloat.add delays (float_of_Z 0))
                 (float_of_Z (Z.of_nat (length delays))))
    end in
  window_metrics total_bytes begin finish delays
  = Ok (rate, mean_delay,
        if py_gt_zero mean_delay
        then PyFloat
               (PrimFloat.add
                  (PrimFloat.mul c_0_3
                     (PrimFloat.div (to_float rate) (float_of_Z 1000)))
                  (PrimFloat.div c_0_7 (to_float mean_delay)))
        else PyInt 0).
Proof.
  intros Hd rate mean_delay. unfold window_metrics.
  unfold py_truediv at 1. rewrite Hd. cbn [bind to_float]. fold rate.
  assert (Hm : match delays with
               | _ :: _ =>
                 py_truediv (py_sum delays)
                   (PyInt (Z.of_nat (length delays)))
               | [] => Ok (PyInt 0)
               end = Ok mean_delay).
  { subst mean_delay. destruct delays as [|d r]; [reflexivity|].
    unfold py_truediv.
    assert (Hz : is_zero (PyInt (Z.of_nat (length (d :: r)))) = false)
      by (cbn [is_zero length]; apply Z.eqb_neq; lia).
    rewrite Hz. reflexivity. }
  rewrite Hm. cbn [bind].
  destruct (py_gt_zero mean_delay) eqn:Hpos.
  - rewrite (score_formula_total rate mean_delay Hpos). reflexivity.
  - reflexivity.
Qed.

(** C5: the stop-and-wait computation has none of the guards of its
    sliding-window sibling.  Without delay samples (an empty file)
    [sum(all_delays) / len(all_delays)] is 0 / 0: whatever the times,
    the computation raises [ZeroDivisionError]; so does the whole
    transfer of an empty file, after the handshake was completed. *)
Theorem stop_and_wait_metrics_divide_by_zero (file_size : Z)
    (overall_start overall_end : float) :
  stop_and_wait_metrics file_size overall_start overall_end []
  = Raise ZeroDivisionError
  /\ send_file DATA_SIZE demo_clock []
       [Datagram (ack_frame 0); Datagram (fin_frame 0)]
     = Some (Failed ZeroDivisionError)
  /\ transmit_file DATA_SIZE WINDOW demo_clock []
       [Datagram (ack_frame 0); Datagram (fin_frame 0)]
     = Some (Finished (PyFloat 0%float, PyInt 0, PyInt 0)
               (mkEnv [terminal_frame 0; finack_frame] 3 demo_clock)).
Proof.
  split; [|split].
  - unfold stop_and_wait_metrics, py_truediv.
    destruct (is_zero (PyFloat (PrimFloat.sub overall_end overall_start)));
      reflexivity.
  - vm_compute. reflexivity.
  - vm_compute. reflexivity.
Qed.

(** A mean delay of exactly zero (two equal clock readings) is guarded
    in the sliding-window script only. *)
Example zero_mean_delay :
  window_metrics 10 0%float 1%float [0%float]
  = Ok (PyFloat 10%float, PyFloat 0%float, PyInt 0)
  /\ stop_and_wait_metrics 10 0%float 1%float [0%float]
     = Raise ZeroDivisionError.
Proof. vm_compute. split; reflexivity. Qed.

(** ** Teardown *)

Lemma is_final_ack_raises (seq : Z) (r : bytes) (x : exn) :
  is_final_ack seq r = Raise x -> x = UnicodeDecodeError.
Proof.
  unfold is_final_ack, bind.
  destruct (utf8_decode (body r)) as [s|e] eqn:E; [discriminate|].
  intros [= <-]. apply (utf8_decode_raises _ _ E).
Qed.

Lemma is_fin_raises (r : bytes) (x : exn) :
  is_fin r = Raise x -> x = UnicodeDecodeError.
Proof.
  unfold is_fin, bind.
  destruct (utf8_decode (body r)) as [s|e] eqn:E; [discriminate|].
  intros [= <-]. apply (utf8_decode_raises _ _ E).
Qed.

Lemma repeat_snoc_front {A : Type} (x : A) (k : nat) (l : list A) :
  (l ++ [x]) ++ repeat x k = l ++ repeat x (S k).
Proof. rewrite <- app_assoc. reflexivity. Qed.

Lemma await_fin_spec (pkt : bytes) (seq : Z) (n : nat) :
  forall evs e, length evs <= n ->
    match await_fin pkt seq evs e with
    | Returned _ e' rest =>
      exists k, 1 <= k
        /\ e_outbox e' = e_outbox e ++ repeat pkt k
        /\ e_ticks e' = e_ticks e /\ e_clock e' = e_clock e
        /\ exists pre a f,
             evs = pre ++ Datagram a :: Datagram f :: rest
             /\ is_final_ack seq (firstn MAX_PACKET a) = Ok true
             /\ is_fin (firstn MAX_PACKET f) = Ok true
    | Waiting e' =>
      exists k, 1 <= k /\ e_outbox e' = e_outbox e ++ repeat pkt k
    | Raised x => x = UnicodeDecodeError
    end.
Proof.
  induction n as [n IH] using lt_wf_ind. intros evs e Hn.
  assert (Hnext : forall rest pre,
            length rest < n -> evs = pre ++ rest ->
            match await_fin pkt seq rest (e_sendto pkt e) with
            | Returned _ e' rest' =>
              exists k, 1 <= k
                /\ e_outbox e' = e_outbox e ++ repeat pkt k
                /\ e_ticks e' = e_ticks e /\ e_clock e' = e_clock e
                /\ exists pre' a f,
                     evs = pre' ++ Datagram a :: Datagram f :: rest'
                     /\ is_final_ack seq (firstn MAX_PACKET a) = Ok true
                     /\ is_fin (firstn MAX_PACKET f) = Ok true
            | Waiting e' =>
              exists k, 1 <= k /\ e_outbox e' = e_outbox e ++ repeat pkt k
            | Raised x => x = UnicodeDecodeError
            end).
  { intros rest pre Hr Hpre.
    pose proof (IH (length rest) Hr rest (e_sendto pkt e) (le_n _)) as H.
    destruct (await_fin pkt seq rest (e_sendto pkt e))
      as [[] e' rest'|e'|x]; [| |exact H].
    - destruct H as (k & Hk & Ho & Ht & Hc & pre' & a & f & He & Ha & Hf).
      exists (S k). split; [lia|]. cbn [e_sendto e_outbox] in Ho.
      rewrite repeat_snoc_front in Ho. split; [exact Ho|].
      split; [exact Ht|]. split; [exact Hc|].
      exists (pre ++ pre'), a, f. rewrite <- app_assoc, <- He.
      auto.
    - destruct H as (k & Hk & Ho). exists (S k). split; [lia|].
      cbn [e_sendto e_outbox] in Ho. rewrite repeat_snoc_front in Ho.
      exact Ho. }
  destruct evs as [|[|d] rest]; cbn [await_fin].
  - exists 1. split; [lia|]. reflexivity.
  - apply (Hnext rest [Timeout]); [cbn [length] in Hn; lia | reflexivity].
  - destruct (is_final_ack seq (firstn MAX_PACKET d)) as [[|]|x] eqn:Ha.
    + destruct rest as [|[|f] rest'].
      * exists 1. split; [lia|]. reflexivity.
      * apply (Hnext rest' [Datagram d; Timeout]);
          [cbn [length] in Hn; lia | reflexivity].
      * destruct (is_fin (firstn MAX_PACKET f)) as [[|]|x] eqn:Hf.
        -- exists 1. split; [lia|]. split; [reflexivity|].
           split; [reflexivity|]. split; [reflexivity|].
           exists [], d, f. auto.
        -- apply (Hnext rest' [Datagram d; Datagram f]);
             [cbn [length] in Hn; lia | reflexivity].
        -- apply (is_fin_raises _ _ Hf).
    + apply (Hnext rest [Datagram d]);
        [cbn [length] in Hn; lia | reflexivity].
    + apply (is_final_ack_raises _ _ _ Ha).
Qed.

Lemma await_fin_retries (pkt : bytes) (seq : Z) (noise : list recv_event)
    (a f : bytes) (rest : list recv_event) :
  Forall (retry_event seq) noise ->
  is_final_ack seq (firstn MAX_PACKET a) = Ok true ->
  is_fin (firstn MAX_PACKET f) = Ok true ->
  forall e,
    await_fin pkt seq (noise ++ Datagram a :: Datagram f :: rest) e
    = Returned tt
        (mkEnv (e_outbox e ++ repeat pkt (S (length noise))) (e_ticks e)
           (e_clock e))
        rest.
Proof.
  intros Hn Ha Hf. induction Hn as [|ev noise Hev _ IH]; intros e.
  - cbn [app await_fin length repeat]. rewrite Ha, Hf. reflexivity.
  - cbn [app length]. destruct ev as [|d]; cbn [await_fin].
    + rewrite IH. cbn [e_sendto e_outbox e_ticks e_clock].
      rewrite repeat_snoc_front. reflexivity.
    + cbn [retry_event] in Hev. rewrite Hev, IH.
      cbn [e_sendto e_outbox e_ticks e_clock].
      rewrite repeat_snoc_front. reflexivity.
Qed.

Lemma terminal_frame_encoding (total_bytes : Z) :
  (0 <= total_bytes < 2 ^ 31)%Z ->
  encode_frame total_bytes [] = Ok (terminal_frame total_bytes).
Proof.
  intros Hr.
  destruct (encode_frame_cases total_bytes []) as [[_ He]|[Hn _]]; [|lia].
  rewrite He, app_nil_r. reflexivity.
Qed.

Lemma terminal_frame_reads (total_bytes : Z) :
  (0 <= total_bytes < 2 ^ 31)%Z ->
  int_from_bytes (header (terminal_frame total_bytes)) = total_bytes
  /\ body (terminal_frame total_bytes) = [].
Proof.
  intros Hr. unfold terminal_frame, header, body. split.
  - rewrite firstn_all2 by (rewrite be_bytes_length; lia).
    apply (int_from_to_bytes total_bytes SEQ_SIZE);
      [unfold SEQ_SIZE; lia|].
    unfold int_to_bytes. cbv zeta.
    change (8 * Z.of_nat SEQ_SIZE - 1)%Z with 31%Z.
    destruct (Z.leb_spec (- 2 ^ 31) total_bytes); [|lia].
    destruct (Z.ltb_spec total_bytes (2 ^ 31)); [|lia]. reflexivity.
  - apply skipn_all2. rewrite be_bytes_length. lia.
Qed.

Lemma await_fin_turns (pkt : bytes) (seq : Z)
    (turns : list (list recv_event)) (evs : list recv_event) :
  Forall (lost_turn seq) turns ->
  forall e,
    await_fin pkt seq (concat turns ++ evs) e
    = await_fin pkt seq evs
        (mkEnv (e_outbox e ++ repeat pkt (length turns)) (e_ticks e)
           (e_clock e)).
Proof.
  intros Ht. induction Ht as [|turn turns Hturn _ IH]; intros e.
  - cbn [concat app length repeat]. rewrite app_nil_r.
    destruct e; reflexivity.
  - cbn [concat length]. rewrite <- app_assoc, <- repeat_snoc_front.
    destruct turn as [|[|d] [|[|f] [|? ?]]]; cbn [lost_turn] in Hturn;
      try contradiction; cbn [app await_fin].
    + rewrite IH. reflexivity.
    + rewrite Hturn, IH. reflexivity.
    + rewrite Hturn, IH. reflexivity.
    + destruct Hturn as [Ha Hf]. rewrite Ha, Hf, IH. reflexivity.
Qed.

Lemma await_fin_undecodable (pkt : bytes) (seq : Z) (d : bytes)
    (x : exn) (rest : list recv_event) (e : env) :
  utf8_decode (body (firstn MAX_PACKET d)) = Raise x ->
  await_fin pkt seq (Datagram d :: rest) e = Raised UnicodeDecodeError.
Proof.
  intros Hd. cbn [await_fin]. unfold is_final_ack, bind. rewrite Hd.
  rewrite (utf8_decode_raises _ _ Hd). reflexivity.
Qed.

Lemma await_fin_undecodable_fin (pkt : bytes) (seq : Z) (a f : bytes)
    (x : exn) (rest : list recv_event) (e : env) :
  is_final_ack seq (firstn MAX_PACKET a) = Ok true ->
  utf8_decode (body (firstn MAX_PACKET f)) = Raise x ->
  await_fin pkt seq (Datagram a :: Datagram f :: rest) e
  = Raised UnicodeDecodeError.
Proof.
  intros Ha Hf. cbn [await_fin]. rewrite Ha. unfold is_fin, bind.
  rewrite Hf. rewrite (utf8_decode_raises _ _ Hf). reflexivity.
Qed.

Lemma teardown_turns (total_bytes : Z) (e : env)
    (turns : list (list recv_event)) :
  (0 <= total_bytes < 2 ^ 31)%Z ->
  Forall (lost_turn total_bytes) turns ->
  (forall a f rest,
     is_final_ack total_bytes (firstn MAX_PACKET a) = Ok true ->
     is_fin (firstn MAX_PACKET f) = Ok true ->
     teardown total_bytes
       (concat turns ++ Datagram a :: Datagram f :: rest) e
     = CLOSED (e_now e)
         (mkEnv (e_outbox e
                 ++ repeat (terminal_frame total_bytes)
                      (S (length turns))
                 ++ [finack_frame])
            (S (e_ticks e)) (e_clock e))
         rest)
  /\ teardown total_bytes (concat turns) e
     = TEARDOWN
         (mkEnv (e_outbox e
                 ++ repeat (terminal_frame total_bytes)
                      (S (length turns)))
            (e_ticks e) (e_clock e))
  /\ (forall d x rest,
        utf8_decode (body (firstn MAX_PACKET d)) = Raise x ->
        teardown total_bytes (concat turns ++ Datagram d :: rest) e
        = FAILED UnicodeDecodeError)
  /\ (forall a f x rest,
        is_final_ack total_bytes (firstn MAX_PACKET a) = Ok true ->
        utf8_decode (body (firstn MAX_PACKET f)) = Raise x ->
        teardown total_bytes
          (concat turns ++ Datagram a :: Datagram f :: rest) e
        = FAILED UnicodeDecodeError).
Proof.
  intros Hr Ht. pose proof (terminal_frame_encoding total_bytes Hr) as Henc.
  assert (Hrep : forall l : list bytes,
            (l ++ repeat (terminal_frame total_bytes) (length turns))
            ++ [terminal_frame total_bytes]
            = l ++ repeat (terminal_frame total_bytes) (S (length turns))).
  { intros l. rewrite <- app_assoc, <- repeat_cons. reflexivity. }
  split; [|split; [|split]].
  - intros a f rest Ha Hf. unfold teardown. rewrite Henc.
    rewrite (await_fin_turns _ _ turns _ Ht).
    rewrite (await_fin_retries _ _ [] a f rest (Forall_nil _) Ha Hf).
    change (encode_frame 0 bytes_FINACK) with (Ok finack_frame).
    cbv zeta. unfold e_now, e_tick, e_sendto.
    cbn [e_outbox e_ticks e_clock length repeat].
    rewrite Hrep, <- app_assoc. reflexivity.
  - unfold teardown. rewrite Henc.
    rewrite <- (app_nil_r (concat turns)).
    rewrite (await_fin_turns _ _ turns [] Ht).
    cbn [await_fin]. unfold e_sendto. cbn [e_outbox e_ticks e_clock].
    rewrite Hrep. reflexivity.
  - intros d x rest Hd. unfold teardown. rewrite Henc.
    rewrite (await_fin_turns _ _ turns _ Ht).
    rewrite (await_fin_undecodable _ _ d x rest _ Hd). reflexivity.
  - intros a f x rest Ha Hf. unfold teardown. rewrite Henc.
    rewrite (await_fin_turns _ _ turns _ Ht).
    rewrite (await_fin_undecodable_fin _ _ a f x rest _ Ha Hf).
    reflexivity.
Qed.

(** C7, as amended.  The terminal frame is the 4-byte header of the
    total length with an empty body, the FINACK frame is header 0 and
    ["==FINACK=="].  Teardown sends the terminal frame at the top of
    every turn of its loop and then receives once; only when that
    gives the ACK echoing the total length does it receive a second
    time, and only a FIN there ends the loop: a timeout or another
    frame that decodes, in either place, starts a new turn that waits
    for the ACK again.  So when the session is CLOSED it has sent the
    terminal frame [k >= 1] times and then the FINACK, once and last,
    and the events it used end with that ACK immediately followed by a
    FIN; while it is still in teardown only terminal frames were sent;
    and after any number of timeouts and other decodable frames, an
    ACK followed at once by a FIN closes it.  The data phase hands
    over to teardown only with every segment acknowledged.  Turn by
    turn: after any number of turns lost in one of those ways (one
    terminal frame each), the ACK followed at once by a FIN closes the
    session, the events running out leave it in teardown, and a frame
    whose body does not decode, as answer to the terminal frame or in
    the place of the FIN, ends the transfer with [UnicodeDecodeError],
    no FINACK being sent. *)
Theorem teardown_handshake (total_bytes : Z) (evs : list recv_event)
    (e : env) :
  (0 <= total_bytes < 2 ^ 31)%Z ->
  encode_frame total_bytes [] = Ok (terminal_frame total_bytes)
  /\ int_from_bytes (header (terminal_frame total_bytes)) = total_bytes
  /\ body (terminal_frame total_bytes) = []
  /\ encode_frame 0 bytes_FINACK = Ok finack_frame
  /\ match teardown total_bytes evs e with
     | CLOSED finish e' rest =>
       exists k, 1 <= k
         /\ e_outbox e'
            = e_outbox e ++ repeat (terminal_frame total_bytes) k
              ++ [finack_frame]
         /\ finish = e_now e
         /\ exists pre a f,
              evs = pre ++ Datagram a :: Datagram f :: rest
              /\ is_final_ack total_bytes (firstn MAX_PACKET a) = Ok true
              /\ is_fin (firstn MAX_PACKET f) = Ok true
     | TEARDOWN e' =>
       exists k, 1 <= k
         /\ e_outbox e'
            = e_outbox e ++ repeat (terminal_frame total_bytes) k
     | FAILED x => x = UnicodeDecodeError
     end
  /\ (forall noise a f rest,
        Forall (retry_event total_bytes) noise ->
        is_final_ack total_bytes (firstn MAX_PACKET a) = Ok true ->
        is_fin (firstn MAX_PACKET f) = Ok true ->
        teardown total_bytes (noise ++ Datagram a :: Datagram f :: rest) e
        = CLOSED (e_now e)
            (mkEnv (e_outbox e
                    ++ repeat (terminal_frame total_bytes)
                         (S (length noise))
                    ++ [finack_frame])
               (S (e_ticks e)) (e_clock e))
            rest)
  /\ (forall a ev rest,
        is_final_ack total_bytes (firstn MAX_PACKET a) = Ok true ->
        match ev with
        | Timeout => True
        | Datagram f => is_fin (firstn MAX_PACKET f) = Ok false
        end ->
        await_fin (terminal_frame total_bytes) total_bytes
          (Datagram a :: ev :: rest) e
        = await_fin (terminal_frame total_bytes) total_bytes rest
            (e_sendto (terminal_frame total_bytes) e))
  /\ (forall chunk window clk contents tbl st rest,
        segment_table chunk contents = Some (Ok tbl) ->
        main_loop window evs (start window clk tbl) = Ok (st, rest) ->
        all_acked st = false ->
        transmit_file chunk window clk contents evs
        = Some (InData (env_of_state st)))
  /\ (forall turns,
        Forall (lost_turn total_bytes) turns ->
        (forall a f rest,
           is_final_ack total_bytes (firstn MAX_PACKET a) = Ok true ->
           is_fin (firstn MAX_PACKET f) = Ok true ->
           teardown total_bytes
             (concat turns ++ Datagram a :: Datagram f :: rest) e
           = CLOSED (e_now e)
               (mkEnv (e_outbox e
                       ++ repeat (terminal_frame total_bytes)
                            (S (length turns))
                       ++ [finack_frame])
                  (S (e_ticks e)) (e_clock e))
               rest)
        /\ teardown total_bytes (concat turns) e
           = TEARDOWN
               (mkEnv (e_outbox e
                       ++ repeat (terminal_frame total_bytes)
                            (S (length turns)))
                  (e_ticks e) (e_clock e))
        /\ (forall d x rest,
              utf8_decode (body (firstn MAX_PACKET d)) = Raise x ->
              teardown total_bytes (concat turns ++ Datagram d :: rest) e
              = FAILED UnicodeDecodeError)
        /\ (forall a f x rest,
              is_final_ack total_bytes (firstn MAX_PACKET a) = Ok true ->
              utf8_decode (body (firstn MAX_PACKET f)) = Raise x ->
              teardown total_bytes
                (concat turns ++ Datagram a :: Datagram f :: rest) e
              = FAILED UnicodeDecodeError)).
Proof.
  intros Hr. pose proof (terminal_frame_encoding total_bytes Hr) as Henc.
  split; [exact Henc|]. split; [|split; [|split; [|split; [|split;
                                                     [|split; [|split]]]]]].
  - apply (terminal_frame_reads total_bytes Hr).
  - apply (terminal_frame_reads total_bytes Hr).
  - reflexivity.
  - unfold teardown. rewrite Henc.
    pose proof (await_fin_spec (terminal_frame total_bytes) total_bytes
                  (length evs) evs e (le_n _)) as H.
    destruct (await_fin (terminal_frame total_bytes) total_bytes evs e)
      as [[] e' rest|e'|x]; [| |exact H].
    + destruct H as (k & Hk & Ho & Ht & Hc & Hev).
      change (encode_frame 0 bytes_FINACK) with (Ok finack_frame).
      exists k. split; [exact Hk|]. split.
      * cbn [e_tick e_sendto e_outbox]. rewrite Ho, <- app_assoc.
        reflexivity.
      * split; [|exact Hev]. unfold e_now.
        cbn [e_sendto e_ticks e_clock]. rewrite Ht, Hc. reflexivity.
    + exact H.
  - intros noise a f rest Hn Ha Hf. unfold teardown. rewrite Henc.
    rewrite (await_fin_retries _ _ noise a f rest Hn Ha Hf).
    change (encode_frame 0 bytes_FINACK) with (Ok finack_frame).
    cbv zeta. unfold e_now, e_tick, e_sendto.
    cbn [e_outbox e_ticks e_clock]. rewrite <- app_assoc. reflexivity.
  - intros a ev rest Ha Hev. cbn [await_fin]. rewrite Ha.
    destruct ev as [|f]; [reflexivity|]. rewrite Hev. reflexivity.
  - intros chunk window clk contents tbl st rest Ht Hrun Ha.
    unfold transmit_file. rewrite Ht, Hrun, Ha. reflexivity.
  - intros turns Ht. apply (teardown_turns total_bytes e turns Hr Ht).
Qed.

Lemma teardown_handshake_witness :
  encode_frame 10 [] = Ok (terminal_frame 10)
  /\ int_from_bytes (header (terminal_frame 10)) = 10%Z.
Proof.
  pose proof (teardown_handshake 10 [] (mkEnv [] 0 demo_clock)
                ltac:(lia)) as H.
  split; [exact (proj1 H) | exact (proj1 (proj2 H))].
Defined.

(** C7, as stated, fails.  The ACK echoing the total length arrives,
    the wait for the FIN times out, then the FIN arrives: the FIN is
    taken for a wrong answer to the terminal frame just resent, no
    FINACK is sent and the session stays in teardown. *)
Lemma fin_after_timeout_is_not_accepted :
  is_final_ack 10 (ack_frame 10) = Ok true
  /\ is_fin (fin_frame 0) = Ok true
  /\ teardown 10
       [Datagram (ack_frame 10); Timeout; Datagram (fin_frame 0)]
       (mkEnv [] 0 demo_clock)
     = TEARDOWN (mkEnv [terminal_frame 10; terminal_frame 10;
                        terminal_frame 10] 0 demo_clock)
  /\ transmit_file 10 1 demo_clock (repeat x41 10)
       [Datagram (ack_frame 10); Datagram (ack_frame 10); Timeout;
        Datagram (fin_frame 0)]
     = Some (InTeardown
               (mkEnv [be_bytes SEQ_SIZE 0 ++ repeat x41 10;
                       terminal_frame 10; terminal_frame 10;
                       terminal_frame 10] 6 demo_clock)).
Proof. vm_compute. repeat split. Qed.

(** A frame that does not decode during teardown: as answer to the
    terminal frame, or in the place of the FIN. *)
Example undecodable_frame_in_teardown :
  teardown 10 [Timeout; Datagram (be_bytes SEQ_SIZE 10 ++ [xff])]
    (mkEnv [] 0 demo_clock)
  = FAILED UnicodeDecodeError
  /\ teardown 10
       [Datagram (ack_frame 10); Datagram (be_bytes SEQ_SIZE 0 ++ [xff])]
       (mkEnv [] 0 demo_clock)
     = FAILED UnicodeDecodeError.
Proof. vm_compute. split; reflexivity. Qed.

(** Scenario A: one segment, no loss. *)
Example scenario_A :
  transmit_file 10 1 demo_clock (repeat x41 10)
    [Datagram (ack_frame 10); Datagram (ack_frame 10);
     Datagram (fin_frame 0)]
  = Some (Finished
            (PyFloat (PrimFloat.div 10 6), PyFloat 3%float,
             PyFloat (PrimFloat.add
                        (PrimFloat.mul c_0_3
                           (PrimFloat.div (PrimFloat.div 10 6) 1000))
                        (PrimFloat.div c_0_7 3)))
            (mkEnv [be_bytes SEQ_SIZE 0 ++ repeat x41 10;
                    terminal_frame 10; finack_frame] 7 demo_clock)).
Proof. vm_compute. reflexivity. Qed.

(** ** Stop-and-wait against a window of one *)

Lemma collapse_nil_iff (l : list bytes) : collapse l = [] <-> l = [].
Proof.
  split; [|intros ->; reflexivity].
  induction l as [|x r IH]; [reflexivity|].
  destruct r as [|y r']; cbn [collapse]; [intros H; discriminate H|].
  destruct (list_eq_dec Byte.byte_eq_dec x y);
    [|intros H; discriminate H].
  intros H. apply IH in H. discriminate H.
Qed.

Lemma collapse_last (l : list bytes) (d : bytes) :
  last (collapse l) d = last l d.
Proof.
  induction l as [|x r IH]; [reflexivity|].
  destruct r as [|y r']; [reflexivity|].
  change (collapse (x :: y :: r'))
    with (if list_eq_dec Byte.byte_eq_dec x y
          then collapse (y :: r') else x :: collapse (y :: r')).
  change (last (x :: y :: r') d) with (last (y :: r') d).
  destruct (list_eq_dec Byte.byte_eq_dec x y) as [->|Hne].
  - rewrite IH. reflexivity.
  - change (last (x :: collapse (y :: r')) d)
      with (match collapse (y :: r') with
            | [] => x
            | _ :: _ => last (collapse (y :: r')) d
            end).
    destruct (collapse (y :: r')) as [|c cs] eqn:Hc.
    + apply (proj1 (collapse_nil_iff _)) in Hc. discriminate Hc.
    + exact IH.
Qed.

Lemma collapse_snoc (l : list bytes) (x : bytes) :
  collapse (l ++ [x])
  = match l with
    | [] => [x]
    | _ :: _ =>
      if list_eq_dec Byte.byte_eq_dec (last l x) x then collapse l
      else collapse l ++ [x]
    end.
Proof.
  induction l as [|y r IH]; [reflexivity|].
  destruct r as [|z r'].
  - cbn [app collapse last].
    destruct (list_eq_dec Byte.byte_eq_dec y x) as [->|Hne]; reflexivity.
  - change ((y :: z :: r') ++ [x]) with (y :: (z :: r') ++ [x]).
    change (last (y :: z :: r') x) with (last (z :: r') x).
    change (collapse (y :: (z :: r') ++ [x]))
      with (if list_eq_dec Byte.byte_eq_dec y z
            then collapse ((z :: r') ++ [x])
            else y :: collapse ((z :: r') ++ [x])).
    change (collapse (y :: z :: r'))
      with (if list_eq_dec Byte.byte_eq_dec y z
            then collapse (z :: r') else y :: collapse (z :: r')).
    rewrite IH.
    destruct (list_eq_dec Byte.byte_eq_dec y z);
      destruct (list_eq_dec Byte.byte_eq_dec (last (z :: r') x) x);
      reflexivity.
Qed.

Lemma collapse_snoc_congr (a b : list bytes) (x : bytes) :
  collapse a = collapse b -> collapse (a ++ [x]) = collapse (b ++ [x]).
Proof.
  intros H. rewrite !collapse_snoc.
  pose proof (collapse_last a x) as Ha.
  pose proof (collapse_last b x) as Hb. rewrite H in Ha.
  destruct a as [|a0 ar], b as [|b0 br].
  - reflexivity.
  - symmetry in H. apply (proj1 (collapse_nil_iff _)) in H.
    discriminate H.
  - apply (proj1 (collapse_nil_iff _)) in H. discriminate H.
  - rewrite <- Ha, Hb, H. reflexivity.
Qed.

Lemma collapse_snoc_dup (l : list bytes) (x : bytes) :
  collapse ((l ++ [x]) ++ [x]) = collapse (l ++ [x]).
Proof.
  rewrite (collapse_snoc (l ++ [x]) x). rewrite last_last.
  destruct (l ++ [x]) eqn:E; [destruct l; discriminate|].
  destruct (list_eq_dec Byte.byte_eq_dec x x); [reflexivity|congruence].
Qed.

Lemma py_for_single {St : Type} (lo : nat) (body : nat -> St -> St)
    (s : St) :
  py_for lo (S lo) body s = body lo s.
Proof.
  unfold py_for. replace (S lo - lo) with 1 by lia. reflexivity.
Qed.

Lemma py_for_empty {St : Type} (lo hi : nat) (body : nat -> St -> St)
    (s : St) :
  hi <= lo -> py_for lo hi body s = s.
Proof.
  intros H. unfold py_for. replace (hi - lo) with 0 by lia. reflexivity.
Qed.

Lemma send_body_outbox (idx : nat) (s : state) (p : packet) :
  nth_error (packet_list s) idx = Some p -> is_acked p = false ->
  outbox (send_body idx s) = outbox s ++ [raw p].
Proof.
  intros Hp Ha. unfold send_body. rewrite Hp, Ha. cbn [negb].
  destruct (first_sent p); reflexivity.
Qed.

Lemma sweep_body_outbox (now : float) (idx : nat) (s : state) :
  outbox (sweep_body now idx s) = outbox s
  \/ exists p, nth_error (packet_list s) idx = Some p
               /\ outbox (sweep_body now idx s) = outbox s ++ [raw p].
Proof.
  unfold sweep_body.
  destruct (nth_error (packet_list s) idx) as [p|]; [|auto].
  destruct (recent_sent p); [|auto].
  destruct (_ && _); [|auto]. right. exists p. auto.
Qed.

Lemma mark_acked_none (a : Z) (st : state) :
  (forall idx p, nth_error (packet_list st) idx = Some p ->
     (end_offset p <=? a)%Z && negb (is_acked p) = false) ->
  mark_acked a st = st.
Proof.
  intros H. unfold mark_acked, py_for.
  apply (for_range_invariant (fun s => s = st)); [|reflexivity].
  intros idx s ->. unfold mark_body.
  destruct (nth_error (packet_list st) idx) as [p|] eqn:Hp; [|reflexivity].
  pose proof (H idx p Hp) as Hc. unfold end_offset in Hc. rewrite Hc.
  reflexivity.
Qed.

Lemma slide_exact (l : list packet) (e i : nat) :
  (forall j p, nth_error l j = Some p -> (is_acked p = true <-> j < i)) ->
  e <= i <= length l ->
  slide l e = i.
Proof.
  intros H He.
  pose proof (slide_ge l e) as Hge.
  pose proof (slide_le l e ltac:(lia)) as Hle.
  destruct (lt_eq_lt_dec (slide l e) i) as [[Hlt|Heq]|Hgt].
  - destruct (nth_error l (slide l e)) as [p|] eqn:Hp.
    + pose proof (slide_stop l e p Hp) as Hs.
      pose proof (proj2 (H _ p Hp) Hlt). congruence.
    + apply nth_error_None in Hp. lia.
  - exact Heq.
  - destruct (nth_error l i) as [p|] eqn:Hp.
    + pose proof (slide_acked l e i p ltac:(lia) Hp) as Ha.
      apply (H i p Hp) in Ha. lia.
    + apply nth_error_None in Hp. lia.
Qed.

Lemma one_by_one_length (tbl : list packet) (i : nat) (st : state) :
  one_by_one tbl i st -> length (packet_list st) = length tbl.
Proof.
  intros (_ & _ & _ & Hid & _).
  apply (f_equal (@length _)) in Hid. rewrite !length_map in Hid.
  exact Hid.
Qed.

Lemma one_by_one_nth (tbl : list packet) (i : nat) (st : state)
    (j : nat) (p0 : packet) :
  one_by_one tbl i st -> nth_error tbl j = Some p0 ->
  exists p, nth_error (packet_list st) j = Some p
            /\ raw p = raw p0 /\ end_offset p = end_offset p0.
Proof.
  intros (_ & _ & _ & Hid & _) Hp0.
  pose proof (f_equal (fun l => nth_error l j) Hid) as Hn. cbn in Hn.
  rewrite !nth_error_map, Hp0 in Hn.
  destruct (nth_error (packet_list st) j) as [p|]; [|discriminate].
  cbn in Hn. injection Hn as H1 H2 H3. exists p.
  unfold end_offset. rewrite H1, H2, H3. auto.
Qed.

Lemma one_by_one_all_acked (tbl : list packet) (i : nat) (st : state) :
  one_by_one tbl i st ->
  (all_acked st = true <-> i = length tbl).
Proof.
  intros Ho. pose proof (one_by_one_length tbl i st Ho) as Hlen.
  destruct Ho as (_ & _ & Hi & _ & Hack & _).
  unfold all_acked. rewrite forallb_forall. split.
  - intros Hall. destruct (Nat.eq_dec i (length tbl)) as [|Hne]; [auto|].
    destruct (nth_error (packet_list st) i) as [p|] eqn:Hp.
    + pose proof (Hall p (nth_error_In _ _ Hp)) as Ha.
      apply (Hack i p Hp) in Ha. lia.
    + apply nth_error_None in Hp. lia.
  - intros -> p Hin. apply In_nth_error in Hin. destruct Hin as [j Hj].
    apply (Hack j p Hj).
    assert (j < length (packet_list st))
      by (apply nth_error_Some; congruence).
    lia.
Qed.

Lemma stable_fields (p p' : packet) :
  stable p p' ->
  raw p' = raw p /\ end_offset p' = end_offset p.
Proof.
  intros (Hid & _). unfold segment_id in Hid. injection Hid as H1 H2 H3.
  unfold end_offset. rewrite H1, H2, H3. auto.
Qed.

Lemma one_by_one_sweep (tbl : list packet) (i lo hi : nat)
    (st st' : state) :
  pointwise_in R_sweep lo hi (packet_list st) (packet_list st') ->
  left_edge st' = left_edge st ->
  send_next st' = send_next st ->
  one_by_one tbl i st -> one_by_one tbl i st'.
Proof.
  intros Hpw Hl Hs (H1 & H2 & H3 & H4 & H5 & H6).
  assert (Hrel : forall j p', nth_error (packet_list st') j = Some p' ->
            exists p, nth_error (packet_list st) j = Some p
                      /\ is_acked p' = is_acked p
                      /\ first_sent p' = first_sent p).
  { intros j p' Hp'.
    destruct (pointwise_in_inv R_sweep lo hi _ _ j p' Hpw Hp')
      as (p & Hp & Hin & Hout).
    exists p. split; [exact Hp|].
    destruct (le_lt_dec lo j) as [Ha|Ha];
      [destruct (le_lt_dec hi j) as [Hb|Hb]|].
    - rewrite (Hout ltac:(lia)). auto.
    - split; [apply R_sweep_keeps_acked | apply R_sweep_keeps_first_sent];
        apply Hin; lia.
    - rewrite (Hout ltac:(lia)). auto. }
  split; [congruence|]. split; [congruence|]. split; [exact H3|].
  split; [|split].
  - rewrite <- H4.
    apply (pointwise_in_map R_sweep segment_id lo hi _ _ Hpw).
    intros p p' HR. apply (R_sweep_stable p p' HR).
  - intros j p' Hp'. destruct (Hrel j p' Hp') as (p & Hp & Ha & _).
    rewrite Ha. apply (H5 j p Hp).
  - intros j p' Hp'. destruct (Hrel j p' Hp') as (p & Hp & _ & Hf).
    rewrite Hf. apply (H6 j p Hp).
Qed.

Lemma timer_one_by_one (tbl : list packet) (i : nat) (st : state) :
  one_by_one tbl i st ->
  one_by_one tbl i (timer_check 1 st)
  /\ (outbox (timer_check 1 st) = outbox st
      \/ exists p0, nth_error tbl i = Some p0
                    /\ outbox (timer_check 1 st) = outbox st ++ [raw p0]).
Proof.
  intros Ho. split.
  - destruct (timer_check_pointwise 1 st) as (lo & hi & Hpw).
    destruct (timer_check_frame 1 st) as (Hl & Hs & _).
    apply (one_by_one_sweep tbl i lo hi st _ Hpw Hl Hs Ho).
  - pose proof (one_by_one_length tbl i st Ho) as Hlen.
    pose proof Ho as (Hle & _ & Hi & _).
    unfold timer_check. destruct (PrimFloat.ltb _ _); [|left; reflexivity].
    cbn [outbox set_last_check].
    set (st1 := snd (time_time st)).
    assert (Hre : right_edge 1 st1 = Nat.min (i + 1) (length tbl))
      by (unfold right_edge, num_packets, st1; cbn; congruence).
    change (left_edge st1) with (left_edge st). rewrite Hle, Hre.
    destruct (Nat.eq_dec i (length tbl)) as [Heq|Hne].
    + rewrite py_for_empty by lia. left. reflexivity.
    + replace (Nat.min (i + 1) (length tbl)) with (S i) by lia.
      rewrite py_for_single.
      destruct (sweep_body_outbox (fst (time_time st)) i st1)
        as [Hsame|(p & Hp & Happ)].
      * left. exact Hsame.
      * right.
        destruct (nth_error tbl i) as [p0|] eqn:Hp0.
        2:{ apply nth_error_None in Hp0. lia. }
        destruct (one_by_one_nth tbl i st i p0 Ho Hp0)
          as (p' & Hp' & Hraw & _).
        change (packet_list st1) with (packet_list st) in Hp.
        assert (p' = p) by congruence. subst p'.
        exists p0. split; [reflexivity|]. rewrite Happ, Hraw. reflexivity.
Qed.

Lemma response_keeps (tbl : list packet) (i : nat) (st st1 : state)
    (response : bytes) (p0 : packet) :
  increasing_ends tbl ->
  one_by_one tbl i st ->
  nth_error tbl i = Some p0 ->
  on_response 1 response st = Ok st1 ->
  (forall msg, utf8_decode (body response) = Ok msg ->
     pystr_eqb msg str_ack = true ->
     (int_from_bytes (header response) < end_offset p0)%Z) ->
  one_by_one tbl i st1 /\ outbox st1 = outbox st.
Proof.
  intros Hinc Ho Hp0 Hr Hsmall.
  destruct (on_response_cases 1 response st st1 Hr) as (msg & Hd & H).
  cbv zeta in H. destruct (pystr_eqb msg str_ack) eqn:Hack.
  2:{ subst st1. split; [exact Ho | reflexivity]. }
  set (a := int_from_bytes (header response)) in *.
  set (st0 := set_total_acks (S (total_acks st)) st) in *.
  pose proof (Hsmall msg Hd Hack) as Ha.
  pose proof Ho as (Hle & Hsn & Hi & Hid & Hacked & Hsent).
  assert (Hnone : mark_acked a st0 = st0).
  { apply mark_acked_none. intros idx p Hp.
    change (packet_list st0) with (packet_list st) in Hp.
    destruct (le_lt_dec i idx) as [Hge|Hlt].
    - assert (Hlen : idx < length tbl).
      { rewrite <- (one_by_one_length tbl i st Ho).
        apply nth_error_Some. congruence. }
      destruct (nth_error tbl idx) as [q|] eqn:Hq.
      2:{ apply nth_error_None in Hq. lia. }
      destruct (one_by_one_nth tbl i st idx q Ho Hq)
        as (p' & Hp' & _ & He).
      assert (p' = p) by congruence. subst p'.
      assert (end_offset p0 <= end_offset q)%Z.
      { destruct (Nat.eq_dec i idx) as [->|Hne].
        - assert (q = p0) by congruence. subst q. lia.
        - pose proof (Hinc i idx p0 q ltac:(lia) Hp0 Hq). lia. }
      destruct (Z.leb_spec (end_offset p) a); [lia|reflexivity].
    - rewrite (proj2 (Hacked idx p Hp) Hlt). apply andb_false_r. }
  rewrite Hnone in H.
  assert (Hs : left_edge (slide_window st0) = i).
  { unfold slide_window. cbn [left_edge set_left_edge].
    change (left_edge st0) with (left_edge st).
    change (packet_list st0) with (packet_list st). rewrite Hle.
    apply slide_exact; [exact Hacked|].
    rewrite (one_by_one_length tbl i st Ho). lia. }
  change (left_edge st0) with (left_edge st) in H. rewrite Hs, Hle in H.
  rewrite Nat.ltb_irrefl in H. subst st1.
  split; [|reflexivity].
  split; [exact Hs|]. split; [exact Hsn|]. split; [exact Hi|].
  split; [exact Hid|]. split; [exact Hacked | exact Hsent].
Qed.

Lemma response_advances (tbl : list packet) (i : nat) (st st1 : state)
    (response : bytes) (p0 : packet) (msg : pystr) :
  increasing_ends tbl ->
  one_by_one tbl i st ->
  nth_error tbl i = Some p0 ->
  on_response 1 response st = Ok st1 ->
  utf8_decode (body response) = Ok msg ->
  pystr_eqb msg str_ack = true ->
  (end_offset p0 <= int_from_bytes (header response))%Z ->
  (forall q, nth_error tbl (S i) = Some q ->
             (int_from_bytes (header response) < end_offset q)%Z) ->
  one_by_one tbl (S i) st1
  /\ outbox st1
     = outbox st ++ match nth_error tbl (S i) with
                    | Some q => [raw q]
                    | None => []
                    end.
Proof.
  intros Hinc Ho Hp0 Hr Hd Hack Hbig Hnext.
  destruct (on_response_cases 1 response st st1 Hr) as (msg' & Hd' & H).
  assert (msg' = msg) by congruence. subst msg'.
  cbv zeta in H. rewrite Hack in H.
  set (a := int_from_bytes (header response)) in *.
  set (st0 := set_total_acks (S (total_acks st)) st) in *.
  pose proof (one_by_one_length tbl i st Ho) as Hlen.
  pose proof Ho as (Hle & Hsn & Hi & Hid & Hacked & Hsent).
  assert (Hin : i < length tbl) by (apply nth_error_Some; congruence).
  set (stm := mark_acked a st0) in *.
  pose proof (mark_acked_packets a st0) as Hpl. fold stm in Hpl.
  change (packet_list st0) with (packet_list st) in Hpl.
  destruct (mark_acked_frame a st0) as (Hml & Hms & _ & Hmo).
  fold stm in Hml, Hms, Hmo.
  change (left_edge st0) with (left_edge st) in Hml.
  change (send_next st0) with (send_next st) in Hms.
  change (outbox st0) with (outbox st) in Hmo.
  (* the table after marking *)
  assert (Hm : forall j p1, nth_error (packet_list stm) j = Some p1 ->
            exists p, nth_error (packet_list st) j = Some p
                      /\ p1 = mark_pkt a p).
  { intros j p1 Hp1. rewrite Hpl, nth_error_map in Hp1.
    destruct (nth_error (packet_list st) j) as [p|]; [|discriminate].
    injection Hp1 as <-. exists p. auto. }
  assert (Hacked1 : forall j p1, nth_error (packet_list stm) j = Some p1 ->
            (is_acked p1 = true <-> j < S i)).
  { intros j p1 Hp1. destruct (Hm j p1 Hp1) as (p & Hp & ->).
    rewrite mark_pkt_acked, orb_true_iff, (Hacked j p Hp), Z.leb_le.
    assert (Hj : j < length tbl)
      by (rewrite <- Hlen; apply nth_error_Some; congruence).
    destruct (nth_error tbl j) as [q|] eqn:Hq.
    2:{ apply nth_error_None in Hq. lia. }
    destruct (one_by_one_nth tbl i st j q Ho Hq) as (p' & Hp' & _ & He).
    assert (p' = p) by congruence. subst p'. rewrite He.
    split.
    - intros [Hlt|Hcov]; [lia|].
      destruct (le_lt_dec j i) as [|Hgt]; [lia|].
      destruct (nth_error tbl (S i)) as [q1|] eqn:Hq1.
      2:{ apply nth_error_None in Hq1. lia. }
      pose proof (Hnext q1 eq_refl) as Hn.
      destruct (Nat.eq_dec j (S i)) as [->|Hne].
      + assert (q1 = q) by congruence. subst q1. lia.
      + pose proof (Hinc (S i) j q1 q ltac:(lia) Hq1 Hq). lia.
    - intros Hlt. destruct (Nat.eq_dec j i) as [->|Hne].
      + right. assert (q = p0) by congruence. subst q. exact Hbig.
      + left. lia. }
  assert (Hsent1 : forall j p1, nth_error (packet_list stm) j = Some p1 ->
            (first_sent p1 = None <-> i < j)).
  { intros j p1 Hp1. destruct (Hm j p1 Hp1) as (p & Hp & ->).
    rewrite mark_pkt_first_sent. apply (Hsent j p Hp). }
  assert (Hid1 : map segment_id (packet_list stm) = map segment_id tbl).
  { rewrite <- Hid. apply evolves_segment_id. rewrite Hpl.
    apply evolves_map, mark_pkt_stable. }
  assert (Hlen1 : length (packet_list stm) = length tbl)
    by (rewrite Hpl, length_map; exact Hlen).
  (* the window slides by one *)
  set (st2 := slide_window stm) in *.
  assert (Hl2 : left_edge st2 = S i).
  { unfold st2, slide_window. cbn [left_edge set_left_edge].
    rewrite Hml, Hle. apply slide_exact; [exact Hacked1 | lia]. }
  rewrite Hml, Hl2, Hle in H.
  destruct (Nat.ltb_spec i (S i)) as [_|Hc]; [|lia].
  assert (Hclamp : clamp_send_next st2 = st2).
  { unfold clamp_send_next.
    change (send_next st2) with (send_next stm). rewrite Hms, Hsn, Hl2.
    destruct (Nat.ltb_spec (Nat.min (i + 1) (length tbl)) (S i)); [lia|].
    reflexivity. }
  rewrite Hclamp in H.
  assert (Hre : right_edge 1 st2 = Nat.min (S i + 1) (length tbl)).
  { unfold right_edge, num_packets. rewrite Hl2.
    change (packet_list st2) with (packet_list stm). rewrite Hlen1.
    reflexivity. }
  assert (Hsn2 : send_next st2 = S i).
  { change (send_next st2) with (send_next stm). rewrite Hms, Hsn. lia. }
  unfold send_new in H. rewrite Hre, Hsn2 in H.
  destruct (nth_error tbl (S i)) as [q|] eqn:Hq.
  - (* one more segment enters the window and is sent *)
    assert (Hq_lt : S i < length tbl)
      by (apply nth_error_Some; congruence).
    replace (Nat.min (S i + 1) (length tbl)) with (S (S i)) in H by lia.
    rewrite py_for_single in H.
    destruct (nth_error (packet_list stm) (S i)) as [q1|] eqn:Hq1.
    2:{ apply nth_error_None in Hq1. lia. }
    assert (Hq1a : is_acked q1 = false).
    { destruct (is_acked q1) eqn:E; [|reflexivity].
      apply (Hacked1 (S i) q1 Hq1) in E. lia. }
    assert (Hq1raw : raw q1 = raw q).
    { pose proof (f_equal (fun l => nth_error l (S i)) Hid1) as Hn.
      cbv beta in Hn. rewrite !nth_error_map, Hq1, Hq in Hn.
      cbn [option_map] in Hn. unfold segment_id in Hn.
      injection Hn as _ _ Hraw. exact Hraw. }
    change (packet_list stm) with (packet_list st2) in Hq1.
    pose proof (send_body_outbox (S i) st2 q1 Hq1 Hq1a) as Hob.
    destruct (send_body_first_sent (S i) st2 q1 Hq1 Hq1a)
      as (q3 & Hq3 & Hq3f).
    pose proof (send_body_pointwise (S i) st2) as Hpw.
    destruct (send_body_frame (S i) st2) as (Hfl & _).
    subst st1. cbn [outbox set_send_next]. split.
    + split; [cbn [left_edge set_send_next]; congruence|].
      split; [cbn [send_next set_send_next]; lia|].
      split; [lia|].
      cbn [packet_list set_send_next]. split; [|split].
      * rewrite <- Hid1.
        apply (pointwise_in_map R_send segment_id (S i) (S (S i)) _ _ Hpw).
        intros p p' HR. apply (R_send_stable p p' HR).
      * intros j p3 Hp3.
        destruct (pointwise_in_inv R_send _ _ _ _ j p3 Hpw Hp3)
          as (p1 & Hp1 & Hin1 & Hout1).
        change (packet_list st2) with (packet_list stm) in Hp1.
        rewrite <- (Hacked1 j p1 Hp1).
        destruct (Nat.eq_dec j (S i)) as [->|Hne].
        -- rewrite (R_send_keeps_acked p1 p3 (Hin1 ltac:(lia))). tauto.
        -- rewrite (Hout1 ltac:(lia)). tauto.
      * intros j p3 Hp3.
        destruct (Nat.eq_dec j (S i)) as [->|Hne].
        -- assert (p3 = q3) by congruence. subst p3. rewrite Hq3f.
           split; [|lia]. destruct (first_sent q1); discriminate.
        -- destruct (pointwise_in_inv R_send _ _ _ _ j p3 Hpw Hp3)
             as (p1 & Hp1 & _ & Hout1).
           change (packet_list st2) with (packet_list stm) in Hp1.
           rewrite (Hout1 ltac:(lia)), (Hsent1 j p1 Hp1). lia.
    + rewrite Hob. change (outbox st2) with (outbox stm).
      rewrite Hmo, Hq1raw. reflexivity.
  - (* that was the last segment *)
    assert (Hlast : length tbl = S i)
      by (apply nth_error_None in Hq; lia).
    rewrite py_for_empty in H by lia.
    subst st1. cbn [outbox set_send_next]. split.
    + split; [cbn [left_edge set_send_next]; exact Hl2|].
      split; [cbn [send_next set_send_next]; lia|].
      split; [lia|].
      cbn [packet_list set_send_next].
      change (packet_list st2) with (packet_list stm).
      split; [exact Hid1|]. split; [exact Hacked1|].
      intros j p1 Hp1. rewrite (Hsent1 j p1 Hp1).
      assert (j < length tbl)
        by (rewrite <- Hlen1; apply nth_error_Some; congruence).
      lia.
    + change (outbox st2) with (outbox stm). rewrite Hmo, app_nil_r.
      reflexivity.
Qed.

Lemma loop_body_raises (window : nat) (ev : recv_event) (st : state)
    (x : exn) :
  loop_body window ev st = Raise x ->
  exists d, ev = Datagram d
            /\ utf8_decode (body (firstn MAX_PACKET d)) = Raise x.
Proof.
  destruct ev as [|d]; cbn [loop_body]; [discriminate|].
  unfold on_response, bind.
  destruct (utf8_decode (body (firstn MAX_PACKET d))) as [msg|e] eqn:Hd.
  - destruct (pystr_eqb msg str_ack); [|discriminate].
    destruct (_ <? _); discriminate.
  - intros [= <-]. exists d. auto.
Qed.

Lemma ack_offsets_datagram (d : bytes) (msg : pystr) :
  utf8_decode (body (firstn MAX_PACKET d)) = Ok msg ->
  ack_offsets [Datagram d]
  = if pystr_eqb msg str_ack
    then [int_from_bytes (header (firstn MAX_PACKET d))] else [].
Proof. intros H. cbn [ack_offsets]. rewrite H. reflexivity. Qed.

Lemma pass_keeps (tbl : list packet) (i : nat) (st st' : state)
    (ev : recv_event) (p0 : packet) :
  increasing_ends tbl ->
  one_by_one tbl i st ->
  nth_error tbl i = Some p0 ->
  loop_body 1 ev st = Ok st' ->
  (forall a, In a (ack_offsets [ev]) -> (a < end_offset p0)%Z) ->
  one_by_one tbl i st'
  /\ (outbox st' = outbox st \/ outbox st' = outbox st ++ [raw p0]).
Proof.
  intros Hinc Ho Hp0 Hb Hsmall.
  assert (Htimer : forall s, one_by_one tbl i s -> outbox s = outbox st ->
            one_by_one tbl i (timer_check 1 s)
            /\ (outbox (timer_check 1 s) = outbox st
                \/ outbox (timer_check 1 s) = outbox st ++ [raw p0])).
  { intros s Hs Hos. destruct (timer_one_by_one tbl i s Hs) as (H1 & H2).
    split; [exact H1|]. rewrite <- Hos.
    destruct H2 as [H2|(q & Hq & H2)]; [left; exact H2|].
    right. assert (q = p0) by congruence. subst q. exact H2. }
  destruct ev as [|d]; cbn [loop_body] in Hb.
  - injection Hb as <-. apply Htimer; [exact Ho | reflexivity].
  - unfold bind in Hb.
    destruct (on_response 1 (firstn MAX_PACKET d) st) as [st1|e] eqn:Hr;
      [|discriminate].
    injection Hb as <-.
    destruct (response_keeps tbl i st st1 _ p0 Hinc Ho Hp0 Hr)
      as (Ho1 & Hob1).
    + intros msg Hd Hack. apply Hsmall.
      rewrite (ack_offsets_datagram d msg Hd), Hack. now left.
    + apply Htimer; assumption.
Qed.

Lemma pass_advances (tbl : list packet) (i : nat) (st st' : state)
    (d : bytes) (p0 : packet) (msg : pystr) :
  increasing_ends tbl ->
  one_by_one tbl i st ->
  nth_error tbl i = Some p0 ->
  loop_body 1 (Datagram d) st = Ok st' ->
  utf8_decode (body (firstn MAX_PACKET d)) = Ok msg ->
  pystr_eqb msg str_ack = true ->
  (end_offset p0 <= int_from_bytes (header (firstn MAX_PACKET d)))%Z ->
  (forall q, nth_error tbl (S i) = Some q ->
     (int_from_bytes (header (firstn MAX_PACKET d)) < end_offset q)%Z) ->
  one_by_one tbl (S i) st'
  /\ match nth_error tbl (S i) with
     | Some q => outbox st' = outbox st ++ [raw q]
                 \/ outbox st' = (outbox st ++ [raw q]) ++ [raw q]
     | None => outbox st' = outbox st
     end.
Proof.
  intros Hinc Ho Hp0 Hb Hd Hack Hbig Hnext.
  cbn [loop_body] in Hb. unfold bind in Hb.
  destruct (on_response 1 (firstn MAX_PACKET d) st) as [st1|e] eqn:Hr;
    [|discriminate].
  injection Hb as <-.
  destruct (response_advances tbl i st st1 _ p0 msg Hinc Ho Hp0 Hr Hd Hack
              Hbig Hnext) as (Ho1 & Hob1).
  destruct (timer_one_by_one tbl (S i) st1 Ho1) as (Ho2 & Hob2).
  split; [exact Ho2|].
  destruct (nth_error tbl (S i)) as [q|] eqn:Hq.
  - destruct Hob2 as [H2|(q' & Hq' & H2)].
    + left. congruence.
    + right. injection Hq' as <-. rewrite H2, Hob1. reflexivity.
  - destruct Hob2 as [H2|(q' & Hq' & _)]; [|discriminate].
    rewrite H2, Hob1. apply app_nil_r.
Qed.

Lemma main_loop_done (window : nat) (evs : list recv_event) (st : state) :
  all_acked st = true -> main_loop window evs st = Ok (st, evs).
Proof. intros H. destruct evs; cbn [main_loop]; rewrite H; reflexivity. Qed.

Lemma skipn_cons_nth {A : Type} (i : nat) (l : list A) (x : A)
    (r : list A) :
  skipn i l = x :: r -> nth_error l i = Some x /\ skipn (S i) l = r.
Proof.
  revert l. induction i as [|i IH]; intros [|y l'] H; try discriminate.
  - cbn in H. injection H as -> ->. auto.
  - cbn [skipn] in H. destruct (IH l' H) as (H1 & H2). auto.
Qed.

Lemma one_by_one_simulation (tbl : list packet) :
  increasing_ends tbl ->
  forall evs i st cur todo ds t0 e pos,
    one_by_one tbl i st ->
    skipn i tbl = cur :: todo ->
    timely cur todo evs ->
    collapse (outbox st) = collapse (e_outbox e ++ [raw cur]) ->
    length ds = i ->
    same_progress tbl (main_loop 1 evs st)
      (match await_ack (raw cur) (end_offset cur) t0 evs e with
       | Raised x => ChunkRaised x
       | Waiting e1 => AwaitingAck ds pos e1
       | Returned d e1 rest =>
         sw_run (end_offset cur) todo (ds ++ [d]) rest e1
       end).
Proof.
  intros Hinc.
  induction evs as [|ev evs IH];
    intros i st cur todo ds t0 e pos Ho Hskip Htimely Hcol Hds.
  - destruct (skipn_cons_nth i tbl cur todo Hskip) as (Hcur & _).
    assert (Hi : i < length tbl) by (apply nth_error_Some; congruence).
    assert (Hna : all_acked st = false).
    { destruct (all_acked st) eqn:E; [|reflexivity].
      apply (one_by_one_all_acked tbl i st Ho) in E. lia. }
    cbn [main_loop await_ack]. rewrite Hna. cbn [same_progress].
    pose proof Ho as (Hle & _). rewrite Hle.
    split; [exact Hna|]. split; [reflexivity|]. split; [exact Hds|].
    split; [exact Hcol | exact Ho].
  - destruct (skipn_cons_nth i tbl cur todo Hskip) as (Hcur & Hrest).
    assert (Hi : i < length tbl) by (apply nth_error_Some; congruence).
    assert (Hna : all_acked st = false).
    { destruct (all_acked st) eqn:E; [|reflexivity].
      apply (one_by_one_all_acked tbl i st Ho) in E. lia. }
    cbn [main_loop]. rewrite Hna. unfold bind.
    (* a pass that does not acknowledge [cur] *)
    assert (Hretry : forall st',
              loop_body 1 ev st = Ok st' ->
              (forall a, In a (ack_offsets [ev]) ->
                         (a < end_offset cur)%Z) ->
              timely cur todo evs ->
              same_progress tbl (main_loop 1 evs st')
                (match await_ack (raw cur) (end_offset cur) t0 evs
                         (e_sendto (raw cur) e) with
                 | Raised x => ChunkRaised x
                 | Waiting e1 => AwaitingAck ds pos e1
                 | Returned d e1 rest =>
                   sw_run (end_offset cur) todo (ds ++ [d]) rest e1
                 end)).
    { intros st' Hb Hsmall Ht.
      destruct (pass_keeps tbl i st st' ev cur Hinc Ho Hcur Hb Hsmall)
        as (Ho' & Hob).
      apply (IH i st' cur todo ds t0 (e_sendto (raw cur) e) pos Ho' Hskip
               Ht); [|exact Hds].
      cbn [e_sendto e_outbox]. rewrite collapse_snoc_dup.
      destruct Hob as [->| ->]; [exact Hcol|].
      rewrite (collapse_snoc_congr _ _ (raw cur) Hcol).
      apply collapse_snoc_dup. }
    destruct ev as [|d].
    + cbn [await_ack]. cbn [timely ack_offsets] in Htimely.
      apply (Hretry (timer_check 1 st)); [reflexivity | | exact Htimely].
      intros a [].
    + cbn [await_ack].
      destruct (utf8_decode (body (firstn MAX_PACKET d))) as [msg|x] eqn:Hd.
      2:{ assert (Hb : loop_body 1 (Datagram d) st = Raise x).
          { cbn [loop_body]. unfold on_response, bind. rewrite Hd.
            reflexivity. }
          rewrite Hb. reflexivity. }
      destruct (loop_body 1 (Datagram d) st) as [st'|x] eqn:Hb.
      2:{ destruct (loop_body_raises 1 _ st x Hb) as (d' & [= <-] & Hx).
          congruence. }
      pose proof (ack_offsets_datagram d msg Hd) as Hoff.
      cbn [timely] in Htimely. rewrite Hoff in Htimely.
      destruct (pystr_eqb msg str_ack) eqn:Hack; cbn [andb].
      2:{ apply (Hretry st' eq_refl); [|exact Htimely].
          rewrite Hoff. intros a []. }
      set (a := int_from_bytes (header (firstn MAX_PACKET d))) in *.
      destruct (Z.leb_spec (end_offset cur) a) as [Hbig|Hsmall].
      2:{ apply (Hretry st' eq_refl); [|exact Htimely].
          rewrite Hoff. intros a' [<-|[]]. exact Hsmall. }
      assert (Hnext : forall q, nth_error tbl (S i) = Some q ->
                                (a < end_offset q)%Z).
      { intros q Hq. destruct todo as [|q' todo'].
        - rewrite <- (Nat.add_0_r (S i)), <- nth_error_skipn, Hrest in Hq.
          discriminate.
        - rewrite <- (Nat.add_0_r (S i)), <- nth_error_skipn, Hrest in Hq.
          injection Hq as <-. apply Htimely. }
      destruct (pass_advances tbl i st st' d cur msg Hinc Ho Hcur Hb Hd Hack
                  Hbig Hnext) as (Ho' & Hob).
      destruct todo as [|q todo'].
      * (* the last segment was acknowledged *)
        assert (Hq : nth_error tbl (S i) = None).
        { rewrite <- (Nat.add_0_r (S i)), <- nth_error_skipn, Hrest.
          reflexivity. }
        rewrite Hq in Hob.
        assert (Hn : S i = length tbl)
          by (apply nth_error_None in Hq; lia).
        assert (Hall : all_acked st' = true)
          by (apply (one_by_one_all_acked tbl (S i) st' Ho'); exact Hn).
        rewrite (main_loop_done 1 evs st' Hall).
        cbn [sw_run same_progress]. pose proof Ho' as (Hle' & _).
        split; [exact Hall|]. split; [reflexivity|].
        split; [congruence|].
        split; [rewrite length_app; cbn [length]; lia|].
        split; [|rewrite <- Hn; exact Ho'].
        rewrite Hob. cbn [e_tick e_sendto e_outbox]. exact Hcol.
      * (* on to the next segment *)
        assert (Hq : nth_error tbl (S i) = Some q).
        { rewrite <- (Nat.add_0_r (S i)), <- nth_error_skipn, Hrest.
          reflexivity. }
        rewrite Hq in Hob. destruct Htimely as (_ & Ht').
        cbn [sw_run].
        apply (IH (S i) st' q todo' (ds ++ [_]) _ _ (end_offset cur) Ho'
                 Hrest Ht').
        -- cbn [e_tick e_sendto e_outbox].
           destruct Hob as [->| ->].
           ++ apply collapse_snoc_congr, Hcol.
           ++ rewrite collapse_snoc_dup.
              apply collapse_snoc_congr, Hcol.
        -- rewrite length_app. cbn [length]. lia.
Qed.

(** ** The initial burst in closed form *)

Lemma update_at_middle {A : Type} (f : A -> A) (a : list A) (x : A)
    (b : list A) :
  update_at (length a) f (a ++ x :: b) = a ++ f x :: b.
Proof. induction a as [|y a IH]; cbn; [reflexivity | now rewrite IH]. Qed.

Lemma firstn_middle {A : Type} (a : list A) (x : A) (b : list A) :
  firstn (S (length a)) (a ++ x :: b) = a ++ [x].
Proof.
  induction a as [|y a IH]; [reflexivity|].
  cbn [length app]. rewrite firstn_cons, IH. reflexivity.
Qed.

Lemma skipn_middle {A : Type} (a : list A) (x : A) (b : list A) :
  skipn (S (length a)) (a ++ x :: b) = b.
Proof.
  induction a as [|y a IH]; [reflexivity|].
  cbn [length app]. rewrite skipn_cons. exact IH.
Qed.

Lemma firstn_exact {A : Type} (a b : list A) :
  firstn (length a) (a ++ b) = a.
Proof. induction a as [|y a IH]; cbn; [now destruct b | now rewrite IH]. Qed.

Lemma skipn_exact {A : Type} (a b : list A) :
  skipn (length a) (a ++ b) = b.
Proof. induction a as [|y a IH]; cbn; [reflexivity | exact IH]. Qed.

Lemma burst_loop_closed (k : nat) :
  forall lo s,
    lo + k <= length (packet_list s) ->
    for_range k lo burst_body s
    = mkState
        (firstn lo (packet_list s)
         ++ stamp_burst (clock s) (ticks s) k (skipn lo (packet_list s)))
        (left_edge s) (send_next s) (delays s) (begin s) (last_check s)
        (total_acks s) (resends s)
        (outbox s ++ map raw (firstn k (skipn lo (packet_list s))))
        (ticks s + 2 * k) (clock s).
Proof.
  induction k as [|k IH]; intros lo s Hlen.
  - cbn [for_range stamp_burst firstn map]. rewrite firstn_skipn, app_nil_r.
    rewrite Nat.add_0_r. now destruct s.
  - cbn [for_range].
    destruct (nth_error (packet_list s) lo) as [pkt|] eqn:Hp.
    2:{ apply nth_error_None in Hp. lia. }
    destruct (nth_error_split _ _ Hp) as (a & b & Hpl & Ha).
    assert (Hb : burst_body lo s
                 = mkState
                     (a ++ set_recent_sent (Some (clock s (S (ticks s))))
                             (set_first_sent (Some (clock s (ticks s))) pkt)
                           :: b)
                     (left_edge s) (send_next s) (delays s) (begin s)
                     (last_check s) (total_acks s) (resends s)
                     (outbox s ++ [raw pkt]) (S (S (ticks s))) (clock s)).
    { unfold burst_body. rewrite Hp.
      unfold time_time, modify_packet, set_ticks, sendto, set_outbox,
        set_packet_list.
      cbn [fst snd packet_list left_edge send_next delays begin last_check
           total_acks resends outbox ticks clock].
      rewrite update_at_twice, Hpl, <- Ha, update_at_middle.
      reflexivity. }
    rewrite IH; rewrite Hb;
      cbn [packet_list left_edge send_next delays begin last_check
           total_acks resends outbox ticks clock].
    2:{ rewrite Hpl in Hlen. rewrite !length_app in *. cbn [length] in *.
        lia. }
    rewrite Hpl, <- Ha, firstn_middle, skipn_middle, firstn_exact,
      skipn_exact.
    cbn [stamp_burst firstn map]. rewrite <- !app_assoc. cbn [app].
    f_equal. lia.
Qed.

Lemma stamp_burst_all (clk : nat -> float) (l : list packet) :
  forall t k, length l <= k ->
    stamp_burst clk t k l = stamp_burst clk t (length l) l.
Proof.
  induction l as [|p r IH]; intros t [|k] H; cbn in *; try reflexivity;
    try lia.
  f_equal. apply IH. lia.
Qed.

Lemma start_closed (window : nat) (clk : nat -> float)
    (tbl : list packet) :
  let m := Nat.min window (length tbl) in
  start window clk tbl
  = mkState (stamp_burst clk 1 window tbl) 0 m [] (clk 0)
      (clk (1 + 2 * m)) 0 0 (map raw (firstn window tbl)) (2 + 2 * m) clk.
Proof.
  intros m. unfold start, py_for, num_packets, init_state.
  cbn [left_edge send_next packet_list Nat.add].
  fold m. rewrite Nat.sub_0_r, burst_loop_closed.
  2:{ cbn [packet_list]. unfold m. lia. }
  unfold time_time, set_send_next, set_last_check, set_ticks.
  cbn [packet_list left_edge send_next delays begin last_check total_acks
       resends outbox ticks clock firstn skipn app set_send_next
       set_last_check time_time set_ticks fst snd].
  assert (Hs : stamp_burst clk 1 m tbl = stamp_burst clk 1 window tbl).
  { unfold m. destruct (Nat.le_ge_cases window (length tbl)) as [H|H].
    - now rewrite Nat.min_l.
    - rewrite Nat.min_r by exact H. symmetry.
      now apply stamp_burst_all. }
  assert (Hf : firstn m tbl = firstn window tbl).
  { unfold m. destruct (Nat.le_ge_cases window (length tbl)) as [H|H].
    - now rewrite Nat.min_l.
    - rewrite Nat.min_r by exact H.
      now rewrite !firstn_all2 by lia. }
  rewrite Hs, Hf. f_equal; lia.
Qed.

Lemma start_one_by_one (clk : nat -> float) (p : packet)
    (r : list packet) :
  fresh (p :: r) ->
  one_by_one (p :: r) 0 (start 1 clk (p :: r))
  /\ outbox (start 1 clk (p :: r)) = [raw p].
Proof.
  intros Hf. rewrite start_closed.
  cbn [stamp_burst length Nat.min firstn map packet_list left_edge
       send_next outbox].
  split; [|reflexivity].
  unfold one_by_one.
  cbn [packet_list left_edge send_next length Nat.add Nat.min map].
  split; [reflexivity|]. split; [reflexivity|]. split; [lia|].
  split; [reflexivity|].
  split.
  - intros j q Hq. split; [|lia]. intros Ha. exfalso.
    destruct j as [|j]; cbn [nth_error] in Hq.
    + injection Hq as <-. cbn in Ha.
      destruct (fresh_nth _ 0 p Hf eq_refl) as (H & _). congruence.
    + destruct (fresh_nth _ (S j) q Hf Hq) as (H & _). congruence.
  - intros j q Hq. split.
    + intros Hn. destruct j as [|j]; [|lia].
      cbn [nth_error] in Hq. injection Hq as <-. discriminate Hn.
    + intros Hj. destruct j as [|j]; [lia|].
      apply (fresh_nth _ (S j) q Hf Hq).
Qed.

Lemma prefix_count {A : Type} (g : A -> bool) (l : list A) :
  forall i,
    i <= length l ->
    (forall j x, nth_error l j = Some x -> (g x = true <-> j < i)) ->
    length (filter g l) = i.
Proof.
  induction l as [|x r IH]; intros i Hi H.
  - cbn in *. lia.
  - cbn [filter]. destruct i as [|i].
    + destruct (g x) eqn:E.
      * apply (H 0 x eq_refl) in E. lia.
      * apply (IH 0); [lia|]. intros j y Hy.
        rewrite (H (S j) y Hy). lia.
    + destruct (g x) eqn:E.
      * cbn [length]. f_equal. apply IH; [cbn in Hi; lia|].
        intros j y Hy. rewrite (H (S j) y Hy). lia.
      * assert (g x = true) by (apply (H 0 x eq_refl); lia). congruence.
Qed.

Lemma one_by_one_samples (tbl : list packet) (i : nat) (st : state) :
  one_by_one tbl i st ->
  length (filter acked_and_sent (packet_list st)) = i.
Proof.
  intros Ho. pose proof (one_by_one_length tbl i st Ho) as Hlen.
  destruct Ho as (_ & _ & Hi & _ & Hack & Hsent).
  apply prefix_count; [lia|].
  intros j p Hp. unfold acked_and_sent. rewrite andb_true_iff.
  rewrite (Hack j p Hp). split; [tauto|]. intros Hj. split; [exact Hj|].
  destruct (first_sent p) eqn:E; [reflexivity|].
  apply (Hsent j p Hp) in E. lia.
Qed.

Lemma send_chunks_sw_run (chunk : Z) (contents : bytes) :
  (0 < chunk)%Z ->
  (forall j, 0 <= j -> j * chunk < len contents -> j * chunk < 2 ^ 31)%Z ->
  forall tbl fuel pos ds evs e,
    (0 <= pos)%Z ->
    ((pos < len contents)%Z -> exists j, (0 <= j /\ pos = j * chunk)%Z) ->
    segments_from chunk contents pos tbl ->
    length tbl < fuel ->
    send_chunks fuel chunk contents pos ds evs e
    = Some (sw_run pos tbl ds evs e).
Proof.
  intros Hc Henc.
  induction tbl as [|p r IH]; intros fuel pos ds evs e Hpos Hmul Hseg Hfuel.
  - cbn [segments_from] in Hseg. destruct fuel as [|fuel]; [cbn in Hfuel; lia|].
    cbn [send_chunks sw_run].
    destruct (Z.ltb_spec pos (len contents)); [lia | reflexivity].
  - cbn [segments_from] in Hseg. destruct Hseg as (Hlt & Hp & Hrest).
    destruct fuel as [|fuel]; [cbn in Hfuel; lia|].
    cbn [send_chunks sw_run].
    destruct (Z.ltb_spec pos (len contents)); [|lia].
    destruct (Hmul Hlt) as (j & Hj & Hpj).
    set (data := slice contents pos (pos + chunk)) in *.
    assert (Hframe : encode_frame pos data
                     = Ok (be_bytes SEQ_SIZE pos ++ data)).
    { unfold encode_frame, int_to_bytes, bind.
      assert (pos < 2 ^ 31)%Z by (rewrite Hpj; apply Henc; lia).
      change (8 * Z.of_nat SEQ_SIZE - 1)%Z with 31%Z.
      destruct (Z.leb_spec (- 2 ^ 31) pos); [|lia].
      destruct (Z.ltb_spec pos (2 ^ 31)); [|lia]. reflexivity. }
    unfold send_one_packet. rewrite Hframe.
    assert (Hraw : raw p = be_bytes SEQ_SIZE pos ++ data) by (rewrite Hp; reflexivity).
    assert (Hend : end_offset p = (pos + len data)%Z) by (rewrite Hp; reflexivity).
    rewrite Hraw, Hend.
    destruct (await_ack _ _ _ evs (e_tick e)) as [d e1 rest| |]; try reflexivity.
    assert (Hlen : len data = Z.min chunk (len contents - pos)).
    { unfold data. apply slice_length; lia. }
    apply IH; [lia | | exact Hrest | cbn in Hfuel; lia].
    intros Hlt'. exists (j + 1)%Z. split; [lia|]. rewrite Hlen. lia.
Qed.
Lemma segment_table_inv (chunk : Z) (contents : bytes)
    (tbl : list packet) :
  (0 < chunk)%Z ->
  segment_table chunk contents = Some (Ok tbl) ->
  (last_offset (len contents) chunk < 2 ^ 31)%Z
  /\ segments_from chunk contents 0 tbl.
Proof.
  intros Hc Ht.
  destruct (Z_lt_le_dec (last_offset (len contents) chunk) (2 ^ 31))
    as [Hlt|Hge].
  - split; [exact Hlt|].
    destruct (segment_table_ok chunk contents Hc Hlt) as (tbl' & Ht' & Hs).
    rewrite Ht in Ht'. injection Ht' as <-. exact Hs.
  - rewrite (segment_table_overflow chunk contents Hc Hge) in Ht.
    discriminate.
Qed.

Lemma segments_increasing (chunk : Z) (contents : bytes)
    (tbl : list packet) :
  (0 < chunk)%Z -> segments_from chunk contents 0 tbl ->
  increasing_ends tbl.
Proof.
  intros Hc Hs i j p q Hij Hp Hq.
  destruct (segments_payload_nth chunk contents tbl i p Hc Hs Hp)
    as (Hsp & Hltp & Hlp & _).
  destruct (segments_payload_nth chunk contents tbl j q Hc Hs Hq)
    as (Hsq & Hltq & Hlq & _).
  unfold end_offset. rewrite Hsp, Hsq, Hlp, Hlq.
  assert ((Z.of_nat i + 1) * chunk <= Z.of_nat j * chunk)%Z by nia.
  lia.
Qed.

Lemma segments_fresh (chunk : Z) (contents : bytes) (tbl : list packet) :
  (0 < chunk)%Z -> segments_from chunk contents 0 tbl -> fresh tbl.
Proof.
  intros Hc Hs. apply Forall_forall. intros p Hin.
  apply In_nth_error in Hin. destruct Hin as [i Hi].
  destruct (segments_payload_nth chunk contents tbl i p Hc Hs Hi)
    as (_ & _ & _ & _ & H). exact H.
Qed.

Lemma segments_at_most_bytes (chunk : Z) (contents : bytes)
    (tbl : list packet) :
  (0 < chunk)%Z -> segments_from chunk contents 0 tbl ->
  length tbl <= length contents.
Proof.
  intros Hc Hs. destruct (Nat.le_gt_cases (length tbl) (length contents))
    as [H|H]; [exact H|]. exfalso.
  destruct (nth_error tbl (length contents)) as [p|] eqn:Hp.
  - destruct (segments_payload_nth chunk contents tbl _ p Hc Hs Hp)
      as (_ & Hlt & _).
    unfold len in Hlt. nia.
  - apply nth_error_None in Hp. lia.
Qed.

(** X1: stop-and-wait is the sliding window with room for one segment,
    as long as the receiver never acknowledges a segment that was not
    sent yet.  For a payload whose table is [tbl] and events on which
    no ACK runs ahead ([timely_acks]), the data loop of [send_file] and
    the main loop of [transmit_file] run with a window of one consume
    the same events and end alike: both raise the same exception, or
    both wait for the ACK of the same segment, or both are done.  They
    have the same acknowledged prefix, the same number of delay
    samples, and sent the same frames in the same order when a frame
    repeated at once (a retransmission) is counted once. *)
Theorem stop_and_wait_is_window_of_one (chunk : Z)
    (clkw clks : nat -> float) (contents : bytes)
    (evs : list recv_event) (tbl : list packet) :
  (0 < chunk)%Z ->
  segment_table chunk contents = Some (Ok tbl) ->
  timely_acks tbl evs ->
  exists r,
    send_chunks (S (length contents)) chunk contents 0 [] evs
      (mkEnv [] 1 clks) = Some r
    /\ same_progress tbl (main_loop 1 evs (start 1 clkw tbl)) r
    /\ (forall st rest,
          main_loop 1 evs (start 1 clkw tbl) = Ok (st, rest) ->
          length (delays st) = left_edge st).
Proof.
  intros Hc Ht Htimely.
  destruct (segment_table_inv chunk contents tbl Hc Ht) as (Hlast & Hseg).
  pose proof (segments_fresh chunk contents tbl Hc Hseg) as Hf.
  pose proof (segments_increasing chunk contents tbl Hc Hseg) as Hinc.
  pose proof (segments_at_most_bytes chunk contents tbl Hc Hseg) as Hn.
  set (e0 := mkEnv [] 1 clks).
  exists (sw_run 0 tbl [] evs e0).
  assert (Hsp : same_progress tbl (main_loop 1 evs (start 1 clkw tbl))
                  (sw_run 0 tbl [] evs e0)).
  { destruct tbl as [|p r].
    - assert (Hall : all_acked (start 1 clkw []) = true)
        by (rewrite start_closed; reflexivity).
      rewrite (main_loop_done 1 evs _ Hall). cbn [sw_run same_progress].
      rewrite start_closed.
      cbn [stamp_burst firstn map length Nat.min left_edge outbox
           e_outbox e0].
      repeat (split; [reflexivity|]).
      unfold one_by_one.
      cbn [left_edge send_next packet_list length map Nat.min Nat.add].
      repeat (split; [first [reflexivity | lia]|]).
      split; intros [|j] q Hq; discriminate Hq.
    - destruct (start_one_by_one clkw p r Hf) as (Ho & Hob).
      cbn [sw_run].
      apply (one_by_one_simulation (p :: r) Hinc evs 0
               (start 1 clkw (p :: r)) p r [] (e_now e0) (e_tick e0) 0%Z
               Ho eq_refl Htimely); [|reflexivity].
      rewrite Hob. reflexivity. }
  split; [|split; [exact Hsp|]].
  - apply send_chunks_sw_run; try assumption; try lia.
    + intros j Hj Hlt.
      apply (visited_offsets_encodable (len contents) chunk j Hc Hlast Hj
               Hlt).
    + intros _. exists 0%Z. lia.
  - intros st rest Hrun.
    rewrite (main_loop_samples_counted 1 clkw tbl evs rest st Hf Hrun).
    rewrite Hrun in Hsp.
    destruct (sw_run 0 tbl [] evs e0) as [ds pos e rest'|ds pos e|x];
      cbn [same_progress] in Hsp.
    + destruct Hsp as (_ & _ & Hle & _ & _ & Ho). rewrite <- Hle in Ho.
      apply (one_by_one_samples tbl _ st Ho).
    + destruct Hsp as (_ & _ & _ & _ & Ho).
      apply (one_by_one_samples tbl _ st Ho).
    + contradiction.
Qed.

Lemma stop_and_wait_is_window_of_one_witness :
  exists r,
    send_chunks (S (length (repeat x41 30))) 10 (repeat x41 30) 0 []
      patient_events (mkEnv [] 1 demo_clock) = Some r
    /\ same_progress demo_table
         (main_loop 1 patient_events (start 1 demo_clock demo_table)) r.
Proof.
  destruct (stop_and_wait_is_window_of_one 10 demo_clock demo_clock
              (repeat x41 30) patient_events demo_table)
    as (r & H1 & H2 & _).
  - reflexivity.
  - vm_compute. reflexivity.
  - cbv. repeat split.
  - exists r. split; assumption.
Defined.

(** ** One packet of the stop-and-wait sender *)

Lemma await_ack_datagram (pkt : bytes) (need : Z) (t0 : float)
    (d : bytes) (rest : list recv_event) (e : env) :
  await_ack pkt need t0 (Datagram d :: rest) e
  = match accepts need d with
    | Raise x => Raised x
    | Ok true =>
      Returned (PrimFloat.sub (e_now (e_sendto pkt e)) t0)
        (e_tick (e_sendto pkt e)) rest
    | Ok false => await_ack pkt need t0 rest (e_sendto pkt e)
    end.
Proof.
  cbn [await_ack]. unfold accepts, bind.
  destruct (utf8_decode (body (firstn MAX_PACKET d))); [|reflexivity].
  destruct (_ && _); reflexivity.
Qed.

Lemma accepts_raises (need : Z) (d : bytes) (x : exn) :
  accepts need d = Raise x -> x = UnicodeDecodeError.
Proof.
  unfold accepts, bind.
  destruct (utf8_decode (body (firstn MAX_PACKET d))) as [s|y] eqn:E;
    [discriminate|].
  intros [= <-]. apply (utf8_decode_raises _ _ E).
Qed.

Lemma await_ack_spec (pkt : bytes) (need : Z) (t0 : float) :
  forall evs e,
    match await_ack pkt need t0 evs e with
    | Returned delay e' rest =>
      exists noise a,
        evs = noise ++ Datagram a :: rest
        /\ Forall (resend_event need) noise
        /\ accepts need a = Ok true
        /\ e_outbox e' = e_outbox e ++ repeat pkt (S (length noise))
        /\ e_ticks e' = S (e_ticks e) /\ e_clock e' = e_clock e
        /\ delay = PrimFloat.sub (e_clock e (e_ticks e)) t0
    | Waiting e' =>
      Forall (resend_event need) evs
      /\ e_outbox e' = e_outbox e ++ repeat pkt (S (length evs))
      /\ e_ticks e' = e_ticks e /\ e_clock e' = e_clock e
    | Raised x =>
      x = UnicodeDecodeError
      /\ exists noise a rest,
           evs = noise ++ Datagram a :: rest
           /\ Forall (resend_event need) noise
           /\ accepts need a = Raise UnicodeDecodeError
    end.
Proof.
  induction evs as [|ev evs IH]; intros e.
  - cbn [await_ack]. repeat split. constructor.
  - assert (Hnext : resend_event need ev ->
              match await_ack pkt need t0 evs (e_sendto pkt e) with
              | Returned delay e' rest =>
                exists noise a,
                  ev :: evs = noise ++ Datagram a :: rest
                  /\ Forall (resend_event need) noise
                  /\ accepts need a = Ok true
                  /\ e_outbox e' = e_outbox e ++ repeat pkt (S (length noise))
                  /\ e_ticks e' = S (e_ticks e) /\ e_clock e' = e_clock e
                  /\ delay = PrimFloat.sub (e_clock e (e_ticks e)) t0
              | Waiting e' =>
                Forall (resend_event need) (ev :: evs)
                /\ e_outbox e'
                   = e_outbox e ++ repeat pkt (S (length (ev :: evs)))
                /\ e_ticks e' = e_ticks e /\ e_clock e' = e_clock e
              | Raised x =>
                x = UnicodeDecodeError
                /\ exists noise a rest,
                     ev :: evs = noise ++ Datagram a :: rest
                     /\ Forall (resend_event need) noise
                     /\ accepts need a = Raise UnicodeDecodeError
              end).
    { intros Hev. specialize (IH (e_sendto pkt e)).
      destruct (await_ack pkt need t0 evs (e_sendto pkt e))
        as [delay e' rest|e'|x].
      - destruct IH as (noise & a & He & Hn & Ha & Ho & Ht & Hc & Hd).
        exists (ev :: noise), a. cbn [e_sendto e_outbox e_ticks e_clock] in *.
        rewrite repeat_snoc_front in Ho. rewrite He.
        repeat split; try assumption. constructor; assumption.
      - destruct IH as (Hn & Ho & Ht & Hc).
        cbn [e_sendto e_outbox e_ticks e_clock] in *.
        rewrite repeat_snoc_front in Ho.
        repeat split; try assumption. constructor; assumption.
      - destruct IH as (Hx & noise & a & rest & He & Hn & Ha).
        split; [exact Hx|]. exists (ev :: noise), a, rest. rewrite He.
        repeat split; try assumption. constructor; assumption. }
    destruct ev as [|d].
    + cbn [await_ack]. apply Hnext. exact I.
    + rewrite await_ack_datagram.
      destruct (accepts need d) as [[|]|x] eqn:Ha.
      * exists [], d. cbn [e_sendto e_tick e_now e_outbox e_ticks e_clock].
        repeat split; try reflexivity; try assumption. constructor.
      * apply Hnext. exact Ha.
      * pose proof (accepts_raises need d x Ha) as ->.
        split; [reflexivity|]. exists [], d, evs.
        repeat split; try assumption. constructor.
Qed.

Lemma await_ack_resends (pkt : bytes) (need : Z) (t0 : float)
    (noise : list recv_event) (a : bytes) (rest : list recv_event) :
  Forall (resend_event need) noise ->
  accepts need a = Ok true ->
  forall e,
    await_ack pkt need t0 (noise ++ Datagram a :: rest) e
    = Returned (PrimFloat.sub (e_clock e (e_ticks e)) t0)
        (mkEnv (e_outbox e ++ repeat pkt (S (length noise)))
           (S (e_ticks e)) (e_clock e))
        rest.
Proof.
  intros Hn Ha. induction Hn as [|ev noise Hev Hn IH]; intros e.
  - cbn [app]. rewrite await_ack_datagram, Ha. reflexivity.
  - cbn [app length]. rewrite <- repeat_snoc_front.
    destruct ev as [|d].
    + cbn [await_ack]. rewrite IH. reflexivity.
    + rewrite await_ack_datagram. cbn [resend_event] in Hev. rewrite Hev.
      rewrite IH. reflexivity.
Qed.

(** X2: [send_one_packet] sends one frame, always the same (the 4-byte
    header of [seq_num] followed by the data), once before each receive
    attempt.  It returns at the first datagram that is an ACK with an
    offset of at least [seq_num + len(packet_data)]; every timeout and
    every other decodable frame before it causes exactly one more
    transmission, so [n] such events and then the ACK leave [n + 1]
    copies of the frame sent.  The delay returned is the clock reading
    at that ACK minus the reading taken before the first transmission,
    whatever the number of retransmissions; the call reads the clock
    exactly twice.  With the events used up it waits in [recvfrom]
    having sent one copy more than it got events, and the only
    exception that leaves it is the [UnicodeDecodeError] of a frame
    whose body does not decode. *)
Theorem send_one_packet_retransmits (packet_data : bytes) (seq_num : Z)
    (evs : list recv_event) (e : env) :
  (- 2 ^ 31 <= seq_num < 2 ^ 31)%Z ->
  let frame := be_bytes SEQ_SIZE seq_num ++ packet_data in
  let need := (seq_num + len packet_data)%Z in
  match send_one_packet packet_data seq_num evs e with
  | Returned delay e' rest =>
    exists noise a,
      evs = noise ++ Datagram a :: rest
      /\ Forall (resend_event need) noise
      /\ accepts need a = Ok true
      /\ e_outbox e' = e_outbox e ++ repeat frame (S (length noise))
      /\ e_ticks e' = S (S (e_ticks e)) /\ e_clock e' = e_clock e
      /\ delay = PrimFloat.sub (e_clock e (S (e_ticks e)))
                   (e_clock e (e_ticks e))
  | Waiting e' =>
    Forall (resend_event need) evs
    /\ e_outbox e' = e_outbox e ++ repeat frame (S (length evs))
    /\ e_ticks e' = S (e_ticks e)
  | Raised x =>
    x = UnicodeDecodeError
    /\ exists noise a rest,
         evs = noise ++ Datagram a :: rest
         /\ Forall (resend_event need) noise
         /\ accepts need a = Raise UnicodeDecodeError
  end
  /\ (forall noise a rest,
        Forall (resend_event need) noise ->
        accepts need a = Ok true ->
        send_one_packet packet_data seq_num
          (noise ++ Datagram a :: rest) e
        = Returned
            (PrimFloat.sub (e_clock e (S (e_ticks e)))
               (e_clock e (e_ticks e)))
            (mkEnv (e_outbox e ++ repeat frame (S (length noise)))
               (S (S (e_ticks e))) (e_clock e))
            rest).
Proof.
  intros Hr frame need.
  assert (Hf : encode_frame seq_num packet_data = Ok frame).
  { destruct (encode_frame_cases seq_num packet_data) as [[_ H]|[H _]];
      [exact H | lia]. }
  unfold send_one_packet. rewrite Hf. cbv beta iota. fold need. split.
  - pose proof (await_ack_spec frame need (e_now e) evs (e_tick e)) as H.
    destruct (await_ack frame need (e_now e) evs (e_tick e))
      as [delay e' rest|e'|x].
    + destruct H as (noise & a & H1 & H2 & H3 & H4 & H5 & H6 & H7).
      exists noise, a. cbn [e_tick e_outbox e_ticks e_clock] in *.
      repeat split; assumption.
    + destruct H as (H1 & H2 & H3 & _).
      cbn [e_tick e_outbox e_ticks e_clock] in *.
      repeat split; assumption.
    + exact H.
  - intros noise a rest Hn Ha.
    rewrite (await_ack_resends frame need (e_now e) noise a rest Hn Ha).
    reflexivity.
Qed.

Lemma send_one_packet_retransmits_witness :
  send_one_packet (repeat x41 10) 0
    [Timeout; Datagram (ack_frame 5); Datagram (ack_frame 10)]
    (mkEnv [] 1 demo_clock)
  = Returned 1%float
      (mkEnv (repeat (be_bytes SEQ_SIZE 0 ++ repeat x41 10) 3) 3
         demo_clock)
      [].
Proof.
  destruct (send_one_packet_retransmits (repeat x41 10) 0 []
              (mkEnv [] 1 demo_clock)) as [_ H]; [lia|].
  apply (H [Timeout; Datagram (ack_frame 5)] (ack_frame 10) []).
  - repeat constructor.
  - reflexivity.
Defined.

(** ** The data loop of the stop-and-wait sender *)

Lemma sw_run_spec (chunk : Z) (contents : bytes) :
  (0 < chunk)%Z ->
  forall tbl pos ds evs e,
    (0 <= pos <= len contents)%Z ->
    segments_from chunk contents pos tbl ->
    match sw_run pos tbl ds evs e with
    | AllSent ds' pos' e' rest =>
      pos' = len contents
      /\ length ds' = length ds + length tbl
      /\ exists ks,
           length ks = length tbl
           /\ Forall (fun k => 1 <= k) ks
           /\ e_outbox e' = e_outbox e ++ repeated tbl ks
           /\ length evs = list_sum ks + length rest
           /\ e_ticks e' = e_ticks e + 2 * length tbl
    | AwaitingAck ds' pos' e' =>
      exists i p ks,
        length ds' = length ds + i
        /\ nth_error tbl i = Some p
        /\ pos' = sequence p
        /\ length ks = S i
        /\ Forall (fun k => 1 <= k) ks
        /\ e_outbox e' = e_outbox e ++ repeated tbl ks
        /\ list_sum ks = S (length evs)
        /\ e_ticks e' = e_ticks e + 2 * i + 1
    | ChunkRaised x => x = UnicodeDecodeError
    end.
Proof.
  intros Hc.
  induction tbl as [|p r IH]; intros pos ds evs e Hpos Hseg;
    cbn [segments_from] in Hseg.
  - cbn [sw_run]. split; [lia|]. split; [cbn; lia|].
    exists []. unfold repeated. cbn. rewrite app_nil_r.
    repeat split; try lia. constructor.
  - destruct Hseg as (Hlt & Hp & Hrest).
    set (data := slice contents pos (pos + chunk)) in *.
    assert (Hlen : len data = Z.min chunk (len contents - pos))
      by (apply slice_length; lia).
    assert (Hend : end_offset p = (pos + len data)%Z)
      by (rewrite Hp; reflexivity).
    assert (Hs : sequence p = pos) by (rewrite Hp; reflexivity).
    cbn [sw_run].
    pose proof (await_ack_spec (raw p) (end_offset p) (e_now e) evs
                  (e_tick e)) as Ha.
    destruct (await_ack (raw p) (end_offset p) (e_now e) evs (e_tick e))
      as [d e1 rest|e1|x].
    + destruct Ha as (noise & a & Hev & _ & _ & Ho & Ht & Hck & _).
      cbn [e_tick e_outbox e_ticks e_clock] in Ho, Ht, Hck.
      assert (H1 : (0 <= end_offset p <= len contents)%Z) by lia.
      assert (H2 : segments_from chunk contents (end_offset p) r)
        by (rewrite Hend; exact Hrest).
      specialize (IH (end_offset p) (ds ++ [d]) rest e1 H1 H2).
      destruct (sw_run (end_offset p) r (ds ++ [d]) rest e1)
        as [ds' pos' e' rest'|ds' pos' e'|x].
      * destruct IH as (Hp' & Hd' & ks & Hk & Hf & Ho' & Hl & Ht').
        split; [exact Hp'|].
        split; [rewrite Hd', length_app; cbn [length]; lia|].
        exists (S (length noise) :: ks).
        split; [cbn [length]; lia|].
        split; [constructor; [lia | exact Hf]|].
        split.
        { rewrite Ho', Ho. unfold repeated. cbn [combine map concat fst snd].
          rewrite <- !app_assoc. reflexivity. }
        split.
        { rewrite Hev, length_app.
          change (list_sum (S (length noise) :: ks))
            with (S (length noise) + list_sum ks).
          cbn [length]. lia. }
        rewrite Ht', Ht. cbn [length]. lia.
      * destruct IH as (i & q & ks & Hd' & Hq & Hp' & Hk & Hf & Ho' & Hl
                        & Ht').
        exists (S i), q, (S (length noise) :: ks).
        split; [rewrite Hd', length_app; cbn [length]; lia|].
        split; [exact Hq|]. split; [exact Hp'|].
        split; [cbn [length]; lia|].
        split; [constructor; [lia | exact Hf]|].
        split.
        { rewrite Ho', Ho. unfold repeated. cbn [combine map concat fst snd].
          rewrite <- !app_assoc. reflexivity. }
        split.
        { rewrite Hev, length_app.
          change (list_sum (S (length noise) :: ks))
            with (S (length noise) + list_sum ks).
          cbn [length]. lia. }
        rewrite Ht', Ht. lia.
      * exact IH.
    + destruct Ha as (_ & Ho & Ht & _).
      cbn [e_tick e_outbox e_ticks e_clock] in Ho, Ht.
      exists 0, p, [S (length evs)].
      split; [lia|]. split; [reflexivity|]. split; [symmetry; exact Hs|].
      split; [reflexivity|]. split; [constructor; [lia | constructor]|].
      split.
      { rewrite Ho. unfold repeated. cbn [combine]. rewrite combine_nil.
        cbn [map concat fst snd]. rewrite app_nil_r. reflexivity. }
      split; [cbn; lia|]. rewrite Ht. lia.
    + apply Ha.
Qed.

Lemma turn_events_count (blocks : list (list recv_event * bytes)) :
  length (concat (map turn_events blocks))
  = list_sum (map attempts blocks).
Proof.
  induction blocks as [|b r IH]; [reflexivity|].
  cbn [map concat].
  change (list_sum (attempts b :: map attempts r))
    with (attempts b + list_sum (map attempts r)).
  rewrite length_app, IH.
  unfold turn_events, attempts. rewrite length_app. cbn [length]. lia.
Qed.

Lemma attempts_positive (blocks : list (list recv_event * bytes)) :
  Forall (fun k => 1 <= k) (map attempts blocks).
Proof.
  induction blocks as [|b r IH]; constructor; [|exact IH].
  unfold attempts. lia.
Qed.

Lemma repeated_cons (p : packet) (r : list packet) (k : nat)
    (ks : list nat) :
  repeated (p :: r) (k :: ks) = repeat (raw p) k ++ repeated r ks.
Proof. reflexivity. Qed.

Lemma sw_run_turns :
  forall tbl pos ds evs e,
    match sw_run pos tbl ds evs e with
    | AllSent ds' pos' e' rest =>
      exists blocks,
        Forall2 acked_by tbl blocks
        /\ evs = concat (map turn_events blocks) ++ rest
        /\ e_outbox e' = e_outbox e ++ repeated tbl (map attempts blocks)
    | AwaitingAck ds' pos' e' =>
      exists i p blocks noise,
        length ds' = length ds + i
        /\ nth_error tbl i = Some p
        /\ Forall2 acked_by (firstn i tbl) blocks
        /\ Forall (resend_event (end_offset p)) noise
        /\ evs = concat (map turn_events blocks) ++ noise
        /\ e_outbox e'
           = e_outbox e
             ++ repeated tbl (map attempts blocks ++ [S (length noise)])
    | ChunkRaised x =>
      exists i p blocks noise d rest,
        nth_error tbl i = Some p
        /\ Forall2 acked_by (firstn i tbl) blocks
        /\ Forall (resend_event (end_offset p)) noise
        /\ evs = concat (map turn_events blocks)
                 ++ noise ++ Datagram d :: rest
        /\ accepts (end_offset p) d = Raise UnicodeDecodeError
    end.
Proof.
  induction tbl as [|p r IH]; intros pos ds evs e.
  - cbn [sw_run]. exists []. split; [constructor|].
    split; [reflexivity|]. unfold repeated. cbn. rewrite app_nil_r.
    reflexivity.
  - cbn [sw_run].
    pose proof (await_ack_spec (raw p) (end_offset p) (e_now e) evs
                  (e_tick e)) as Ha.
    destruct (await_ack (raw p) (end_offset p) (e_now e) evs (e_tick e))
      as [d e1 rest|e1|x].
    + destruct Ha as (noise & a & Hev & Hn & Hacc & Ho & _).
      cbn [e_tick e_outbox e_ticks e_clock] in Ho.
      specialize (IH (end_offset p) (ds ++ [d]) rest e1).
      destruct (sw_run (end_offset p) r (ds ++ [d]) rest e1)
        as [ds' pos' e' rest'|ds' pos' e'|x].
      * destruct IH as (blocks & Hb & He & Ho').
        exists ((noise, a) :: blocks).
        split; [constructor; [split; assumption | exact Hb]|].
        split.
        { cbn [map concat]. unfold turn_events at 1. cbn [fst snd].
          rewrite Hev, He, <- !app_assoc. reflexivity. }
        cbn [map]. rewrite repeated_cons. unfold attempts at 1.
        cbn [fst]. rewrite Ho', Ho, <- app_assoc. reflexivity.
      * destruct IH as (i & q & blocks & noise' & Hd & Hq & Hb & Hn' & He
                        & Ho').
        exists (S i), q, ((noise, a) :: blocks), noise'.
        split; [rewrite Hd, length_app; cbn [length]; lia|].
        split; [exact Hq|].
        split; [cbn [firstn]; constructor; [split; assumption | exact Hb]|].
        split; [exact Hn'|].
        split.
        { cbn [map concat]. unfold turn_events at 1. cbn [fst snd].
          rewrite Hev, He, <- !app_assoc. reflexivity. }
        cbn [map app]. rewrite repeated_cons. unfold attempts at 1.
        cbn [fst]. rewrite Ho', Ho, <- app_assoc. reflexivity.
      * destruct IH as (i & q & blocks & noise' & d' & rest' & Hq & Hb
                        & Hn' & He & Hr).
        exists (S i), q, ((noise, a) :: blocks), noise', d', rest'.
        split; [exact Hq|].
        split; [cbn [firstn]; constructor; [split; assumption | exact Hb]|].
        split; [exact Hn'|].
        split; [|exact Hr].
        cbn [map concat]. unfold turn_events at 1. cbn [fst snd].
        rewrite Hev, He, <- !app_assoc. reflexivity.
    + destruct Ha as (Hn & Ho & _).
      cbn [e_tick e_outbox e_ticks e_clock] in Ho.
      exists 0, p, [], evs.
      split; [lia|]. split; [reflexivity|]. split; [constructor|].
      split; [exact Hn|]. split; [reflexivity|].
      cbn [map app]. rewrite Ho. unfold repeated. cbn [combine].
      rewrite combine_nil. cbn [map concat fst snd].
      rewrite app_nil_r. reflexivity.
    + destruct Ha as (_ & noise & a & rest & Hev & Hn & Hr).
      exists 0, p, [], noise, a, rest.
      split; [reflexivity|]. split; [constructor|].
      split; [exact Hn|]. split; [exact Hev | exact Hr].
Qed.

(** X3: the data loop of [send_file] sends the frames of the payload
    in offset order, the same frames [transmit_file] stores in its
    table, each at least once, and goes on to the next frame only when
    the current one was acknowledged; it makes one receive attempt per
    transmission.  Frame by frame, the events it consumed are: the
    timeouts and decodable frames that are not an ACK reaching the end
    of the current segment, each followed by one more transmission of
    the current frame, and then a datagram that is such an ACK, after
    which the next frame is sent.  When the loop ends, every frame was
    sent, there is one delay sample per segment, the position is the
    payload length, and the clock was read twice per segment.  When it
    still waits, it waits for the segment whose index is the number of
    samples collected, the segments before it were acknowledged in
    that way, and nothing after that segment was sent.  The only
    exception that leaves it is [UnicodeDecodeError], raised by a
    datagram whose body does not decode. *)
Theorem send_chunks_in_order (chunk : Z) (contents : bytes)
    (evs : list recv_event) (e : env) (tbl : list packet) :
  (0 < chunk)%Z ->
  segment_table chunk contents = Some (Ok tbl) ->
  exists r,
    send_chunks (S (length contents)) chunk contents 0 [] evs e = Some r
    /\ match r with
       | AllSent all_delays final_position e' rest =>
         final_position = len contents
         /\ length all_delays = length tbl
         /\ exists ks,
              length ks = length tbl
              /\ Forall (fun k => 1 <= k) ks
              /\ e_outbox e' = e_outbox e ++ repeated tbl ks
              /\ length evs = list_sum ks + length rest
              /\ e_ticks e' = e_ticks e + 2 * length tbl
              /\ exists blocks,
                   ks = map attempts blocks
                   /\ Forall2 acked_by tbl blocks
                   /\ evs = concat (map turn_events blocks) ++ rest
       | AwaitingAck all_delays current_position e' =>
         exists p ks,
           nth_error tbl (length all_delays) = Some p
           /\ current_position = sequence p
           /\ length ks = S (length all_delays)
           /\ Forall (fun k => 1 <= k) ks
           /\ e_outbox e' = e_outbox e ++ repeated tbl ks
           /\ list_sum ks = S (length evs)
           /\ e_ticks e' = e_ticks e + 2 * length all_delays + 1
           /\ exists blocks noise,
                ks = map attempts blocks ++ [S (length noise)]
                /\ Forall2 acked_by (firstn (length all_delays) tbl) blocks
                /\ Forall (resend_event (end_offset p)) noise
                /\ evs = concat (map turn_events blocks) ++ noise
       | ChunkRaised x =>
         x = UnicodeDecodeError
         /\ exists i p blocks noise d rest,
              nth_error tbl i = Some p
              /\ Forall2 acked_by (firstn i tbl) blocks
              /\ Forall (resend_event (end_offset p)) noise
              /\ evs = concat (map turn_events blocks)
                       ++ noise ++ Datagram d :: rest
              /\ accepts (end_offset p) d = Raise UnicodeDecodeError
       end.
Proof.
  intros Hc Ht.
  destruct (segment_table_inv chunk contents tbl Hc Ht) as (Hlast & Hseg).
  pose proof (segments_at_most_bytes chunk contents tbl Hc Hseg) as Hn.
  exists (sw_run 0 tbl [] evs e). split.
  - apply send_chunks_sw_run; try assumption; try lia.
    + intros j Hj Hlt.
      apply (visited_offsets_encodable (len contents) chunk j Hc Hlast Hj
               Hlt).
    + intros _. exists 0%Z. lia.
  - pose proof (sw_run_spec chunk contents Hc tbl 0%Z [] evs e) as H.
    assert (Hpos : (0 <= 0 <= len contents)%Z) by (unfold len; lia).
    specialize (H Hpos Hseg).
    pose proof (sw_run_turns tbl 0%Z [] evs e) as T.
    destruct (sw_run 0 tbl [] evs e) as [ds pos e' rest|ds pos e'|x].
    + destruct H as (Hp & Hd & ks0 & _ & _ & _ & _ & Hticks).
      destruct T as (blocks & Hb & Hev & Ho).
      split; [exact Hp|]. split; [exact Hd|].
      exists (map attempts blocks).
      split; [rewrite length_map; symmetry; apply (Forall2_length Hb)|].
      split; [apply attempts_positive|]. split; [exact Ho|].
      split.
      { rewrite Hev at 1. rewrite length_app, turn_events_count.
        reflexivity. }
      split; [exact Hticks|].
      exists blocks. split; [reflexivity|]. split; assumption.
    + destruct H as (i & p & ks0 & Hd & Hp & Hpos' & _ & _ & _ & _
                     & Hticks).
      destruct T as (i' & p' & blocks & noise & Hd' & Hp' & Hb & Hnz & Hev
                     & Ho).
      cbn [length Nat.add] in Hd, Hd'. subst i i'.
      assert (p' = p) by congruence. subst p'.
      assert (Hlt : length ds < length tbl)
        by (apply nth_error_Some; congruence).
      pose proof (Forall2_length Hb) as Hbl.
      rewrite length_firstn in Hbl.
      exists p, (map attempts blocks ++ [S (length noise)]).
      split; [exact Hp|]. split; [exact Hpos'|].
      split; [rewrite length_app, length_map; cbn [length]; lia|].
      split.
      { apply Forall_app. split; [apply attempts_positive|].
        constructor; [lia | constructor]. }
      split; [exact Ho|].
      split.
      { rewrite Hev, length_app, turn_events_count.
        rewrite list_sum_app. cbn. lia. }
      split; [exact Hticks|].
      exists blocks, noise. split; [reflexivity|].
      split; [exact Hb|]. split; assumption.
    + split; [exact H | exact T].
Qed.

Lemma send_chunks_in_order_witness :
  exists r,
    send_chunks (S (length (repeat x41 30))) 10 (repeat x41 30) 0 []
      patient_events (mkEnv [] 1 demo_clock) = Some r
    /\ match r with
       | AllSent all_delays final_position e' rest =>
         final_position = 30%Z /\ length all_delays = 3
       | _ => True
       end.
Proof.
  destruct (send_chunks_in_order 10 (repeat x41 30) patient_events
              (mkEnv [] 1 demo_clock) demo_table) as (r & H1 & H2).
  - reflexivity.
  - vm_compute. reflexivity.
  - exists r. split; [exact H1|].
    destruct r as [ds pos e' rest|ds pos e'|x]; [|exact I|exact I].
    destruct H2 as (Hp & Hd & _). split; [exact Hp | exact Hd].
Defined.

Lemma nth_error_stamp_burst (clk : nat -> float) (l : list packet) :
  forall t k i,
    nth_error (stamp_burst clk t k l) i
    = option_map
        (fun p => if i <? k
                  then set_recent_sent (Some (clk (S (t + 2 * i))))
                         (set_first_sent (Some (clk (t + 2 * i))) p)
                  else p)
        (nth_error l i).
Proof.
  induction l as [|p r IH]; intros t k i.
  - destruct k; destruct i; reflexivity.
  - destruct k as [|k].
    + cbn [stamp_burst]. destruct (nth_error (p :: r) i); reflexivity.
    + cbn [stamp_burst]. destruct i as [|i].
      * cbn. rewrite Nat.add_0_r. reflexivity.
      * cbn [nth_error]. rewrite IH.
        change (S i <? S k) with (i <? k).
        replace (S (S t) + 2 * i) with (t + 2 * S i) by lia.
        reflexivity.
Qed.

Lemma stamp_burst_length (clk : nat -> float) (l : list packet) :
  forall t k, length (stamp_burst clk t k l) = length l.
Proof.
  induction l as [|p r IH]; intros t [|k]; cbn; try reflexivity.
  now rewrite IH.
Qed.

(** X4: the initial burst.  [transmit_file] starts by sending the first
    [min(WINDOW, num_packets)] frames of the table, in table order and
    once each, and nothing else.  Entry [i] of that range gets the two
    clock readings that follow its [sendto] as [first_sent] and
    [recent_sent] (readings number [1 + 2 i] and [2 + 2 i], reading 0
    being [begin]); the entries after the range are left as they were.
    [last_check] is the reading that follows the burst, [send_next] is
    the right edge of the window, [left_edge] is 0, and there is no
    delay sample, no ACK counted and no retransmission yet. *)
Theorem initial_burst (window : nat) (clk : nat -> float)
    (tbl : list packet) :
  let m := Nat.min window (length tbl) in
  let st := start window clk tbl in
  outbox st = map raw (firstn window tbl)
  /\ ticks st = 2 + 2 * m
  /\ begin st = clk 0
  /\ last_check st = clk (1 + 2 * m)
  /\ left_edge st = 0 /\ send_next st = m
  /\ delays st = [] /\ total_acks st = 0 /\ resends st = 0
  /\ clock st = clk
  /\ length (packet_list st) = length tbl
  /\ (forall i p,
        nth_error tbl i = Some p ->
        nth_error (packet_list st) i
        = Some (if i <? window
                then set_recent_sent (Some (clk (2 + 2 * i)))
                       (set_first_sent (Some (clk (1 + 2 * i))) p)
                else p)).
Proof.
  intros m st. unfold st. rewrite start_closed. fold m.
  cbn [outbox ticks begin last_check left_edge send_next delays total_acks
       resends clock packet_list].
  repeat (split; [reflexivity|]).
  split; [apply stamp_burst_length|].
  intros i p Hp. rewrite nth_error_stamp_burst, Hp. reflexivity.
Qed.

(** ** An ACK that brings nothing new *)

Lemma slide_stays (l : list packet) (e : nat) :
  (forall p, nth_error l e = Some p -> is_acked p = false) ->
  slide l e = e.
Proof.
  intros H. unfold slide.
  destruct (skipn e l) as [|q r] eqn:Hs; [cbn; lia|].
  assert (Hq : nth_error l e = Some q).
  { rewrite <- (Nat.add_0_r e), <- nth_error_skipn, Hs. reflexivity. }
  cbn [acked_run]. rewrite (H q Hq). lia.
Qed.

Lemma on_response_ack_facts (window : nat) (r : bytes) (st st1 : state)
    (msg : pystr) :
  on_response window r st = Ok st1 ->
  utf8_decode (body r) = Ok msg ->
  pystr_eqb msg str_ack = true ->
  let a := int_from_bytes (header r) in
  ack_view (packet_list st1) = apply_acks [a] (ack_view (packet_list st))
  /\ left_edge st1 = slide (map (mark_pkt a) (packet_list st)) (left_edge st).
Proof.
  intros Hr Hd Hack a.
  destruct (on_response_cases window r st st1 Hr) as (msg' & Hd' & H).
  rewrite Hd in Hd'. injection Hd' as <-. cbv zeta in H.
  rewrite Hack in H. fold a in H.
  set (st0 := set_total_acks (S (total_acks st)) st) in *.
  pose proof (ack_view_ack window a st0) as Hv. cbv zeta in Hv.
  rewrite <- H in Hv. split; [exact Hv|].
  pose proof (mark_acked_packets a st0) as Hl.
  destruct (mark_acked_frame a st0) as (Hle & _).
  assert (He2 : left_edge (slide_window (mark_acked a st0))
                = slide (map (mark_pkt a) (packet_list st)) (left_edge st)).
  { unfold slide_window. cbn [left_edge set_left_edge].
    rewrite Hl, Hle. reflexivity. }
  rewrite H.
  destruct (Nat.ltb_spec (left_edge (mark_acked a st0))
              (left_edge (slide_window (mark_acked a st0)))) as [Hmv|Hst].
  - rewrite <- He2. unfold send_new. cbn [left_edge set_send_next].
    destruct (send_loop_frame
                (send_next (clamp_send_next (slide_window (mark_acked a st0))))
                (right_edge window
                   (clamp_send_next (slide_window (mark_acked a st0))))
                (clamp_send_next (slide_window (mark_acked a st0))))
      as (Hf & _).
    rewrite Hf. unfold clamp_send_next. destruct (_ <? _); reflexivity.
  - exact He2.
Qed.

(** X5: an ACK that is not above one already handled changes nothing.
    After the response handler has processed an ACK for offset [a], a
    further ACK for an offset [a' <= a] (a duplicate, or one that
    arrives out of order) only increments [total_acks]: no segment is
    marked, no delay sample is added, the window does not move and
    nothing is sent. *)
Theorem stale_ack_is_ignored (window : nat) (r r' : bytes)
    (st st1 : state) (msg msg' : pystr) :
  on_response window r st = Ok st1 ->
  utf8_decode (body r) = Ok msg -> pystr_eqb msg str_ack = true ->
  utf8_decode (body r') = Ok msg' -> pystr_eqb msg' str_ack = true ->
  (int_from_bytes (header r') <= int_from_bytes (header r))%Z ->
  on_response window r' st1
  = Ok (set_total_acks (S (total_acks st1)) st1).
Proof.
  intros Hr Hd Hack Hd' Hack' Hle.
  destruct (on_response_ack_facts window r st st1 msg Hr Hd Hack)
    as (Hv & He).
  set (a := int_from_bytes (header r)) in *.
  set (a' := int_from_bytes (header r')) in *.
  set (st0 := set_total_acks (S (total_acks st1)) st1).
  (* every entry that [a] covers is acknowledged in [st1] *)
  assert (Hcov : forall i p, nth_error (packet_list st1) i = Some p ->
                   (end_offset p <= a)%Z -> is_acked p = true).
  { intros i p Hp Hend.
    pose proof (ack_view_nth _ _ i p Hv Hp) as Hn.
    unfold apply_acks, ack_view in Hn.
    rewrite map_map, nth_error_map in Hn.
    destruct (nth_error (packet_list st) i) as [q|]; [|discriminate].
    cbn in Hn. injection Hn as He1 Ha1. rewrite <- Ha1.
    rewrite orb_false_r.
    destruct (Z.leb_spec (end_offset q) a); [|lia].
    apply orb_true_r. }
  (* the entry at the left edge is not *)
  assert (Hedge : forall p, nth_error (packet_list st1) (left_edge st1)
                            = Some p -> is_acked p = false).
  { intros p Hp.
    pose proof (ack_view_nth _ _ _ p Hv Hp) as Hn.
    assert (Hm : ack_view (map (mark_pkt a) (packet_list st))
                 = apply_acks [a] (ack_view (packet_list st)))
      by apply ack_view_mark.
    rewrite <- Hm in Hn. unfold ack_view in Hn at 1.
    rewrite nth_error_map in Hn.
    destruct (nth_error (map (mark_pkt a) (packet_list st)) (left_edge st1))
      as [q|] eqn:Hq; [|discriminate].
    cbn in Hn. injection Hn as _ Ha1. rewrite <- Ha1.
    rewrite He in Hq. apply (slide_stop _ _ _ Hq). }
  assert (Hmark : mark_acked a' st0 = st0).
  { apply mark_acked_none. intros idx p Hp.
    change (packet_list st0) with (packet_list st1) in Hp.
    destruct (Z.leb_spec (end_offset p) a') as [Hc|Hc]; [|reflexivity].
    rewrite (Hcov idx p Hp ltac:(lia)). reflexivity. }
  unfold on_response, bind. rewrite Hd', Hack'. fold a' st0.
  rewrite Hmark. unfold slide_window.
  change (packet_list st0) with (packet_list st1).
  change (left_edge st0) with (left_edge st1).
  rewrite (slide_stays _ _ Hedge).
  cbn [left_edge set_left_edge]. rewrite Nat.ltb_irrefl.
  reflexivity.
Qed.

Lemma stale_ack_is_ignored_witness :
  on_response 2 (ack_frame 10) demo_after_ack
  = Ok (set_total_acks (S (total_acks demo_after_ack)) demo_after_ack).
Proof.
  apply (stale_ack_is_ignored 2 (ack_frame 20) (ack_frame 10)
           (start 2 demo_clock demo_table) demo_after_ack str_ack str_ack).
  - vm_compute. reflexivity.
  - reflexivity.
  - reflexivity.
  - reflexivity.
  - reflexivity.
  - vm_compute. discriminate.
Defined.

(** ** What the cursors mean *)

Lemma acked_run_exact (l : list packet) :
  forall e,
    (forall i p, nth_error l i = Some p -> i < e -> is_acked p = true) ->
    (forall p, nth_error l e = Some p -> is_acked p = false) ->
    e <= length l ->
    acked_run l = e.
Proof.
  induction l as [|q r IH]; intros e Hlow Hat He.
  - cbn in *. lia.
  - destruct e as [|e].
    + cbn [acked_run]. rewrite (Hat q eq_refl). reflexivity.
    + cbn [acked_run]. rewrite (Hlow 0 q eq_refl ltac:(lia)). f_equal.
      apply IH.
      * intros i p Hp Hi. apply (Hlow (S i) p Hp). lia.
      * intros p Hp. apply (Hat p Hp).
      * cbn in He. lia.
Qed.

Lemma all_acked_run (l : list packet) :
  forallb is_acked l = true <-> acked_run l = length l.
Proof.
  induction l as [|q r IH]; cbn [forallb acked_run length]; [tauto|].
  destruct (is_acked q); cbn [andb].
  - rewrite IH. lia.
  - split; [discriminate | lia].
Qed.

Lemma sent_in_window_ack (window : nat) (a : Z) (st : state) :
  window_inv window st -> sent_in_window st ->
  let st1 := mark_acked a st in
  let st2 := slide_window st1 in
  sent_in_window (if left_edge st1 <? left_edge st2
                  then send_new window (clamp_send_next st2) else st2).
Proof.
  intros (Hle & Hsn & Hack & Hun) Hsent st1 st2.
  destruct (mark_acked_frame a st) as (Hm1 & Hm2 & _).
  pose proof (mark_acked_packets a st) as Hl1. fold st1 in Hm1, Hm2, Hl1.
  assert (Hs1 : forall i p, nth_error (packet_list st1) i = Some p ->
                  i < send_next st -> is_acked p = false ->
                  first_sent p <> None).
  { intros i p Hp Hi Ha. rewrite Hl1, nth_error_map in Hp.
    destruct (nth_error (packet_list st) i) as [q|] eqn:Hq;
      [|discriminate].
    injection Hp as <-. rewrite mark_pkt_acked in Ha.
    apply orb_false_iff in Ha. destruct Ha as [Ha _].
    rewrite mark_pkt_first_sent. apply (Hsent i q Hq Hi Ha). }
  assert (He2 : left_edge st2
                = slide (packet_list st1) (left_edge st1)) by reflexivity.
  assert (Hack2 : forall i p, nth_error (packet_list st1) i = Some p ->
                    i < left_edge st2 -> is_acked p = true).
  { intros i p Hp Hi.
    destruct (le_lt_dec (left_edge st1) i) as [Hc|Hc].
    - apply (slide_acked (packet_list st1) (left_edge st1) i p);
        [lia | exact Hp].
    - rewrite Hl1, nth_error_map in Hp.
      destruct (nth_error (packet_list st) i) as [q|] eqn:Hq;
        [|discriminate].
      injection Hp as <-.
      rewrite mark_pkt_acked, (Hack i q Hq ltac:(lia)). reflexivity. }
  destruct (Nat.ltb_spec (left_edge st1) (left_edge st2)) as [Hmv|Hst].
  - set (st3 := clamp_send_next st2).
    assert (Hl3 : packet_list st3 = packet_list st1)
      by (unfold st3, clamp_send_next; destruct (_ <? _); reflexivity).
    assert (Hs3 : send_next st3 = Nat.max (send_next st) (left_edge st2)).
    { unfold st3, clamp_send_next.
      change (send_next st2) with (send_next st1).
      destruct (Nat.ltb_spec (send_next st1) (left_edge st2));
        cbn [send_next set_send_next];
        change (send_next st2) with (send_next st1); lia. }
    pose proof (py_for_pointwise R_send send_body (send_next st3)
                  (right_edge window st3) st3 send_body_pointwise) as Hpw.
    unfold sent_in_window, send_new.
    cbn [send_next packet_list set_send_next].
    intros i p Hp Hi Ha.
    destruct (pointwise_in_inv R_send _ _ _ _ i p Hpw Hp)
      as (q & Hq & Hin & Hout).
    rewrite Hl3 in Hq.
    destruct (le_lt_dec (send_next st3) i) as [Hlo|Hlo].
    + specialize (Hin ltac:(lia)).
      destruct Hin as [[Hqa ->]|(Hqa & t1 & t2 & ->)]; [congruence|].
      destruct (first_sent q) eqn:E;
        cbn [first_sent set_recent_sent set_first_sent]; rewrite ?E;
        intros H'; discriminate H'.
    + rewrite (Hout ltac:(lia)) in *.
      destruct (le_lt_dec (send_next st) i) as [Hge|Hlt].
      * rewrite (Hack2 i q Hq ltac:(lia)) in Ha. discriminate.
      * apply (Hs1 i q Hq Hlt Ha).
  - unfold sent_in_window.
    change (packet_list st2) with (packet_list st1).
    change (send_next st2) with (send_next st1). rewrite Hm2. exact Hs1.
Qed.

Lemma sent_in_window_timer (window : nat) (st : state) :
  sent_in_window st -> sent_in_window (timer_check window st).
Proof.
  intros Hs i p Hp Hi Ha.
  destruct (timer_check_frame window st) as (_ & H2 & _).
  destruct (timer_check_pointwise window st) as (lo & hi & Hpw).
  rewrite H2 in Hi.
  destruct (pointwise_in_inv R_sweep _ _ _ _ i p Hpw Hp)
    as (q & Hq & Hin & Hout).
  assert (Hpq : is_acked p = is_acked q /\ first_sent p = first_sent q).
  { destruct (le_lt_dec lo i) as [H1|H1];
      [destruct (le_lt_dec hi i) as [H3|H3]|].
    - rewrite (Hout ltac:(lia)). auto.
    - specialize (Hin ltac:(lia)).
      split; [apply R_sweep_keeps_acked | apply R_sweep_keeps_first_sent];
        exact Hin.
    - rewrite (Hout ltac:(lia)). auto. }
  destruct Hpq as (E1 & E2). rewrite E2. rewrite E1 in Ha.
  apply (Hs i q Hq Hi Ha).
Qed.

Lemma edge_unacked_view (st st' : state) :
  ack_view (packet_list st') = ack_view (packet_list st) ->
  left_edge st' = left_edge st ->
  edge_unacked st -> edge_unacked st'.
Proof.
  intros Hv He Hu p Hp. rewrite He in Hp.
  pose proof (ack_view_nth _ _ _ p Hv Hp) as Hn.
  unfold ack_view in Hn. rewrite nth_error_map in Hn.
  destruct (nth_error (packet_list st) (left_edge st)) as [q|] eqn:Hq;
    [|discriminate].
  cbn in Hn. injection Hn as _ Ha. rewrite <- Ha. apply (Hu q Hq).
Qed.

Lemma edge_unacked_ack (window : nat) (r : bytes) (st st1 : state)
    (msg : pystr) :
  on_response window r st = Ok st1 ->
  utf8_decode (body r) = Ok msg ->
  pystr_eqb msg str_ack = true ->
  edge_unacked st1.
Proof.
  intros Hr Hd Hack.
  destruct (on_response_ack_facts window r st st1 msg Hr Hd Hack)
    as (Hv & He).
  set (a := int_from_bytes (header r)) in *.
  intros p Hp.
  pose proof (ack_view_nth _ _ _ p Hv Hp) as Hn.
  assert (Hm : ack_view (map (mark_pkt a) (packet_list st))
               = apply_acks [a] (ack_view (packet_list st)))
    by apply ack_view_mark.
  rewrite <- Hm in Hn. unfold ack_view in Hn at 1.
  rewrite nth_error_map in Hn.
  destruct (nth_error (map (mark_pkt a) (packet_list st)) (left_edge st1))
    as [q|] eqn:Hq; [|discriminate].
  cbn in Hn. injection Hn as _ Ha1. rewrite <- Ha1.
  rewrite He in Hq. apply (slide_stop _ _ _ Hq).
Qed.

Lemma cursors_loop_body (window : nat) (ev : recv_event)
    (st st' : state) :
  window_inv window st /\ sent_in_window st /\ edge_unacked st ->
  loop_body window ev st = Ok st' ->
  window_inv window st' /\ sent_in_window st' /\ edge_unacked st'.
Proof.
  intros (Hw & Hs & Hu) Hb.
  split; [apply (window_inv_loop_body window ev st st' Hw Hb)|].
  assert (Htimer : forall s, sent_in_window s -> edge_unacked s ->
            sent_in_window (timer_check window s)
            /\ edge_unacked (timer_check window s)).
  { intros s H1 H2. split; [apply sent_in_window_timer, H1|].
    destruct (timer_check_frame window s) as (He & _).
    apply (edge_unacked_view s _ (ack_view_timer window s) He H2). }
  destruct ev as [|d]; cbn [loop_body] in Hb.
  - injection Hb as <-. apply Htimer; assumption.
  - unfold bind in Hb.
    destruct (on_response window (firstn MAX_PACKET d) st) as [st1|x] eqn:Hr;
      [|discriminate].
    injection Hb as <-.
    destruct (on_response_cases window _ st st1 Hr) as (msg & Hd & H).
    cbv zeta in H.
    destruct (pystr_eqb msg str_ack) eqn:Hack.
    + apply Htimer.
      * rewrite H.
        apply (sent_in_window_ack window _
                 (set_total_acks (S (total_acks st)) st)); assumption.
      * apply (edge_unacked_ack window _ st st1 msg Hr Hd Hack).
    + subst st1. apply Htimer; assumption.
Qed.

Lemma cursors_start (window : nat) (clk : nat -> float)
    (tbl : list packet) :
  fresh tbl ->
  sent_in_window (start window clk tbl)
  /\ edge_unacked (start window clk tbl).
Proof.
  intros Hf. rewrite start_closed. cbv zeta.
  unfold sent_in_window, edge_unacked.
  cbn [packet_list send_next left_edge].
  split.
  - intros i p Hp Hi _. rewrite nth_error_stamp_burst in Hp.
    destruct (nth_error tbl i) as [q|]; [|discriminate].
    cbn [option_map] in Hp.
    destruct (Nat.ltb_spec i window); [|lia].
    injection Hp as <-. discriminate.
  - intros p Hp. rewrite nth_error_stamp_burst in Hp.
    destruct (nth_error tbl 0) as [q|] eqn:Hq; [|discriminate].
    cbn [option_map] in Hp.
    destruct (fresh_nth tbl 0 q Hf Hq) as (Ha & _).
    destruct (0 <? window); injection Hp as <-; exact Ha.
Qed.

(** X6: what the cursors mean.  At every test of the main loop,
    [left_edge] is the index of the oldest unacknowledged packet (the
    number of acknowledged packets at the head of the table), so the
    loop ends exactly when [left_edge] reaches [num_packets];
    [send_next] is the right edge [min(left_edge + WINDOW,
    num_packets)] of the window; every unacknowledged packet below
    [send_next] was transmitted and carries the time of its latest
    transmission, so the timeout scan watches it; and no packet from
    [send_next] on was ever transmitted. *)
Theorem cursors_meaning (window : nat) (clk : nat -> float)
    (tbl : list packet) (evs rest : list recv_event) (st : state) :
  fresh tbl ->
  main_loop window evs (start window clk tbl) = Ok (st, rest) ->
  left_edge st = acked_run (packet_list st)
  /\ (all_acked st = true <-> left_edge st = num_packets st)
  /\ send_next st = Nat.min (left_edge st + window) (num_packets st)
  /\ (forall i p, nth_error (packet_list st) i = Some p ->
        i < send_next st -> is_acked p = false ->
        first_sent p <> None /\ recent_sent p <> None)
  /\ (forall i p, nth_error (packet_list st) i = Some p ->
        send_next st <= i ->
        first_sent p = None /\ recent_sent p = None).
Proof.
  intros Hf Hrun.
  assert (Hinv : window_inv window st /\ sent_in_window st
                 /\ edge_unacked st).
  { refine (main_loop_invariant
              (fun s => window_inv window s /\ sent_in_window s
                        /\ edge_unacked s)
              window _ evs (start window clk tbl) st rest _ Hrun).
    - intros ev s s'. apply cursors_loop_body.
    - split; [apply window_inv_start, Hf | apply cursors_start, Hf]. }
  assert (Hiff : Forall sent_iff (packet_list st)).
  { refine (main_loop_invariant
              (fun s => Forall sent_iff (packet_list s))
              window _ evs (start window clk tbl) st rest _ Hrun).
    - intros ev s s'. apply sent_iff_step.
    - apply sent_iff_start, Hf. }
  destruct Hinv as ((Hle & Hsn & Hack & Hun) & Hs & Hu).
  assert (Hrun_eq : left_edge st = acked_run (packet_list st)).
  { symmetry. apply acked_run_exact; assumption. }
  split; [exact Hrun_eq|].
  split.
  { unfold all_acked, num_packets. rewrite all_acked_run, Hrun_eq.
    tauto. }
  split; [exact Hsn|].
  rewrite Forall_forall in Hiff.
  split.
  - intros i p Hp Hi Ha.
    pose proof (Hs i p Hp Hi Ha) as H1. split; [exact H1|].
    intros H2. apply H1. apply (Hiff p (nth_error_In _ _ Hp)). exact H2.
  - intros i p Hp Hi.
    pose proof (Hun i p Hp Hi) as H1. split; [exact H1|].
    apply (Hiff p (nth_error_In _ _ Hp)). exact H1.
Qed.

Lemma demo_midway_run :
  main_loop 2 midway_events (start 2 demo_clock demo_table)
  = Ok (demo_midway, []).
Proof. vm_compute. reflexivity. Defined.

Lemma cursors_meaning_witness :
  left_edge demo_midway = acked_run (packet_list demo_midway)
  /\ send_next demo_midway
     = Nat.min (left_edge demo_midway + 2) (num_packets demo_midway).
Proof.
  pose proof (cursors_meaning 2 demo_clock demo_table midway_events []
                demo_midway demo_table_fresh demo_midway_run) as H.
  split; [exact (proj1 H) | exact (proj1 (proj2 (proj2 H)))].
Defined.

(** ** An ACK for segments that were not sent *)

Lemma timer_check_idle (window : nat) (st : state) :
  right_edge window st <= left_edge st ->
  packet_list (timer_check window st) = packet_list st
  /\ outbox (timer_check window st) = outbox st
  /\ resends (timer_check window st) = resends st
  /\ delays (timer_check window st) = delays st
  /\ left_edge (timer_check window st) = left_edge st.
Proof.
  intros H. unfold timer_check, time_time. cbn [fst snd].
  assert (Hre : right_edge window (set_ticks (S (ticks st)) st)
                = right_edge window st) by reflexivity.
  cbn [left_edge set_ticks]. rewrite Hre.
  rewrite py_for_empty by exact H.
  destruct (PrimFloat.ltb _ _); repeat split; reflexivity.
Qed.

Lemma stamp_burst_fields (clk : nat -> float) (tbl : list packet)
    (window i : nat) (p : packet) :
  fresh tbl ->
  nth_error (stamp_burst clk 1 window tbl) i = Some p ->
  is_acked p = false
  /\ (exists q, nth_error tbl i = Some q /\ end_offset p = end_offset q)
  /\ (first_sent p <> None <-> i < window).
Proof.
  intros Hf Hp. rewrite nth_error_stamp_burst in Hp.
  destruct (nth_error tbl i) as [q|] eqn:Hq; [|discriminate].
  cbn [option_map] in Hp. destruct (fresh_nth tbl i q Hf Hq) as (Ha & Hs & _).
  destruct (Nat.ltb_spec i window); injection Hp as <-.
  - split; [exact Ha|]. split; [exists q; auto|].
    split; [intros _; assumption | intros _; discriminate].
  - split; [exact Ha|]. split; [exists q; auto|].
    split; [intros Hn; contradiction | lia].
Qed.

(** X7: the sender takes the receiver's word.  When the first datagram
    received is an ACK whose offset is at least the end of the last
    segment, one pass of the main loop marks every segment
    acknowledged, those that were never transmitted included, and the
    data phase is over: [left_edge] is [num_packets], the only frames
    sent are those of the initial burst (the first [min(WINDOW,
    num_packets)] of the table), nothing is retransmitted, and there is
    one delay sample per segment of the burst, none for the others. *)
Theorem ack_beyond_the_window (window : nat) (clk : nat -> float)
    (tbl : list packet) (d : bytes) (msg : pystr)
    (rest : list recv_event) :
  fresh tbl -> tbl <> [] ->
  utf8_decode (body (firstn MAX_PACKET d)) = Ok msg ->
  pystr_eqb msg str_ack = true ->
  (forall p, In p tbl ->
     (end_offset p <= int_from_bytes (header (firstn MAX_PACKET d)))%Z) ->
  exists st,
    main_loop window (Datagram d :: rest) (start window clk tbl)
    = Ok (st, rest)
    /\ all_acked st = true
    /\ left_edge st = length tbl
    /\ packet_list st
       = map (set_is_acked true) (stamp_burst clk 1 window tbl)
    /\ outbox st = map raw (firstn window tbl)
    /\ resends st = 0
    /\ length (delays st) = Nat.min window (length tbl).
Proof.
  intros Hf Hne Hd Hack Hcov.
  set (a := int_from_bytes (header (firstn MAX_PACKET d))) in *.
  set (s0 := start window clk tbl).
  set (pl0 := stamp_burst clk 1 window tbl).
  assert (Hs0 : packet_list s0 = pl0 /\ left_edge s0 = 0
                /\ outbox s0 = map raw (firstn window tbl)
                /\ resends s0 = 0
                /\ send_next s0 = Nat.min window (length tbl)).
  { unfold s0. rewrite start_closed. repeat split; reflexivity. }
  destruct Hs0 as (Hpl0 & Hle0 & Hob0 & Hrs0 & Hsn0).
  assert (Hlen0 : length pl0 = length tbl) by apply stamp_burst_length.
  (* the marking loop acknowledges every entry *)
  assert (Hmark : map (mark_pkt a) pl0 = map (set_is_acked true) pl0).
  { apply map_ext_in. intros p Hin. apply In_nth_error in Hin.
    destruct Hin as [i Hi].
    destruct (stamp_burst_fields clk tbl window i p Hf Hi)
      as (Ha & (q & Hq & He) & _).
    unfold mark_pkt. rewrite Ha, He.
    pose proof (Hcov q (nth_error_In _ _ Hq)) as Hc.
    destruct (Z.leb_spec (end_offset q) a); [reflexivity | lia]. }
  assert (Hall : forallb is_acked (map (set_is_acked true) pl0) = true).
  { apply forallb_forall. intros p Hin. apply in_map_iff in Hin.
    destruct Hin as (q & <- & _). reflexivity. }
  assert (Hna : all_acked s0 = false).
  { unfold all_acked. rewrite Hpl0.
    destruct pl0 as [|p r] eqn:E; [destruct tbl; [congruence|discriminate]|].
    assert (Hp : nth_error (stamp_burst clk 1 window tbl) 0 = Some p)
      by (fold pl0; rewrite E; reflexivity).
    destruct (stamp_burst_fields clk tbl window 0 p Hf Hp) as (Ha & _).
    cbn [forallb]. rewrite Ha. reflexivity. }
  (* the response handler *)
  set (st0 := set_total_acks (S (total_acks s0)) s0).
  set (st1 := mark_acked a st0).
  set (st2 := slide_window st1).
  destruct (mark_acked_frame a st0) as (Hm1 & Hm2 & _ & Hm4).
  pose proof (mark_acked_packets a st0) as Hl1.
  fold st1 in Hm1, Hm2, Hm4, Hl1.
  change (packet_list st0) with (packet_list s0) in Hl1.
  rewrite Hpl0, Hmark in Hl1.
  change (left_edge st0) with (left_edge s0) in Hm1.
  change (send_next st0) with (send_next s0) in Hm2.
  change (outbox st0) with (outbox s0) in Hm4.
  assert (He2 : left_edge st2 = length tbl).
  { unfold st2, slide_window. cbn [left_edge set_left_edge].
    rewrite Hm1, Hle0, Hl1. apply slide_exact.
    - intros j p Hp. split.
      + intros _.
        assert (Hj : j < length (map (set_is_acked true) pl0))
          by (apply nth_error_Some; congruence).
        rewrite length_map, Hlen0 in Hj. exact Hj.
      + intros _. apply nth_error_In in Hp.
        rewrite forallb_forall in Hall. apply (Hall p Hp).
    - rewrite length_map, Hlen0. lia. }
  assert (Hpos : 0 < length tbl) by (destruct tbl; [congruence | cbn; lia]).
  set (st3 := clamp_send_next st2).
  assert (H3 : packet_list st3 = map (set_is_acked true) pl0
               /\ left_edge st3 = length tbl
               /\ send_next st3 = length tbl
               /\ outbox st3 = outbox s0 /\ resends st3 = resends st1
               /\ delays st3 = delays st1).
  { unfold st3, clamp_send_next.
    change (send_next st2) with (send_next st1). rewrite Hm2, Hsn0, He2.
    destruct (Nat.ltb_spec (Nat.min window (length tbl)) (length tbl));
      cbn [packet_list left_edge send_next outbox resends delays
           set_send_next];
      change (packet_list st2) with (packet_list st1);
      change (outbox st2) with (outbox st1);
      change (send_next st2) with (send_next st1);
      change (resends st2) with (resends st1);
      change (delays st2) with (delays st1);
      rewrite ?Hl1, ?Hm4, ?He2, ?Hm2, ?Hsn0; repeat split; lia. }
  destruct H3 as (Hl3 & He3 & Hs3 & Ho3 & Hr3 & Hdl3).
  assert (Hre3 : right_edge window st3 = length tbl).
  { unfold right_edge, num_packets. rewrite He3, Hl3, length_map, Hlen0.
    lia. }
  set (st4 := send_new window st3).
  assert (H4 : st4 = set_send_next (length tbl) st3).
  { unfold st4, send_new. rewrite Hre3, py_for_empty by lia.
    reflexivity. }
  assert (Hresp : on_response window (firstn MAX_PACKET d) s0 = Ok st4).
  { unfold on_response, bind. rewrite Hd, Hack. fold a st0 st1 st2.
    replace (left_edge st1 <? left_edge st2) with true; [reflexivity|].
    symmetry. apply Nat.ltb_lt. rewrite Hm1, Hle0, He2. exact Hpos. }
  assert (Hidle : right_edge window st4 <= left_edge st4).
  { rewrite H4. unfold right_edge, num_packets.
    cbn [left_edge packet_list set_send_next].
    rewrite He3, Hl3, length_map, Hlen0. lia. }
  destruct (timer_check_idle window st4 Hidle)
    as (Ht1 & Ht2 & Ht3 & Ht4 & Ht5).
  exists (timer_check window st4).
  assert (Hpl : packet_list (timer_check window st4)
                = map (set_is_acked true) pl0).
  { rewrite Ht1, H4. cbn [packet_list set_send_next]. exact Hl3. }
  assert (Hdone : all_acked (timer_check window st4) = true)
    by (unfold all_acked; rewrite Hpl; exact Hall).
  assert (Hrun : main_loop window (Datagram d :: rest) s0
                 = Ok (timer_check window st4, rest)).
  { cbn [main_loop]. rewrite Hna. cbn [loop_body]. unfold bind.
    rewrite Hresp. apply main_loop_done, Hdone. }
  split; [exact Hrun|]. split; [exact Hdone|].
  split; [rewrite Ht5, H4; cbn [left_edge set_send_next]; exact He3|].
  split; [exact Hpl|].
  split; [rewrite Ht2, H4; cbn [outbox set_send_next]; congruence|].
  split.
  { rewrite Ht3, H4. cbn [resends set_send_next]. rewrite Hr3.
    unfold st1, mark_acked, py_for.
    rewrite (for_range_preserves resends (mark_body a)).
    - exact Hrs0.
    - intros idx s. unfold mark_body.
      destruct (nth_error (packet_list s) idx) as [p|]; [|reflexivity].
      destruct (_ && _); [|reflexivity].
      destruct (first_sent p); reflexivity. }
  rewrite (main_loop_samples_counted window clk tbl _ rest _ Hf Hrun), Hpl.
  apply prefix_count.
  - rewrite length_map, Hlen0. lia.
  - intros j p Hp. rewrite nth_error_map in Hp.
    destruct (nth_error pl0 j) as [q|] eqn:Hq; [|discriminate].
    cbn [option_map] in Hp. injection Hp as <-.
    destruct (stamp_burst_fields clk tbl window j q Hf Hq)
      as (_ & (q0 & Hq0 & _) & Hsent).
    assert (Hj : j < length tbl) by (apply nth_error_Some; congruence).
    unfold acked_and_sent. cbn [is_acked set_is_acked first_sent andb].
    destruct (first_sent q) eqn:E.
    + assert (j < window) by (apply Hsent; discriminate). split; lia.
    + split; [discriminate|]. intros Hlt.
      assert (j < window) by lia.
      exfalso. apply (proj2 Hsent); [assumption | reflexivity].
Qed.

Lemma ack_beyond_the_window_witness :
  exists st,
    main_loop 2 [Datagram (ack_frame 30)] (start 2 demo_clock demo_table)
    = Ok (st, [])
    /\ all_acked st = true
    /\ outbox st = map raw (firstn 2 demo_table).
Proof.
  destruct (ack_beyond_the_window 2 demo_clock demo_table (ack_frame 30)
              str_ack [] demo_table_fresh)
    as (st & H1 & H2 & _ & _ & H5 & _).
  - discriminate.
  - reflexivity.
  - reflexivity.
  - intros p Hin. vm_compute in Hin.
    destruct Hin as [<-|[<-|[<-|[]]]]; vm_compute; discriminate.
  - exists st. repeat split; assumption.
Defined.

(** ** The timeout scan in closed form *)

Lemma sweep_body_closed (now : float) (s : state) (a : list packet)
    (p : packet) (b : list packet) :
  packet_list s = a ++ p :: b ->
  sweep_body now (length a) s
  = mkState (a ++ refresh now p :: b) (left_edge s) (send_next s)
      (delays s) (begin s) (last_check s) (total_acks s)
      (resends s + length (filter (overdue now) [p]))
      (outbox s ++ map raw (filter (overdue now) [p])) (ticks s)
      (clock s).
Proof.
  intros Hpl.
  assert (Hp : nth_error (packet_list s) (length a) = Some p).
  { rewrite Hpl, nth_error_app2 by lia. rewrite Nat.sub_diag. reflexivity. }
  assert (Hsame : s = mkState (a ++ p :: b) (left_edge s) (send_next s)
                        (delays s) (begin s) (last_check s) (total_acks s)
                        (resends s + 0) (outbox s ++ []) (ticks s)
                        (clock s)).
  { rewrite <- Hpl, Nat.add_0_r, app_nil_r. destruct s; reflexivity. }
  unfold sweep_body. rewrite Hp. unfold refresh. cbn [filter].
  unfold overdue.
  destruct (recent_sent p) as [rs|]; [|exact Hsame].
  destruct (negb (is_acked p)
            && PrimFloat.ltb RETRANSMIT_TIME (PrimFloat.sub now rs));
    [|exact Hsame].
  unfold sendto, modify_packet, set_resends, set_outbox, set_packet_list.
  cbn [packet_list left_edge send_next delays begin last_check total_acks
       resends outbox ticks clock map length].
  rewrite Hpl, update_at_middle, Nat.add_1_r. reflexivity.
Qed.

Lemma sweep_loop_closed (now : float) (k : nat) :
  forall lo s,
    lo + k <= length (packet_list s) ->
    let win := firstn k (skipn lo (packet_list s)) in
    for_range k lo (sweep_body now) s
    = mkState
        (firstn lo (packet_list s) ++ map (refresh now) win
         ++ skipn (lo + k) (packet_list s))
        (left_edge s) (send_next s) (delays s) (begin s) (last_check s)
        (total_acks s)
        (resends s + length (filter (overdue now) win))
        (outbox s ++ map raw (filter (overdue now) win)) (ticks s)
        (clock s).
Proof.
  induction k as [|k IH]; intros lo s Hlen; cbv zeta.
  - cbn [for_range firstn map filter length app].
    rewrite Nat.add_0_r, firstn_skipn, Nat.add_0_r, app_nil_r.
    now destruct s.
  - cbn [for_range].
    destruct (nth_error (packet_list s) lo) as [p|] eqn:Hp.
    2:{ apply nth_error_None in Hp. lia. }
    destruct (nth_error_split _ _ Hp) as (a & b & Hpl & Ha).
    rewrite <- Ha. rewrite (sweep_body_closed now s a p b Hpl).
    rewrite IH; cbn [packet_list left_edge send_next delays begin
                     last_check total_acks resends outbox ticks clock].
    2:{ rewrite Hpl in Hlen. rewrite !length_app in *. cbn [length] in *.
        lia. }
    rewrite Hpl.
    replace (a ++ refresh now p :: b) with ((a ++ [refresh now p]) ++ b)
      by (rewrite <- app_assoc; reflexivity).
    replace (S (length a)) with (length (a ++ [refresh now p]))
      by (rewrite length_app; cbn; lia).
    rewrite firstn_exact, skipn_exact.
    rewrite skipn_app, skipn_all2 by lia.
    rewrite length_app. cbn [length].
    replace (length a + 1 + k - (length a + 1)) with k by lia.
    rewrite firstn_exact, skipn_exact.
    rewrite skipn_app, (skipn_all2 a) by lia.
    replace (length a + S k - length a) with (S k) by lia.
    cbn [firstn skipn app].
    change (p :: firstn k b) with ([p] ++ firstn k b).
    rewrite filter_app, !map_app, length_app, <- !app_assoc.
    cbn [map app]. f_equal; lia.
Qed.

Lemma nth_error_window_map {A : Type} (f : A -> A) (l : list A)
    (lo k i : nat) (x : A) :
  lo + k <= length l ->
  nth_error l i = Some x ->
  nth_error (firstn lo l ++ map f (firstn k (skipn lo l))
             ++ skipn (lo + k) l) i
  = Some (if (lo <=? i) && (i <? lo + k) then f x else x).
Proof.
  intros Hlen Hx.
  assert (Hi : i < length l) by (apply nth_error_Some; congruence).
  destruct (Nat.leb_spec lo i) as [H1|H1]; cbn [andb].
  - rewrite nth_error_app2 by (rewrite length_firstn; lia).
    rewrite length_firstn, Nat.min_l by lia.
    destruct (Nat.ltb_spec i (lo + k)) as [H2|H2].
    + rewrite nth_error_app1
        by (rewrite length_map, length_firstn, length_skipn; lia).
      rewrite nth_error_map, nth_error_firstn.
      destruct (Nat.ltb_spec (i - lo) k); [|lia].
      rewrite nth_error_skipn. replace (lo + (i - lo)) with i by lia.
      rewrite Hx. reflexivity.
    + rewrite nth_error_app2
        by (rewrite length_map, length_firstn, length_skipn; lia).
      rewrite length_map, length_firstn, length_skipn, Nat.min_l by lia.
      rewrite nth_error_skipn.
      replace (lo + k + (i - lo - k)) with i by lia. exact Hx.
  - rewrite nth_error_app1 by (rewrite length_firstn; lia).
    rewrite nth_error_firstn.
    destruct (Nat.ltb_spec i lo); [exact Hx | lia].
Qed.

(** X8: the periodic timeout check.  Each pass of the main loop reads
    the clock once after the receive attempt and runs the timeout scan
    only if that reading is more than 0.1 s after [last_check].  The
    scan retransmits exactly the packets of the window, indices
    [left_edge] to [right_edge - 1], that are not acknowledged, were
    transmitted before and whose latest transmission is more than
    [RETRANSMIT_TIME] old, in index order and once each; it stamps each
    of them with the time of the check, counts each in [resends], and
    sets [last_check] to that time.  Nothing else changes: a packet
    that is acknowledged, outside the window or never sent is not
    retransmitted, and when the check is not due the pass does nothing
    but read the clock. *)
Theorem timeout_scan (window : nat) (st : state) :
  let now := clock st (ticks st) in
  let st' := timer_check window st in
  let win := firstn (right_edge window st - left_edge st)
               (skipn (left_edge st) (packet_list st)) in
  if PrimFloat.ltb CHECK_PERIOD (PrimFloat.sub now (last_check st)) then
    last_check st' = now
    /\ ticks st' = S (ticks st)
    /\ outbox st' = outbox st ++ map raw (filter (overdue now) win)
    /\ resends st' = resends st + length (filter (overdue now) win)
    /\ left_edge st' = left_edge st /\ send_next st' = send_next st
    /\ delays st' = delays st /\ total_acks st' = total_acks st
    /\ length (packet_list st') = length (packet_list st)
    /\ (forall i p,
          nth_error (packet_list st) i = Some p ->
          nth_error (packet_list st') i
          = Some (if (left_edge st <=? i) && (i <? right_edge window st)
                  then refresh now p else p))
  else st' = set_ticks (S (ticks st)) st.
Proof.
  intros now st' win. unfold st', timer_check, time_time.
  cbn [fst snd]. change (last_check (set_ticks (S (ticks st)) st))
    with (last_check st).
  fold now.
  destruct (PrimFloat.ltb CHECK_PERIOD (PrimFloat.sub now (last_check st)));
    [|reflexivity].
  set (st1 := set_ticks (S (ticks st)) st).
  change (left_edge st1) with (left_edge st).
  change (right_edge window st1) with (right_edge window st).
  unfold py_for.
  destruct (Nat.le_gt_cases (right_edge window st) (left_edge st))
    as [Hempty|Hwin].
  - assert (Hk : right_edge window st - left_edge st = 0) by lia.
    unfold win. rewrite Hk. cbn [for_range firstn filter map length].
    rewrite app_nil_r, Nat.add_0_r.
    repeat (split; [reflexivity|]).
    intros i p Hp.
    destruct (Nat.leb_spec (left_edge st) i);
      destruct (Nat.ltb_spec i (right_edge window st)); cbn [andb];
      try exact Hp.
    lia.
  - assert (Hlen : left_edge st + (right_edge window st - left_edge st)
                   <= length (packet_list st1)).
    { unfold right_edge, num_packets in *.
      change (packet_list st1) with (packet_list st). lia. }
    rewrite (sweep_loop_closed now _ (left_edge st) st1 Hlen). cbv zeta.
    unfold set_last_check.
    cbn [packet_list left_edge send_next delays begin last_check total_acks
         resends outbox ticks clock st1 set_ticks].
    fold win.
    repeat (split; [reflexivity|]).
    split.
    + rewrite !length_app, length_map, length_firstn. unfold win.
      rewrite length_firstn, !length_skipn.
      unfold right_edge, num_packets in *. lia.
    + intros i p Hp. unfold win.
      rewrite (nth_error_window_map (refresh now) (packet_list st)
                 (left_edge st) (right_edge window st - left_edge st) i p
                 Hlen Hp).
      replace (left_edge st + (right_edge window st - left_edge st))
        with (right_edge window st) by lia.
      reflexivity.
Qed.

(** ** The frames sent when the window moves *)

Lemma send_body_tail (idx : nat) (s : state) :
  skipn (S idx) (packet_list (send_body idx s))
  = skipn (S idx) (packet_list s)
  /\ length (packet_list (send_body idx s)) = length (packet_list s).
Proof.
  unfold send_body.
  destruct (nth_error (packet_list s) idx) as [p|]; [|auto].
  destruct (negb (is_acked p)); [|auto].
  destruct (first_sent p);
    unfold modify_packet, time_time, sendto, set_packet_list, set_ticks,
      set_outbox;
    cbn [packet_list fst snd];
    rewrite ?update_at_twice, skipn_update_at, update_at_length; auto.
Qed.

Lemma send_body_sends (idx : nat) (s : state) (p : packet) :
  nth_error (packet_list s) idx = Some p ->
  outbox (send_body idx s) = outbox s ++ map raw (filter unacked [p]).
Proof.
  intros Hp. cbn [filter]. unfold unacked.
  destruct (is_acked p) eqn:Ha; cbn [negb map].
  - unfold send_body. rewrite Hp, Ha. cbn [negb]. now rewrite app_nil_r.
  - apply (send_body_outbox idx s p Hp Ha).
Qed.

Lemma send_loop_outbox (k : nat) :
  forall lo s,
    lo + k <= length (packet_list s) ->
    outbox (for_range k lo send_body s)
    = outbox s
      ++ map raw (filter unacked (firstn k (skipn lo (packet_list s)))).
Proof.
  induction k as [|k IH]; intros lo s Hlen.
  - cbn. now rewrite app_nil_r.
  - cbn [for_range].
    destruct (nth_error (packet_list s) lo) as [p|] eqn:Hp.
    2:{ apply nth_error_None in Hp. lia. }
    destruct (send_body_tail lo s) as (Htail & Hl).
    rewrite IH by (rewrite Hl; lia).
    rewrite (send_body_sends lo s p Hp), Htail.
    rewrite (skipn_nth_error lo _ p Hp). cbn [firstn].
    change (p :: firstn k (skipn (S lo) (packet_list s)))
      with ([p] ++ firstn k (skipn (S lo) (packet_list s))).
    rewrite filter_app, map_app, app_assoc. reflexivity.
Qed.

(** X9: what an ACK makes the sender transmit.  The response handler
    moves [left_edge] over the packets the ACK leaves acknowledged at
    the head of the window.  If [left_edge] moved, it transmits exactly
    the packets with index from [max(send_next, left_edge)] up to the
    new right edge [min(left_edge + WINDOW, num_packets)] that are not
    acknowledged, in index order and once each, and sets [send_next]
    to that right edge; if [left_edge] did not move it transmits
    nothing and leaves [send_next] alone.  A datagram whose text is not
    ['ack'] changes only [total_acks]. *)
Theorem window_advance_sends (window : nat) (r : bytes) (st st' : state)
    (msg : pystr) :
  on_response window r st = Ok st' ->
  utf8_decode (body r) = Ok msg ->
  if pystr_eqb msg str_ack then
    let marked_list :=
      map (mark_pkt (int_from_bytes (header r))) (packet_list st) in
    let edge := slide marked_list (left_edge st) in
    left_edge st' = edge
    /\ total_acks st' = S (total_acks st)
    /\ if left_edge st <? edge then
         let lo := Nat.max (send_next st) edge in
         let hi := Nat.min (edge + window) (num_packets st) in
         send_next st' = hi
         /\ outbox st'
            = outbox st
              ++ map raw (filter unacked
                            (firstn (hi - lo) (skipn lo marked_list)))
       else send_next st' = send_next st /\ outbox st' = outbox st
                         /\ packet_list st' = marked_list
  else st' = set_total_acks (S (total_acks st)) st.
Proof.
  intros Hr Hd.
  destruct (on_response_cases window r st st' Hr) as (msg' & Hd' & H).
  rewrite Hd in Hd'. injection Hd' as <-. cbv zeta in H.
  destruct (pystr_eqb msg str_ack); [|exact H]. cbv zeta.
  set (a := int_from_bytes (header r)) in *.
  set (st0 := set_total_acks (S (total_acks st)) st) in *.
  set (st1 := mark_acked a st0) in *.
  set (st2 := slide_window st1) in *.
  destruct (mark_acked_frame a st0) as (Hm1 & Hm2 & _ & Hm4).
  pose proof (mark_acked_packets a st0) as Hl1.
  fold st1 in Hm1, Hm2, Hm4, Hl1.
  change (packet_list st0) with (packet_list st) in Hl1.
  change (left_edge st0) with (left_edge st) in Hm1.
  change (send_next st0) with (send_next st) in Hm2.
  change (outbox st0) with (outbox st) in Hm4.
  assert (Hta : total_acks st1 = S (total_acks st)).
  { unfold st1, mark_acked, py_for.
    rewrite (for_range_preserves total_acks (mark_body a)); [reflexivity|].
    intros idx s. unfold mark_body.
    destruct (nth_error (packet_list s) idx) as [p|]; [|reflexivity].
    destruct (_ && _); [|reflexivity].
    destruct (first_sent p); reflexivity. }
  assert (He2 : left_edge st2
                = slide (map (mark_pkt a) (packet_list st)) (left_edge st)).
  { unfold st2, slide_window. cbn [left_edge set_left_edge].
    rewrite Hl1, Hm1. reflexivity. }
  rewrite Hm1, He2 in H.
  set (edge := slide (map (mark_pkt a) (packet_list st)) (left_edge st))
    in *.
  destruct (left_edge st <? edge) eqn:Hmv.
  - set (st3 := clamp_send_next st2) in *.
    assert (H3 : packet_list st3 = map (mark_pkt a) (packet_list st)
                 /\ left_edge st3 = edge
                 /\ send_next st3 = Nat.max (send_next st) edge
                 /\ outbox st3 = outbox st
                 /\ total_acks st3 = S (total_acks st)).
    { unfold st3, clamp_send_next.
      change (send_next st2) with (send_next st1). rewrite Hm2, He2.
      fold edge.
      destruct (Nat.ltb_spec (send_next st) edge);
        cbn [packet_list left_edge send_next outbox total_acks
             set_send_next];
        change (packet_list st2) with (packet_list st1);
        change (outbox st2) with (outbox st1);
        change (send_next st2) with (send_next st1);
        change (total_acks st2) with (total_acks st1);
        rewrite ?Hl1, ?Hm4, ?He2, ?Hm2, ?Hta; repeat split;
        try reflexivity; lia. }
    destruct H3 as (Hl3 & He3 & Hs3 & Ho3 & Ht3).
    assert (Hre : right_edge window st3
                  = Nat.min (edge + window) (num_packets st)).
    { unfold right_edge, num_packets. rewrite He3, Hl3, length_map.
      reflexivity. }
    destruct (send_loop_frame (send_next st3) (right_edge window st3) st3)
      as (Hf1 & _).
    rewrite H. unfold send_new.
    cbn [left_edge send_next outbox total_acks set_send_next].
    rewrite Hf1, He3, Hre.
    split; [reflexivity|]. split.
    { unfold py_for.
      rewrite (for_range_preserves total_acks send_body); [exact Ht3|].
      intros idx s. unfold send_body.
      destruct (nth_error (packet_list s) idx) as [p|]; [|reflexivity].
      destruct (negb (is_acked p)); [|reflexivity].
      destruct (first_sent p); reflexivity. }
    split; [reflexivity|].
    rewrite Hs3. unfold py_for.
    set (lo := Nat.max (send_next st) edge).
    set (hi := Nat.min (edge + window) (num_packets st)).
    destruct (Nat.le_gt_cases hi lo) as [Hk|Hk].
    + replace (hi - lo) with 0 by lia. cbn [for_range firstn filter map].
      rewrite app_nil_r. exact Ho3.
    + rewrite send_loop_outbox, Hl3, Ho3; [reflexivity|].
      rewrite Hl3, length_map. unfold hi, num_packets in *. lia.
  - rewrite H. split; [exact He2|]. split; [exact Hta|].
    split; [exact Hm2|]. split; [exact Hm4 | exact Hl1].
Qed.

Lemma window_advance_sends_witness :
  left_edge demo_after_ack = 2
  /\ send_next demo_after_ack = 3
  /\ outbox demo_after_ack
     = outbox (start 2 demo_clock demo_table) ++ [raw (demo_packet 20)].
Proof.
  assert (H1 : on_response 2 (ack_frame 20) (start 2 demo_clock demo_table)
               = Ok demo_after_ack) by (vm_compute; reflexivity).
  assert (H2 : utf8_decode (body (ack_frame 20)) = Ok str_ack)
    by reflexivity.
  pose proof (window_advance_sends 2 (ack_frame 20)
                (start 2 demo_clock demo_table) demo_after_ack str_ack
                H1 H2) as H.
  vm_compute in H. destruct H as (Ha & _ & Hb & Hc).
  split; [exact Ha|]. split; [exact Hb | exact Hc].
Defined.

(** ** Every transmission is accounted for *)

Lemma send_body_fresh (s : state) (a : list packet) (p : packet)
    (b : list packet) :
  packet_list s = a ++ p :: b ->
  first_sent p = None ->
  packet_list (send_body (length a) s)
  = a ++ (if is_acked p then p
          else set_recent_sent (Some (clock s (S (ticks s))))
                 (set_first_sent (Some (clock s (ticks s))) p)) :: b.
Proof.
  intros Hpl Hfs.
  assert (Hp : nth_error (packet_list s) (length a) = Some p).
  { rewrite Hpl, nth_error_app2 by lia. rewrite Nat.sub_diag. reflexivity. }
  unfold send_body. rewrite Hp.
  destruct (is_acked p); cbn [negb]; [exact Hpl|].
  rewrite Hfs.
  unfold modify_packet, time_time, sendto, set_packet_list, set_ticks,
    set_outbox.
  cbn [packet_list fst snd ticks clock].
  rewrite update_at_twice, Hpl, update_at_middle. reflexivity.
Qed.

Lemma send_loop_count (k : nat) :
  forall lo s,
    lo + k <= length (packet_list s) ->
    Forall (fun p => first_sent p = None) (skipn lo (packet_list s)) ->
    length (filter was_sent (packet_list (for_range k lo send_body s)))
    = length (filter was_sent (packet_list s))
      + length (filter unacked (firstn k (skipn lo (packet_list s)))).
Proof.
  induction k as [|k IH]; intros lo s Hlen Hnone.
  - cbn. lia.
  - cbn [for_range].
    destruct (nth_error (packet_list s) lo) as [p|] eqn:Hp.
    2:{ apply nth_error_None in Hp. lia. }
    rewrite (skipn_nth_error lo _ p Hp) in Hnone |- *.
    inversion Hnone as [|? ? Hfs Htl]; subst.
    destruct (send_body_tail lo s) as (Htail & Hl).
    rewrite IH; [|rewrite Hl; lia | rewrite Htail; exact Htl].
    rewrite Htail. cbn [firstn filter].
    destruct (nth_error_split _ _ Hp) as (a & b & Hpl & Ha).
    rewrite <- Ha, (send_body_fresh s a p b Hpl Hfs), Hpl.
    set (p' := if is_acked p then p
               else set_recent_sent (Some (clock s (S (ticks s))))
                      (set_first_sent (Some (clock s (ticks s))) p)).
    assert (H1 : was_sent p = false)
      by (unfold was_sent; rewrite Hfs; reflexivity).
    assert (H2 : was_sent p' = unacked p).
    { unfold p', unacked, was_sent.
      destruct (is_acked p); cbn; rewrite ?Hfs; reflexivity. }
    rewrite !filter_app, !length_app. cbn [filter]. rewrite H1, H2.
    destruct (unacked p); cbn [length]; lia.
Qed.

Lemma map_raw_segment_id (l l' : list packet) :
  map segment_id l' = map segment_id l -> map raw l' = map raw l.
Proof.
  intros H. apply (f_equal (map (fun x : Z * Z * bytes => snd x))) in H.
  rewrite !map_map in H. exact H.
Qed.

Lemma mark_keeps_was_sent (a : Z) (l : list packet) :
  map was_sent (map (mark_pkt a) l) = map was_sent l.
Proof.
  rewrite map_map. apply map_ext. intros p. unfold was_sent.
  rewrite mark_pkt_first_sent. reflexivity.
Qed.

Lemma mark_keeps_raw (a : Z) (l : list packet) :
  map raw (map (mark_pkt a) l) = map raw l.
Proof.
  rewrite map_map. apply map_ext. intros p. unfold mark_pkt.
  destruct (_ && _); reflexivity.
Qed.

Lemma loop_resends_mark (a : Z) (k lo : nat) (s : state) :
  resends (for_range k lo (mark_body a) s) = resends s.
Proof.
  apply (for_range_preserves resends (mark_body a)).
  intros idx s0. unfold mark_body.
  destruct (nth_error (packet_list s0) idx) as [p|]; [|reflexivity].
  destruct (_ && _); [|reflexivity].
  destruct (first_sent p); reflexivity.
Qed.

Lemma loop_resends_send (k lo : nat) (s : state) :
  resends (for_range k lo send_body s) = resends s.
Proof.
  apply (for_range_preserves resends send_body).
  intros idx s0. unfold send_body.
  destruct (nth_error (packet_list s0) idx) as [p|]; [|reflexivity].
  destruct (negb (is_acked p)); [|reflexivity].
  destruct (first_sent p); reflexivity.
Qed.
Lemma Forall_sent_frames (frames : list bytes) (l sent : list packet)
    (out : list bytes) :
  map raw l = frames -> incl sent l ->
  Forall (fun d => In d frames) out ->
  Forall (fun d => In d frames) (out ++ map raw sent).
Proof.
  intros Hl Hincl Hout. apply Forall_app. split; [exact Hout|].
  apply Forall_forall. intros d Hd. apply in_map_iff in Hd.
  destruct Hd as (p & <- & Hp). rewrite <- Hl. apply in_map, Hincl, Hp.
Qed.

Lemma In_firstn {A : Type} (n : nat) (l : list A) (x : A) :
  In x (firstn n l) -> In x l.
Proof.
  intros H. rewrite <- (firstn_skipn n l). apply in_or_app. left. exact H.
Qed.

Lemma incl_filter_window {A : Type} (g : A -> bool) (k lo : nat)
    (l : list A) :
  incl (filter g (firstn k (skipn lo l))) l.
Proof.
  intros x Hx. apply filter_In in Hx. destruct Hx as [Hx _].
  apply In_firstn in Hx.
  rewrite <- (firstn_skipn lo l). apply in_or_app. right. exact Hx.
Qed.

Lemma accounted_ack (window : nat) (a : Z) (frames : list bytes)
    (st : state) :
  window_inv window st -> accounted frames st ->
  let st1 := mark_acked a st in
  let st2 := slide_window st1 in
  accounted frames (if left_edge st1 <? left_edge st2
                    then send_new window (clamp_send_next st2) else st2).
Proof.
  intros (Hle & Hsn & Hack & Hun) (Hraw & Hcount & Hall) st1 st2.
  destruct (mark_acked_frame a st) as (Hm1 & Hm2 & _ & Hm4).
  pose proof (mark_acked_packets a st) as Hl1.
  fold st1 in Hm1, Hm2, Hm4, Hl1.
  assert (Hr1 : resends st1 = resends st)
    by (unfold st1, mark_acked, py_for; apply loop_resends_mark).
  assert (Hraw1 : map raw (packet_list st1) = frames)
    by (rewrite Hl1, mark_keeps_raw; exact Hraw).
  assert (Hc1 : length (filter was_sent (packet_list st1))
                = length (filter was_sent (packet_list st))).
  { apply filter_length_map_eq. rewrite Hl1. apply mark_keeps_was_sent. }
  assert (Hacc2 : accounted frames st2).
  { unfold accounted.
    change (packet_list st2) with (packet_list st1).
    change (outbox st2) with (outbox st1).
    change (resends st2) with (resends st1).
    rewrite Hraw1, Hm4, Hc1, Hr1. auto. }
  destruct (Nat.ltb_spec (left_edge st1) (left_edge st2)) as [Hmv|Hst];
    [|exact Hacc2].
  set (st3 := clamp_send_next st2).
  assert (H3 : packet_list st3 = packet_list st1
               /\ outbox st3 = outbox st /\ resends st3 = resends st
               /\ send_next st <= send_next st3).
  { unfold st3, clamp_send_next.
    change (send_next st2) with (send_next st1). rewrite Hm2.
    destruct (Nat.ltb_spec (send_next st) (left_edge st2));
      cbn [packet_list outbox resends send_next set_send_next];
      change (packet_list st2) with (packet_list st1);
      change (outbox st2) with (outbox st1);
      change (resends st2) with (resends st1);
      change (send_next st2) with (send_next st1);
      rewrite ?Hm4, ?Hr1, ?Hm2; repeat split; lia. }
  destruct H3 as (Hl3 & Ho3 & Hr3 & Hs3).
  set (lo := send_next st3) in *.
  set (hi := right_edge window st3).
  assert (Hhi : hi <= length (packet_list st3))
    by (unfold hi, right_edge, num_packets; lia).
  unfold send_new, accounted.
  cbn [packet_list outbox resends set_send_next]. fold lo hi.
  pose proof (py_for_pointwise R_send send_body lo hi st3
                send_body_pointwise) as Hpw.
  assert (Hraw' : map raw (packet_list (py_for lo hi send_body st3))
                  = frames).
  { rewrite <- Hraw1, <- Hl3. apply map_raw_segment_id.
    apply evolves_segment_id.
    apply (evolves_pointwise R_send lo hi _ _ Hpw R_send_stable). }
  split; [exact Hraw'|].
  unfold py_for in *.
  destruct (Nat.le_gt_cases hi lo) as [Hk|Hk].
  - replace (hi - lo) with 0 by lia. cbn [for_range].
    rewrite Hl3, Ho3, Hr3, Hc1. auto.
  - assert (Hlen : lo + (hi - lo) <= length (packet_list st3)) by lia.
    assert (Hnone : Forall (fun p => first_sent p = None)
                      (skipn lo (packet_list st3))).
    { apply Forall_forall. intros p Hin. apply In_nth_error in Hin.
      destruct Hin as [i Hi]. rewrite nth_error_skipn, Hl3, Hl1 in Hi.
      rewrite nth_error_map in Hi.
      destruct (nth_error (packet_list st) (lo + i)) as [q|] eqn:Hq;
        [|discriminate].
      injection Hi as <-. rewrite mark_pkt_first_sent.
      apply (Hun (lo + i) q Hq). lia. }
    rewrite (send_loop_count _ lo st3 Hlen Hnone).
    rewrite (send_loop_outbox _ lo st3 Hlen).
    rewrite loop_resends_send, Hl3, Ho3, Hr3, Hc1.
    split.
    + rewrite length_app, length_map, Hcount. lia.
    + apply (Forall_sent_frames frames (packet_list st1));
        [exact Hraw1 | apply incl_filter_window | exact Hall].
Qed.

Lemma timer_check_sends (window : nat) (st : state) :
  exists sent,
    incl sent (packet_list st)
    /\ outbox (timer_check window st) = outbox st ++ map raw sent
    /\ resends (timer_check window st) = resends st + length sent.
Proof.
  unfold timer_check, time_time. cbn [fst snd].
  destruct (PrimFloat.ltb _ _).
  2:{ exists []. cbn. rewrite app_nil_r, Nat.add_0_r.
      split; [intros x []|]. auto. }
  set (now := clock st (ticks st)).
  set (st1 := set_ticks (S (ticks st)) st).
  unfold py_for.
  destruct (Nat.le_gt_cases (right_edge window st1) (left_edge st1))
    as [Hempty|Hwin].
  - replace (right_edge window st1 - left_edge st1) with 0 by lia.
    exists []. cbn. rewrite app_nil_r, Nat.add_0_r.
    split; [intros x []|]. auto.
  - assert (Hlen : left_edge st1 + (right_edge window st1 - left_edge st1)
                   <= length (packet_list st1))
      by (unfold right_edge, num_packets in *; lia).
    rewrite (sweep_loop_closed now _ (left_edge st1) st1 Hlen). cbv zeta.
    unfold set_last_check.
    cbn [packet_list left_edge send_next delays begin last_check total_acks
         resends outbox ticks clock st1 set_ticks].
    eexists. split; [|split; reflexivity].
    apply incl_filter_window.
Qed.

Lemma accounted_timer (window : nat) (frames : list bytes) (st : state) :
  accounted frames st -> accounted frames (timer_check window st).
Proof.
  intros (Hraw & Hcount & Hall).
  destruct (timer_check_pointwise window st) as (lo & hi & Hpw).
  destruct (timer_check_sends window st) as (sent & Hincl & Ho & Hr).
  unfold accounted.
  split.
  { rewrite <- Hraw.
    apply (pointwise_in_map R_sweep raw lo hi _ _ Hpw).
    intros p p' [->|(_ & _ & t & ->)]; reflexivity. }
  split.
  - rewrite Ho, Hr, length_app, length_map, Hcount.
    rewrite (filter_length_map_eq was_sent (packet_list (timer_check window st))
               (packet_list st)); [lia|].
    apply (pointwise_in_map R_sweep was_sent lo hi _ _ Hpw).
    intros p p' Hs. unfold was_sent.
    rewrite (R_sweep_keeps_first_sent p p' Hs). reflexivity.
  - rewrite Ho.
    apply (Forall_sent_frames frames (packet_list st)); assumption.
Qed.

Lemma accounted_start (window : nat) (clk : nat -> float)
    (tbl : list packet) :
  fresh tbl -> accounted (map raw tbl) (start window clk tbl).
Proof.
  intros Hf. unfold accounted.
  split; [apply map_raw_segment_id, start_segment_id|].
  rewrite start_closed. cbn [packet_list outbox resends].
  split.
  - rewrite Nat.add_0_r, length_map, length_firstn. symmetry.
    apply prefix_count.
    + rewrite stamp_burst_length. lia.
    + intros j p Hp.
      destruct (stamp_burst_fields clk tbl window j p Hf Hp)
        as (_ & (q & Hq & _) & Hsent).
      assert (Hj : j < length tbl) by (apply nth_error_Some; congruence).
      unfold was_sent. destruct (first_sent p).
      * assert (j < window) by (apply Hsent; discriminate). split; lia.
      * split; [discriminate|]. intros Hlt. exfalso.
        apply (proj2 Hsent); [lia | reflexivity].
  - apply Forall_forall. intros d Hd. apply in_map_iff in Hd.
    destruct Hd as (p & <- & Hp). apply in_map.
    apply (In_firstn _ _ _ Hp).
Qed.

Lemma accounted_loop_body (window : nat) (frames : list bytes)
    (ev : recv_event) (st st' : state) :
  window_inv window st /\ accounted frames st ->
  loop_body window ev st = Ok st' ->
  window_inv window st' /\ accounted frames st'.
Proof.
  intros (Hw & Ha) Hb.
  split; [apply (window_inv_loop_body window ev st st' Hw Hb)|].
  destruct ev as [|d]; cbn [loop_body] in Hb.
  - injection Hb as <-. apply accounted_timer, Ha.
  - unfold bind in Hb.
    destruct (on_response window (firstn MAX_PACKET d) st) as [st1|x] eqn:Hr;
      [|discriminate].
    injection Hb as <-. apply accounted_timer.
    destruct (on_response_cases window _ st st1 Hr) as (msg & _ & H).
    cbv zeta in H.
    destruct (pystr_eqb msg str_ack).
    + rewrite H.
      apply (accounted_ack window _ frames
               (set_total_acks (S (total_acks st)) st)); assumption.
    + subst st1. exact Ha.
Qed.

(** X10: every transmission of the data phase is accounted for.  At
    every test of the main loop, each datagram sent so far is a frame
    of the table, and the number of datagrams sent equals the number of
    packets transmitted at least once plus the counter [resends]: a
    packet has exactly one first transmission, made by the initial
    burst or when it enters the window, and every other transmission is
    a retransmission by the timeout scan, counted once. *)
Theorem sends_accounted (window : nat) (clk : nat -> float)
    (tbl : list packet) (evs rest : list recv_event) (st : state) :
  fresh tbl ->
  main_loop window evs (start window clk tbl) = Ok (st, rest) ->
  length (outbox st)
  = length (filter was_sent (packet_list st)) + resends st
  /\ Forall (fun d => In d (map raw tbl)) (outbox st)
  /\ map raw (packet_list st) = map raw tbl.
Proof.
  intros Hf Hrun.
  assert (H : window_inv window st /\ accounted (map raw tbl) st).
  { refine (main_loop_invariant
              (fun s => window_inv window s /\ accounted (map raw tbl) s)
              window _ evs (start window clk tbl) st rest _ Hrun).
    - intros ev s s'. apply accounted_loop_body.
    - split; [apply window_inv_start, Hf | apply accounted_start, Hf]. }
  destruct H as (_ & Hraw & Hcount & Hall). auto.
Qed.

Lemma sends_accounted_witness :
  length (outbox demo_midway)
  = length (filter was_sent (packet_list demo_midway))
    + resends demo_midway.
Proof.
  exact (proj1 (sends_accounted 2 demo_clock demo_table midway_events []
                  demo_midway demo_table_fresh demo_midway_run)).
Defined.

(** ** Counters *)

Lemma mark_acked_total_acks (a : Z) (st : state) :
  total_acks (mark_acked a st) = total_acks st.
Proof.
  unfold mark_acked, py_for.
  apply (for_range_preserves total_acks (mark_body a)).
  intros idx s. unfold mark_body.
  destruct (nth_error (packet_list s) idx) as [p|]; [|reflexivity].
  destruct (_ && _); [|reflexivity].
  destruct (first_sent p); reflexivity.
Qed.

Lemma send_new_total_acks (window : nat) (st : state) :
  total_acks (send_new window st) = total_acks st.
Proof.
  unfold send_new, py_for. cbn [total_acks set_send_next].
  apply (for_range_preserves total_acks send_body).
  intros idx s. unfold send_body.
  destruct (nth_error (packet_list s) idx) as [p|]; [|reflexivity].
  destruct (negb (is_acked p)); [|reflexivity].
  destruct (first_sent p); reflexivity.
Qed.

Lemma timer_check_total_acks (window : nat) (st : state) :
  total_acks (timer_check window st) = total_acks st.
Proof.
  unfold timer_check, time_time, py_for. cbn [fst snd].
  destruct (PrimFloat.ltb _ _); [|reflexivity].
  cbn [total_acks set_last_check].
  rewrite (for_range_preserves total_acks (sweep_body _)); [reflexivity|].
  intros idx s. unfold sweep_body.
  destruct (nth_error (packet_list s) idx) as [p|]; [|reflexivity].
  destruct (recent_sent p); [|reflexivity].
  destruct (_ && _); reflexivity.
Qed.

Lemma loop_body_total_acks (window : nat) (ev : recv_event)
    (st st' : state) :
  loop_body window ev st = Ok st' ->
  total_acks st'
  = total_acks st + (if is_datagram ev then 1 else 0).
Proof.
  destruct ev as [|d]; cbn [loop_body is_datagram].
  - intros [= <-]. rewrite timer_check_total_acks. lia.
  - unfold bind.
    destruct (on_response window (firstn MAX_PACKET d) st) as [st1|x] eqn:Hr;
      [|discriminate].
    intros [= <-]. rewrite timer_check_total_acks.
    destruct (on_response_cases window _ st st1 Hr) as (msg & _ & H).
    cbv zeta in H.
    destruct (pystr_eqb msg str_ack); rewrite H.
    + destruct (_ <? _).
      * rewrite send_new_total_acks. unfold clamp_send_next.
        destruct (_ <? _);
          cbn [total_acks set_send_next slide_window set_left_edge];
          rewrite mark_acked_total_acks; cbn; lia.
      * cbn [total_acks slide_window set_left_edge].
        rewrite mark_acked_total_acks. cbn. lia.
    + cbn. lia.
Qed.

(** X11: [total_acks] counts datagrams, not acknowledgments.  When the
    main loop stops or waits, [total_acks] is the number of receive
    attempts that returned a datagram, whatever the datagram was (an
    ACK, new or stale, a frame with another text, a frame too short to
    carry a header); a receive attempt that timed out is not counted. *)
Theorem total_acks_counts_datagrams (window : nat)
    (evs rest : list recv_event) (st0 st : state) :
  main_loop window evs st0 = Ok (st, rest) ->
  total_acks st
  = total_acks st0 + length (filter is_datagram (consumed evs rest)).
Proof.
  revert st0. induction evs as [|ev evs IH]; intros st0 Hrun.
  - cbn [main_loop] in Hrun.
    destruct (all_acked st0); injection Hrun as <- <-; cbn; lia.
  - cbn [main_loop] in Hrun. destruct (all_acked st0).
    + injection Hrun as <- <-. unfold consumed.
      rewrite Nat.sub_diag. cbn. lia.
    + unfold bind in Hrun.
      destruct (loop_body window ev st0) as [st1|x] eqn:Hb;
        [|discriminate].
      destruct (main_loop_consumed window evs st1 st rest Hrun) as (Hc & _).
      assert (Hlen : length rest <= length evs).
      { apply (f_equal (@length _)) in Hc. rewrite length_app in Hc.
        lia. }
      rewrite (IH st1 Hrun), (loop_body_total_acks window ev st0 st1 Hb).
      unfold consumed. cbn [length].
      replace (S (length evs) - length rest)
        with (S (length evs - length rest)) by lia.
      cbn [firstn filter].
      destruct (is_datagram ev); cbn [length]; lia.
Qed.

Lemma total_acks_counts_datagrams_witness :
  total_acks demo_midway = 1.
Proof.
  pose proof (total_acks_counts_datagrams 2 midway_events []
                (start 2 demo_clock demo_table) demo_midway
                demo_midway_run) as H.
  exact H.
Defined.

(** ** No unacknowledged packet escapes the timer *)

Lemma reachable_cursors (window : nat) (clk : nat -> float)
    (tbl : list packet) (evs rest : list recv_event) (st : state) :
  fresh tbl ->
  main_loop window evs (start window clk tbl) = Ok (st, rest) ->
  window_inv window st /\ sent_in_window st
  /\ Forall sent_iff (packet_list st).
Proof.
  intros Hf Hrun.
  assert (Hinv : window_inv window st /\ sent_in_window st
                 /\ edge_unacked st).
  { refine (main_loop_invariant
              (fun s => window_inv window s /\ sent_in_window s
                        /\ edge_unacked s)
              window _ evs (start window clk tbl) st rest _ Hrun).
    - intros ev s s'. apply cursors_loop_body.
    - split; [apply window_inv_start, Hf | apply cursors_start, Hf]. }
  assert (Hiff : Forall sent_iff (packet_list st)).
  { refine (main_loop_invariant
              (fun s => Forall sent_iff (packet_list s))
              window _ evs (start window clk tbl) st rest _ Hrun).
    - intros ev s s'. apply sent_iff_step.
    - apply sent_iff_start, Hf. }
  destruct Hinv as (H1 & H2 & _). auto.
Qed.

Lemma timer_check_due (window : nat) (st : state) (i : nat) (p : packet) :
  let now := clock st (ticks st) in
  PrimFloat.ltb CHECK_PERIOD (PrimFloat.sub now (last_check st)) = true ->
  left_edge st <= i < right_edge window st ->
  nth_error (packet_list st) i = Some p ->
  overdue now p = true ->
  (exists before after,
      outbox (timer_check window st)
      = outbox st ++ before ++ raw p :: after)
  /\ nth_error (packet_list (timer_check window st)) i
     = Some (set_recent_sent (Some now) p)
  /\ resends st < resends (timer_check window st).
Proof.
  intros now Hdue Hi Hp Hod.
  unfold timer_check, time_time. cbn [fst snd].
  change (last_check (set_ticks (S (ticks st)) st)) with (last_check st).
  fold now. rewrite Hdue.
  set (st1 := set_ticks (S (ticks st)) st).
  change (left_edge st1) with (left_edge st).
  change (right_edge window st1) with (right_edge window st).
  unfold py_for.
  assert (Hlen : left_edge st + (right_edge window st - left_edge st)
                 <= length (packet_list st1)).
  { unfold right_edge, num_packets in *.
    change (packet_list st1) with (packet_list st). lia. }
  rewrite (sweep_loop_closed now _ (left_edge st) st1 Hlen). cbv zeta.
  unfold set_last_check.
  cbn [packet_list left_edge send_next delays begin last_check total_acks
       resends outbox ticks clock st1 set_ticks].
  set (win := firstn (right_edge window st - left_edge st)
                (skipn (left_edge st) (packet_list st))).
  assert (Hin : In p (filter (overdue now) win)).
  { apply filter_In. split; [|exact Hod].
    apply (nth_error_In win (i - left_edge st)). unfold win.
    rewrite nth_error_firstn.
    destruct (Nat.ltb_spec (i - left_edge st)
                (right_edge window st - left_edge st)); [|lia].
    rewrite nth_error_skipn.
    replace (left_edge st + (i - left_edge st)) with i by lia. exact Hp. }
  split; [|split].
  - destruct (in_split _ _ Hin) as (l1 & l2 & Hs).
    exists (map raw l1), (map raw l2). rewrite Hs, map_app. reflexivity.
  - unfold win.
    rewrite (nth_error_window_map (refresh now) (packet_list st)
               (left_edge st) (right_edge window st - left_edge st) i p
               Hlen Hp).
    destruct (Nat.leb_spec (left_edge st) i); [|lia].
    destruct (Nat.ltb_spec i
                (left_edge st + (right_edge window st - left_edge st)));
      [|lia].
    cbn [andb]. unfold refresh. rewrite Hod. reflexivity.
  - destruct (filter (overdue now) win); [destruct Hin|]. cbn [length]. lia.
Qed.

(** X12: no unacknowledged packet escapes the timer.  In every state
    the main loop reaches, a packet that was transmitted and is not
    acknowledged lies inside the window; so at the first pass whose
    clock reading is more than 0.1 s after [last_check] and more than
    [RETRANSMIT_TIME] after the packet's latest transmission, a pass
    that receives nothing retransmits the packet, stamps it with that
    reading and counts the retransmission. *)
Theorem overdue_packet_is_resent (window : nat) (clk : nat -> float)
    (tbl : list packet) (evs rest : list recv_event) (st : state)
    (i : nat) (p : packet) (rs : float) :
  fresh tbl ->
  main_loop window evs (start window clk tbl) = Ok (st, rest) ->
  nth_error (packet_list st) i = Some p ->
  is_acked p = false ->
  recent_sent p = Some rs ->
  let now := clock st (ticks st) in
  PrimFloat.ltb CHECK_PERIOD (PrimFloat.sub now (last_check st)) = true ->
  PrimFloat.ltb RETRANSMIT_TIME (PrimFloat.sub now rs) = true ->
  exists st',
    loop_body window Timeout st = Ok st'
    /\ (exists before after,
          outbox st' = outbox st ++ before ++ raw p :: after)
    /\ nth_error (packet_list st') i = Some (set_recent_sent (Some now) p)
    /\ resends st < resends st'.
Proof.
  intros Hf Hrun Hp Ha Hrs now Hdue Hold.
  destruct (reachable_cursors window clk tbl evs rest st Hf Hrun)
    as ((Hle & Hsn & Hack & Hun) & _ & Hiff).
  exists (timer_check window st). split; [reflexivity|].
  apply timer_check_due; try assumption.
  - split.
    + destruct (le_lt_dec (left_edge st) i) as [H|H]; [exact H|].
      rewrite (Hack i p Hp H) in Ha. discriminate.
    + unfold right_edge. rewrite <- Hsn.
      destruct (le_lt_dec (send_next st) i) as [H|H]; [|exact H].
      pose proof (Hun i p Hp H) as Hnone.
      rewrite Forall_forall in Hiff.
      apply (Hiff p (nth_error_In _ _ Hp)) in Hnone. congruence.
  - unfold overdue. rewrite Hrs, Ha. cbn [negb andb]. exact Hold.
Qed.

Lemma overdue_packet_is_resent_witness :
  exists st',
    loop_body 2 Timeout demo_midway = Ok st'
    /\ resends demo_midway < resends st'.
Proof.
  destruct (overdue_packet_is_resent 2 demo_clock demo_table midway_events
              [] demo_midway 1 (set_recent_sent (Some 10%float)
                                  (set_first_sent (Some 3%float)
                                     (demo_packet 10)))
              10%float demo_table_fresh demo_midway_run)
    as (st' & H1 & _ & _ & H4).
  - vm_compute. reflexivity.
  - reflexivity.
  - reflexivity.
  - vm_compute. reflexivity.
  - vm_compute. reflexivity.
  - exists st'. split; assumption.
Defined.

(** ** The phases of a transfer *)

Lemma main_loop_raises (window : nat) (evs : list recv_event) :
  forall st x, main_loop window evs st = Raise x -> x = UnicodeDecodeError.
Proof.
  induction evs as [|ev evs IH]; intros st x H; cbn [main_loop] in H.
  - destruct (all_acked st); discriminate.
  - destruct (all_acked st); [discriminate|]. unfold bind in H.
    destruct (loop_body window ev st) as [st'|y] eqn:Hb.
    + apply (IH st' x H).
    + injection H as <-.
      destruct (loop_body_raises window ev st y Hb) as (d & _ & Hd).
      apply (utf8_decode_raises _ _ Hd).
Qed.

Lemma loop_body_outbox_grows (window : nat) (ev : recv_event)
    (st st' : state) :
  loop_body window ev st = Ok st' ->
  exists more, outbox st' = outbox st ++ more.
Proof.
  assert (Htimer : forall s, exists more,
            outbox (timer_check window s) = outbox s ++ more).
  { intros s. destruct (timer_check_sends window s) as (sent & _ & H & _).
    exists (map raw sent). exact H. }
  destruct ev as [|d]; cbn [loop_body].
  - intros [= <-]. apply Htimer.
  - unfold bind.
    destruct (on_response window (firstn MAX_PACKET d) st) as [st1|x] eqn:Hr;
      [|discriminate].
    intros [= <-].
    assert (H1 : exists more, outbox st1 = outbox st ++ more).
    { destruct (on_response_cases window _ st st1 Hr) as (msg & _ & H).
      cbv zeta in H. destruct (pystr_eqb msg str_ack).
      - set (st0 := set_total_acks (S (total_acks st)) st) in *.
        destruct (mark_acked_frame (int_from_bytes
                    (header (firstn MAX_PACKET d))) st0) as (_ & _ & _ & Hm).
        change (outbox st0) with (outbox st) in Hm.
        destruct (_ <? _).
        + rewrite H. unfold send_new. cbn [outbox set_send_next].
          set (st3 := clamp_send_next _).
          assert (Ho3 : outbox st3 = outbox st).
          { unfold st3, clamp_send_next.
            destruct (_ <? _); cbn [outbox set_send_next slide_window
                                    set_left_edge]; exact Hm. }
          unfold py_for.
          destruct (Nat.le_gt_cases (right_edge window st3) (send_next st3))
            as [Hk|Hk].
          * replace (right_edge window st3 - send_next st3) with 0 by lia.
            exists []. cbn [for_range]. rewrite app_nil_r. exact Ho3.
          * rewrite send_loop_outbox, Ho3; [eexists; reflexivity|].
            unfold right_edge, num_packets in *. lia.
        + rewrite H. exists []. rewrite app_nil_r. exact Hm.
      - rewrite H. exists []. rewrite app_nil_r. reflexivity. }
    destruct H1 as (m1 & H1). destruct (Htimer st1) as (m2 & H2).
    exists (m1 ++ m2). rewrite H2, H1, app_assoc. reflexivity.
Qed.

Lemma main_loop_outbox_grows (window : nat) (evs : list recv_event) :
  forall st st' rest,
    main_loop window evs st = Ok (st', rest) ->
    exists more, outbox st' = outbox st ++ more.
Proof.
  induction evs as [|ev evs IH]; intros st st' rest H; cbn [main_loop] in H.
  - exists []. rewrite app_nil_r.
    destruct (all_acked st); injection H as <- _; reflexivity.
  - destruct (all_acked st).
    + injection H as <- _. exists []. now rewrite app_nil_r.
    + unfold bind in H.
      destruct (loop_body window ev st) as [st1|y] eqn:Hb; [|discriminate].
      destruct (loop_body_outbox_grows window ev st st1 Hb) as (m1 & H1).
      destruct (IH st1 st' rest H) as (m2 & H2).
      exists (m1 ++ m2). rewrite H2, H1, app_assoc. reflexivity.
Qed.

Lemma reachable_accounted (window : nat) (clk : nat -> float)
    (tbl : list packet) (evs rest : list recv_event) (st : state) :
  fresh tbl ->
  main_loop window evs (start window clk tbl) = Ok (st, rest) ->
  accounted (map raw tbl) st.
Proof.
  intros Hf Hrun.
  assert (H : window_inv window st /\ accounted (map raw tbl) st).
  { refine (main_loop_invariant
              (fun s => window_inv window s /\ accounted (map raw tbl) s)
              window _ evs (start window clk tbl) st rest _ Hrun).
    - intros ev s s'. apply accounted_loop_body.
    - split; [apply window_inv_start, Hf | apply accounted_start, Hf]. }
  apply H.
Qed.

Lemma py_truediv_raises (a b : pynum) (x : exn) :
  py_truediv a b = Raise x -> x = ZeroDivisionError.
Proof.
  unfold py_truediv. destruct (is_zero b); [|discriminate].
  intros [= <-]. reflexivity.
Qed.

Lemma score_formula_raises (rate mean_delay : pynum) (x : exn) :
  score_formula rate mean_delay = Raise x -> x = ZeroDivisionError.
Proof.
  unfold score_formula, bind.
  destruct (py_truediv rate (PyInt 1000)) as [q|y] eqn:E1.
  - destruct (py_truediv (PyFloat c_0_7) mean_delay) as [r|y] eqn:E2;
      [discriminate|].
    intros [= <-]. apply (py_truediv_raises _ _ _ E2).
  - intros [= <-]. apply (py_truediv_raises _ _ _ E1).
Qed.

Lemma window_metrics_raises (total_bytes : Z) (begin finish : float)
    (delays : list float) (x : exn) :
  window_metrics total_bytes begin finish delays = Raise x ->
  x = ZeroDivisionError.
Proof.
  unfold window_metrics, bind.
  destruct (py_truediv (PyInt total_bytes) _) as [rate|y] eqn:E1.
  2:{ intros [= <-]. apply (py_truediv_raises _ _ _ E1). }
  destruct (match delays with
            | [] => Ok (PyInt 0)
            | _ :: _ => py_truediv (py_sum delays)
                          (PyInt (Z.of_nat (length delays)))
            end) as [md|y] eqn:E2.
  2:{ intros [= <-]. destruct delays; [discriminate|].
      apply (py_truediv_raises _ _ _ E2). }
  destruct (py_gt_zero md).
  - destruct (score_formula rate md) as [sc|y] eqn:E3; [discriminate|].
    intros [= <-]. apply (score_formula_raises _ _ _ E3).
  - discriminate.
Qed.

Lemma stop_and_wait_metrics_raises (file_size : Z)
    (overall_start overall_end : float) (all_delays : list float)
    (x : exn) :
  stop_and_wait_metrics file_size overall_start overall_end all_delays
  = Raise x ->
  x = ZeroDivisionError.
Proof.
  unfold stop_and_wait_metrics, bind.
  destruct (py_truediv (PyInt file_size) _) as [rate|y] eqn:E1.
  2:{ intros [= <-]. apply (py_truediv_raises _ _ _ E1). }
  destruct (py_truediv (py_sum all_delays) _) as [md|y] eqn:E2.
  2:{ intros [= <-]. apply (py_truediv_raises _ _ _ E2). }
  destruct (score_formula rate md) as [sc|y] eqn:E3; [discriminate|].
  intros [= <-]. apply (score_formula_raises _ _ _ E3).
Qed.

Lemma teardown_frames (total_bytes : Z) (evs : list recv_event) (e : env) :
  (0 <= total_bytes < 2 ^ 31)%Z ->
  match teardown total_bytes evs e with
  | CLOSED _ e' _ =>
    exists k, 1 <= k
      /\ e_outbox e'
         = e_outbox e ++ repeat (terminal_frame total_bytes) k
           ++ [finack_frame]
  | TEARDOWN e' =>
    exists k, 1 <= k
      /\ e_outbox e' = e_outbox e ++ repeat (terminal_frame total_bytes) k
  | FAILED x => x = UnicodeDecodeError
  end.
Proof.
  intros Hr. unfold teardown.
  rewrite (terminal_frame_encoding total_bytes Hr).
  pose proof (await_fin_spec (terminal_frame total_bytes) total_bytes
                (length evs) evs e (le_n _)) as H.
  destruct (await_fin (terminal_frame total_bytes) total_bytes evs e)
    as [[] e' rest|e'|x]; [| |exact H].
  - destruct H as (k & Hk & Ho & _).
    change (encode_frame 0 bytes_FINACK) with (Ok finack_frame).
    exists k. split; [exact Hk|].
    cbn [e_tick e_sendto e_outbox]. rewrite Ho, <- app_assoc. reflexivity.
  - destruct H as (k & Hk & Ho). exists k. auto.
Qed.

Lemma short_payload_table (chunk : Z) (contents : bytes) :
  (0 < chunk)%Z -> (len contents < 2 ^ 31)%Z ->
  exists tbl,
    segment_table chunk contents = Some (Ok tbl)
    /\ segments_from chunk contents 0 tbl.
Proof.
  intros Hc Hn. apply segment_table_ok; [exact Hc|].
  pose proof (ceil_div_bounds (len contents) chunk Hc) as Hb.
  unfold last_offset. lia.
Qed.

(** X13: the phases of [transmit_file].  For a payload shorter than
    2^31 bytes the table is built, and whatever the socket delivers the
    transfer ends in one of four ways: it is still in the data phase,
    having sent only frames of the table, the frames of the initial
    burst first; or it is in teardown, having then sent the terminal
    frame at least once and nothing else; or it finished, the FINACK
    being the last datagram sent, after the terminal frames; or it
    failed, with [UnicodeDecodeError] (a frame that does not decode) or
    [ZeroDivisionError] (the metrics).  No data frame is sent once the
    first terminal frame was sent. *)
Theorem transmit_file_phases (chunk : Z) (window : nat)
    (clk : nat -> float) (contents : bytes) (evs : list recv_event) :
  (0 < chunk)%Z -> (len contents < 2 ^ 31)%Z ->
  exists tbl t,
    segment_table chunk contents = Some (Ok tbl)
    /\ transmit_file chunk window clk contents evs = Some t
    /\ match t with
       | Finished _ e =>
         exists more k,
           1 <= k
           /\ Forall (fun d => In d (map raw tbl)) more
           /\ e_outbox e
              = (map raw (firstn window tbl) ++ more)
                ++ repeat (terminal_frame (len contents)) k
                ++ [finack_frame]
       | InTeardown e =>
         exists more k,
           1 <= k
           /\ Forall (fun d => In d (map raw tbl)) more
           /\ e_outbox e
              = (map raw (firstn window tbl) ++ more)
                ++ repeat (terminal_frame (len contents)) k
       | InData e =>
         exists more,
           Forall (fun d => In d (map raw tbl)) more
           /\ e_outbox e = map raw (firstn window tbl) ++ more
       | Failed x => x = UnicodeDecodeError \/ x = ZeroDivisionError
       end.
Proof.
  intros Hc Hn.
  destruct (short_payload_table chunk contents Hc Hn) as (tbl & Ht & Hseg).
  pose proof (segments_fresh chunk contents tbl Hc Hseg) as Hf.
  exists tbl. unfold transmit_file. rewrite Ht.
  destruct (main_loop window evs (start window clk tbl)) as [[st rest]|x]
    eqn:Hrun.
  2:{ eexists. split; [reflexivity|]. split; [reflexivity|].
      left. apply (main_loop_raises window evs _ x Hrun). }
  destruct (reachable_accounted window clk tbl evs rest st Hf Hrun)
    as (_ & _ & Hall).
  destruct (main_loop_outbox_grows window evs _ st rest Hrun)
    as (more & Hmore).
  assert (Hb : outbox (start window clk tbl) = map raw (firstn window tbl))
    by (rewrite start_closed; reflexivity).
  rewrite Hb in Hmore.
  assert (Hm : Forall (fun d => In d (map raw tbl)) more).
  { rewrite Hmore in Hall. apply Forall_app in Hall. apply Hall. }
  destruct (all_acked st).
  2:{ eexists. split; [reflexivity|]. split; [reflexivity|].
      exists more. split; [exact Hm | exact Hmore]. }
  assert (Hr : (0 <= len contents < 2 ^ 31)%Z) by (unfold len in *; lia).
  pose proof (teardown_frames (len contents) rest (env_of_state st) Hr)
    as Htd.
  destruct (teardown (len contents) rest (env_of_state st))
    as [finish e rest'|e|x].
  - destruct Htd as (k & Hk & Ho).
    cbn [env_of_state e_outbox] in Ho. rewrite Hmore in Ho.
    destruct (window_metrics (len contents) (begin st) finish (delays st))
      as [m|x] eqn:Hmet.
    + eexists. split; [reflexivity|]. split; [reflexivity|].
      exists more, k. auto.
    + eexists. split; [reflexivity|]. split; [reflexivity|].
      right. apply (window_metrics_raises _ _ _ _ _ Hmet).
  - destruct Htd as (k & Hk & Ho).
    cbn [env_of_state e_outbox] in Ho. rewrite Hmore in Ho.
    eexists. split; [reflexivity|]. split; [reflexivity|].
    exists more, k. auto.
  - eexists. split; [reflexivity|]. split; [reflexivity|].
    left. exact Htd.
Qed.

Lemma transmit_file_phases_witness :
  exists tbl t,
    segment_table 10 (repeat x41 30) = Some (Ok tbl)
    /\ transmit_file 10 2 demo_clock (repeat x41 30)
         (demo_events
          ++ [Datagram (ack_frame 30); Datagram (fin_frame 30)])
       = Some t.
Proof.
  destruct (transmit_file_phases 10 2 demo_clock (repeat x41 30)
              (demo_events
               ++ [Datagram (ack_frame 30); Datagram (fin_frame 30)]))
    as (tbl & t & H1 & H2 & _).
  - reflexivity.
  - reflexivity.
  - exists tbl, t. split; assumption.
Defined.

(** X14: the phases of [send_file].  For a payload shorter than 2^31
    bytes, whatever the socket delivers, the stop-and-wait transfer
    ends in one of four ways: it still waits for the ACK of a segment,
    having sent the frames up to that segment in offset order, each at
    least once; or it is in teardown, having sent every frame and then
    the terminal frame at least once; or it finished, the FINACK being
    the last datagram sent; or it failed, with [UnicodeDecodeError] or
    [ZeroDivisionError]. *)
Theorem send_file_phases (chunk : Z) (clk : nat -> float)
    (contents : bytes) (evs : list recv_event) :
  (0 < chunk)%Z -> (len contents < 2 ^ 31)%Z ->
  exists tbl t,
    segment_table chunk contents = Some (Ok tbl)
    /\ send_file chunk clk contents evs = Some t
    /\ match t with
       | Finished _ e =>
         exists ks k,
           length ks = length tbl /\ Forall (fun n => 1 <= n) ks
           /\ 1 <= k
           /\ e_outbox e
              = repeated tbl ks
                ++ repeat (terminal_frame (len contents)) k
                ++ [finack_frame]
       | InTeardown e =>
         exists ks k,
           length ks = length tbl /\ Forall (fun n => 1 <= n) ks
           /\ 1 <= k
           /\ e_outbox e
              = repeated tbl ks
                ++ repeat (terminal_frame (len contents)) k
       | InData e =>
         exists ks,
           1 <= length ks <= length tbl /\ Forall (fun n => 1 <= n) ks
           /\ e_outbox e = repeated tbl ks
       | Failed x => x = UnicodeDecodeError \/ x = ZeroDivisionError
       end.
Proof.
  intros Hc Hn.
  destruct (short_payload_table chunk contents Hc Hn) as (tbl & Ht & Hseg).
  destruct (segment_table_inv chunk contents tbl Hc Ht) as (Hlast & _).
  pose proof (segments_at_most_bytes chunk contents tbl Hc Hseg) as Hlen.
  exists tbl. unfold send_file.
  set (e0 := mkEnv [] 1 clk).
  assert (Hrun : send_chunks (S (length contents)) chunk contents 0 [] evs e0
                 = Some (sw_run 0 tbl [] evs e0)).
  { apply send_chunks_sw_run; try assumption; try lia.
    intros _. exists 0%Z. lia. }
  rewrite Hrun.
  assert (Hpos : (0 <= 0 <= len contents)%Z) by (unfold len; lia).
  pose proof (sw_run_spec chunk contents Hc tbl 0%Z [] evs e0 Hpos Hseg)
    as H.
  destruct (sw_run 0 tbl [] evs e0) as [ds pos e rest|ds pos e|x].
  - destruct H as (Hp & _ & ks & Hk & Hf & Ho & _).
    cbn [e_outbox e0 app] in Ho. subst pos.
    assert (Hr : (0 <= len contents < 2 ^ 31)%Z) by (unfold len in *; lia).
    pose proof (teardown_frames (len contents) rest e Hr) as Htd.
    destruct (teardown (len contents) rest e) as [finish e1 rest'|e1|x].
    + destruct Htd as (k & Hk1 & Ho1). rewrite Ho in Ho1.
      destruct (stop_and_wait_metrics (len contents) (clk 0) finish ds)
        as [m|x] eqn:Hmet.
      * eexists. split; [exact Ht|]. split; [reflexivity|].
        exists ks, k. auto.
      * eexists. split; [exact Ht|]. split; [reflexivity|].
        right. apply (stop_and_wait_metrics_raises _ _ _ _ _ Hmet).
    + destruct Htd as (k & Hk1 & Ho1). rewrite Ho in Ho1.
      eexists. split; [exact Ht|]. split; [reflexivity|].
      exists ks, k. auto.
    + eexists. split; [exact Ht|]. split; [reflexivity|].
      left. exact Htd.
  - destruct H as (i & p & ks & _ & Hp & _ & Hk & Hf & Ho & _).
    cbn [e_outbox e0 app] in Ho.
    eexists. split; [exact Ht|]. split; [reflexivity|].
    exists ks. split; [|split; assumption].
    assert (i < length tbl) by (apply nth_error_Some; congruence). lia.
  - eexists. split; [exact Ht|]. split; [reflexivity|].
    left. exact H.
Qed.

Lemma send_file_phases_witness :
  exists tbl t,
    segment_table 10 (repeat x41 30) = Some (Ok tbl)
    /\ send_file 10 demo_clock (repeat x41 30)
         (patient_events
          ++ [Datagram (ack_frame 30); Datagram (fin_frame 30)])
       = Some t.
Proof.
  destruct (send_file_phases 10 demo_clock (repeat x41 30)
              (patient_events
               ++ [Datagram (ack_frame 30); Datagram (fin_frame 30)]))
    as (tbl & t & H1 & H2 & _).
  - reflexivity.
  - reflexivity.
  - exists tbl, t. split; assumption.
Defined.

(** ** Against a receiver that gets everything *)

Lemma framed_reads (a : Z) (text : bytes) :
  (- 2 ^ 31 <= a < 2 ^ 31)%Z ->
  length text <= 1020 ->
  let d := firstn MAX_PACKET (be_bytes SEQ_SIZE a ++ text) in
  int_from_bytes (header d) = a /\ body d = text.
Proof.
  intros Ha Hl d.
  assert (Hd : d = be_bytes SEQ_SIZE a ++ text).
  { unfold d. apply firstn_all2.
    rewrite length_app, be_bytes_length. unfold MAX_PACKET, SEQ_SIZE. lia. }
  assert (Henc : encode_frame a text = Ok (be_bytes SEQ_SIZE a ++ text)).
  { destruct (encode_frame_cases a text) as [[_ H]|[H _]]; [exact H|lia]. }
  rewrite Hd. destruct (encode_frame_split a text _ Henc) as (Hh & Hb).
  split; [|exact Hb]. rewrite Hh.
  apply (int_from_to_bytes a SEQ_SIZE); [unfold SEQ_SIZE; lia|].
  unfold int_to_bytes. change (8 * Z.of_nat SEQ_SIZE - 1)%Z with 31%Z.
  destruct (Z.leb_spec (- 2 ^ 31) a); [|lia].
  destruct (Z.ltb_spec a (2 ^ 31)); [reflexivity | lia].
Qed.

Lemma ack_frame_reads (a : Z) :
  (- 2 ^ 31 <= a < 2 ^ 31)%Z ->
  int_from_bytes (header (firstn MAX_PACKET (ack_frame a))) = a
  /\ utf8_decode (body (firstn MAX_PACKET (ack_frame a))) = Ok str_ack.
Proof.
  intros Ha.
  destruct (framed_reads a [x61; x63; x6b] Ha) as (H1 & H2);
    [cbn; lia|].
  unfold ack_frame. split; [exact H1|]. rewrite H2. reflexivity.
Qed.

Lemma fin_frame_reads (a : Z) :
  (- 2 ^ 31 <= a < 2 ^ 31)%Z ->
  utf8_decode (body (firstn MAX_PACKET (fin_frame a))) = Ok str_fin.
Proof.
  intros Ha.
  destruct (framed_reads a [x66; x69; x6e] Ha) as (H1 & H2);
    [cbn; lia|].
  unfold fin_frame. rewrite H2. reflexivity.
Qed.

Lemma closing_events_close (total_bytes : Z) (e : env) :
  (0 <= total_bytes < 2 ^ 31)%Z ->
  teardown total_bytes (closing_events total_bytes) e
  = CLOSED (e_now e)
      (mkEnv (e_outbox e ++ [terminal_frame total_bytes; finack_frame])
         (S (e_ticks e)) (e_clock e))
      [].
Proof.
  intros Hr. unfold teardown, closing_events.
  rewrite (terminal_frame_encoding total_bytes Hr).
  destruct (ack_frame_reads total_bytes ltac:(lia)) as (Hh & Hb).
  pose proof (fin_frame_reads total_bytes ltac:(lia)) as Hf.
  rewrite (await_fin_retries (terminal_frame total_bytes) total_bytes []
             (ack_frame total_bytes) (fin_frame total_bytes) []).
  - change (encode_frame 0 bytes_FINACK) with (Ok finack_frame).
    cbv zeta. unfold e_now, e_tick, e_sendto.
    cbn [e_outbox e_ticks e_clock app repeat length].
    rewrite <- app_assoc. reflexivity.
  - constructor.
  - unfold is_final_ack, bind. rewrite Hb, Hh, Z.eqb_refl. reflexivity.
  - unfold is_fin, bind. rewrite Hf. reflexivity.
Qed.

Lemma all_acked_view (st : state) (l : list packet) :
  ack_view (packet_list st) = map (fun p => (end_offset p, true)) l ->
  all_acked st = true.
Proof.
  intros Hv. unfold all_acked. apply forallb_forall. intros p Hin.
  apply In_nth_error in Hin. destruct Hin as [i Hi].
  pose proof (ack_view_nth _ _ i p Hv Hi) as Hn.
  rewrite nth_error_map in Hn.
  destruct (nth_error l i); [|discriminate].
  cbn in Hn. injection Hn as _ Ha. symmetry. exact Ha.
Qed.

Lemma prompt_acks_run (window : nat) (tail : list recv_event)
    (tbl : list packet) :
  increasing_ends tbl ->
  (forall p, In p tbl -> (- 2 ^ 31 <= end_offset p < 2 ^ 31)%Z) ->
  forall todo done st,
    tbl = done ++ todo ->
    ack_view (packet_list st)
    = map (fun p => (end_offset p, true)) done
      ++ map (fun p => (end_offset p, false)) todo ->
    exists st',
      main_loop window (prompt_acks todo ++ tail) st = Ok (st', tail)
      /\ all_acked st' = true
      /\ begin st' = begin st.
Proof.
  intros Hinc Hrange.
  induction todo as [|p r IH]; intros done st Htbl Hv.
  - cbn [prompt_acks map app] in *. rewrite app_nil_r in Hv.
    exists st. split; [|split; [|reflexivity]].
    + apply main_loop_done. apply (all_acked_view st done Hv).
    + apply (all_acked_view st done Hv).
  - assert (Hna : all_acked st = false).
    { destruct (all_acked st) eqn:E; [|reflexivity]. exfalso.
      unfold all_acked in E. rewrite forallb_forall in E.
      assert (Hn : nth_error (ack_view (packet_list st)) (length done)
                   = Some (end_offset p, false)).
      { rewrite Hv, nth_error_app2 by (rewrite length_map; lia).
        rewrite length_map, Nat.sub_diag. reflexivity. }
      unfold ack_view in Hn. rewrite nth_error_map in Hn.
      destruct (nth_error (packet_list st) (length done)) as [q|] eqn:Hq;
        [|discriminate].
      cbn in Hn. injection Hn as _ Ha.
      rewrite (E q (nth_error_In _ _ Hq)) in Ha. discriminate. }
    assert (Hp : In p tbl) by (rewrite Htbl; apply in_or_app; right; now left).
    destruct (ack_frame_reads (end_offset p) (Hrange p Hp)) as (Hh & Hb).
    cbn [prompt_acks map app main_loop]. rewrite Hna. unfold bind.
    destruct (loop_body window (Datagram (ack_frame (end_offset p))) st)
      as [st1|x] eqn:Hbody.
    2:{ destruct (loop_body_raises window _ st x Hbody) as (d & [= <-] & Hd).
        congruence. }
    assert (Hoff : ack_offsets [Datagram (ack_frame (end_offset p))]
                   = [end_offset p]).
    { rewrite (ack_offsets_datagram _ str_ack Hb), Hh. reflexivity. }
    pose proof (ack_view_loop_body window _ st st1 Hbody) as Hv1.
    rewrite Hoff, Hv in Hv1.
    assert (Hbegin : begin st1 = begin st).
    { clear - Hbody. cbn [loop_body] in Hbody. unfold bind in Hbody.
      destruct (on_response window _ st) as [s1|x] eqn:Hr; [|discriminate].
      injection Hbody as <-.
      assert (Ht : forall s, begin (timer_check window s) = begin s).
      { intros s. unfold timer_check, time_time, py_for. cbn [fst snd].
        destruct (PrimFloat.ltb _ _); [|reflexivity].
        cbn [begin set_last_check].
        rewrite (for_range_preserves begin (sweep_body _));
          [reflexivity|].
        intros idx s0. unfold sweep_body.
        destruct (nth_error (packet_list s0) idx) as [q|]; [|reflexivity].
        destruct (recent_sent q); [|reflexivity].
        destruct (_ && _); reflexivity. }
      rewrite Ht.
      destruct (on_response_cases window _ st s1 Hr) as (msg & _ & H).
      cbv zeta in H.
      assert (Hm : forall a s, begin (mark_acked a s) = begin s).
      { intros a s. unfold mark_acked, py_for.
        apply (for_range_preserves begin (mark_body a)).
        intros idx s0. unfold mark_body.
        destruct (nth_error (packet_list s0) idx) as [q|]; [|reflexivity].
        destruct (_ && _); [|reflexivity].
        destruct (first_sent q); reflexivity. }
      assert (Hs : forall s, begin (send_new window s) = begin s).
      { intros s. unfold send_new, py_for. cbn [begin set_send_next].
        apply (for_range_preserves begin send_body).
        intros idx s0. unfold send_body.
        destruct (nth_error (packet_list s0) idx) as [q|]; [|reflexivity].
        destruct (negb (is_acked q)); [|reflexivity].
        destruct (first_sent q); reflexivity. }
      destruct (pystr_eqb msg str_ack); rewrite H; [|reflexivity].
      destruct (_ <? _).
      - rewrite Hs. unfold clamp_send_next.
        destruct (_ <? _); cbn [begin set_send_next slide_window
                                set_left_edge]; rewrite Hm; reflexivity.
      - cbn [begin slide_window set_left_edge]. rewrite Hm. reflexivity. }
    destruct (IH (done ++ [p]) st1) as (st' & Hrun & Hall & Hb').
    + rewrite <- app_assoc. exact Htbl.
    + rewrite Hv1. unfold apply_acks. rewrite !map_app, !map_map.
      cbn [map fst snd covered existsb orb app].
      rewrite <- app_assoc. cbn [app].
      rewrite Z.leb_refl. cbn [orb]. f_equal. f_equal.
      apply map_ext_in. intros q Hq. cbn [fst snd orb].
      apply In_nth_error in Hq. destruct Hq as [j Hj].
      assert (Hlt : (end_offset p < end_offset q)%Z).
      { apply (Hinc (length done) (length done + S j) p q); [lia| |].
        - rewrite Htbl, nth_error_app2 by lia.
          rewrite Nat.sub_diag. reflexivity.
        - rewrite Htbl, nth_error_app2 by lia.
          replace (length done + S j - length done) with (S j) by lia.
          exact Hj. }
      destruct (Z.leb_spec (end_offset q) (end_offset p)); [lia|].
      reflexivity.
    + exists st'. split; [exact Hrun|]. split; [exact Hall|]. congruence.
Qed.

(** X15: against a receiver that gets everything in order, the
    sliding-window transfer completes.  If the socket delivers one ACK
    per segment, each carrying the end offset of its segment, and then
    the ACK of the terminal frame followed by the FIN, then, for every
    window size and clock, the main loop uses up exactly the segment
    ACKs and ends with every packet acknowledged, the teardown sends
    the terminal frame once and the FINACK once, and [transmit_file]
    returns its metrics; the one way it can fail is the division by
    the elapsed time when the clock reads the same at the end as at
    the start. *)
Theorem prompt_receiver_completes (chunk : Z) (window : nat)
    (clk : nat -> float) (contents : bytes) (tbl : list packet) :
  (0 < chunk)%Z -> (len contents < 2 ^ 31)%Z ->
  segment_table chunk contents = Some (Ok tbl) ->
  exists st,
    main_loop window (prompt_acks tbl ++ closing_events (len contents))
      (start window clk tbl)
    = Ok (st, closing_events (len contents))
    /\ all_acked st = true
    /\ transmit_file chunk window clk contents
         (prompt_acks tbl ++ closing_events (len contents))
       = Some
           (match window_metrics (len contents) (clk 0)
                    (clock st (ticks st)) (delays st) with
            | Ok m =>
              Finished m
                (mkEnv (outbox st
                        ++ [terminal_frame (len contents); finack_frame])
                   (S (ticks st)) (clock st))
            | Raise _ => Failed ZeroDivisionError
            end).
Proof.
  intros Hc Hn Ht.
  destruct (segment_table_inv chunk contents tbl Hc Ht) as (_ & Hseg).
  pose proof (segments_fresh chunk contents tbl Hc Hseg) as Hf.
  pose proof (segments_increasing chunk contents tbl Hc Hseg) as Hinc.
  assert (Hrange : forall p, In p tbl ->
                     (- 2 ^ 31 <= end_offset p < 2 ^ 31)%Z).
  { intros p Hin. apply In_nth_error in Hin. destruct Hin as [i Hi].
    destruct (segments_payload_nth chunk contents tbl i p Hc Hseg Hi)
      as (Hs & Hlt & Hl & _).
    unfold end_offset. rewrite Hs, Hl. lia. }
  destruct (prompt_acks_run window (closing_events (len contents)) tbl
              Hinc Hrange tbl [] (start window clk tbl) eq_refl)
    as (st & Hrun & Hall & Hbegin).
  { rewrite (ack_view_start window clk tbl Hf). reflexivity. }
  exists st. split; [exact Hrun|]. split; [exact Hall|].
  unfold transmit_file. rewrite Ht, Hrun, Hall.
  assert (Hr : (0 <= len contents < 2 ^ 31)%Z) by (unfold len in *; lia).
  rewrite (closing_events_close (len contents) (env_of_state st) Hr).
  unfold e_now. cbn [env_of_state e_outbox e_ticks e_clock].
  assert (Hb0 : begin st = clk 0).
  { rewrite Hbegin, start_closed. reflexivity. }
  rewrite Hb0.
  destruct (window_metrics (len contents) (clk 0) (clock st (ticks st))
              (delays st)) as [m|x] eqn:Hmet; [reflexivity|].
  rewrite (window_metrics_raises _ _ _ _ _ Hmet). reflexivity.
Qed.

Lemma prompt_receiver_completes_witness :
  exists st,
    main_loop 2 (prompt_acks demo_table ++ closing_events 30)
      (start 2 demo_clock demo_table)
    = Ok (st, closing_events 30)
    /\ all_acked st = true.
Proof.
  destruct (prompt_receiver_completes 10 2 demo_clock (repeat x41 30)
              demo_table) as (st & H1 & H2 & _).
  - reflexivity.
  - reflexivity.
  - vm_compute. reflexivity.
  - exists st. split; assumption.
Defined.

Lemma accepts_own_ack (need : Z) :
  (- 2 ^ 31 <= need < 2 ^ 31)%Z ->
  accepts need (ack_frame need) = Ok true.
Proof.
  intros Hr. destruct (ack_frame_reads need Hr) as (Hh & Hb).
  unfold accepts, bind. rewrite Hb, Hh, Z.leb_refl. reflexivity.
Qed.

Lemma sw_run_prompt (chunk : Z) (contents : bytes)
    (tail : list recv_event) :
  (0 < chunk)%Z -> (len contents < 2 ^ 31)%Z ->
  forall todo pos ds e,
    (0 <= pos <= len contents)%Z ->
    segments_from chunk contents pos todo ->
    sw_run pos todo ds (prompt_acks todo ++ tail) e
    = AllSent (ds ++ prompt_delays (e_clock e) (e_ticks e) (length todo))
        (len contents)
        (mkEnv (e_outbox e ++ map raw todo)
           (e_ticks e + 2 * length todo) (e_clock e))
        tail.
Proof.
  intros Hc Hn.
  induction todo as [|p r IH]; intros pos ds e Hpos Hseg;
    cbn [segments_from] in Hseg.
  - cbn [sw_run prompt_acks map app prompt_delays length].
    rewrite !app_nil_r, Nat.add_0_r.
    replace pos with (len contents) by lia. now destruct e.
  - destruct Hseg as (Hlt & Hp & Hrest).
    set (data := slice contents pos (pos + chunk)) in *.
    assert (Hlen : len data = Z.min chunk (len contents - pos))
      by (apply slice_length; lia).
    assert (Hend : end_offset p = (pos + len data)%Z)
      by (rewrite Hp; reflexivity).
    assert (Hr : (- 2 ^ 31 <= end_offset p < 2 ^ 31)%Z) by lia.
    cbn [sw_run prompt_acks map app].
    rewrite await_ack_datagram, (accepts_own_ack _ Hr).
    fold (prompt_acks r).
    rewrite IH; [|lia | rewrite Hend; exact Hrest].
    unfold e_now, e_tick, e_sendto.
    cbn [e_outbox e_ticks e_clock prompt_delays length map].
    rewrite <- !app_assoc. cbn [app]. f_equal. f_equal. lia.
Qed.

(** X16: stop-and-wait against a receiver that gets everything in
    order.  If the socket delivers one ACK per segment, each carrying
    the end offset of its segment, then the ACK of the terminal frame
    and the FIN, [send_file] sends every data frame exactly once, in
    offset order, then the terminal frame once and the FINACK once,
    and nothing else; the delay sample of each segment is the
    difference of the two clock readings taken around its transmission,
    and the transfer returns its metrics, or fails with
    [ZeroDivisionError] when they divide by zero. *)
Theorem prompt_receiver_stop_and_wait (chunk : Z) (clk : nat -> float)
    (contents : bytes) (tbl : list packet) :
  (0 < chunk)%Z -> (len contents < 2 ^ 31)%Z ->
  segment_table chunk contents = Some (Ok tbl) ->
  let n := length tbl in
  let events := prompt_acks tbl ++ closing_events (len contents) in
  let all_delays := prompt_delays clk 1 n in
  send_chunks (S (length contents)) chunk contents 0 [] events
    (mkEnv [] 1 clk)
  = Some (AllSent all_delays (len contents)
            (mkEnv (map raw tbl) (1 + 2 * n) clk)
            (closing_events (len contents)))
  /\ send_file chunk clk contents events
     = Some
         (match stop_and_wait_metrics (len contents) (clk 0)
                  (clk (1 + 2 * n)) all_delays with
          | Ok m =>
            Finished m
              (mkEnv (map raw tbl
                      ++ [terminal_frame (len contents); finack_frame])
                 (2 + 2 * n) clk)
          | Raise _ => Failed ZeroDivisionError
          end).
Proof.
  intros Hc Hn Ht n events all_delays.
  destruct (segment_table_inv chunk contents tbl Hc Ht) as (Hlast & Hseg).
  pose proof (segments_at_most_bytes chunk contents tbl Hc Hseg) as Hlen.
  assert (Hpos : (0 <= 0 <= len contents)%Z) by (unfold len; lia).
  assert (Hrun : send_chunks (S (length contents)) chunk contents 0 []
                   events (mkEnv [] 1 clk)
                 = Some (AllSent all_delays (len contents)
                           (mkEnv (map raw tbl) (1 + 2 * n) clk)
                           (closing_events (len contents)))).
  { rewrite (send_chunks_sw_run chunk contents Hc) with (tbl := tbl);
      try assumption; try lia.
    - unfold events.
      rewrite (sw_run_prompt chunk contents _ Hc Hn tbl 0%Z [] _ Hpos Hseg).
      reflexivity.
    - intros _. exists 0%Z. lia. }
  split; [exact Hrun|].
  unfold send_file. rewrite Hrun.
  assert (Hr : (0 <= len contents < 2 ^ 31)%Z) by (unfold len in *; lia).
  rewrite (closing_events_close (len contents) _ Hr).
  unfold e_now. cbn [e_outbox e_ticks e_clock].
  destruct (stop_and_wait_metrics (len contents) (clk 0) (clk (1 + 2 * n))
              all_delays) as [m|x] eqn:Hmet; [reflexivity|].
  rewrite (stop_and_wait_metrics_raises _ _ _ _ _ Hmet). reflexivity.
Qed.

Lemma prompt_receiver_stop_and_wait_witness :
  send_chunks (S (length (repeat x41 30))) 10 (repeat x41 30) 0 []
    (prompt_acks demo_table ++ closing_events 30) (mkEnv [] 1 demo_clock)
  = Some (AllSent [1%float; 1%float; 1%float] 30
            (mkEnv (map raw demo_table) 7 demo_clock)
            (closing_events 30)).
Proof.
  destruct (prompt_receiver_stop_and_wait 10 demo_clock (repeat x41 30)
              demo_table) as (H & _).
  - reflexivity.
  - reflexivity.
  - vm_compute. reflexivity.
  - exact H.
Defined.

(** ** The frames of the table *)

(** X17: every frame fits a datagram.  With the chunk size of the
    scripts, [DATA_SIZE = MAX_PACKET - SEQ_SIZE], each entry of the
    table holds a frame of at most [MAX_PACKET] bytes, made of the
    4-byte header followed by the payload slice: its length is
    [SEQ_SIZE] plus the ['length'] field, a reader that takes at most
    [MAX_PACKET] bytes gets the whole frame, the header read back as a
    signed big-endian integer is the ['sequence'] field, the offset of
    the slice, and the rest is the slice of the payload that starts
    there. *)
Theorem table_frames_fit (contents : bytes) (tbl : list packet)
    (i : nat) (p : packet) :
  segment_table DATA_SIZE contents = Some (Ok tbl) ->
  nth_error tbl i = Some p ->
  length (raw p) <= MAX_PACKET
  /\ len (raw p) = (Z.of_nat SEQ_SIZE + pkt_length p)%Z
  /\ firstn MAX_PACKET (raw p) = raw p
  /\ int_from_bytes (header (raw p)) = sequence p
  /\ sequence p = (Z.of_nat i * DATA_SIZE)%Z
  /\ body (raw p)
     = slice contents (sequence p) (sequence p + DATA_SIZE).
Proof.
  intros Ht Hp.
  assert (Hc : (0 < DATA_SIZE)%Z) by reflexivity.
  destruct (segment_table_inv DATA_SIZE contents tbl Hc Ht)
    as (Hlast & Hseg).
  destruct (segments_nth DATA_SIZE contents tbl Hc 0%Z i p ltac:(lia) Hseg
              Hp) as (Hlt & Heq).
  cbv zeta in Heq. rewrite Z.add_0_l in Heq, Hlt.
  set (off := (Z.of_nat i * DATA_SIZE)%Z) in *.
  assert (Hoff : (0 <= off < 2 ^ 31)%Z).
  { split; [unfold off, DATA_SIZE; cbn; lia|].
    apply (visited_offsets_encodable (len contents) DATA_SIZE
             (Z.of_nat i) Hc Hlast); [lia | exact Hlt]. }
  set (data := slice contents off (off + DATA_SIZE)) in *.
  assert (Hdata : len data = Z.min DATA_SIZE (len contents - off))
    by (apply slice_length; lia).
  assert (Hraw : raw p = be_bytes SEQ_SIZE off ++ data)
    by (rewrite Heq; reflexivity).
  assert (Hs : sequence p = off) by (rewrite Heq; reflexivity).
  assert (Hl : pkt_length p = Z.min DATA_SIZE (len contents - off))
    by (rewrite Heq; reflexivity).
  assert (Hlen : length (raw p) = SEQ_SIZE + length data)
    by (rewrite Hraw, length_app, be_bytes_length; reflexivity).
  assert (Hfit : length (raw p) <= MAX_PACKET).
  { rewrite Hlen. unfold len, DATA_SIZE, MAX_PACKET, SEQ_SIZE in *.
    cbn in Hdata. lia. }
  assert (Hdl : length data <= 1020).
  { unfold len, DATA_SIZE, MAX_PACKET, SEQ_SIZE in *. cbn in Hdata. lia. }
  destruct (framed_reads off data ltac:(lia) Hdl) as (Hh & Hb).
  cbv zeta in Hh, Hb. rewrite <- Hraw in Hh, Hb.
  assert (Hall : firstn MAX_PACKET (raw p) = raw p)
    by (apply firstn_all2; exact Hfit).
  rewrite Hall in Hh, Hb.
  split; [exact Hfit|]. split.
  { unfold len. rewrite Hlen, Hl, <- Hdata. unfold len. lia. }
  split; [exact Hall|]. split; [rewrite Hs; exact Hh|].
  split; [exact Hs|]. rewrite Hs. exact Hb.
Qed.

Lemma table_frames_fit_witness :
  length (raw (demo_packet 0)) <= MAX_PACKET
  /\ int_from_bytes (header (raw (demo_packet 0))) = 0%Z.
Proof.
  destruct (table_frames_fit (repeat x41 10) [demo_packet 0] 0
              (demo_packet 0)) as (H1 & _ & _ & H4 & _).
  - vm_compute. reflexivity.
  - reflexivity.
  - split; [exact H1 | exact H4].
Defined.

(** ** The two metric computations *)

(** X18: the metrics of the two scripts.  Both divide the file size
    by the elapsed time without a guard, so both raise
    [ZeroDivisionError] when the clock reads the same at the end as at
    the start; otherwise the sliding-window computation always
    succeeds, and its score is the integer 0 whenever its mean delay is
    not positive (no sample, a zero or negative mean, a NaN).  Whenever
    the stop-and-wait computation succeeds with a positive mean delay,
    the sliding-window computation gives the same three values on the
    same inputs. *)
Theorem metrics_of_both_scripts (file_size : Z) (t0 t1 : float)
    (samples : list float) :
  (is_zero (PyFloat (PrimFloat.sub t1 t0)) = true ->
   window_metrics file_size t0 t1 samples = Raise ZeroDivisionError
   /\ stop_and_wait_metrics file_size t0 t1 samples
      = Raise ZeroDivisionError)
  /\ (is_zero (PyFloat (PrimFloat.sub t1 t0)) = false ->
      is_ok (window_metrics file_size t0 t1 samples) = true)
  /\ (forall rate mean score,
        window_metrics file_size t0 t1 samples = Ok (rate, mean, score) ->
        (samples = [] -> mean = PyInt 0)
        /\ (py_gt_zero mean = false -> score = PyInt 0))
  /\ (forall rate mean score,
        stop_and_wait_metrics file_size t0 t1 samples
        = Ok (rate, mean, score) ->
        py_gt_zero mean = true ->
        window_metrics file_size t0 t1 samples = Ok (rate, mean, score)).
Proof.
  split; [|split; [|split]].
  - intros Hz. unfold window_metrics, stop_and_wait_metrics, bind,
      py_truediv. rewrite Hz. auto.
  - intros Hz. rewrite (window_metrics_total file_size t0 t1 samples Hz).
    reflexivity.
  - intros rate mean score H. unfold window_metrics, bind in H.
    destruct (py_truediv (PyInt file_size) _) as [r|]; [|discriminate].
    destruct samples as [|d ds].
    + cbn [py_gt_zero Z.ltb Z.compare] in H. injection H as _ <- <-.
      split; [reflexivity|]. reflexivity.
    + destruct (py_truediv (py_sum (d :: ds)) _) as [md|]; [|discriminate].
      destruct (py_gt_zero md) eqn:Hg.
      * destruct (score_formula r md); [|discriminate].
        injection H as _ <- _. split; [discriminate|]. congruence.
      * injection H as _ <- <-. split; [discriminate|]. reflexivity.
  - intros rate mean score H Hpos.
    unfold stop_and_wait_metrics, bind in H.
    unfold window_metrics, bind.
    destruct (py_truediv (PyInt file_size) _) as [r|]; [|discriminate].
    destruct (py_truediv (py_sum samples) _) as [md|] eqn:Hmd;
      [|discriminate].
    destruct (score_formula r md) as [sc|] eqn:Hsc; [|discriminate].
    injection H as -> -> ->.
    destruct samples as [|d ds].
    + unfold py_truediv in Hmd. cbn in Hmd. discriminate.
    + rewrite Hpos, Hsc. reflexivity.
Qed.

(** ** Which frames are taken for an ACK or a FIN *)

Lemma lead2_high (b : byte) :
  in_range 194 223 b = true -> (2 <= N.land (Byte.to_N b) 31)%N.
Proof.
  destruct b; intros H; try (vm_compute in H; discriminate H);
    vm_compute; discriminate.
Qed.

Lemma lead3_high (b0 b1 : byte) :
  in_range 224 239 b0 = true ->
  in_range (if (Byte.to_N b0 =? 224)%N then 160%N else 128%N)
    (if (Byte.to_N b0 =? 237)%N then 159%N else 191%N) b1 = true ->
  (2 <= N.land (Byte.to_N b0) 15 * 64 + low6 b1)%N.
Proof.
  destruct b0; intros H0; try (vm_compute in H0; discriminate H0);
    intros H1;
    match goal with
    | |- (2 <= N.land ?n 15 * 64 + _)%N =>
      let k := eval vm_compute in (N.land n 15) in
      change (N.land n 15) with k
    end;
    try lia.
  destruct b1; try (vm_compute in H1; discriminate H1);
    vm_compute; discriminate.
Qed.

Lemma lead4_high (b0 b1 : byte) :
  in_range 240 244 b0 = true ->
  in_range (if (Byte.to_N b0 =? 240)%N then 144%N else 128%N)
    (if (Byte.to_N b0 =? 244)%N then 143%N else 191%N) b1 = true ->
  (1 <= N.land (Byte.to_N b0) 7 * 64 + low6 b1)%N.
Proof.
  destruct b0; intros H0; try (vm_compute in H0; discriminate H0);
    intros H1;
    match goal with
    | |- (1 <= N.land ?n 7 * 64 + _)%N =>
      let k := eval vm_compute in (N.land n 7) in
      change (N.land n 7) with k
    end;
    try lia.
  destruct b1; try (vm_compute in H1; discriminate H1);
    vm_compute; discriminate.
Qed.

Lemma decode_ascii_head (b0 : byte) (r0 : bytes) (c : N) (s : pystr) :
  utf8_decode (b0 :: r0) = Ok (c :: s) -> (c < 128)%N ->
  c = Byte.to_N b0 /\ utf8_decode r0 = Ok s.
Proof.
  cbn [utf8_decode]. unfold bind.
  destruct (Byte.to_N b0 <? 128)%N.
  { destruct (utf8_decode r0); [|discriminate].
    intros [= <- <-] _. auto. }
  destruct (in_range 194 223 b0) eqn:E2.
  { destruct r0 as [|b1 r1]; [discriminate|].
    destruct (in_range 128 191 b1); [|discriminate].
    destruct (utf8_decode r1); [|discriminate].
    intros [= <- <-] Hc. pose proof (lead2_high b0 E2). lia. }
  destruct (in_range 224 239 b0) eqn:E3.
  { destruct r0 as [|b1 [|b2 r2]]; try discriminate.
    destruct (in_range _ _ b1) eqn:E31; cbn [andb]; [|discriminate].
    destruct (in_range 128 191 b2); [|discriminate].
    destruct (utf8_decode r2); [|discriminate].
    intros [= <- <-] Hc. pose proof (lead3_high b0 b1 E3 E31). lia. }
  destruct (in_range 240 244 b0) eqn:E4; [|discriminate].
  destruct r0 as [|b1 [|b2 [|b3 r3]]]; try discriminate.
  destruct (in_range _ _ b1) eqn:E41; cbn [andb]; [|discriminate].
  destruct (in_range 128 191 b2 && in_range 128 191 b3); [|discriminate].
  destruct (utf8_decode r3); [|discriminate].
  intros [= <- <-] Hc. pose proof (lead4_high b0 b1 E4 E41). lia.
Qed.

Lemma decode_nil (bs : bytes) : utf8_decode bs = Ok [] -> bs = [].
Proof.
  destruct bs as [|b0 r0]; [reflexivity|]. cbn [utf8_decode]. unfold bind.
  destruct (_ <? _)%N.
  { destruct (utf8_decode r0); discriminate. }
  destruct (in_range 194 223 b0).
  { destruct r0 as [|b1 r1]; [discriminate|].
    destruct (in_range 128 191 b1); [|discriminate].
    destruct (utf8_decode r1); discriminate. }
  destruct (in_range 224 239 b0).
  { destruct r0 as [|b1 [|b2 r2]]; try discriminate.
    destruct (_ && _); [|discriminate].
    destruct (utf8_decode r2); discriminate. }
  destruct (in_range 240 244 b0); [|discriminate].
  destruct r0 as [|b1 [|b2 [|b3 r3]]]; try discriminate.
  destruct (_ && _); [|discriminate].
  destruct (utf8_decode r3); discriminate.
Qed.

Lemma decode_ascii (s : pystr) :
  Forall (fun c => (c < 128)%N) s ->
  forall bs, utf8_decode bs = Ok s -> s = map Byte.to_N bs.
Proof.
  induction 1 as [|c s Hc Hs IH]; intros bs H.
  - rewrite (decode_nil bs H). reflexivity.
  - destruct bs as [|b0 r0]; [discriminate H|].
    destruct (decode_ascii_head b0 r0 c s H Hc) as (-> & Hr).
    cbn [map]. f_equal. apply (IH r0 Hr).
Qed.

Lemma to_N_inj_list (a b : bytes) :
  map Byte.to_N a = map Byte.to_N b -> a = b.
Proof.
  revert b. induction a as [|x a IH]; intros [|y b] H; try discriminate;
    [reflexivity|].
  cbn [map] in H. injection H as Hx Hr. f_equal; [|apply (IH b Hr)].
  pose proof (Byte.of_to_N x) as H1. pose proof (Byte.of_to_N y) as H2.
  rewrite Hx in H1. congruence.
Qed.

Lemma decode_ack_iff (bs : bytes) :
  utf8_decode bs = Ok str_ack <-> bs = bytes_ack.
Proof.
  split; [|intros ->; reflexivity].
  intros H. apply to_N_inj_list.
  rewrite <- (decode_ascii str_ack) with (bs := bs); [reflexivity| |exact H].
  repeat constructor.
Qed.

Lemma decode_fin_iff (bs : bytes) :
  utf8_decode bs = Ok str_fin <-> bs = bytes_fin.
Proof.
  split; [|intros ->; reflexivity].
  intros H. apply to_N_inj_list.
  rewrite <- (decode_ascii str_fin) with (bs := bs); [reflexivity| |exact H].
  repeat constructor.
Qed.
Lemma pystr_eqb_eq (a b : pystr) : pystr_eqb a b = true <-> a = b.
Proof.
  revert b. induction a as [|x a IH]; intros [|y b]; cbn [pystr_eqb];
    try (split; [discriminate | discriminate]); [tauto|].
  rewrite andb_true_iff, N.eqb_eq, IH. split.
  - intros [-> ->]. reflexivity.
  - intros [= -> ->]. auto.
Qed.

Lemma text_test (bs : bytes) (text : pystr) (wanted : bytes) :
  (utf8_decode bs = Ok text <-> bs = wanted) ->
  match utf8_decode bs with
  | Ok msg => pystr_eqb msg text = true <-> bs = wanted
  | Raise _ => bs <> wanted
  end.
Proof.
  intros Hiff. destruct (utf8_decode bs) as [msg|x] eqn:E.
  - rewrite pystr_eqb_eq. rewrite <- Hiff. split; congruence.
  - intros Hw. apply Hiff in Hw. discriminate.
Qed.

(** X19: which frames are taken for an ACK or a FIN.  Both scripts
    decode the bytes after the 4-byte header and compare the text with
    ['ack'] (or ['fin']); since decoding is strict, the test succeeds
    exactly when those bytes are the three bytes [61 63 6b] (or
    [66 69 6e]): no other byte string decodes to that text, and nothing
    is trimmed or folded.  So a datagram counts as an ACK in the main
    loop, is accepted by [send_one_packet], or opens the FIN wait of
    the teardown, exactly when its body is [b'ack'] (and its offset
    passes the respective test); and a datagram with any other body
    that decodes only increments [total_acks] in the main loop. *)
Theorem ack_test_is_exact (d : bytes) :
  let r := firstn MAX_PACKET d in
  ack_offsets [Datagram d]
  = (if list_eq_dec Byte.byte_eq_dec (body r) bytes_ack
     then [int_from_bytes (header r)] else [])
  /\ (forall need,
        accepts need d = Ok true
        <-> body r = bytes_ack /\ (need <= int_from_bytes (header r))%Z)
  /\ (forall final_seq,
        is_final_ack final_seq r = Ok true
        <-> body r = bytes_ack /\ int_from_bytes (header r) = final_seq)
  /\ (is_fin r = Ok true <-> body r = bytes_fin)
  /\ (forall window st st',
        on_response window r st = Ok st' ->
        body r <> bytes_ack ->
        st' = set_total_acks (S (total_acks st)) st).
Proof.
  intros r.
  pose proof (text_test (body r) str_ack bytes_ack (decode_ack_iff _))
    as Hack.
  pose proof (text_test (body r) str_fin bytes_fin (decode_fin_iff _))
    as Hfin.
  split; [|split; [|split; [|split]]].
  - cbn [ack_offsets]. fold r.
    destruct (utf8_decode (body r)) as [msg|x].
    + destruct (list_eq_dec Byte.byte_eq_dec (body r) bytes_ack) as [E|E].
      * rewrite (proj2 Hack E). reflexivity.
      * destruct (pystr_eqb msg str_ack); [|reflexivity].
        destruct (E (proj1 Hack eq_refl)).
    + destruct (list_eq_dec Byte.byte_eq_dec (body r) bytes_ack) as [E|E];
        [contradiction | reflexivity].
  - intros need. unfold accepts, bind. fold r.
    destruct (utf8_decode (body r)) as [msg|x].
    + split.
      * intros [= H]. apply andb_true_iff in H. destruct H as (H1 & H2).
        split; [apply Hack, H1 | apply Z.leb_le, H2].
      * intros (H1 & H2). apply Hack in H1. apply Z.leb_le in H2.
        rewrite H1, H2. reflexivity.
    + split; [discriminate | intros (H1 & _); contradiction].
  - intros final_seq. unfold is_final_ack, bind.
    destruct (utf8_decode (body r)) as [msg|x].
    + split.
      * intros [= H]. apply andb_true_iff in H. destruct H as (H1 & H2).
        split; [apply Hack, H1 | apply Z.eqb_eq, H2].
      * intros (H1 & H2). apply Hack in H1. apply Z.eqb_eq in H2.
        rewrite H1, H2. reflexivity.
    + split; [discriminate | intros (H1 & _); contradiction].
  - unfold is_fin, bind.
    destruct (utf8_decode (body r)) as [msg|x].
    + split.
      * intros [= H]. apply Hfin, H.
      * intros H. apply Hfin in H. rewrite H. reflexivity.
    + split; [discriminate | intros H; contradiction].
  - intros window st st' Hr Hne.
    destruct (on_response_cases window r st st' Hr) as (msg & Hd & H).
    cbv zeta in H. rewrite Hd in Hack.
    destruct (pystr_eqb msg str_ack); [|exact H].
    destruct (Hne (proj1 Hack eq_refl)).
Qed.

(** ** Progress *)

(** X20: an ACK for the oldest unacknowledged packet moves the window.
    If the main loop receives an ACK whose offset is at least the end
    of the packet at [left_edge], that pass marks the packet
    acknowledged and [left_edge] moves up by at least one, whatever
    else the state holds. *)
Theorem ack_of_oldest_advances (window : nat) (st st' : state)
    (d : bytes) (p : packet) :
  loop_body window (Datagram d) st = Ok st' ->
  body (firstn MAX_PACKET d) = bytes_ack ->
  nth_error (packet_list st) (left_edge st) = Some p ->
  (end_offset p <= int_from_bytes (header (firstn MAX_PACKET d)))%Z ->
  left_edge st < left_edge st'
  /\ exists p', nth_error (packet_list st') (left_edge st) = Some p'
                /\ is_acked p' = true
                /\ segment_id p' = segment_id p.
Proof.
  intros Hb Hbody Hp Hcov.
  set (r := firstn MAX_PACKET d) in *.
  set (a := int_from_bytes (header r)) in *.
  assert (Hd : utf8_decode (body r) = Ok str_ack)
    by (apply decode_ack_iff, Hbody).
  pose proof (loop_body_evolves window _ st st' Hb) as (_ & Hev).
  pose proof (ack_view_loop_body window _ st st' Hb) as Hv.
  rewrite (ack_offsets_datagram d str_ack Hd) in Hv. cbn [pystr_eqb] in Hv.
  change (pystr_eqb str_ack str_ack) with true in Hv. cbv iota in Hv.
  fold r a in Hv.
  cbn [loop_body] in Hb. unfold bind in Hb. fold r in Hb.
  destruct (on_response window r st) as [st1|x] eqn:Hr; [|discriminate].
  injection Hb as <-.
  destruct (on_response_ack_facts window r st st1 str_ack Hr Hd eq_refl)
    as (_ & He).
  fold a in He.
  destruct (timer_check_frame window st1) as (Hle & _).
  split.
  - rewrite Hle, He. unfold slide.
    rewrite (skipn_nth_error (left_edge st) (map (mark_pkt a)
               (packet_list st)) (mark_pkt a p)).
    2:{ rewrite nth_error_map, Hp. reflexivity. }
    cbn [acked_run]. rewrite mark_pkt_acked.
    destruct (Z.leb_spec (end_offset p) a); [|lia].
    rewrite orb_true_r. lia.
  - destruct (Hev _ p Hp) as (p' & Hp' & Hid & _).
    exists p'. split; [exact Hp'|]. split; [|exact Hid].
    pose proof (ack_view_nth _ _ _ p' Hv Hp') as Hn.
    unfold apply_acks, ack_view in Hn.
    rewrite map_map, nth_error_map, Hp in Hn.
    cbn [option_map fst snd covered existsb] in Hn.
    injection Hn as _ Ha. rewrite <- Ha.
    destruct (Z.leb_spec (end_offset p) a); [|lia].
    cbn. apply orb_true_r.
Qed.

Lemma ack_of_oldest_advances_witness :
  left_edge (start 2 demo_clock demo_table)
  < left_edge (timer_check 2 demo_after_ack).
Proof.
  refine (proj1 (ack_of_oldest_advances 2 (start 2 demo_clock demo_table)
                   (timer_check 2 demo_after_ack) (ack_frame 20)
                   (set_recent_sent (Some 2%float)
                      (set_first_sent (Some 1%float) (demo_packet 0)))
                   _ _ _ _)).
  - vm_compute. reflexivity.
  - reflexivity.
  - vm_compute. reflexivity.
  - vm_compute. discriminate.
Defined.

(** ** Stop-and-wait and the window of one, end to end *)

Lemma collapse_app_congr (s : list bytes) :
  forall a b, collapse a = collapse b ->
              collapse (a ++ s) = collapse (b ++ s).
Proof.
  induction s as [|x s IH]; intros a b H.
  - rewrite !app_nil_r. exact H.
  - replace (a ++ x :: s) with ((a ++ [x]) ++ s)
      by (rewrite <- app_assoc; reflexivity).
    replace (b ++ x :: s) with ((b ++ [x]) ++ s)
      by (rewrite <- app_assoc; reflexivity).
    apply IH, collapse_snoc_congr, H.
Qed.

Lemma await_fin_same_way (pkt : bytes) (seq : Z) (n : nat) :
  forall evs e1 e2, length evs <= n ->
    match await_fin pkt seq evs e1, await_fin pkt seq evs e2 with
    | Returned _ a r1, Returned _ b r2 =>
      r1 = r2
      /\ exists k, e_outbox a = e_outbox e1 ++ repeat pkt k
                   /\ e_outbox b = e_outbox e2 ++ repeat pkt k
    | Waiting a, Waiting b =>
      exists k, e_outbox a = e_outbox e1 ++ repeat pkt k
                /\ e_outbox b = e_outbox e2 ++ repeat pkt k
    | Raised x, Raised y => x = y
    | _, _ => False
    end.
Proof.
  induction n as [n IH] using lt_wf_ind. intros evs e1 e2 Hn.
  assert (Hnext : forall rest,
            length rest < n ->
            match await_fin pkt seq rest (e_sendto pkt e1),
                  await_fin pkt seq rest (e_sendto pkt e2) with
            | Returned _ a r1, Returned _ b r2 =>
              r1 = r2
              /\ exists k, e_outbox a = e_outbox e1 ++ repeat pkt k
                           /\ e_outbox b = e_outbox e2 ++ repeat pkt k
            | Waiting a, Waiting b =>
              exists k, e_outbox a = e_outbox e1 ++ repeat pkt k
                        /\ e_outbox b = e_outbox e2 ++ repeat pkt k
            | Raised x, Raised y => x = y
            | _, _ => False
            end).
  { intros rest Hr.
    pose proof (IH (length rest) Hr rest (e_sendto pkt e1)
                  (e_sendto pkt e2) (le_n _)) as H.
    destruct (await_fin pkt seq rest (e_sendto pkt e1)) as [[] a r1|a|x];
      destruct (await_fin pkt seq rest (e_sendto pkt e2))
        as [[] b r2|b|y]; try exact H.
    - destruct H as (Hr12 & k & Ha & Hb). split; [exact Hr12|].
      exists (S k). cbn [e_sendto e_outbox] in Ha, Hb.
      rewrite repeat_snoc_front in Ha, Hb. auto.
    - destruct H as (k & Ha & Hb).
      exists (S k). cbn [e_sendto e_outbox] in Ha, Hb.
      rewrite repeat_snoc_front in Ha, Hb. auto. }
  destruct evs as [|[|d] rest]; cbn [await_fin].
  - exists 1. split; reflexivity.
  - apply (Hnext rest). cbn [length] in Hn. lia.
  - destruct (is_final_ack seq (firstn MAX_PACKET d)) as [[|]|x].
    + destruct rest as [|[|f] rest'].
      * exists 1. split; reflexivity.
      * apply (Hnext rest'). cbn [length] in Hn. lia.
      * destruct (is_fin (firstn MAX_PACKET f)) as [[|]|x].
        -- split; [reflexivity|]. exists 1. split; reflexivity.
        -- apply (Hnext rest'). cbn [length] in Hn. lia.
        -- reflexivity.
    + apply (Hnext rest). cbn [length] in Hn. lia.
    + reflexivity.
Qed.

Lemma teardown_same_way (total_bytes : Z) (evs : list recv_event)
    (e1 e2 : env) :
  collapse (e_outbox e1) = collapse (e_outbox e2) ->
  match teardown total_bytes evs e1, teardown total_bytes evs e2 with
  | CLOSED _ a r1, CLOSED _ b r2 =>
    r1 = r2 /\ collapse (e_outbox a) = collapse (e_outbox b)
  | TEARDOWN a, TEARDOWN b => collapse (e_outbox a) = collapse (e_outbox b)
  | FAILED x, FAILED y => x = y
  | _, _ => False
  end.
Proof.
  intros Hc. unfold teardown.
  destruct (encode_frame total_bytes []) as [pkt|x]; [|reflexivity].
  pose proof (await_fin_same_way pkt total_bytes (length evs) evs e1 e2
                (le_n _)) as H.
  destruct (await_fin pkt total_bytes evs e1) as [[] a r1|a|x];
    destruct (await_fin pkt total_bytes evs e2) as [[] b r2|b|y];
    try exact H.
  - destruct H as (Hr & k & Ha & Hb).
    change (encode_frame 0 bytes_FINACK) with (Ok finack_frame).
    cbv zeta. split; [exact Hr|].
    cbn [e_tick e_sendto e_outbox]. rewrite Ha, Hb.
    apply collapse_snoc_congr, collapse_app_congr, Hc.
  - destruct H as (k & Ha & Hb). rewrite Ha, Hb.
    apply collapse_app_congr, Hc.
Qed.

Lemma data_phases_alike (chunk : Z) (clkw : nat -> float)
    (contents : bytes) (evs : list recv_event) (tbl : list packet)
    (e0 : env) :
  (0 < chunk)%Z ->
  segments_from chunk contents 0 tbl ->
  timely_acks tbl evs ->
  e_outbox e0 = [] ->
  same_progress tbl (main_loop 1 evs (start 1 clkw tbl))
    (sw_run 0 tbl [] evs e0).
Proof.
  intros Hc Hseg Htimely He0.
  pose proof (segments_fresh chunk contents tbl Hc Hseg) as Hf.
  pose proof (segments_increasing chunk contents tbl Hc Hseg) as Hinc.
  destruct tbl as [|p r].
  - assert (Hall : all_acked (start 1 clkw []) = true)
      by (rewrite start_closed; reflexivity).
    rewrite (main_loop_done 1 evs _ Hall). cbn [sw_run same_progress].
    rewrite start_closed.
    cbn [stamp_burst firstn map length Nat.min left_edge outbox].
    rewrite He0.
    repeat (split; [reflexivity|]).
    unfold one_by_one.
    cbn [left_edge send_next packet_list length map Nat.min Nat.add].
    repeat (split; [first [reflexivity | lia]|]).
    split; intros [|j] q Hq; discriminate Hq.
  - destruct (start_one_by_one clkw p r Hf) as (Ho & Hob).
    cbn [sw_run].
    apply (one_by_one_simulation (p :: r) Hinc evs 0
             (start 1 clkw (p :: r)) p r [] (e_now e0) (e_tick e0) 0%Z
             Ho eq_refl Htimely); [|reflexivity].
    rewrite Hob. cbn [e_tick e_outbox]. rewrite He0. reflexivity.
Qed.



